(* ===== verification/_CoqProject ===== *)
-Q . S2P
Prelude.v
CMem.v
CCmd.v
CLib.v
Alloc.v
SimpleHeap.v
Registry.v
MockState.v
Bootstrap.v
MockAllocator.v
MockSpec.v
MockRun.v
SimplePlatform.v
MockProps.v
MockTyped.v
Threads.v
Concurrent.v
ConcurrentInv.v
ConcurrentOps.v
ConcurrentProps.v
ConcurrentRace.v
ConcurrentBoot.v
Strings.v
Helpers.v
Stdio.v
Line.v
ScanFormat.v
ScanGrammar.v
Scanf.v
ScanPlan.v
ScanTotal.v
ScanRehome.v
ScanWrap.v
MockBridge.v
Memstream.v
MemstreamSpec.v
MemstreamOps.v
MemstreamProps.v
SimpleScan.v
ScanProps.v
Dirent.v
DirentProps.v
Path.v
PathSpec.v
PathWalk.v
PathCwd.v
PathFinish.v
PathProps.v
