(* ===== verification/Prelude.v ===== *)
(** * libc_override: a verification of the sources

    The repository builds two shared libraries that are preloaded together.  The
    override library (every file of src/src but mock_allocator.c) replaces functions
    of the C library that return memory the caller must free, so that the memory comes
    from the allocator the process sees.  The mock allocator
    (src/src/mock_allocator.c) is such an allocator: it forwards to the C library,
    keeps a registry of the blocks that went through it, and counts.  The scanf
    wrappers of the override library ask the mock allocator through a bridge
    (src/include/allocator_bridge.h) who owns a block.

    ** How C is modelled

    - [Prelude]: machine integers are [Z] with their wrap-around written out ([u64],
      [u32], [s32], [s64]); LP64, little-endian.
    - [CMem]: memory is a finite map from addresses to bytes; touching an address
      outside it is undefined behaviour.
    - [CCmd]: a function of the program is a command [C X A] on memory, [errno] and the
      rest of the world [X].  It returns, exits the process, is undefined or makes no
      progress ([Diverge]: a loop out of fuel, a spin on a lock nobody releases).
      [wp E m Q s] says that [m] returns with [Q] or exits with a code in [E]: a
      theorem stated with it excludes undefined behaviour and divergence.
    - [CLib]: [strlen], [memcpy] and their siblings on this memory.
    - [Alloc]: what the sources call and rely on from an allocator, as a class of
      operations ([Allocator]) and a class of laws ([AllocatorLaws]).  The override
      library is verified against it; the mock allocator implements it, given an
      implementation by the C library ([MockSpec]); [SimpleHeap] is a concrete one.
    - The rest of the outside world is a class per component, its documented behaviour
      a class of laws or a hypothesis: the dynamic linker and [write] ([Platform],
      [PlatformLaws]), the clock ([ClockWorld]), [vsnprintf] ([PrintfWorld]), the
      scanners and [dlsym] of the wrappers ([ScanfWorld], [scan_contract]), the bridge
      ([BridgeLaws]), [fopencookie], [fwide] and [mbsnrtowcs] ([StreamWorld] and its
      laws), [opendir], the selection callback and [qsort] ([DirWorld]), the system
      calls, [stat] and the environment ([PathWorld], [file_system], [in_directory],
      [files_are]).  Every theorem with such a hypothesis is applied to a concrete
      world in its witness.

    ** The mock allocator

    - [Registry]: [g_registry], the open-addressing table with tombstones.  Its three
      operations refine a finite map of bounded size ([registry_refines_bounded_map]).
    - [MockState]: the static variables as the record [globals], and the counters.
    - [Bootstrap]: the heap that serves requests while [dlsym] runs: blocks do not
      overlap and keep their contents ([bootstrap_disjoint]); a size near [SIZE_MAX]
      wraps around ([bootstrap_size_wraps]).
    - [MockAllocator]: [malloc], [calloc], [realloc], [free], the resolution of the real
      functions, the registry lock and the bridge.
    - [MockSpec], [MockRun], [MockTyped], [MockProps]: the invariant [mock_inv] (lock
      free, registry well formed, tracked blocks live, counters exact), its
      preservation by every operation, the states a client reaches from the load of
      the library ([reachable_safe]), the types of the variables
      ([variables_keep_types]), and each function on every branch.
      [SimplePlatform]: a concrete world.
    - [Threads]: programs of atomic commands, interleaved by a schedule; a logic for
      one thread among others; safety under every schedule ([run_safe]) and termination
      under every fair one ([run_ends]).
    - [Concurrent]: the allocation functions as such programs.  Each is equal to the
      function of [MockAllocator] when it runs alone ([malloc_alone] and its siblings),
      so the two models cannot drift apart.  [ConcurrentInv], [ConcurrentOps],
      [ConcurrentProps]: ghost state, invariant, and the theorems on threads that
      allocate, free and query at once ([concurrent_calls_exact],
      [concurrent_calls_end]).  [ConcurrentRace]: why [realloc] is not among them
      ([realloc_race]).  [ConcurrentBoot]: the compare-and-swap loop of the bootstrap
      heap, contended and with spurious failures ([bootstrap_threads_end]).

    ** The override library

    - [Strings]: string_overrides.c and sched_overrides.c; exact copies, and the CPU set
      size without overflow.
    - [Helpers]: helpers.c.  [Stdio]: stdio_overrides.c.
    - [Line]: line_overrides.c, against a stream given by the bytes it still delivers:
      exactly the next line, or a stated failure ([getdelim_reads_line]).
    - [ScanFormat], [Scanf]: scanf_overrides.c, the format parsers and the wrappers.
      [ScanGrammar]: the grammar of formats with its printer; the parsers compute what it
      prescribes and invert the printer ([plan_is_format_records],
      [conversion_roundtrip]).  [ScanTotal]: they end on every text.  [ScanPlan]: the
      growable plan in memory.  [ScanRehome], [ScanWrap]: a result is moved to an owned
      block or left for a stated reason, end to end ([scanf_call]).  [MockBridge]: the
      mock allocator keeps the bridge's promises.  [ScanProps], [SimpleScan]: the
      theorems and two concrete scanners; the first call of every entry point fails
      ([first_call_fails]).
    - [Memstream], [MemstreamSpec], [MemstreamOps], [MemstreamProps]: memstream_overrides.c.
      A session on a narrow stream refines a file ([memstream_refines_file]); growth,
      seeks, and the wide writer, which loses what follows a null character
      ([wide_write_converts]).
    - [Dirent], [DirentProps]: dirent_overrides.c ([scandir_collects]).
    - [Path]: path_overrides.c.  [PathSpec]: the resolution of a path as a function on
      texts, with its termination.  [PathWalk], [PathCwd], [PathFinish]: [realpath] in
      memory refines it.  [PathProps]: the results ([realpath_resolves],
      [realpath_canonical], [realpath_fixed], [getcwd_names], [tempnam_unused]) and a
      concrete file system.

    ** Fuel

    Loops that are not structural take fuel, and running out of it is [Diverge], which
    [wp] excludes: the theorems show that it is enough.  A scan of memory reads a
    different mapped address each turn, so the number of mapped bytes plus one bounds
    it.  The registry's loops count their 65536 probes.  The format parser consumes what
    it reads, so the length of the text bounds it.  [getdelim] reads a byte a turn, and
    scandir an entry.  A turn of [realpath] shortens what is left of the path, unless it
    follows one of at most 39 links: [walk_fuel], and [walk_terminates] in [PathSpec].
    A contended compare-and-swap loses one turn at most for every request of the other
    threads and every spurious failure.

    ** Modelling choices

    - A C function that differs from another in a type only (narrow and wide, the plain
      and the [__isoc99_] entry points, scandir64) is one definition used at both.
    - Automatic arrays that a callee sees live in a frame of memory the function is
      given; other locals are Rocq variables.
    - Atomics and locks have their sequential effect in [MockAllocator] and are single
      steps in [Concurrent], interleaved with no reordering: every plain access to
      shared data there is between the acquire and the release of the registry lock,
      and each relaxed operation acts on one counter only.
    - In [Concurrent] the real functions are resolved before the threads start, and a
      call of the C library is one step.

    ** Not modelled

    - [pthread_once] under contention: a call finds the functions resolved or resolves
      them.
    - [FILE] locking in getdelim beyond its depth; the [FILE] layer itself.
    - The bodies of variadic functions before their [va_list] (the arguments are a list).
    - The build files, the linker's symbol maps and the test programs: no logic of the
      libraries. *)
From Stdlib Require Export ZArith Lia.
From stdpp Require Export base numbers list gmap strings option.

#[global] Open Scope Z_scope.

(** ** Machine-width integers (LP64: [size_t], [uintptr_t] and [unsigned long]
    have 64 bits, [int] and [unsigned int] 32) *)

Definition SIZE_MAX : Z := 2 ^ 64 - 1.
Definition SSIZE_MAX : Z := 2 ^ 63 - 1.

(** The value an expression of type [size_t] (or [uint64_t]) takes: arithmetic
    modulo [2^64]. *)
Definition u64 (z : Z) : Z := z `mod` 2 ^ 64.
(** [unsigned int] *)
Definition u32 (z : Z) : Z := z `mod` 2 ^ 32.
(** [int], two's complement (atomics and conversions wrap). *)
Definition s32 (z : Z) : Z := (z + 2 ^ 31) `mod` 2 ^ 32 - 2 ^ 31.
(** [off_t] / [ssize_t], conversion from [size_t]. *)
Definition s64 (z : Z) : Z := (z + 2 ^ 63) `mod` 2 ^ 64 - 2 ^ 63.

Definition ENOENT : Z := 2.
Definition ENOMEM : Z := 12.
Definition EINVAL : Z := 22.
Definition ENAMETOOLONG : Z := 36.
Definition ENOSYS : Z := 38.
Definition EILSEQ : Z := 84.
Definition ELOOP : Z := 40.
(** The value of [EOF]. *)
Definition EOF : Z := -1.

(** ** Automation *)

Create HintDb width.
Create Rewrite HintDb width.

Lemma u64_small z : 0 <= z <= SIZE_MAX -> u64 z = z.
Proof. unfold u64, SIZE_MAX. intros. apply Z.mod_small. lia. Qed.

Lemma u64_range z : 0 <= u64 z <= SIZE_MAX.
Proof. unfold u64, SIZE_MAX. pose proof (Z.mod_pos_bound z (2 ^ 64)). lia. Qed.

Lemma u64_add_l a b : u64 (u64 a + b) = u64 (a + b).
Proof. unfold u64. apply Zplus_mod_idemp_l. Qed.

Lemma u64_add_r a b : u64 (a + u64 b) = u64 (a + b).
Proof. unfold u64. apply Zplus_mod_idemp_r. Qed.

Lemma u64_sub_l a b : u64 (u64 a - b) = u64 (a - b).
Proof. unfold u64. apply Zminus_mod_idemp_l. Qed.

Lemma u64_sub_r a b : u64 (a - u64 b) = u64 (a - b).
Proof. unfold u64. apply Zminus_mod_idemp_r. Qed.

Lemma u64_idemp a : u64 (u64 a) = u64 a.
Proof. unfold u64. apply Zmod_mod. Qed.

Lemma u32_small z : 0 <= z < 2 ^ 32 -> u32 z = z.
Proof. apply Z.mod_small. Qed.

Lemma s32_small z : - 2 ^ 31 <= z < 2 ^ 31 -> s32 z = z.
Proof. unfold s32. intros. rewrite Z.mod_small; lia. Qed.

Lemma s64_small z : - 2 ^ 63 <= z < 2 ^ 63 -> s64 z = z.
Proof. unfold s64. intros. rewrite Z.mod_small; lia. Qed.

#[export] Hint Rewrite u64_add_l u64_add_r u64_sub_l u64_sub_r u64_idemp : width.
#[export] Hint Resolve u64_range : width.

(** Unfold the machine constants and call [lia]. *)
Ltac zlia := unfold SIZE_MAX, SSIZE_MAX, ENOMEM, EINVAL in *; lia.

(** Case analysis on the boolean comparisons a definition tests. *)
Ltac case_cmp :=
  match goal with
  | |- context [ (?a =? ?b)%Z ] => destruct (Z.eqb_spec a b)
  | |- context [ (?a <? ?b)%Z ] => destruct (Z.ltb_spec a b)
  | |- context [ (?a <=? ?b)%Z ] => destruct (Z.leb_spec a b)
  end.

(** ** Lists *)

(** The element of index [i] for an integer index (the C arrays and strings are
    indexed by [size_t]). *)
Lemma lookup_app_at {A} (l k : list A) (i : nat) :
  i = length l -> (l ++ k) !! i = k !! 0%nat.
Proof. intros ->. rewrite lookup_app_r by lia. f_equal. lia. Qed.

Lemma lookup_replicate_Some {A} (n i : nat) (x y : A) :
  replicate n x !! i = Some y -> y = x.
Proof. intros H. apply lookup_replicate in H. tauto. Qed.

(** Pigeonhole on finite maps with integer keys: an interval of keys that are
    all present is no longer than the map. *)
Lemma interval_size {A} (m : gmap Z A) (a : Z) (n : nat) :
  (forall i : nat, (i < n)%nat -> is_Some (m !! (a + Z.of_nat i))) -> (n <= size m)%nat.
Proof.
  intros H. rewrite <- (size_dom m).
  replace n with (size (list_to_set (seqZ a (Z.of_nat n)) : gset Z)).
  - apply subseteq_size. intros x. rewrite elem_of_list_to_set, elem_of_seqZ.
    intros Hx. apply elem_of_dom. specialize (H (Z.to_nat (x - a))).
    replace x with (a + Z.of_nat (Z.to_nat (x - a))) by lia. apply H. lia.
  - rewrite size_list_to_set by apply NoDup_seqZ. rewrite length_seqZ. lia.
Qed.
