(* ===== verification/CMem.v ===== *)
(** * Byte-addressed memory

    Memory is a finite map from addresses to bytes; an address outside it is not
    mapped and touching it is undefined behaviour.  Scalars are little-endian
    (all the targets of the build are). *)
From S2P Require Import Prelude.

(** ** Little-endian scalars *)

Fixpoint le_encode (n : nat) (z : Z) : list Z :=
  match n with
  | O => []
  | S n' => (z `mod` 256) :: le_encode n' (z / 256)
  end.

Fixpoint le_decode (bs : list Z) : Z :=
  match bs with
  | [] => 0
  | b :: bs' => b + 256 * le_decode bs'
  end.

Lemma length_le_encode n z : length (le_encode n z) = n.
Proof. revert z. induction n; intros; simpl; auto. Qed.

Lemma le_decode_encode n z : le_decode (le_encode n z) = z `mod` 256 ^ Z.of_nat n.
Proof.
  revert z. induction n as [|n IH]; intros z; [by rewrite Z.mod_1_r|].
  cbn [le_encode le_decode]. rewrite IH, Nat2Z.inj_succ, Z.pow_succ_r by lia.
  rewrite Z.rem_mul_r by lia. reflexivity.
Qed.

Lemma le_decode_encode_u64 z : 0 <= z <= SIZE_MAX -> le_decode (le_encode 8 z) = z.
Proof. intros. rewrite le_decode_encode. apply Z.mod_small. zlia. Qed.

(** ** Memory *)

(** All the bytes of [[a, a + n)] are mapped. *)
Definition mapped (m : gmap Z Z) (a n : Z) : Prop :=
  forall x, a <= x < a + n -> is_Some (m !! x).

(** The bytes at [a] are [bs]. *)
Definition holds (m : gmap Z Z) (a : Z) (bs : list Z) : Prop :=
  forall (i : nat) b, bs !! i = Some b -> m !! (a + Z.of_nat i) = Some b.

(** [m'] agrees with [m] outside [[a, a + n)]. *)
Definition same_outside (a n : Z) (m m' : gmap Z Z) : Prop :=
  forall x, ~ (a <= x < a + n) -> m' !! x = m !! x.

(** The same addresses are mapped. *)
Definition same_dom (m m' : gmap Z Z) : Prop :=
  forall x, is_Some (m !! x) <-> is_Some (m' !! x).

#[export] Instance same_dom_equiv : Equivalence same_dom.
Proof.
  split.
  - intros m x. tauto.
  - intros m m' H x. symmetry. apply H.
  - intros m1 m2 m3 H1 H2 x. rewrite (H1 x). apply H2.
Qed.

#[export] Instance mapped_proper : Proper (same_dom ==> eq ==> eq ==> iff) mapped.
Proof. intros m m' H a ? <- n ? <-. unfold mapped. split; intros M x Hx; apply H, M, Hx. Qed.

Definition write (m : gmap Z Z) (a : Z) (bs : list Z) : gmap Z Z := map_seqZ a bs ∪ m.

Definition load_bytes (m : gmap Z Z) (a n : Z) : option (list Z) :=
  mapM (fun x => m !! x) (seqZ a n).

Definition store_bytes (m : gmap Z Z) (a : Z) (bs : list Z) : option (gmap Z Z) :=
  match load_bytes m a (Z.of_nat (length bs)) with
  | Some _ => Some (write m a bs)
  | None => None
  end.

Lemma lookup_write_in m a bs x :
  a <= x < a + Z.of_nat (length bs) -> write m a bs !! x = bs !! Z.to_nat (x - a).
Proof.
  intros H. unfold write. rewrite lookup_union, lookup_map_seqZ.
  rewrite option_guard_True by lia.
  destruct (lookup_lt_is_Some_2 bs (Z.to_nat (x - a))) as [b ->]; [lia|].
  by destruct (m !! x).
Qed.

Lemma lookup_write_out m a bs x :
  ~ (a <= x < a + Z.of_nat (length bs)) -> write m a bs !! x = m !! x.
Proof.
  intros H. unfold write. rewrite lookup_union_r; [done|].
  rewrite lookup_map_seqZ. case_guard; simpl; [|done].
  apply lookup_ge_None_2. lia.
Qed.

Lemma same_outside_write m a bs : same_outside a (Z.of_nat (length bs)) m (write m a bs).
Proof. intros x Hx. by apply lookup_write_out. Qed.

Lemma holds_write m a bs : holds (write m a bs) a bs.
Proof.
  intros i b Hb. pose proof (lookup_lt_Some _ _ _ Hb).
  rewrite lookup_write_in by lia. rewrite <- Hb. f_equal. lia.
Qed.

Lemma same_dom_write m a bs :
  mapped m a (Z.of_nat (length bs)) -> same_dom m (write m a bs).
Proof.
  intros H x.
  destruct (decide (a <= x < a + Z.of_nat (length bs))) as [Hx|Hx].
  - rewrite lookup_write_in by done. split; intros _; [|by apply H].
    apply lookup_lt_is_Some_2. lia.
  - by rewrite lookup_write_out.
Qed.

(** Writing maps no address less. *)
Lemma mapped_write m a bs b n : mapped m b n -> mapped (write m a bs) b n.
Proof.
  intros H x Hx. destruct (decide (a <= x < a + Z.of_nat (length bs))) as [Hin|Hout].
  - rewrite lookup_write_in by done. apply lookup_lt_is_Some_2. lia.
  - rewrite lookup_write_out by done. by apply H.
Qed.

Lemma holds_agree m m' a bs :
  (forall x, a <= x < a + Z.of_nat (length bs) -> m' !! x = m !! x) -> holds m a bs -> holds m' a bs.
Proof. intros Hx H i b Hi. pose proof (lookup_lt_Some _ _ _ Hi). rewrite Hx by lia. by apply H. Qed.

Lemma holds_outside m m' a n b bs :
  same_outside a n m m' -> b + Z.of_nat (length bs) <= a \/ a + n <= b \/ n <= 0 ->
  holds m b bs -> holds m' b bs.
Proof.
  intros HO HD H i x Hi. pose proof (lookup_lt_Some _ _ _ Hi).
  rewrite HO by lia. by apply H.
Qed.

Lemma holds_write_other m a bs b cs :
  b + Z.of_nat (length cs) <= a \/ a + Z.of_nat (length bs) <= b ->
  holds m b cs -> holds (write m a bs) b cs.
Proof. intros HD. eapply holds_outside; [apply same_outside_write|lia]. Qed.

Lemma holds_mapped m a bs : holds m a bs -> mapped m a (Z.of_nat (length bs)).
Proof.
  intros H x Hx. destruct (lookup_lt_is_Some_2 bs (Z.to_nat (x - a))) as [b Hb]; [lia|].
  exists b. replace x with (a + Z.of_nat (Z.to_nat (x - a))) by lia. by apply H.
Qed.

Lemma mapped_sub m a n b k : mapped m a n -> a <= b -> b + k <= a + n -> mapped m b k.
Proof. intros H ?? x Hx. apply H. lia. Qed.

Lemma holds_app m a bs cs :
  holds m a (bs ++ cs) <-> holds m a bs /\ holds m (a + Z.of_nat (length bs)) cs.
Proof.
  split.
  - intros H. split; intros i b Hb.
    + apply H. by apply lookup_app_l_Some.
    + replace (a + Z.of_nat (length bs) + Z.of_nat i)
        with (a + Z.of_nat (length bs + i)) by lia.
      apply H. rewrite lookup_app_r by lia. rewrite <- Hb. f_equal. lia.
  - intros [H1 H2] i b Hb. apply lookup_app_Some in Hb as [Hb|[Hi Hb]]; [by apply H1|].
    replace (a + Z.of_nat i)
      with (a + Z.of_nat (length bs) + Z.of_nat (i - length bs)) by lia.
    by apply H2.
Qed.

Lemma holds_nil m a : holds m a [].
Proof. intros i b Hb. by rewrite lookup_nil in Hb. Qed.

Lemma holds_cons m a b bs : holds m a (b :: bs) <-> m !! a = Some b /\ holds m (a + 1) bs.
Proof.
  change (b :: bs) with ([b] ++ bs). rewrite holds_app. simpl.
  split; intros [H1 H2]; (split; [|done]).
  - specialize (H1 0%nat b eq_refl). by rewrite Z.add_0_r in H1.
  - intros i x Hx. apply list_lookup_singleton_Some in Hx as [-> <-].
    by rewrite Z.add_0_r.
Qed.

Lemma load_bytes_holds m a bs :
  load_bytes m a (Z.of_nat (length bs)) = Some bs <-> holds m a bs.
Proof.
  unfold load_bytes. revert a. induction bs as [|b bs IH]; intros a.
  { split; [intros _; apply holds_nil|done]. }
  rewrite holds_cons, <- IH. cbn [length]. rewrite seqZ_cons by lia. cbn.
  replace (Z.pred (Z.of_nat (S (length bs)))) with (Z.of_nat (length bs)) by lia.
  change (a + 1) with (Z.succ a).
  destruct (m !! a) as [c|]; cbn; [|by split; [|intros [? _]]].
  destruct (mapM _ (seqZ (Z.succ a) _)) as [l|]; cbn; [|by split; [|intros [_ ?]]].
  split; [intros [= -> ->]; done|intros [[= ->] [= ->]]; done].
Qed.

Lemma load_bytes_length m a n bs : load_bytes m a n = Some bs -> length bs = Z.to_nat n.
Proof. intros H. apply length_mapM in H. by rewrite length_seqZ in H. Qed.

Lemma mapped_load m a n :
  0 <= n -> mapped m a n ->
  exists bs, load_bytes m a n = Some bs /\ holds m a bs /\ Z.of_nat (length bs) = n.
Proof.
  intros Hn H. destruct (load_bytes m a n) as [bs|] eqn:E.
  - exists bs. pose proof (load_bytes_length _ _ _ _ E).
    assert (Hl : Z.of_nat (length bs) = n) by lia.
    split_and!; [done| |done]. apply load_bytes_holds. by rewrite Hl.
  - exfalso. unfold load_bytes in E. apply mapM_None in E.
    apply Exists_exists in E as (x & Hx & Hm).
    apply list_elem_of_In, elem_of_seqZ in Hx.
    destruct (H x Hx) as [y Hy]. congruence.
Qed.

Lemma mapped_store m a bs :
  mapped m a (Z.of_nat (length bs)) -> store_bytes m a bs = Some (write m a bs).
Proof.
  intros H. unfold store_bytes.
  by destruct (mapped_load m a (Z.of_nat (length bs))) as (l & -> & _); [lia| |].
Qed.

(** The bytes a copy of [n] bytes sees when the source holds at least that much. *)
Lemma holds_take m a bs n : holds m a bs -> holds m a (take n bs).
Proof. intros H i b Hb. apply lookup_take_Some in Hb as [Hb _]. by apply H. Qed.

Lemma write_nil m a : write m a [] = m.
Proof. unfold write. cbn. by rewrite (left_id_L ∅ (∪)). Qed.

Lemma write_app m a bs cs :
  write m a (bs ++ cs) = write (write m a bs) (a + Z.of_nat (length bs)) cs.
Proof.
  apply map_eq. intros x.
  destruct (decide (a <= x < a + Z.of_nat (length (bs ++ cs)))) as [Hx|Hx].
  2: { rewrite length_app in Hx. by rewrite !lookup_write_out by (rewrite ?length_app; lia). }
  rewrite lookup_write_in by done. rewrite length_app in Hx.
  destruct (decide (x < a + Z.of_nat (length bs))) as [Hb|Hb].
  - rewrite lookup_write_out by lia. rewrite lookup_write_in by lia. apply lookup_app_l. lia.
  - rewrite lookup_write_in by lia. rewrite lookup_app_r by lia. f_equal. lia.
Qed.

(** The second half first. *)
Lemma write_app_swap m a bs cs :
  write m a (bs ++ cs) = write (write m (a + Z.of_nat (length bs)) cs) a bs.
Proof.
  rewrite write_app. apply map_eq. intros x.
  destruct (decide (a <= x < a + Z.of_nat (length bs))) as [Hb|Hb].
  - rewrite lookup_write_out by lia. by rewrite !lookup_write_in by lia.
  - rewrite (lookup_write_out _ a bs) by lia.
    destruct (decide (a + Z.of_nat (length bs) <= x < a + Z.of_nat (length bs) + Z.of_nat (length cs))) as [Hc|Hc].
    + by rewrite !lookup_write_in by lia.
    + by rewrite !lookup_write_out by lia.
Qed.

(** ** Words: a structure of 64-bit fields *)

Definition words (ws : list Z) : list Z := concat (map (le_encode 8) ws).

Lemma length_words ws : Z.of_nat (length (words ws)) = 8 * Z.of_nat (length ws).
Proof.
  unfold words. induction ws as [|w ws IH]; [done|]. cbn [map concat].
  rewrite length_app, length_le_encode. cbn [length]. lia.
Qed.

Lemma words_app us vs : words (us ++ vs) = words us ++ words vs.
Proof. unfold words. by rewrite map_app, concat_app. Qed.

Lemma words_split ws (i : nat) v :
  ws !! i = Some v -> words ws = words (take i ws) ++ le_encode 8 v ++ words (drop (S i) ws).
Proof.
  intros H. rewrite <- (take_drop_middle ws i v H) at 1. rewrite words_app. done.
Qed.

Lemma length_words_take ws (i : nat) v :
  ws !! i = Some v -> Z.of_nat (length (words (take i ws))) = 8 * Z.of_nat i.
Proof. intros H%lookup_lt_Some. rewrite length_words, length_take. lia. Qed.

Lemma holds_word m a ws (i : nat) v :
  holds m a (words ws) -> ws !! i = Some v -> holds m (a + 8 * Z.of_nat i) (le_encode 8 v).
Proof.
  intros H Hi. rewrite (words_split _ _ _ Hi) in H. apply holds_app in H as [_ H].
  rewrite (length_words_take _ _ _ Hi) in H. by apply holds_app in H as [H _].
Qed.

Lemma holds_write_word m a ws (i : nat) v :
  holds m a (words ws) -> (i < length ws)%nat ->
  holds (write m (a + 8 * Z.of_nat i) (le_encode 8 v)) a (words (<[i := v]> ws)).
Proof.
  intros H Hi. destruct (lookup_lt_is_Some_2 ws i Hi) as [u Hu].
  assert (Hv : <[i := v]> ws !! i = Some v) by (by apply list_lookup_insert_eq).
  rewrite (words_split _ _ _ Hu) in H. rewrite (words_split _ _ _ Hv).
  rewrite take_insert_ge by lia. rewrite drop_insert_lt by lia.
  pose proof (length_words_take _ _ _ Hu) as Hl.
  apply holds_app in H as [H1 H]. apply holds_app in H as [_ H3].
  rewrite length_le_encode in H3. rewrite Hl in H3.
  apply holds_app. split; [apply holds_write_other; [lia|done]|].
  rewrite Hl. apply holds_app. split; [apply holds_write|]. rewrite length_le_encode.
  apply holds_write_other; [rewrite length_le_encode; lia|done].
Qed.

(** ** Overwriting a part of a text *)

Definition splice (o : nat) (bs ds : list Z) : list Z :=
  take o ds ++ bs ++ drop (o + length bs) ds.

Lemma length_splice o bs ds :
  (o + length bs <= length ds)%nat -> length (splice o bs ds) = length ds.
Proof. intros H. unfold splice. rewrite !length_app, length_take, length_drop. lia. Qed.
