(* ===== verification/CCmd.v ===== *)
(** * Commands: the C abstract machine as a state and outcome monad

    A command maps a state (memory, [errno] and the rest of the world, whose
    type a component chooses) to an outcome.  [wp E m Q s] says that [m], run
    from [s], has no undefined behaviour, does not run forever, leaves the
    process only with an exit code [E] allows, and otherwise returns a value and
    a state that satisfy [Q]. *)
From S2P Require Import Prelude CMem.

(** ** Outcomes and states *)

Inductive res (A : Type) : Type :=
| Ret (a : A)
| Exit (code : Z)   (** the process ended with [_exit(code)] *)
| Undef             (** undefined behaviour *)
| Diverge.          (** no progress: a spin on a lock nobody releases, or a loop out of fuel *)
Arguments Ret {A} a.
Arguments Exit {A} code.
Arguments Undef {A}.
Arguments Diverge {A}.

Record st (X : Type) := St { mem : gmap Z Z; errno : Z; ext : X }.
Arguments St {X} mem errno ext.
Arguments mem {X} s : rename.
Arguments errno {X} s : rename.
Arguments ext {X} s : rename.

Definition C (X A : Type) : Type := st X -> res (A * st X).

Section Commands.
Context {X : Type}.

Definition ret {A} (a : A) : C X A := fun s => Ret (a, s).

Definition bind {A B} (m : C X A) (k : A -> C X B) : C X B := fun s =>
  match m s with
  | Ret (a, s') => k a s'
  | Exit c => Exit c
  | Undef => Undef
  | Diverge => Diverge
  end.

Definition undef {A} : C X A := fun _ => Undef.
Definition diverge {A} : C X A := fun _ => Diverge.
Definition exit_with {A} (code : Z) : C X A := fun _ => Exit code.

Definition get_errno : C X Z := fun s => Ret (errno s, s).
Definition set_errno (e : Z) : C X unit := fun s => Ret (tt, St (mem s) e (ext s)).
Definition get_ext : C X X := fun s => Ret (ext s, s).
Definition put_ext (x : X) : C X unit := fun s => Ret (tt, St (mem s) (errno s) x).
Definition put_mem (m : gmap Z Z) : C X unit := fun s => Ret (tt, St m (errno s) (ext s)).

(** Reads and writes of memory; touching an unmapped byte is undefined. *)
Definition load (a n : Z) : C X (list Z) := fun s =>
  match load_bytes (mem s) a n with Some bs => Ret (bs, s) | None => Undef end.

Definition store (a : Z) (bs : list Z) : C X unit := fun s =>
  match store_bytes (mem s) a bs with
  | Some m => Ret (tt, St m (errno s) (ext s))
  | None => Undef
  end.

Definition load_u64 (a : Z) : C X Z := bind (load a 8) (fun bs => ret (le_decode bs)).
Definition store_u64 (a v : Z) : C X unit := store a (le_encode 8 v).
Definition load_byte (a : Z) : C X Z :=
  bind (load a 1) (fun bs => match bs with b :: _ => ret b | [] => undef end).
Definition store_byte (a v : Z) : C X unit := store a [v].

End Commands.

Declare Scope cmd_scope.
Delimit Scope cmd_scope with cmd.
Notation "'let*' x ':=' m 'in' k" := (bind m (fun x => k))
  (at level 10, x name, m at level 100, k at level 200) : cmd_scope.
Notation "'let*' ' p ':=' m 'in' k" := (bind m (fun x => match x with p => k end))
  (at level 10, p pattern, m at level 100, k at level 200) : cmd_scope.
Notation "'do*' m 'in' k" := (bind m (fun _ => k))
  (at level 10, m at level 100, k at level 200) : cmd_scope.
#[global] Open Scope cmd_scope.

(** ** What a command guarantees *)

Definition wp {X A} (E : Z -> Prop) (m : C X A) (Q : A -> st X -> Prop) (s : st X) : Prop :=
  match m s with
  | Ret (a, s') => Q a s'
  | Exit c => E c
  | Undef => False
  | Diverge => False
  end.

(** No exit is allowed: the command returns. *)
Definition no_exit (_ : Z) : Prop := False.

#[global] Arguments wp : simpl never.
#[global] Arguments bind : simpl never.
#[global] Arguments ret : simpl never.
#[global] Arguments write : simpl never.
#[global] Arguments le_encode : simpl never.
#[global] Arguments le_decode : simpl never.

Lemma bind_ret {X A B} (m : C X A) (k : A -> C X B) s a s' :
  m s = Ret (a, s') -> bind m k s = k a s'.
Proof. intros H. unfold bind. by rewrite H. Qed.

Lemma wp_returns {X A} (m : C X A) Q s :
  wp no_exit m Q s -> exists a s', m s = Ret (a, s') /\ Q a s'.
Proof. unfold wp, no_exit. destruct (m s) as [[a s']|c| |]; [eauto|done..]. Qed.

Section Wp.
Context {X : Type} (E : Z -> Prop).

Lemma wp_ret {A} (a : A) Q (s : st X) : Q a s -> wp E (ret a) Q s.
Proof. done. Qed.

Lemma wp_bind {A B} (m : C X A) (k : A -> C X B) Q s :
  wp E m (fun a s' => wp E (k a) Q s') s -> wp E (bind m k) Q s.
Proof. unfold wp, bind. destruct (m s) as [[a s']|c| |]; auto. Qed.

Lemma wp_mono {A} (m : C X A) (Q Q' : A -> st X -> Prop) s :
  wp E m Q s -> (forall a s', Q a s' -> Q' a s') -> wp E m Q' s.
Proof. unfold wp. destruct (m s) as [[a s']|c| |]; auto. Qed.

Lemma wp_exits {A} (E' : Z -> Prop) (m : C X A) Q s :
  wp E m Q s -> (forall c, E c -> E' c) -> wp E' m Q s.
Proof. unfold wp. destruct (m s) as [[a s']|c| |]; auto. Qed.

Lemma wp_and {A} (m : C X A) Q1 Q2 s :
  wp E m Q1 s -> wp E m Q2 s -> wp E m (fun a s' => Q1 a s' /\ Q2 a s') s.
Proof. unfold wp. destruct (m s) as [[a s']|c| |]; auto. Qed.

(** A command that returns, with the equation. *)
Lemma wp_eq {A} (m : C X A) Q s :
  wp E m Q s -> wp E m (fun a s' => Q a s' /\ m s = Ret (a, s')) s.
Proof. unfold wp. destruct (m s) as [[a s']|c| |]; auto. Qed.

Lemma wp_set_errno e (Q : unit -> st X -> Prop) s :
  Q tt (St (mem s) e (ext s)) -> wp E (set_errno e) Q s.
Proof. done. Qed.

Lemma wp_get_errno (Q : Z -> st X -> Prop) s : Q (errno s) s -> wp E get_errno Q s.
Proof. done. Qed.

Lemma wp_get_ext (Q : X -> st X -> Prop) s : Q (ext s) s -> wp E get_ext Q s.
Proof. done. Qed.

Lemma wp_put_ext x (Q : unit -> st X -> Prop) s :
  Q tt (St (mem s) (errno s) x) -> wp E (put_ext x) Q s.
Proof. done. Qed.

Lemma wp_load a n bs Q (s : st X) :
  holds (mem s) a bs -> Z.of_nat (length bs) = n -> Q bs s -> wp E (load a n) Q s.
Proof.
  intros H <- HQ. unfold wp, load. apply load_bytes_holds in H. by rewrite H.
Qed.

(** A load of mapped bytes, whatever they are. *)
Lemma wp_load_any a n Q (s : st X) :
  0 <= n -> mapped (mem s) a n ->
  (forall bs, holds (mem s) a bs -> Z.of_nat (length bs) = n -> Q bs s) ->
  wp E (load a n) Q s.
Proof.
  intros Hn H HQ. destruct (mapped_load _ _ _ Hn H) as (bs & _ & Hb & Hl).
  eapply wp_load; eauto.
Qed.

Lemma wp_store a bs Q (s : st X) :
  mapped (mem s) a (Z.of_nat (length bs)) ->
  Q tt (St (write (mem s) a bs) (errno s) (ext s)) -> wp E (store a bs) Q s.
Proof. intros H HQ. unfold wp, store. by rewrite mapped_store. Qed.

Lemma wp_load_byte a b Q (s : st X) : mem s !! a = Some b -> Q b s -> wp E (load_byte a) Q s.
Proof.
  intros H HQ. apply wp_bind, (wp_load _ _ [b]); [|done|done].
  apply holds_cons. split; [done|apply holds_nil].
Qed.

Lemma wp_store_byte a v Q (s : st X) :
  is_Some (mem s !! a) ->
  Q tt (St (write (mem s) a [v]) (errno s) (ext s)) -> wp E (store_byte a v) Q s.
Proof.
  intros H HQ. apply wp_store; [|done]. intros x Hx. simpl in Hx.
  by replace x with a by lia.
Qed.

Lemma wp_load_u64 a v Q (s : st X) :
  holds (mem s) a (le_encode 8 v) -> 0 <= v <= SIZE_MAX -> Q v s -> wp E (load_u64 a) Q s.
Proof.
  intros H Hv HQ. apply wp_bind. eapply wp_load; [exact H|done|].
  apply wp_ret. by rewrite le_decode_encode_u64.
Qed.

Lemma wp_store_u64 a v Q (s : st X) :
  mapped (mem s) a 8 ->
  Q tt (St (write (mem s) a (le_encode 8 v)) (errno s) (ext s)) -> wp E (store_u64 a v) Q s.
Proof. intros H HQ. by apply wp_store. Qed.

(** The fields of a structure of words. *)
Lemma wp_load_word k ws (i : nat) v off Q (s : st X) :
  holds (mem s) k (words ws) -> ws !! i = Some v -> off = k + 8 * Z.of_nat i ->
  0 <= v <= SIZE_MAX -> Q v s -> wp E (load_u64 off) Q s.
Proof. intros H Hi -> Hv HQ. eapply wp_load_u64; [by eapply holds_word|done|done]. Qed.

Lemma wp_store_word k ws (i : nat) v off (Q : unit -> st X -> Prop) s :
  holds (mem s) k (words ws) -> (i < length ws)%nat -> off = k + 8 * Z.of_nat i ->
  (forall m', holds m' k (words (<[i := v]> ws)) -> same_dom (mem s) m' ->
     (forall x, ~ (off <= x < off + 8) -> m' !! x = mem s !! x) ->
     Q tt (St m' (errno s) (ext s))) ->
  wp E (store_u64 off v) Q s.
Proof.
  intros H Hi -> HQ. destruct (lookup_lt_is_Some_2 ws i Hi) as [u Hu].
  pose proof (holds_mapped _ _ _ (holds_word _ _ _ _ _ H Hu)) as Hm. rewrite length_le_encode in Hm.
  apply wp_store_u64; [done|]. apply HQ.
  - by apply holds_write_word.
  - apply same_dom_write. by rewrite length_le_encode.
  - intros x Hx. apply lookup_write_out. by rewrite length_le_encode.
Qed.

(** A structure filled field by field. *)
Lemma wp_store_next k ws v off (Q : unit -> st X -> Prop) m s :
  mem s = write m k (words ws) -> mapped m k (8 * (Z.of_nat (length ws) + 1)) ->
  off = k + 8 * Z.of_nat (length ws) ->
  Q tt (St (write m k (words (ws ++ [v]))) (errno s) (ext s)) -> wp E (store_u64 off v) Q s.
Proof.
  intros Hm Hk -> HQ. pose proof (length_words ws) as Hl. apply wp_store_u64; rewrite Hm.
  - rewrite <- same_dom_write; [|rewrite Hl]; (eapply mapped_sub; [exact Hk|lia..]).
  - rewrite <- Hl, <- write_app. change (le_encode 8 v) with (words [v] ++ []) || idtac.
    rewrite words_app in HQ. unfold words at 2 in HQ. cbn [map concat] in HQ.
    by rewrite app_nil_r in HQ.
Qed.

End Wp.

(** ** A command of a part of the world, run in the whole *)

Section Lift.
Context {F X : Type}.

Definition lift {A} (m : C X A) : C (F * X) A := fun s =>
  match m (St (mem s) (errno s) (snd (ext s))) with
  | Ret (a, s') => Ret (a, St (mem s') (errno s') (fst (ext s), ext s'))
  | Exit c => Exit c
  | Undef => Undef
  | Diverge => Diverge
  end.

Lemma wp_lift E {A} (m : C X A) (Q : A -> st (F * X) -> Prop) s :
  wp E m (fun a s' => Q a (St (mem s') (errno s') (fst (ext s), ext s')))
    (St (mem s) (errno s) (snd (ext s))) ->
  wp E (lift m) Q s.
Proof. unfold wp, lift. destruct (m _) as [[a s']|c| |]; auto. Qed.

(** Such a command leaves the rest of the world alone. *)
Lemma wp_lift_fst E {A} (m : C X A) (Q : A -> st (F * X) -> Prop) s :
  wp E (lift m) Q s -> wp E (lift m) (fun a s' => Q a s' /\ fst (ext s') = fst (ext s)) s.
Proof. unfold wp, lift. destruct (m _) as [[a s']|c| |]; auto. Qed.

End Lift.

(** ** Automation: one step of a command *)
Ltac wp_step :=
  match goal with
  | |- wp _ (bind _ _) _ _ => apply wp_bind
  | |- wp _ (ret _) _ _ => apply wp_ret
  | |- wp _ (set_errno _) _ _ => apply wp_set_errno
  | |- wp _ get_errno _ _ => apply wp_get_errno
  | |- wp _ get_ext _ _ => apply wp_get_ext
  | |- wp _ (put_ext _) _ _ => apply wp_put_ext
  | |- wp _ (if ?b then _ else _) _ _ => destruct b eqn:?
  end.
