(* ===== verification/CLib.v ===== *)
(** * The string and memory functions of the C library the sources call

    [strlen], [strnlen], [wcslen], [memcpy], [wmemcpy], [memmove] and [memset], on
    the byte-addressed memory.  The scanning loops have as fuel the number of
    mapped bytes plus one: each step reads a different mapped address, so the
    fuel never runs out ([scan_fuel]). *)
From S2P Require Import Prelude CMem CCmd.

(** The size of [wchar_t]. *)
Definition WCHAR_SIZE : Z := 4.

(** The bytes of a sequence of wide characters. *)
Definition wbytes (ws : list Z) : list Z := ws ≫= le_encode 4.

(** The two kinds of characters, [char] and [wchar_t], and their bytes. *)
Inductive char_kind := Narrow | Wide.
Definition char_size (K : char_kind) : Z := match K with Narrow => 1 | Wide => WCHAR_SIZE end.
Definition char_bytes (K : char_kind) (c : Z) : list Z :=
  match K with Narrow => [c] | Wide => le_encode 4 c end.
Definition chars_bytes (K : char_kind) (cs : list Z) : list Z := concat (map (char_bytes K) cs).

(** The NUL-terminated string at [a] (narrow, wide). *)
Definition cstring (m : gmap Z Z) (a : Z) (cs : list Z) : Prop :=
  holds m a (cs ++ [0]) /\ Forall (fun c => c <> 0) cs.
Definition wstring (m : gmap Z Z) (a : Z) (ws : list Z) : Prop :=
  holds m a (wbytes (ws ++ [0])) /\ Forall (fun w => 0 < w < 2 ^ 32) ws.

Fixpoint strlen_loop (fuel : nat) (m : gmap Z Z) (a i : Z) : option Z :=
  match fuel with
  | O => None
  | S fuel' =>
      match m !! (a + i) with
      | None => None
      | Some c => if c =? 0 then Some i else strlen_loop fuel' m a (i + 1)
      end
  end.

Fixpoint strnlen_loop (fuel : nat) (m : gmap Z Z) (a n i : Z) : option Z :=
  if i <? n then
    match fuel with
    | O => None
    | S fuel' =>
        match m !! (a + i) with
        | None => None
        | Some c => if c =? 0 then Some i else strnlen_loop fuel' m a n (i + 1)
        end
    end
  else Some i.

Fixpoint wcslen_loop (fuel : nat) (m : gmap Z Z) (a i : Z) : option Z :=
  match fuel with
  | O => None
  | S fuel' =>
      match load_bytes m (a + WCHAR_SIZE * i) WCHAR_SIZE with
      | None => None
      | Some bs => if le_decode bs =? 0 then Some i else wcslen_loop fuel' m a (i + 1)
      end
  end.

Section CLib.
Context {X : Type}.

Definition reads (f : gmap Z Z -> option Z) : C X Z := fun s =>
  match f (mem s) with Some n => Ret (n, s) | None => Undef end.

Definition strlen (a : Z) : C X Z := reads (fun m => strlen_loop (S (size m)) m a 0).
Definition strnlen (a n : Z) : C X Z := reads (fun m => strnlen_loop (S (size m)) m a n 0).
Definition wcslen (a : Z) : C X Z := reads (fun m => wcslen_loop (S (size m)) m a 0).

(** Copying between overlapping objects is undefined for [memcpy]. *)
Definition memcpy (dst src n : Z) : C X Z :=
  if (0 <? n) && (Z.abs (dst - src) <? n) then undef
  else let* bs := load src n in do* store dst bs in ret dst.
Definition wmemcpy (dst src n : Z) : C X Z := memcpy dst src (WCHAR_SIZE * n).
Definition memmove (dst src n : Z) : C X Z :=
  let* bs := load src n in do* store dst bs in ret dst.
Definition memset (p c n : Z) : C X Z :=
  do* store p (replicate (Z.to_nat n) (c `mod` 256)) in ret p.

End CLib.

(** ** Specifications *)

Lemma scan_fuel m a bs : holds m a bs -> (length bs <= size m)%nat.
Proof.
  intros H. apply (interval_size m a). intros i Hi.
  destruct (lookup_lt_is_Some_2 bs i Hi) as [b Hb]. exists b. by apply H.
Qed.

Lemma strlen_loop_spec m a (done rest : list Z) fuel :
  holds m a (done ++ rest ++ [0]) -> Forall (fun c => c <> 0) rest ->
  (length rest < fuel)%nat ->
  strlen_loop fuel m a (Z.of_nat (length done)) = Some (Z.of_nat (length done + length rest)).
Proof.
  intros H HF. revert done fuel H. induction HF as [|c rest Hc _ IH]; intros done fuel H Hf;
    (destruct fuel as [|fuel]; [cbn in Hf; lia|]).
  - cbn. rewrite (H (length done) 0) by (by rewrite lookup_app_at). f_equal. lia.
  - cbn. rewrite (H (length done) c) by (by rewrite lookup_app_at).
    destruct (Z.eqb_spec c 0); [done|].
    specialize (IH (done ++ [c]) fuel). rewrite length_app in IH. cbn in IH.
    replace (Z.of_nat (length done) + 1) with (Z.of_nat (length done + 1)) by lia.
    rewrite IH; [f_equal; lia| |cbn in Hf; lia]. by rewrite <- app_assoc.
Qed.

Lemma strnlen_loop_spec m a n (done rest : list Z) fuel :
  holds m a (take (Z.to_nat n) (done ++ rest ++ [0])) -> Forall (fun c => c <> 0) rest ->
  Z.of_nat (length done) <= n ->
  Z.min (n - Z.of_nat (length done)) (Z.of_nat (length rest)) < Z.of_nat fuel ->
  strnlen_loop fuel m a n (Z.of_nat (length done)) =
    Some (Z.min n (Z.of_nat (length done + length rest))).
Proof.
  intros H HF. revert done fuel H. induction HF as [|c rest Hc _ IH]; intros done fuel H Hd Hf;
    (destruct fuel as [|fuel]; [cbn [length] in Hf; lia|]); cbn [strnlen_loop].
  - destruct (Z.ltb_spec (Z.of_nat (length done)) n); [|f_equal; cbn [length]; lia].
    rewrite (H (length done) 0). { rewrite Z.eqb_refl. f_equal. cbn [length]. lia. }
    rewrite lookup_take_lt by lia. by rewrite lookup_app_at.
  - destruct (Z.ltb_spec (Z.of_nat (length done)) n); [|f_equal; cbn [length]; lia].
    rewrite (H (length done) c) by (rewrite lookup_take_lt by lia; by rewrite lookup_app_at).
    destruct (Z.eqb_spec c 0); [done|].
    specialize (IH (done ++ [c]) fuel). rewrite length_app in IH. cbn in IH.
    replace (Z.of_nat (length done) + 1) with (Z.of_nat (length done + 1)) by lia.
    rewrite IH; [f_equal; cbn [length]; lia| |lia|cbn [length] in Hf; lia]. by rewrite <- app_assoc.
Qed.

Lemma length_char_bytes K c : Z.of_nat (length (char_bytes K c)) = char_size K.
Proof. destruct K; [done|]. cbn. by rewrite length_le_encode. Qed.

Lemma char_size_pos K : 1 <= char_size K <= 4.
Proof. by destruct K. Qed.

Lemma length_chars_bytes K cs :
  Z.of_nat (length (chars_bytes K cs)) = char_size K * Z.of_nat (length cs).
Proof.
  unfold chars_bytes. induction cs as [|c cs IH]; [by destruct K|]. cbn [map concat].
  rewrite length_app. cbn [length]. pose proof (length_char_bytes K c). lia.
Qed.

Lemma length_le_chars_bytes K cs : (length cs <= length (chars_bytes K cs))%nat.
Proof. pose proof (length_chars_bytes K cs). pose proof (char_size_pos K). nia. Qed.

Lemma chars_bytes_app K cs ds : chars_bytes K (cs ++ ds) = chars_bytes K cs ++ chars_bytes K ds.
Proof. unfold chars_bytes. by rewrite map_app, concat_app. Qed.

Lemma chars_bytes_zeros K n :
  chars_bytes K (replicate n 0) = replicate (n * Z.to_nat (char_size K)) 0.
Proof.
  unfold chars_bytes. induction n as [|n IH]; [done|].
  rewrite replicate_S. cbn [map concat]. rewrite IH, Nat.mul_succ_l, Nat.add_comm, replicate_add.
  by destruct K.
Qed.

(** Characters overwritten in a text. *)
Lemma holds_splice K m a o cs ds :
  holds m a (chars_bytes K ds) -> (o + length cs <= length ds)%nat ->
  holds (write m (a + char_size K * Z.of_nat o) (chars_bytes K cs)) a
    (chars_bytes K (splice o cs ds)).
Proof.
  intros H Hl. unfold splice. pose proof (char_size_pos K) as Hu.
  assert (Ht : length (take o ds) = o) by (rewrite length_take; lia).
  assert (H1 : holds m a (chars_bytes K (take o ds))).
  { rewrite <- (take_drop o ds), chars_bytes_app in H. by apply holds_app in H as [H _]. }
  assert (H2 : holds m (a + char_size K * Z.of_nat (o + length cs))
    (chars_bytes K (drop (o + length cs) ds))).
  { rewrite <- (take_drop (o + length cs) ds), chars_bytes_app in H. apply holds_app in H as [_ H].
    by rewrite length_chars_bytes, length_take, Nat.min_l in H by lia. }
  rewrite !chars_bytes_app. apply holds_app. split.
  { apply holds_write_other; [left; rewrite length_chars_bytes, Ht; lia|done]. }
  rewrite length_chars_bytes, Ht. apply holds_app. split; [apply holds_write|].
  rewrite length_chars_bytes. replace (a + char_size K * Z.of_nat o + char_size K * Z.of_nat (length cs))
    with (a + char_size K * Z.of_nat (o + length cs)) by lia.
  apply holds_write_other; [right; rewrite length_chars_bytes; lia|done].
Qed.

Lemma chars_bytes_narrow cs : chars_bytes Narrow cs = cs.
Proof. unfold chars_bytes. induction cs as [|c cs IH]; [done|]. cbn in *. by rewrite IH. Qed.

Lemma length_wbytes ws : Z.of_nat (length (wbytes ws)) = WCHAR_SIZE * Z.of_nat (length ws).
Proof.
  unfold wbytes, WCHAR_SIZE. induction ws as [|w ws IH]; [done|].
  rewrite bind_cons, length_app, length_le_encode. cbn [length]. lia.
Qed.

Lemma wbytes_app ws vs : wbytes (ws ++ vs) = wbytes ws ++ wbytes vs.
Proof. unfold wbytes. apply bind_app. Qed.

Lemma wbytes_cons w ws : wbytes (w :: ws) = le_encode 4 w ++ wbytes ws.
Proof. done. Qed.

Lemma wcslen_loop_spec m a (done rest : list Z) fuel :
  holds m a (wbytes (done ++ rest ++ [0])) -> Forall (fun w => 0 < w < 2 ^ 32) rest ->
  (length rest < fuel)%nat ->
  wcslen_loop fuel m a (Z.of_nat (length done)) = Some (Z.of_nat (length done + length rest)).
Proof.
  intros H HF. revert done fuel H. induction HF as [|w rest Hw _ IH]; intros done fuel H Hf;
    (destruct fuel as [|fuel]; [cbn in Hf; lia|]); cbn [wcslen_loop].
  - rewrite wbytes_app in H. apply holds_app in H as [_ H].
    rewrite length_wbytes in H. cbn [app] in H. rewrite wbytes_cons in H.
    apply holds_app in H as [H _]. apply load_bytes_holds in H. rewrite length_le_encode in H.
    change (Z.of_nat 4) with WCHAR_SIZE in H. rewrite H. cbn [length].
    rewrite le_decode_encode, Z.mod_0_l by lia. f_equal. lia.
  - rewrite wbytes_app in H. pose proof H as H0. apply holds_app in H as [_ H].
    rewrite length_wbytes in H. cbn [app] in H. rewrite wbytes_cons in H.
    apply holds_app in H as [H _]. apply load_bytes_holds in H. rewrite length_le_encode in H.
    change (Z.of_nat 4) with WCHAR_SIZE in H. rewrite H.
    rewrite le_decode_encode, Z.mod_small by lia.
    destruct (Z.eqb_spec w 0); [lia|].
    specialize (IH (done ++ [w]) fuel). rewrite length_app in IH. cbn in IH.
    replace (Z.of_nat (length done) + 1) with (Z.of_nat (length done + 1)) by lia.
    rewrite IH; [f_equal; cbn; lia| |cbn in Hf; lia].
    rewrite <- app_assoc. cbn [app]. by rewrite wbytes_app.
Qed.

Section Specs.
Context {X : Type} (E : Z -> Prop).

Lemma wp_reads f n Q (s : st X) : f (mem s) = Some n -> Q n s -> wp E (reads f) Q s.
Proof. intros H HQ. unfold wp, reads. by rewrite H. Qed.

Lemma wp_strlen a cs Q (s : st X) :
  cstring (mem s) a cs -> Q (Z.of_nat (length cs)) s -> wp E (strlen a) Q s.
Proof.
  intros [H HF] HQ. eapply wp_reads; [|done].
  pose proof (scan_fuel _ _ _ H) as Hf. rewrite length_app in Hf. cbn in Hf.
  apply (strlen_loop_spec (mem s) a [] cs); [done..|lia].
Qed.

(** [strnlen] reads no more than [n] bytes: the string may lack a terminator
    beyond them. *)
Lemma wp_strnlen a n cs Q (s : st X) :
  0 <= n -> holds (mem s) a (take (Z.to_nat n) (cs ++ [0])) -> Forall (fun c => c <> 0) cs ->
  Q (Z.min n (Z.of_nat (length cs))) s -> wp E (strnlen a n) Q s.
Proof.
  intros Hn H HF HQ. eapply wp_reads; [|done].
  pose proof (scan_fuel _ _ _ H) as Hf. rewrite length_take, length_app in Hf. cbn in Hf.
  apply (strnlen_loop_spec (mem s) a n [] cs); [done..|]. cbn [length]. lia.
Qed.

Lemma wp_wcslen a ws Q (s : st X) :
  wstring (mem s) a ws -> Q (Z.of_nat (length ws)) s -> wp E (wcslen a) Q s.
Proof.
  intros [H HF] HQ. eapply wp_reads; [|done].
  pose proof (scan_fuel _ _ _ H) as Hf. pose proof (length_wbytes (ws ++ [0])) as Hl.
  rewrite length_app in Hl. unfold WCHAR_SIZE in Hl. cbn in Hl.
  apply (wcslen_loop_spec (mem s) a [] ws); [done..|lia].
Qed.

Lemma wp_memmove dst src n bs Q (s : st X) :
  holds (mem s) src bs -> Z.of_nat (length bs) = n -> mapped (mem s) dst n ->
  Q dst (St (write (mem s) dst bs) (errno s) (ext s)) -> wp E (memmove dst src n) Q s.
Proof.
  intros H <- Hd HQ. apply wp_bind. eapply wp_load; [done..|].
  apply wp_bind, wp_store; [done|]. by apply wp_ret.
Qed.

Lemma wp_memcpy dst src n bs Q (s : st X) :
  holds (mem s) src bs -> Z.of_nat (length bs) = n -> mapped (mem s) dst n ->
  dst + n <= src \/ src + n <= dst \/ n = 0 ->
  Q dst (St (write (mem s) dst bs) (errno s) (ext s)) -> wp E (memcpy dst src n) Q s.
Proof.
  intros H Hn Hd Ha HQ. unfold memcpy.
  destruct (Z.ltb_spec 0 n); cbn [andb]; [|by eapply wp_memmove].
  destruct (Z.ltb_spec (Z.abs (dst - src)) n); [lia|]. by eapply wp_memmove.
Qed.

Lemma wp_memset p c n Q (s : st X) :
  0 <= n -> mapped (mem s) p n ->
  Q p (St (write (mem s) p (replicate (Z.to_nat n) (c `mod` 256))) (errno s) (ext s)) ->
  wp E (memset p c n) Q s.
Proof.
  intros Hn Hm HQ. apply wp_bind, wp_store; [|by apply wp_ret].
  rewrite length_replicate. by rewrite Z2Nat.id.
Qed.

End Specs.
