(* ===== verification/Alloc.v ===== *)
(** * The allocator interface

    What the override library calls ([malloc], [calloc], [realloc], [free]) and
    what it relies on, as a class of operations and a class of laws.  Both the C
    library's allocator and the mock allocator in front of it implement the
    interface ([MockAllocator] proves the second from the first), so a theorem
    proved against it holds for the library preloaded with or without the mock
    allocator. *)
From S2P Require Import Prelude CMem CCmd.

Class Allocator (X : Type) := {
  al_malloc : Z -> C X Z;
  al_calloc : Z -> Z -> C X Z;
  al_realloc : Z -> Z -> C X Z;
  al_free : Z -> C X unit
}.

(** ** What the operations do to memory and to the set of live blocks

    [live] maps the address of each block to the size asked for. *)

(** A pointer an allocator returns: not null, aligned for every type, and its
    block ends inside the address space. *)
Definition good_block (p n : Z) : Prop := 0 < p /\ p `mod` 16 = 0 /\ 0 <= n /\ p + n <= SIZE_MAX.

Record allocated (m live : gmap Z Z) (p n : Z) (m' live' : gmap Z Z) : Prop := {
  alloc_good : good_block p n;
  alloc_new : live !! p = None;
  alloc_fresh x : p <= x < p + Z.max 1 n -> m !! x = None;
  alloc_mapped : mapped m' p n;
  alloc_frame : same_outside p n m m';
  alloc_live : live' = <[p := n]> live
}.

Record freed (m live : gmap Z Z) (p n : Z) (m' live' : gmap Z Z) : Prop := {
  freed_gone x : p <= x < p + n -> m' !! x = None;
  freed_frame : same_outside p n m m';
  freed_live : live' = delete p live
}.

(** A block of [old] bytes at [p] replaced by one of [n] bytes at [q]. *)
Record reallocated (m live : gmap Z Z) (p old q n : Z) (m' live' : gmap Z Z) : Prop := {
  realloc_good : good_block q n;
  realloc_new : q = p \/ live !! q = None;
  realloc_fresh x : q <= x < q + Z.max 1 n -> m !! x = None \/ p <= x < p + old;
  realloc_mapped : mapped m' q n;
  realloc_copy i : 0 <= i < Z.min old n -> m' !! (q + i) = m !! (p + i);
  realloc_frame x : ~ (q <= x < q + n) -> ~ (p <= x < p + old) -> m' !! x = m !! x;
  realloc_gone x : p <= x < p + old -> ~ (q <= x < q + n) -> m' !! x = None;
  realloc_live : live' = <[q := n]> (delete p live)
}.

(** Nothing the caller can see changed, and [errno] says why. *)
Definition alloc_failed {X} (live : X -> gmap Z Z) (s s' : st X) : Prop :=
  mem s' = mem s /\ live (ext s') = live (ext s) /\ errno s' = ENOMEM.

Definition malloc_post {X} (live : X -> gmap Z Z) (n : Z) (s : st X) (p : Z) (s' : st X) : Prop :=
  (p = 0 /\ alloc_failed live s s') \/
  (p <> 0 /\ allocated (mem s) (live (ext s)) p n (mem s') (live (ext s'))).

Definition calloc_post {X} (live : X -> gmap Z Z) (k n : Z) (s : st X) (p : Z) (s' : st X) : Prop :=
  (p = 0 /\ alloc_failed live s s') \/
  (p <> 0 /\ k * n <= SIZE_MAX /\
   allocated (mem s) (live (ext s)) p (k * n) (mem s') (live (ext s')) /\
   forall x, p <= x < p + k * n -> mem s' !! x = Some 0).

(** A request for zero bytes either frees the block and returns null, or gives a
    new empty block: the two behaviours of the C libraries the project targets. *)
Definition realloc_post {X} (live : X -> gmap Z Z) (p old n : Z) (s : st X) (q : Z) (s' : st X) : Prop :=
  (q = 0 /\ n <> 0 /\ alloc_failed live s s') \/
  (q = 0 /\ n = 0 /\ freed (mem s) (live (ext s)) p old (mem s') (live (ext s'))) \/
  (q <> 0 /\ reallocated (mem s) (live (ext s)) p old q n (mem s') (live (ext s'))).

Class AllocatorLaws (X : Type) `{!Allocator X} := {
  (** consistency of the allocator's state with memory *)
  al_inv : X -> gmap Z Z -> Prop;
  al_live : X -> gmap Z Z;
  (** exit codes with which the allocator may end the process *)
  al_exits : Z -> Prop;
  (** the caller may write to mapped memory *)
  al_inv_dom x m m' : same_dom m m' -> al_inv x m -> al_inv x m';
  al_live_block x m p n : al_inv x m -> al_live x !! p = Some n -> good_block p n /\ mapped m p n;
  al_live_disjoint x m p n q k : al_inv x m -> al_live x !! p = Some n -> al_live x !! q = Some k ->
    p <> q -> p + n <= q \/ q + k <= p;
  al_malloc_ok n s : al_inv (ext s) (mem s) -> 0 <= n <= SIZE_MAX ->
    wp al_exits (al_malloc n)
      (fun p s' => al_inv (ext s') (mem s') /\ malloc_post al_live n s p s') s;
  al_calloc_ok k n s : al_inv (ext s) (mem s) -> 0 <= k <= SIZE_MAX -> 0 <= n <= SIZE_MAX ->
    wp al_exits (al_calloc k n)
      (fun p s' => al_inv (ext s') (mem s') /\ calloc_post al_live k n s p s') s;
  al_realloc_null n s : al_inv (ext s) (mem s) -> 0 <= n <= SIZE_MAX ->
    wp al_exits (al_realloc 0 n)
      (fun p s' => al_inv (ext s') (mem s') /\ malloc_post al_live n s p s') s;
  al_realloc_ok p old n s : al_inv (ext s) (mem s) -> al_live (ext s) !! p = Some old ->
    0 <= n <= SIZE_MAX ->
    wp al_exits (al_realloc p n)
      (fun q s' => al_inv (ext s') (mem s') /\ realloc_post al_live p old n s q s') s;
  al_free_null s : al_inv (ext s) (mem s) ->
    wp al_exits (al_free 0)
      (fun _ s' => al_inv (ext s') (mem s') /\ mem s' = mem s /\
        al_live (ext s') = al_live (ext s)) s;
  al_free_ok p n s : al_inv (ext s) (mem s) -> al_live (ext s) !! p = Some n ->
    wp al_exits (al_free p)
      (fun _ s' => al_inv (ext s') (mem s') /\
        freed (mem s) (al_live (ext s)) p n (mem s') (al_live (ext s'))) s
}.

Create HintDb alloc.

(** Bytes at addresses that were mapped survive an allocation. *)
Lemma allocated_keeps m live p n m' live' x b :
  allocated m live p n m' live' -> m !! x = Some b -> m' !! x = Some b.
Proof.
  intros H Hx. rewrite (alloc_frame _ _ _ _ _ _ H); [done|].
  intros Hr. by rewrite (alloc_fresh _ _ _ _ _ _ H) in Hx by lia.
Qed.

Lemma allocated_holds m live p n m' live' a bs :
  allocated m live p n m' live' -> holds m a bs -> holds m' a bs.
Proof. intros H Hb i b Hi. eapply allocated_keeps; eauto. Qed.

Lemma allocated_keeps_mapped m live p n m' live' a k :
  allocated m live p n m' live' -> mapped m a k -> mapped m' a k.
Proof. intros H Hm x Hx. destruct (Hm x Hx) as [b Hb]. exists b. eapply allocated_keeps; eauto. Qed.

Lemma allocated_live m live p n m' live' :
  allocated m live p n m' live' -> live' !! p = Some n.
Proof. intros ->%alloc_live. apply lookup_insert_eq. Qed.

(** Bytes outside the old block survive a reallocation. *)
Lemma reallocated_keeps m live p old q n m' live' x b :
  reallocated m live p old q n m' live' -> m !! x = Some b -> ~ (p <= x < p + old) ->
  m' !! x = Some b.
Proof.
  intros R Hx Hp. rewrite (realloc_frame _ _ _ _ _ _ _ _ R); [done| |done].
  intros Hq. destruct (realloc_fresh _ _ _ _ _ _ _ _ R x) as [Hn|]; [lia|congruence|done].
Qed.

(** A new block is apart from everything that was mapped before. *)
Lemma allocated_apart m live p n m' live' a k :
  allocated m live p n m' live' -> mapped m a k -> 0 < k -> a + k <= p \/ p + n <= a.
Proof.
  intros H Hm Hk. destruct (decide (a + k <= p \/ p + n <= a)) as [|Hn]; [done|exfalso].
  destruct (Hm (Z.max a p)) as [b Hb]; [lia|].
  pose proof (alloc_good _ _ _ _ _ _ H) as (_ & _ & Hn0 & _).
  rewrite (alloc_fresh _ _ _ _ _ _ H) in Hb; [done|lia].
Qed.

#[export] Hint Resolve allocated_holds allocated_keeps_mapped allocated_live : alloc.

(** ** The interface in a larger world

    Clients whose state is a pair declare these instances; they are not global,
    since the mock allocator's state is a pair too. *)

Section LiftAllocator.
Context {F X : Type} `{!Allocator X} `{!AllocatorLaws X}.

#[local] Instance lift_allocator : Allocator (F * X) := {
  al_malloc n := lift (al_malloc n);
  al_calloc k n := lift (al_calloc k n);
  al_realloc p n := lift (al_realloc p n);
  al_free p := lift (al_free p)
}.

#[local] Program Instance lift_allocator_laws : AllocatorLaws (F * X) := {
  al_inv x m := al_inv (snd x) m;
  al_live x := al_live (snd x);
  al_exits := al_exits
}.
Next Obligation. intros [f x] m m' H. apply (al_inv_dom x m m' H). Qed.
Next Obligation. intros [f x] m p n. apply (al_live_block x m p n). Qed.
Next Obligation. intros [f x] m p n q k. apply (al_live_disjoint x m p n q k). Qed.
Next Obligation. intros n s I Hn. apply wp_lift. by apply (al_malloc_ok n (St _ _ _)). Qed.
Next Obligation. intros k n s I Hk Hn. apply wp_lift. by apply (al_calloc_ok k n (St _ _ _)). Qed.
Next Obligation. intros n s I Hn. apply wp_lift. by apply (al_realloc_null n (St _ _ _)). Qed.
Next Obligation. intros p o n s I Hp Hn. apply wp_lift. by apply (al_realloc_ok p o n (St _ _ _)). Qed.
Next Obligation. intros s I. apply wp_lift. by apply (al_free_null (St _ _ _)). Qed.
Next Obligation. intros p n s I Hp. apply wp_lift. by apply (al_free_ok p n (St _ _ _)). Qed.

End LiftAllocator.
