(* ===== verification/SimpleHeap.v ===== *)
(** * A concrete heap

    A bump allocator over an arena, as the instance of the allocator interface on
    which the theorems of the development are exercised: it shows that the laws
    of [Alloc] can hold and makes every definition executable.  It stands for the
    C library's allocator, which is not part of the sources. *)
From S2P Require Import Prelude CMem CCmd Alloc.

Record arena := Arena { brk : Z; limit : Z; blocks : gmap Z Z }.

Definition round16 (n : Z) : Z := (n + 15) / 16 * 16.

Definition heap_malloc (n : Z) : C arena Z := fun s =>
  let a := ext s in
  let p := brk a in
  if p + round16 (Z.max 1 n) <=? limit a
  then Ret (p, St (write (mem s) p (replicate (Z.to_nat n) 0)) (errno s)
              (Arena (p + round16 (Z.max 1 n)) (limit a) (<[p := n]> (blocks a))))
  else Ret (0, St (mem s) ENOMEM a).

Definition heap_calloc (k n : Z) : C arena Z :=
  if k * n <=? SIZE_MAX then heap_malloc (k * n)
  else do* set_errno ENOMEM in ret 0.

Definition heap_free (p : Z) : C arena unit := fun s =>
  if p =? 0 then Ret (tt, s)
  else match blocks (ext s) !! p with
  | Some n => Ret (tt, St (filter (fun xb => ~ (p <= xb.1 < p + n)) (mem s)) (errno s)
                         (Arena (brk (ext s)) (limit (ext s)) (delete p (blocks (ext s)))))
  | None => Undef
  end.

Definition heap_realloc (p n : Z) : C arena Z :=
  if p =? 0 then heap_malloc n
  else if n =? 0 then do* heap_free p in ret 0
  else
    let* a := get_ext in
    match blocks a !! p with
    | None => undef
    | Some old =>
        let* q := heap_malloc n in
        if q =? 0 then ret 0
        else let* bs := load p (Z.min old n) in
             do* store q bs in
             do* heap_free p in ret q
    end.

#[export] Instance heap_allocator : Allocator arena := {
  al_malloc := heap_malloc;
  al_calloc := heap_calloc;
  al_realloc := heap_realloc;
  al_free := heap_free
}.

Record heap_inv (a : arena) (m : gmap Z Z) : Prop := {
  inv_brk : 0 < brk a /\ brk a `mod` 16 = 0 /\ limit a <= SIZE_MAX;
  inv_free x : brk a <= x < limit a -> m !! x = None;
  inv_block p n : blocks a !! p = Some n ->
    0 < p /\ p `mod` 16 = 0 /\ 0 <= n /\ p + Z.max 1 n <= brk a /\ brk a <= limit a /\ mapped m p n;
  inv_disjoint p n q k : blocks a !! p = Some n -> blocks a !! q = Some k -> p <> q ->
    p + Z.max 1 n <= q \/ q + Z.max 1 k <= p
}.

Lemma round16_spec n : 0 < n -> n <= round16 n /\ round16 n `mod` 16 = 0 /\ 16 <= round16 n.
Proof. unfold round16. intros. Z.div_mod_to_equations. lia. Qed.

Lemma heap_inv_dom a m m' : same_dom m m' -> heap_inv a m -> heap_inv a m'.
Proof.
  intros D [H1 H2 H3 H4]. split; [done| | |done].
  - intros x Hx. specialize (H2 x Hx). rewrite eq_None_not_Some in H2 |- *.
    by rewrite <- (D x).
  - intros p n Hp. destruct (H3 p n Hp) as (? & ? & ? & ? & ? & Hm).
    rewrite <- D. auto.
Qed.

Lemma heap_malloc_ok n s :
  heap_inv (ext s) (mem s) -> 0 <= n ->
  wp no_exit (heap_malloc n) (fun p s' => heap_inv (ext s') (mem s') /\
    (malloc_post blocks n s p s' /\
     (p <> 0 -> forall x, p <= x < p + n -> mem s' !! x = Some 0))) s.
Proof.
  intros [(Hb & Hb16 & Hlim) Hfree Hblk Hdis] Hn. unfold wp, heap_malloc.
  pose proof (round16_spec (Z.max 1 n) ltac:(lia)) as (Hr & Hr16 & Hr1).
  destruct (Z.leb_spec (brk (ext s) + round16 (Z.max 1 n)) (limit (ext s))) as [Hfit|Hfit].
  2: { split; [by split|]. split; [by left|done]. }
  set (p := brk (ext s)) in *. set (zs := replicate (Z.to_nat n) 0).
  assert (Hzs : Z.of_nat (length zs) = n) by (unfold zs; rewrite length_replicate; lia).
  assert (Hnew : blocks (ext s) !! p = None).
  { apply eq_None_not_Some. intros [k Hk]. destruct (Hblk p k Hk) as (_ & _ & ? & ? & _). lia. }
  assert (Hout : same_outside p n (mem s) (write (mem s) p zs))
    by (rewrite <- Hzs at 1; apply same_outside_write).
  assert (Hmap : mapped (write (mem s) p zs) p n)
    by (rewrite <- Hzs; apply holds_mapped, holds_write).
  split; [split|split]; cbn.
  - split_and!; [lia| |done]. unfold p. Z.div_mod_to_equations. lia.
  - intros x Hx. rewrite Hout by lia. apply Hfree. lia.
  - intros q k. rewrite lookup_insert_Some. intros [[<- <-]|[Hne Hk]].
    + split_and!; [lia|done|lia..|done].
    + destruct (Hblk q k Hk) as (? & ? & ? & ? & ? & Hm). split_and!; [lia|done|lia..|].
      intros x Hx. rewrite Hout by lia. by apply Hm.
  - intros q k q' k'. rewrite !lookup_insert_Some.
    intros [[<- <-]|[Hne Hk]] [[<- <-]|[Hne' Hk']] Hqq; [done| | |by eapply Hdis].
    + destruct (Hblk _ _ Hk') as (_ & _ & _ & ? & _). right. lia.
    + destruct (Hblk _ _ Hk) as (_ & _ & _ & ? & _). left. lia.
  - right. split; [lia|]. split; cbn; [|done| |done|done|done].
    + split_and!; [lia|done|lia|]. lia.
    + intros x Hx. apply Hfree. lia.
  - intros _ x Hx. rewrite lookup_write_in by lia. apply lookup_replicate. lia.
Qed.

Lemma lookup_unmap (m : gmap Z Z) p n x :
  filter (fun xb : Z * Z => ~ (p <= xb.1 < p + n)) m !! x =
    if decide (p <= x < p + n) then None else m !! x.
Proof.
  case_decide as H.
  - apply map_lookup_filter_None. right. intros y _ Hn. by apply Hn.
  - destruct (m !! x) as [b|] eqn:E.
    + by apply map_lookup_filter_Some.
    + apply map_lookup_filter_None. by left.
Qed.

Lemma heap_free_ok p n s :
  heap_inv (ext s) (mem s) -> blocks (ext s) !! p = Some n ->
  wp no_exit (heap_free p) (fun _ s' => heap_inv (ext s') (mem s') /\
    limit (ext s') = limit (ext s) /\
    freed (mem s) (blocks (ext s)) p n (mem s') (blocks (ext s'))) s.
Proof.
  intros [H1 Hfree Hblk Hdis] Hp. unfold wp, heap_free.
  destruct (Hblk p n Hp) as (Hp0 & _).
  destruct (Z.eqb_spec p 0); [lia|]. rewrite Hp. split; [|split; [done|]]; split; cbn; try done.
  - intros x Hx. rewrite lookup_unmap. case_decide; [done|]. by apply Hfree.
  - intros q k [Hne Hq]%lookup_delete_Some.
    destruct (Hblk q k Hq) as (? & ? & ? & ? & ? & Hm). split_and!; try done.
    intros x Hx. rewrite lookup_unmap. rewrite decide_False; [by apply Hm|].
    destruct (Hdis p n q k Hp Hq Hne); lia.
  - intros q k q' k' [_ Hq]%lookup_delete_Some [_ Hq']%lookup_delete_Some. eauto.
  - intros x Hx. rewrite lookup_unmap. by rewrite decide_True.
  - intros x Hx. rewrite lookup_unmap. by rewrite decide_False.
Qed.

Lemma heap_realloc_null n s :
  heap_inv (ext s) (mem s) -> 0 <= n ->
  wp no_exit (heap_realloc 0 n)
    (fun p s' => heap_inv (ext s') (mem s') /\ malloc_post blocks n s p s') s.
Proof.
  intros I Hn. eapply wp_mono; [by apply heap_malloc_ok|]. cbn. tauto.
Qed.

(** The state after the new block of a reallocation is filled and before the old
    one is freed. *)
Lemma heap_realloc_ok p old n s :
  heap_inv (ext s) (mem s) -> blocks (ext s) !! p = Some old -> 0 <= n ->
  wp no_exit (heap_realloc p n)
    (fun q s' => heap_inv (ext s') (mem s') /\ realloc_post blocks p old n s q s') s.
Proof.
  intros I Hp Hn. destruct (inv_block _ _ I p old Hp) as (Hp0 & _ & Hold & _ & _ & Hpm).
  unfold heap_realloc. destruct (Z.eqb_spec p 0); [lia|].
  destruct (Z.eqb_spec n 0) as [->|Hn0].
  { apply wp_bind. eapply wp_mono; [by apply (heap_free_ok p old)|].
    intros _ s' (I' & _ & F). split; [done|]. right; left. by split; [|split]. }
  apply wp_bind, wp_get_ext. rewrite Hp.
  apply wp_bind. eapply wp_mono; [by apply heap_malloc_ok|].
  intros q s1 (I1 & [[-> F]|[Hq A]] & _).
  { split; [done|]. by left. }
  destruct (Z.eqb_spec q 0); [done|].
  assert (Hpm1 : mapped (mem s1) p (Z.min old n)).
  { eapply allocated_keeps_mapped; [exact A|]. intros x Hx. apply Hpm. lia. }
  apply wp_bind, wp_load_any; [lia|done|]. intros bs Hbs Hlen.
  pose proof (alloc_mapped _ _ _ _ _ _ A) as Hqm.
  assert (Hqbs : mapped (mem s1) q (Z.of_nat (length bs)))
    by (intros x Hx; apply Hqm; lia).
  apply wp_bind, wp_store; [done|]. apply wp_bind.
  assert (Hp1 : blocks (ext s1) !! p = Some old).
  { rewrite (alloc_live _ _ _ _ _ _ A). rewrite lookup_insert_ne; [done|].
    intros ->. pose proof (alloc_new _ _ _ _ _ _ A). congruence. }
  eapply wp_mono; [apply (heap_free_ok p old); [|done]|].
  { cbn. eapply heap_inv_dom; [by apply same_dom_write|done]. }
  cbn. intros _ s2 (I2 & _ & F). apply wp_ret. split; [done|]. right; right. split; [done|].
  assert (Hqp : q <> p) by (intros ->; pose proof (alloc_new _ _ _ _ _ _ A); congruence).
  assert (Hapart : forall x, q <= x < q + n -> ~ (p <= x < p + old)).
  { intros x Hx Hx'. destruct (Hpm x Hx') as [b Hb].
    rewrite (alloc_fresh _ _ _ _ _ _ A) in Hb; [done|lia]. }
  split.
  - apply A.
  - right. apply A.
  - intros x Hx. left. by apply A.
  - intros x Hx. rewrite (freed_frame _ _ _ _ _ _ F) by (by apply Hapart).
    apply (same_dom_write _ _ _ Hqbs x), Hqm, Hx.
  - intros i Hi. rewrite (freed_frame _ _ _ _ _ _ F) by (apply Hapart; lia).
    rewrite lookup_write_in by lia. replace (q + i - q) with i by lia.
    destruct (lookup_lt_is_Some_2 bs (Z.to_nat i)) as [b Hb]; [lia|]. rewrite Hb.
    apply Hbs in Hb. rewrite Z2Nat.id in Hb by lia. rewrite <- Hb.
    apply (alloc_frame _ _ _ _ _ _ A). intros Hx. apply (Hapart (p + i)); lia.
  - intros x Hxq Hxp. rewrite (freed_frame _ _ _ _ _ _ F) by done.
    rewrite lookup_write_out by lia. by apply A.
  - intros x Hxp _. by apply F.
  - rewrite (freed_live _ _ _ _ _ _ F), (alloc_live _ _ _ _ _ _ A).
    by rewrite delete_insert_ne.
Qed.

#[export] Program Instance heap_laws : AllocatorLaws arena := {
  al_inv := heap_inv;
  al_live := blocks;
  al_exits := no_exit
}.
Next Obligation. intros x m m'. apply heap_inv_dom. Qed.
Next Obligation.
  intros x m p n I Hp. destruct (inv_block _ _ I p n Hp) as (? & ? & ? & ? & ? & ?).
  pose proof (inv_brk _ _ I). split; [|done]. split_and!; [done..|lia].
Qed.
Next Obligation.
  intros x m p n q k I Hp Hq Hne. destruct (inv_disjoint _ _ I p n q k Hp Hq Hne); lia.
Qed.
Next Obligation.
  intros n s I Hn. eapply wp_mono; [apply heap_malloc_ok; [done|lia]|]. cbn. tauto.
Qed.
Next Obligation.
  intros k n s I Hk Hn. cbn. unfold heap_calloc. destruct (Z.leb_spec (k * n) SIZE_MAX).
  - eapply wp_mono; [apply heap_malloc_ok; [done|nia]|]. cbn.
    intros p s' (I' & M & Z). split; [done|]. destruct M as [M|[Hp A]]; [by left|right].
    split_and!; auto.
  - split; [done|]. by left.
Qed.
Next Obligation. intros n s I Hn. apply heap_realloc_null; [done|lia]. Qed.
Next Obligation. intros p o n s I Hp Hn. apply heap_realloc_ok; [done..|lia]. Qed.
Next Obligation. done. Qed.
Next Obligation.
  intros p n s I Hp. eapply wp_mono; [by apply heap_free_ok|]. cbn. tauto.
Qed.

(** The empty heap over the arena [[lo, hi)]. *)
Definition empty_arena (lo hi : Z) : arena := Arena lo hi ∅.

Lemma empty_arena_inv lo hi m :
  0 < lo -> lo `mod` 16 = 0 -> hi <= SIZE_MAX -> (forall x, lo <= x < hi -> m !! x = None) ->
  heap_inv (empty_arena lo hi) m.
Proof. intros ? ? ? H. split; cbn; [done|done|by intros ..]. Qed.
