(* ===== verification/Registry.v ===== *)
(** * The allocation registry of the mock allocator (src/mock_allocator.c)

    [g_registry] is an array of 65536 entries used as a hash table with linear
    probing and tombstones.  This file models its three operations and proves
    that they implement a finite map from pointers to (size, allocation id). *)
From S2P Require Import Prelude.

Definition AO_REGISTRY_CAPACITY : Z := 65536.
Definition AO_REGISTRY_EMPTY : Z := 0.
Definition AO_REGISTRY_TOMBSTONE : Z := 1.

Record ao_registry_entry := Entry {
  key : Z;
  requested_size : Z;
  allocation_id : Z
}.

(** A static array is zero-initialised: an index the map does not bind holds the
    zero entry. *)
Definition zero_entry : ao_registry_entry := Entry 0 0 0.
Definition get_entry (t : gmap Z ao_registry_entry) (i : Z) : ao_registry_entry :=
  default zero_entry (t !! i).
Definition set_entry (t : gmap Z ao_registry_entry) (i : Z) (e : ao_registry_entry) :
  gmap Z ao_registry_entry := <[i := e]> t.

Definition ao_registry_index_for (k : Z) : Z :=
  Z.land (Z.shiftr k 4) (AO_REGISTRY_CAPACITY - 1).

(** The slot of the [i]-th probe: [(index + i) & (AO_REGISTRY_CAPACITY - 1u)]. *)
Definition probe_slot (index i : Z) : Z := Z.land (u64 (index + i)) (AO_REGISTRY_CAPACITY - 1).

(** The loops run [i] from 0 to [AO_REGISTRY_CAPACITY - 1]; the structural
    argument counts the iterations left, so [O] is the exit of the loop. *)
Fixpoint insert_loop (left : nat) (t : gmap Z ao_registry_entry)
    (k size id index i first_tombstone : Z) : bool * gmap Z ao_registry_entry :=
  match left with
  | O =>
      if negb (first_tombstone =? AO_REGISTRY_CAPACITY)
      then (true, set_entry t first_tombstone (Entry k size id))
      else (false, t)
  | S left' =>
      let entry := get_entry t (probe_slot index i) in
      if key entry =? k then (true, set_entry t (probe_slot index i) (Entry (key entry) size id))
      else if (key entry =? AO_REGISTRY_TOMBSTONE) && (first_tombstone =? AO_REGISTRY_CAPACITY)
      then insert_loop left' t k size id index (i + 1) (probe_slot index i)
      else if key entry =? AO_REGISTRY_EMPTY then
        let target :=
          if first_tombstone =? AO_REGISTRY_CAPACITY then probe_slot index i
          else first_tombstone in
        (true, set_entry t target (Entry k size id))
      else insert_loop left' t k size id index (i + 1) first_tombstone
  end.

Definition ao_registry_insert_locked (t : gmap Z ao_registry_entry) (k size id : Z) :
    bool * gmap Z ao_registry_entry :=
  insert_loop (Z.to_nat AO_REGISTRY_CAPACITY) t k size id (ao_registry_index_for k) 0
    AO_REGISTRY_CAPACITY.

(** The out-parameters of the two functions below are the returned pair. *)
Fixpoint lookup_loop (left : nat) (t : gmap Z ao_registry_entry) (k index i : Z) :
    option (Z * Z) :=
  match left with
  | O => None
  | S left' =>
      let entry := get_entry t (probe_slot index i) in
      if key entry =? AO_REGISTRY_EMPTY then None
      else if key entry =? k then Some (requested_size entry, allocation_id entry)
      else lookup_loop left' t k index (i + 1)
  end.

Definition ao_registry_lookup_locked (t : gmap Z ao_registry_entry) (k : Z) : option (Z * Z) :=
  lookup_loop (Z.to_nat AO_REGISTRY_CAPACITY) t k (ao_registry_index_for k) 0.

Fixpoint remove_loop (left : nat) (t : gmap Z ao_registry_entry) (k index i : Z) :
    option (Z * Z) * gmap Z ao_registry_entry :=
  match left with
  | O => (None, t)
  | S left' =>
      let entry := get_entry t (probe_slot index i) in
      if key entry =? AO_REGISTRY_EMPTY then (None, t)
      else if key entry =? k then
        (Some (requested_size entry, allocation_id entry),
         set_entry t (probe_slot index i) (Entry AO_REGISTRY_TOMBSTONE 0 0))
      else remove_loop left' t k index (i + 1)
  end.

Definition ao_registry_remove_locked (t : gmap Z ao_registry_entry) (k : Z) :
    option (Z * Z) * gmap Z ao_registry_entry :=
  remove_loop (Z.to_nat AO_REGISTRY_CAPACITY) t k (ao_registry_index_for k) 0.

Lemma entry_eta e k : key e = k -> e = Entry k (requested_size e) (allocation_id e).
Proof. intros <-. by destruct e. Qed.

(** ** The abstract registry *)

(** A key of a tracked block: neither of the two reserved values. *)
Definition valid_key (k : Z) : Prop := k <> AO_REGISTRY_EMPTY /\ k <> AO_REGISTRY_TOMBSTONE.

#[export] Instance valid_key_dec k : Decision (valid_key k).
Proof. unfold valid_key. apply _. Defined.

Definition entry_binding (e : ao_registry_entry) : option (Z * (Z * Z)) :=
  if decide (valid_key (key e)) then Some (key e, (requested_size e, allocation_id e)) else None.

(** What the array stands for. *)
Definition registry_map (t : gmap Z ao_registry_entry) : gmap Z (Z * Z) :=
  list_to_map (omap entry_binding (map_to_list t).*2).

(** The representation invariant: bound indices are array indices, a key occurs
    once, and no probe for a stored key meets an empty slot before it. *)
Record registry_wf (t : gmap Z ao_registry_entry) : Prop := {
  wf_range i : is_Some (t !! i) -> 0 <= i < AO_REGISTRY_CAPACITY;
  wf_unique i j : key (get_entry t i) = key (get_entry t j) -> valid_key (key (get_entry t i)) ->
    i = j;
  wf_probe k n : valid_key k -> 0 <= n < AO_REGISTRY_CAPACITY ->
    key (get_entry t (probe_slot (ao_registry_index_for k) n)) = k ->
    forall j, 0 <= j < n ->
    key (get_entry t (probe_slot (ao_registry_index_for k) j)) <> AO_REGISTRY_EMPTY
}.

(** ** Probe sequences *)

Lemma capacity_pos : 0 < AO_REGISTRY_CAPACITY.
Proof. done. Qed.

Lemma land_capacity z : Z.land z (AO_REGISTRY_CAPACITY - 1) = z `mod` AO_REGISTRY_CAPACITY.
Proof. apply (Z.land_ones z 16). lia. Qed.

Lemma index_range k : 0 <= ao_registry_index_for k < AO_REGISTRY_CAPACITY.
Proof.
  unfold ao_registry_index_for. rewrite land_capacity. apply Z.mod_pos_bound, capacity_pos.
Qed.

Lemma probe_slot_mod index i :
  0 <= index < AO_REGISTRY_CAPACITY -> 0 <= i <= AO_REGISTRY_CAPACITY ->
  probe_slot index i = (index + i) `mod` AO_REGISTRY_CAPACITY.
Proof.
  intros. unfold probe_slot. rewrite land_capacity, u64_small; [done|].
  unfold AO_REGISTRY_CAPACITY in *. zlia.
Qed.

Lemma probe_slot_range index i : 0 <= probe_slot index i < AO_REGISTRY_CAPACITY.
Proof. unfold probe_slot. rewrite land_capacity. apply Z.mod_pos_bound, capacity_pos. Qed.

Lemma probe_slot_inj index i j :
  0 <= index < AO_REGISTRY_CAPACITY ->
  0 <= i < AO_REGISTRY_CAPACITY -> 0 <= j < AO_REGISTRY_CAPACITY ->
  probe_slot index i = probe_slot index j -> i = j.
Proof.
  intros Hx Hi Hj. rewrite !probe_slot_mod by lia.
  unfold AO_REGISTRY_CAPACITY in *. intros. Z.div_mod_to_equations. lia.
Qed.

(** Every slot is probed. *)
Lemma probe_slot_surj index s :
  0 <= index < AO_REGISTRY_CAPACITY -> 0 <= s < AO_REGISTRY_CAPACITY ->
  exists n, 0 <= n < AO_REGISTRY_CAPACITY /\ probe_slot index n = s.
Proof.
  intros Hx Hs. exists ((s - index) `mod` AO_REGISTRY_CAPACITY).
  pose proof (Z.mod_pos_bound (s - index) _ capacity_pos) as Hn.
  split; [done|]. rewrite probe_slot_mod by lia. clear Hn.
  unfold AO_REGISTRY_CAPACITY in *. Z.div_mod_to_equations. lia.
Qed.

#[export] Hint Resolve index_range probe_slot_range capacity_pos : width.
#[global] Opaque AO_REGISTRY_CAPACITY.

(** ** Reading the array through [registry_map] *)

Lemma get_set_entry t s e i :
  get_entry (set_entry t s e) i = if decide (s = i) then e else get_entry t i.
Proof. unfold get_entry, set_entry. rewrite lookup_insert. by case_decide. Qed.

Lemma get_entry_bound t i : valid_key (key (get_entry t i)) -> t !! i = Some (get_entry t i).
Proof.
  unfold get_entry. destruct (t !! i) eqn:E; [done|]. intros [H _]. by destruct H.
Qed.

Section Abstraction.
Context (t : gmap Z ao_registry_entry) (WF : registry_wf t).

Lemma registry_map_elem k v :
  (k, v) ∈ omap entry_binding (map_to_list t).*2 <->
  valid_key k /\ exists i, get_entry t i = Entry k v.1 v.2.
Proof.
  rewrite list_elem_of_omap. split.
  - intros (e & He & Hb). apply list_elem_of_fmap in He as ([i e'] & -> & He).
    apply elem_of_map_to_list in He. simpl in Hb. unfold entry_binding in Hb.
    case_decide as V; [|done]. injection Hb as <- <-. split; [done|]. exists i.
    unfold get_entry. rewrite He. by destruct e'.
  - intros (V & i & Hi). exists (Entry k v.1 v.2). split.
    + apply list_elem_of_fmap. exists (i, Entry k v.1 v.2). split; [done|].
      apply elem_of_map_to_list. rewrite <- Hi. apply get_entry_bound. by rewrite Hi.
    + unfold entry_binding. simpl. rewrite decide_True by done. by destruct v.
Qed.

Lemma registry_map_lookup k v :
  registry_map t !! k = Some v <-> valid_key k /\ exists i, get_entry t i = Entry k v.1 v.2.
Proof using WF.
  rewrite <- registry_map_elem. unfold registry_map. symmetry.
  apply elem_of_list_to_map'. intros v' H1 H2.
  apply registry_map_elem in H1 as (V & i & Hi), H2 as (_ & j & Hj).
  assert (i = j) as -> by (apply (wf_unique t WF); by rewrite ?Hi, ?Hj).
  rewrite Hi in Hj. injection Hj. destruct v, v'; simpl; congruence.
Qed.

Lemma registry_map_None k :
  registry_map t !! k = None <-> (valid_key k -> forall i, key (get_entry t i) <> k).
Proof using WF.
  split.
  - intros H V i Hi. eapply eq_None_not_Some; [exact H|].
    exists (requested_size (get_entry t i), allocation_id (get_entry t i)).
    apply registry_map_lookup. split; [done|]. exists i. subst k. by destruct (get_entry t i).
  - intros H. apply eq_None_not_Some. intros [v Hv].
    apply registry_map_lookup in Hv as (V & i & Hi). apply (H V i). by rewrite Hi.
Qed.

(** A stored key lies on its own probe sequence. *)
Lemma stored_on_probe i :
  valid_key (key (get_entry t i)) ->
  exists n, 0 <= n < AO_REGISTRY_CAPACITY /\
    probe_slot (ao_registry_index_for (key (get_entry t i))) n = i.
Proof using WF.
  intros V. apply probe_slot_surj; [auto with width|].
  apply (wf_range t WF). rewrite get_entry_bound; eauto.
Qed.

End Abstraction.

(** ** Changing one slot *)

(** The slot [s] can receive the key [k]: it lies on the probe sequence of [k]
    after non-empty slots, and no other slot holds [k]. *)
Definition fits (t : gmap Z ao_registry_entry) (s k : Z) : Prop :=
  (forall i, i <> s -> key (get_entry t i) <> k) /\
  exists n, 0 <= n < AO_REGISTRY_CAPACITY /\ s = probe_slot (ao_registry_index_for k) n /\
    forall j, 0 <= j < n ->
      key (get_entry t (probe_slot (ao_registry_index_for k) j)) <> AO_REGISTRY_EMPTY.

Lemma set_entry_wf t s e :
  registry_wf t -> 0 <= s < AO_REGISTRY_CAPACITY -> key e <> AO_REGISTRY_EMPTY ->
  (valid_key (key e) -> fits t s (key e)) -> registry_wf (set_entry t s e).
Proof.
  intros WF Hs He Hf. split.
  - intros i. unfold set_entry. rewrite lookup_insert_is_Some.
    intros [->|[_ Hi]]; [done|by apply (wf_range t WF)].
  - intros i j. rewrite !get_set_entry. do 2 case_decide; subst; try done.
    + intros Heq V. destruct (Hf V) as [Hu _]. exfalso. by apply (Hu j).
    + intros Heq V. rewrite Heq in V. destruct (Hf V) as [Hu _]. exfalso. by apply (Hu i).
    + intros Heq V. by apply (wf_unique t WF).
  - intros k n V Hn Hk j Hj. rewrite get_set_entry in Hk |- *.
    destruct (decide (s = probe_slot (ao_registry_index_for k) j)) as [|_]; [done|].
    case_decide as Hsn.
    + subst k. destruct (Hf V) as (_ & m & Hm & Hsm & Hne). apply Hne.
      rewrite Hsm in Hsn. apply probe_slot_inj in Hsn; [lia|auto with width..|lia].
    + by apply (wf_probe t WF k n).
Qed.

Lemma registry_map_set t s e :
  registry_wf t -> registry_wf (set_entry t s e) ->
  registry_map (set_entry t s e) =
    (if decide (valid_key (key e))
     then <[key e := (requested_size e, allocation_id e)]> (delete (key (get_entry t s)) (registry_map t))
     else delete (key (get_entry t s)) (registry_map t)).
Proof.
  intros WF WF'. apply map_eq. intros k. apply option_eq. intros v.
  rewrite (registry_map_lookup _ WF'). split.
  - intros (V & i & Hi). rewrite get_set_entry in Hi. case_decide as Hsi.
    + subst i e. simpl. rewrite decide_True by done.
      rewrite lookup_insert_eq. by destruct v.
    + assert (Hold : registry_map t !! k = Some v)
        by (apply (registry_map_lookup t WF); eauto).
      assert (Hk : key (get_entry t s) <> k).
      { intros Hk. apply Hsi. apply (wf_unique t WF); rewrite Hk, ?Hi; done. }
      case_decide as Ve; [|by rewrite lookup_delete_ne].
      rewrite lookup_insert_ne; [by rewrite lookup_delete_ne|].
      intros Hek. apply Hsi. apply (wf_unique _ WF' s i);
        rewrite !get_set_entry, decide_True by done; [|done].
      rewrite decide_False by done. by rewrite Hi.
  - assert (Hrest : delete (key (get_entry t s)) (registry_map t) !! k = Some v ->
      valid_key k /\ exists i, get_entry (set_entry t s e) i = Entry k v.1 v.2).
    { intros H. apply lookup_delete_Some in H as [Hk H].
      apply (registry_map_lookup t WF) in H as (V & i & Hi). split; [done|].
      exists i. rewrite get_set_entry. case_decide; [|done]. subst. by rewrite Hi in Hk. }
    case_decide as Ve; [|done]. rewrite lookup_insert_Some. intros [[<- <-]|[_ H]]; [|auto].
    split; [done|]. exists s. rewrite get_set_entry, decide_True by done. by destruct e.
Qed.

(** ** Where the probe loops stop *)

Section Loops.
Context (t : gmap Z ao_registry_entry) (k : Z).

Definition probe_entry (n : Z) : ao_registry_entry :=
  get_entry t (probe_slot (ao_registry_index_for k) n).

(** The first [n] probes meet neither [k] nor an empty slot. *)
Definition clear (n : Z) : Prop :=
  forall j, 0 <= j < n -> key (probe_entry j) <> k /\ key (probe_entry j) <> AO_REGISTRY_EMPTY.

Lemma clear_0 : clear 0.
Proof. intros j Hj. lia. Qed.

Lemma clear_snoc n :
  clear n -> key (probe_entry n) <> k -> key (probe_entry n) <> AO_REGISTRY_EMPTY -> clear (n + 1).
Proof. intros H ?? j Hj. destruct (decide (j = n)) as [->|]; [done|]. apply H. lia. Qed.

(** The outcome of a scan for [k]: found after [n] probes, or known to be absent. *)
Inductive scan : option Z -> Prop :=
| scan_hit n : 0 <= n < AO_REGISTRY_CAPACITY -> clear n -> key (probe_entry n) = k ->
    scan (Some n)
| scan_empty n : 0 <= n < AO_REGISTRY_CAPACITY -> clear n ->
    key (probe_entry n) = AO_REGISTRY_EMPTY -> scan None
| scan_full : clear AO_REGISTRY_CAPACITY -> scan None.

Lemma lookup_loop_scan left i :
  k <> AO_REGISTRY_EMPTY -> 0 <= i -> i + Z.of_nat left = AO_REGISTRY_CAPACITY -> clear i ->
  exists o, scan o /\
    lookup_loop left t k (ao_registry_index_for k) i =
      (n ← o; Some (requested_size (probe_entry n), allocation_id (probe_entry n))).
Proof.
  intros Hk. revert i. induction left as [|left IH]; intros i Hi Hl Hc.
  { exists None. split; [apply scan_full|done]. by replace AO_REGISTRY_CAPACITY with i by lia. }
  cbn [lookup_loop]. fold (probe_entry i). case_cmp; [|case_cmp].
  - exists None. split; [|done]. apply (scan_empty i); [lia|done..].
  - exists (Some i). split; [|done]. apply (scan_hit i); [lia|done..].
  - apply IH; [lia..|]. by apply clear_snoc.
Qed.

Lemma remove_loop_scan left i :
  k <> AO_REGISTRY_EMPTY -> 0 <= i -> i + Z.of_nat left = AO_REGISTRY_CAPACITY -> clear i ->
  exists o, scan o /\
    remove_loop left t k (ao_registry_index_for k) i =
      match o with
      | Some n => (Some (requested_size (probe_entry n), allocation_id (probe_entry n)),
          set_entry t (probe_slot (ao_registry_index_for k) n) (Entry AO_REGISTRY_TOMBSTONE 0 0))
      | None => (None, t)
      end.
Proof.
  intros Hk. revert i. induction left as [|left IH]; intros i Hi Hl Hc.
  { exists None. split; [apply scan_full|done]. by replace AO_REGISTRY_CAPACITY with i by lia. }
  cbn [remove_loop]. fold (probe_entry i). case_cmp; [|case_cmp].
  - exists None. split; [|done]. apply (scan_empty i); [lia|done..].
  - exists (Some i). split; [|done]. apply (scan_hit i); [lia|done..].
  - apply IH; [lia..|]. by apply clear_snoc.
Qed.

(** What [first_tombstone] remembers of the first [i] probes. *)
Definition tombstone_seen (i ft : Z) : Prop :=
  (ft = AO_REGISTRY_CAPACITY /\
    forall j, 0 <= j < i -> key (probe_entry j) <> AO_REGISTRY_TOMBSTONE) \/
  (exists m, 0 <= m < i /\ ft = probe_slot (ao_registry_index_for k) m /\
    key (probe_entry m) = AO_REGISTRY_TOMBSTONE).

(** The slot an insertion writes, when it writes one. *)
Inductive insert_slot (s : Z) : Prop :=
| insert_update n : scan (Some n) -> s = probe_slot (ao_registry_index_for k) n -> insert_slot s
| insert_fresh m : scan None -> 0 <= m < AO_REGISTRY_CAPACITY ->
    s = probe_slot (ao_registry_index_for k) m -> ~ valid_key (key (probe_entry m)) ->
    (forall j, 0 <= j < m -> key (probe_entry j) <> AO_REGISTRY_EMPTY) -> insert_slot s.

Lemma insert_loop_scan size id left i ft :
  valid_key k -> 0 <= i -> i + Z.of_nat left = AO_REGISTRY_CAPACITY ->
  clear i -> tombstone_seen i ft ->
  (exists s, insert_slot s /\
    insert_loop left t k size id (ao_registry_index_for k) i ft =
      (true, set_entry t s (Entry k size id))) \/
  (clear AO_REGISTRY_CAPACITY /\
    (forall j, 0 <= j < AO_REGISTRY_CAPACITY -> key (probe_entry j) <> AO_REGISTRY_TOMBSTONE) /\
    insert_loop left t k size id (ao_registry_index_for k) i ft = (false, t)).
Proof.
  intros V. revert i ft. induction left as [|left IH]; intros i ft Hi Hl Hc Hft.
  - assert (i = AO_REGISTRY_CAPACITY) as -> by lia. cbn [insert_loop].
    destruct Hft as [[-> Hno]|(m & Hm & -> & Ht)].
    + right. by rewrite Z.eqb_refl.
    + left. pose proof (probe_slot_range (ao_registry_index_for k) m).
      eexists. split; [|case_cmp; [lia|done]].
      apply (insert_fresh _ m); [by apply scan_full|lia|done| |].
      * rewrite Ht. by intros [_ []].
      * intros j Hj. apply Hc. lia.
  - cbn [insert_loop]. fold (probe_entry i).
    destruct (Z.eqb_spec (key (probe_entry i)) k) as [Hki|Hki].
    { left. eexists. split; [|by rewrite Hki].
      apply (insert_update _ i); [by apply scan_hit; [lia|..]|done]. }
    destruct (Z.eqb_spec (key (probe_entry i)) AO_REGISTRY_TOMBSTONE) as [Htomb|Htomb]; cbn [andb].
    + assert (Hc' : clear (i + 1)) by (apply clear_snoc; [done..|by rewrite Htomb]).
      destruct (Z.eqb_spec ft AO_REGISTRY_CAPACITY) as [->|Hft'].
      * apply IH; [lia..|done|]. right. exists i. split_and!; [lia..|done|done].
      * rewrite Htomb. cbn. apply IH; [lia..|done|].
        destruct Hft as [[? _]|(m & Hm & ? & ?)]; [done|].
        right. exists m. split_and!; [lia..|done|done].
    + destruct (Z.eqb_spec (key (probe_entry i)) AO_REGISTRY_EMPTY) as [Hempty|Hempty].
      * left. assert (Hscan : scan None) by (apply (scan_empty i); [lia|done..]).
        eexists. split; [|done].
        destruct Hft as [[-> _]|(m & Hm & -> & Ht)].
        -- rewrite Z.eqb_refl. apply (insert_fresh _ i); [done|lia|done| |].
           { rewrite Hempty. by intros [[] _]. }
           intros j Hj. apply Hc. lia.
        -- pose proof (probe_slot_range (ao_registry_index_for k) m).
           destruct (Z.eqb_spec (probe_slot (ao_registry_index_for k) m) AO_REGISTRY_CAPACITY); [lia|].
           apply (insert_fresh _ m); [done|lia|done| |].
           { rewrite Ht. by intros [_ []]. }
           intros j Hj. apply Hc. lia.
      * apply IH; [lia..| |].
        { by apply clear_snoc. }
        destruct Hft as [[-> Hno]|(m & Hm & ? & ?)].
        -- left. split; [done|]. intros j Hj.
           destruct (decide (j = i)) as [->|]; [done|]. apply Hno. lia.
        -- right. exists m. split_and!; [lia..|done|done].
Qed.

(** A scan decides membership. *)
Lemma scan_lookup o :
  registry_wf t -> valid_key k -> scan o ->
  registry_map t !! k =
    (n ← o; Some (requested_size (probe_entry n), allocation_id (probe_entry n))).
Proof.
  intros WF V Hs.
  assert (Habs : (forall n, 0 <= n < AO_REGISTRY_CAPACITY -> key (probe_entry n) <> k) ->
    registry_map t !! k = None).
  { intros H. apply (registry_map_None t WF). intros _ i Hi.
    destruct (stored_on_probe t WF i) as (n & Hn & Hsn); [by rewrite Hi|].
    rewrite Hi in Hsn. apply (H n Hn). unfold probe_entry. by rewrite Hsn. }
  destruct Hs as [n Hn Hc Hk|n Hn Hc Hk|Hc]; cbn.
  - apply (registry_map_lookup t WF). split; [done|].
    exists (probe_slot (ao_registry_index_for k) n). by apply entry_eta.
  - apply Habs. intros m Hm Hkm. destruct (decide (m < n)).
    + by destruct (Hc m) as [? _]; [lia|].
    + destruct (decide (m = n)) as [->|].
      * rewrite <- Hkm, Hk in V. by destruct V as [[] _].
      * apply (wf_probe t WF k m V Hm Hkm n); [lia|done].
  - apply Habs. intros m Hm Hkm. by destruct (Hc m) as [? _].
Qed.

End Loops.

(** ** The operations implement a finite map *)

Lemma loop_start : 0 + Z.of_nat (Z.to_nat AO_REGISTRY_CAPACITY) = AO_REGISTRY_CAPACITY.
Proof. rewrite Z2Nat.id; pose proof capacity_pos; lia. Qed.
#[export] Hint Resolve clear_0 loop_start : width.

Lemma lookup_locked_map t k :
  registry_wf t -> valid_key k -> ao_registry_lookup_locked t k = registry_map t !! k.
Proof.
  intros WF V. destruct (lookup_loop_scan t k (Z.to_nat AO_REGISTRY_CAPACITY) 0)
    as (o & Hs & He); [apply V|lia|auto with width..|].
  unfold ao_registry_lookup_locked. rewrite He. by rewrite (scan_lookup t k o).
Qed.

Lemma remove_locked_map t k :
  registry_wf t -> valid_key k ->
  exists t', ao_registry_remove_locked t k = (registry_map t !! k, t') /\
    registry_wf t' /\ registry_map t' = delete k (registry_map t).
Proof.
  intros WF V. destruct (remove_loop_scan t k (Z.to_nat AO_REGISTRY_CAPACITY) 0)
    as (o & Hs & He); [apply V|lia|auto with width..|].
  unfold ao_registry_remove_locked. rewrite He, (scan_lookup t k o) by done.
  destruct o as [n|]; cbn.
  - inversion Hs as [n' Hn Hc Hk| |]; subst n'. eexists. split; [done|].
    assert (WF' : registry_wf (set_entry t (probe_slot (ao_registry_index_for k) n)
      (Entry AO_REGISTRY_TOMBSTONE 0 0))).
    { apply set_entry_wf; [done|auto with width|done|]. by intros [_ []]. }
    split; [done|]. rewrite registry_map_set by done. rewrite decide_False by (by intros [_ []]).
    by unfold probe_entry in Hk; rewrite Hk.
  - exists t. split; [done|]. split; [done|]. symmetry. apply delete_id.
    by rewrite (scan_lookup t k None).
Qed.

Lemma insert_slot_fits t k s :
  registry_wf t -> valid_key k -> insert_slot t k s -> fits t s k.
Proof.
  intros WF V [n Hs ->|m Hs Hm -> Hinv Hne].
  - inversion Hs as [n' Hn Hc Hk| |]; subst n'. split.
    + intros i Hi Hki. apply Hi. apply (wf_unique t WF); [|by rewrite Hki].
      unfold probe_entry in Hk. congruence.
    + exists n. split_and!; [lia..|done|]. intros j Hj. by apply Hc.
  - split.
    + intros i _ Hki. pose proof (scan_lookup t k None WF V Hs) as Habs.
      by apply (proj1 (registry_map_None t WF k) Habs V i).
    + exists m. split_and!; [lia..|done|]. done.
Qed.

Lemma insert_locked_map t k size id :
  registry_wf t -> valid_key k ->
  (exists t', ao_registry_insert_locked t k size id = (true, t') /\ registry_wf t' /\
    registry_map t' = <[k := (size, id)]> (registry_map t)) \/
  (ao_registry_insert_locked t k size id = (false, t) /\ registry_map t !! k = None /\
    forall i, 0 <= i < AO_REGISTRY_CAPACITY -> valid_key (key (get_entry t i))).
Proof.
  intros WF V. unfold ao_registry_insert_locked.
  destruct (insert_loop_scan t k size id (Z.to_nat AO_REGISTRY_CAPACITY) 0 AO_REGISTRY_CAPACITY)
    as [(s & Hs & ->)|(Hc & Ht & ->)]; [done|lia|auto with width..| | |].
  { left. split; [done|]. lia. }
  - left. eexists. split; [done|].
    assert (WF' : registry_wf (set_entry t s (Entry k size id))).
    { apply set_entry_wf; [done| |by destruct V|by intros; apply insert_slot_fits].
      destruct Hs as [? _ ->|? _ _ -> _ _]; auto with width. }
    split; [done|]. rewrite registry_map_set by done. cbn. rewrite decide_True by done.
    destruct Hs as [n Hs ->|m Hs Hm -> Hinv Hne].
    + inversion Hs as [n' Hn Hc Hk| |]; subst n'. unfold probe_entry in Hk.
      by rewrite Hk, insert_delete_eq.
    + rewrite (delete_id (registry_map t)); [done|].
      apply (registry_map_None t WF). by intros.
  - right. split; [done|]. split.
    + by rewrite (scan_lookup t k None) by (done || by apply scan_full).
    + intros i Hi. destruct (probe_slot_surj (ao_registry_index_for k) i) as (n & Hn & <-);
        [auto with width|done|]. split; [by apply Hc|by apply Ht].
Qed.

(** ** Capacity *)

Lemma length_omap_le {A B} (f : A -> option B) (l : list A) : (length (omap f l) <= length l)%nat.
Proof. induction l as [|x l IH]; [done|]. cbn. destruct (f x); cbn; lia. Qed.

Lemma size_list_to_map_le (l : list (Z * (Z * Z))) :
  (size (list_to_map l : gmap Z (Z * Z)) <= length l)%nat.
Proof.
  induction l as [|[k v] l IH]; [done|]. cbn [list_to_map length foldr].
  destruct ((list_to_map l : gmap Z (Z * Z)) !! k) eqn:Hk.
  - rewrite map_size_insert_Some by eauto. lia.
  - rewrite map_size_insert_None by done. lia.
Qed.

Lemma registry_map_size t :
  registry_wf t -> Z.of_nat (size (registry_map t)) <= AO_REGISTRY_CAPACITY.
Proof.
  intros WF. unfold registry_map.
  assert (H1 : (length (omap entry_binding (map_to_list t).*2) <= size t)%nat).
  { rewrite length_omap_le, length_fmap. by rewrite length_map_to_list. }
  pose proof (size_list_to_map_le (omap entry_binding (map_to_list t).*2)) as H2.
  assert (H3 : (size t <= Z.to_nat AO_REGISTRY_CAPACITY)%nat); [|pose proof capacity_pos; lia].
  rewrite <- (size_dom t).
  replace (Z.to_nat AO_REGISTRY_CAPACITY)
    with (size (list_to_set (seqZ 0 AO_REGISTRY_CAPACITY) : gset Z)).
  - apply subseteq_size. intros i Hi. apply elem_of_dom in Hi.
    rewrite elem_of_list_to_set, elem_of_seqZ. pose proof (wf_range t WF i Hi). lia.
  - by rewrite size_list_to_set, length_seqZ by apply NoDup_seqZ.
Qed.

Lemma registry_full_size t :
  registry_wf t ->
  (forall i, 0 <= i < AO_REGISTRY_CAPACITY -> valid_key (key (get_entry t i))) ->
  Z.of_nat (size (registry_map t)) = AO_REGISTRY_CAPACITY.
Proof.
  intros WF H. pose proof (registry_map_size t WF).
  enough (Z.to_nat AO_REGISTRY_CAPACITY <= size (registry_map t))%nat by lia.
  set (ks := (fun i => key (get_entry t i)) <$> seqZ 0 AO_REGISTRY_CAPACITY).
  rewrite <- (size_dom (registry_map t)).
  replace (Z.to_nat AO_REGISTRY_CAPACITY) with (size (list_to_set ks : gset Z)).
  - apply subseteq_size. intros k Hk. apply elem_of_list_to_set in Hk.
    apply list_elem_of_fmap in Hk as (i & -> & Hi). apply elem_of_seqZ in Hi.
    apply elem_of_dom. exists (requested_size (get_entry t i), allocation_id (get_entry t i)).
    apply (registry_map_lookup t WF). split; [apply H; lia|]. exists i. by apply entry_eta.
  - rewrite size_list_to_set.
    + unfold ks. by rewrite length_fmap, length_seqZ.
    + apply NoDup_fmap_2_strong; [|apply NoDup_seqZ].
      intros i j Hi%elem_of_seqZ Hj%elem_of_seqZ Heq.
      apply (wf_unique t WF); [done|]. apply H. lia.
Qed.

Lemma registry_empty_wf : registry_wf ∅.
Proof.
  split.
  - intros i. rewrite lookup_empty. by intros [].
  - intros i j _. cbn. by intros [[] _].
  - intros k n [V _] _. unfold get_entry. rewrite lookup_empty. cbn. by intros <-.
Qed.

Lemma registry_empty_map : registry_map ∅ = ∅.
Proof. done. Qed.

(** ** The bounded map the registry promises, and traces of operations *)

Inductive registry_op :=
| OpInsert (k size id : Z)
| OpLookup (k : Z)
| OpRemove (k : Z).

Definition op_key (o : registry_op) : Z :=
  match o with OpInsert k _ _ => k | OpLookup k => k | OpRemove k => k end.

(** What an operation returns: the success of an insertion, or the binding found. *)
Definition op_result : Type := bool + option (Z * Z).

Definition registry_step (o : registry_op) (t : gmap Z ao_registry_entry) :
    op_result * gmap Z ao_registry_entry :=
  match o with
  | OpInsert k size id => let '(b, t') := ao_registry_insert_locked t k size id in (inl b, t')
  | OpLookup k => (inr (ao_registry_lookup_locked t k), t)
  | OpRemove k => let '(r, t') := ao_registry_remove_locked t k in (inr r, t')
  end.

(** The specification: a finite map that holds at most [AO_REGISTRY_CAPACITY] keys. *)
Definition bounded_map_step (o : registry_op) (m : gmap Z (Z * Z)) :
    op_result * gmap Z (Z * Z) :=
  match o with
  | OpInsert k size id =>
      if decide (m !! k = None /\ Z.of_nat (base.size m) = AO_REGISTRY_CAPACITY)
      then (inl false, m) else (inl true, <[k := (size, id)]> m)
  | OpLookup k => (inr (m !! k), m)
  | OpRemove k => (inr (m !! k), delete k m)
  end.

Fixpoint run_trace {S} (step : registry_op -> S -> op_result * S) (os : list registry_op) (s : S) :
    list op_result * S :=
  match os with
  | [] => ([], s)
  | o :: os' =>
      let '(r, s') := step o s in
      let '(rs, s'') := run_trace step os' s' in (r :: rs, s'')
  end.

Lemma registry_step_refines o t :
  registry_wf t -> valid_key (op_key o) ->
  exists r t', registry_step o t = (r, t') /\ registry_wf t' /\
    bounded_map_step o (registry_map t) = (r, registry_map t').
Proof.
  intros WF V. destruct o as [k size id|k|k]; cbn in V |- *.
  - destruct (insert_locked_map t k size id WF V) as [(t' & -> & WF' & Hm)|(-> & Hk & Hfull)].
    + exists (inl true), t'. split_and!; [done..|]. rewrite decide_False; [by rewrite Hm|].
      intros [Hk Hsz]. pose proof (registry_map_size t' WF') as Hle.
      rewrite Hm, map_size_insert_None in Hle by done. lia.
    + exists (inl false), t. split_and!; [done..|].
      by rewrite decide_True by (split; [done|by apply registry_full_size]).
  - exists (inr (registry_map t !! k)), t. by rewrite lookup_locked_map.
  - destruct (remove_locked_map t k WF V) as (t' & -> & WF' & Hm).
    exists (inr (registry_map t !! k)), t'. by rewrite Hm.
Qed.

Lemma run_trace_refines os t :
  registry_wf t -> Forall (fun o => valid_key (op_key o)) os ->
  exists rs t', run_trace registry_step os t = (rs, t') /\ registry_wf t' /\
    run_trace bounded_map_step os (registry_map t) = (rs, registry_map t').
Proof.
  intros WF H. revert t WF. induction H as [|o os V _ IH]; intros t WF; cbn.
  { by exists [], t. }
  destruct (registry_step_refines o t WF V) as (r & t1 & -> & WF1 & ->).
  destruct (IH t1 WF1) as (rs & t2 & -> & WF2 & ->). by exists (r :: rs), t2.
Qed.

(** C16: the open-addressing table is a bounded map.  Whatever sequence of
    insertions, lookups and removals runs on it from the empty table, every
    operation returns what the finite map of at most [AO_REGISTRY_CAPACITY] keys
    returns (an insertion fails exactly when the key is new and the map is full),
    and tombstones never lose or resurrect a binding. *)
Theorem registry_refines_bounded_map (os : list registry_op) :
  Forall (fun o => valid_key (op_key o)) os ->
  exists rs t, run_trace registry_step os ∅ = (rs, t) /\ registry_wf t /\
    run_trace bounded_map_step os ∅ = (rs, registry_map t).
Proof.
  intros H. destruct (run_trace_refines os ∅ registry_empty_wf H) as (rs & t & ? & ? & Hm).
  rewrite registry_empty_map in Hm. eauto.
Qed.

Lemma registry_refines_bounded_map_witness :
  let os := [OpInsert 16 5 1; OpInsert 32 6 2; OpRemove 16; OpLookup 32; OpInsert 16 7 3] in
  exists rs t, run_trace registry_step os ∅ = (rs, t) /\ registry_wf t /\
    run_trace bounded_map_step os ∅ = (rs, registry_map t).
Proof.
  apply registry_refines_bounded_map.
  repeat constructor; discriminate.
Defined.
