(* ===== verification/MockState.v ===== *)
(** * The globals of the mock allocator and its counters (src/mock_allocator.c)

    The static variables are a record; a command of the mock allocator runs on
    the pair of that record and the state of the code behind it (the C library's
    allocator).  Atomics are modelled by their sequential effect; [Concurrent] interleaves
    them. *)
From S2P Require Import Prelude CMem CCmd Registry.

(** ** Counters *)

Record ao_atomic_stats := Stats {
  malloc_calls : Z;
  calloc_calls : Z;
  realloc_calls : Z;
  free_calls : Z;
  successful_allocations : Z;
  successful_allocation_bytes : Z;
  failed_allocations : Z;
  bypass_realloc_calls : Z;
  bypass_free_calls : Z;
  live_blocks : Z;
  live_bytes : Z
}.

(** A field of [g_stats], as the operand of an atomic operation. *)
Inductive counter :=
| Malloc_calls | Calloc_calls | Realloc_calls | Free_calls
| Successful_allocations | Successful_allocation_bytes | Failed_allocations
| Bypass_realloc_calls | Bypass_free_calls | Live_blocks | Live_bytes.

#[export] Instance counter_eq_dec : EqDecision counter.
Proof. solve_decision. Defined.

Definition stat_get (c : counter) (s : ao_atomic_stats) : Z :=
  match c with
  | Malloc_calls => malloc_calls s
  | Calloc_calls => calloc_calls s
  | Realloc_calls => realloc_calls s
  | Free_calls => free_calls s
  | Successful_allocations => successful_allocations s
  | Successful_allocation_bytes => successful_allocation_bytes s
  | Failed_allocations => failed_allocations s
  | Bypass_realloc_calls => bypass_realloc_calls s
  | Bypass_free_calls => bypass_free_calls s
  | Live_blocks => live_blocks s
  | Live_bytes => live_bytes s
  end.

Definition stat_set (c : counter) (v : Z) (s : ao_atomic_stats) : ao_atomic_stats :=
  let f d := if decide (c = d) then v else stat_get d s in
  Stats (f Malloc_calls) (f Calloc_calls) (f Realloc_calls) (f Free_calls)
    (f Successful_allocations) (f Successful_allocation_bytes) (f Failed_allocations)
    (f Bypass_realloc_calls) (f Bypass_free_calls) (f Live_blocks) (f Live_bytes).

Definition zero_stats : ao_atomic_stats := Stats 0 0 0 0 0 0 0 0 0 0 0.

Lemma stat_get_set c d v s : stat_get d (stat_set c v s) = if decide (c = d) then v else stat_get d s.
Proof. by destruct d. Qed.

(** ** Globals *)

Record globals := Globals {
  g_resolve_once : bool;   (** whether the [pthread_once] routine has run *)
  g_in_resolver : Z;
  g_real_malloc : Z;       (** function pointers: 0 is NULL *)
  g_real_calloc : Z;
  g_real_realloc : Z;
  g_real_free : Z;
  g_registry : gmap Z ao_registry_entry;
  g_registry_lock : bool;
  g_stats : ao_atomic_stats;
  g_capture_depth : Z;
  g_next_allocation_id : Z;
  g_bootstrap_offset : Z
}.

(** The initial values of the static variables. *)
Definition initial_globals : globals :=
  Globals false 0 0 0 0 0 ∅ false zero_stats 0 1 0.

Definition set_once v g := Globals v (g_in_resolver g) (g_real_malloc g) (g_real_calloc g)
  (g_real_realloc g) (g_real_free g) (g_registry g) (g_registry_lock g) (g_stats g)
  (g_capture_depth g) (g_next_allocation_id g) (g_bootstrap_offset g).
Definition set_in_resolver v g := Globals (g_resolve_once g) v (g_real_malloc g) (g_real_calloc g)
  (g_real_realloc g) (g_real_free g) (g_registry g) (g_registry_lock g) (g_stats g)
  (g_capture_depth g) (g_next_allocation_id g) (g_bootstrap_offset g).
Definition set_real_malloc v g := Globals (g_resolve_once g) (g_in_resolver g) v (g_real_calloc g)
  (g_real_realloc g) (g_real_free g) (g_registry g) (g_registry_lock g) (g_stats g)
  (g_capture_depth g) (g_next_allocation_id g) (g_bootstrap_offset g).
Definition set_real_calloc v g := Globals (g_resolve_once g) (g_in_resolver g) (g_real_malloc g) v
  (g_real_realloc g) (g_real_free g) (g_registry g) (g_registry_lock g) (g_stats g)
  (g_capture_depth g) (g_next_allocation_id g) (g_bootstrap_offset g).
Definition set_real_realloc v g := Globals (g_resolve_once g) (g_in_resolver g) (g_real_malloc g)
  (g_real_calloc g) v (g_real_free g) (g_registry g) (g_registry_lock g) (g_stats g)
  (g_capture_depth g) (g_next_allocation_id g) (g_bootstrap_offset g).
Definition set_real_free v g := Globals (g_resolve_once g) (g_in_resolver g) (g_real_malloc g)
  (g_real_calloc g) (g_real_realloc g) v (g_registry g) (g_registry_lock g) (g_stats g)
  (g_capture_depth g) (g_next_allocation_id g) (g_bootstrap_offset g).
Definition set_registry v g := Globals (g_resolve_once g) (g_in_resolver g) (g_real_malloc g)
  (g_real_calloc g) (g_real_realloc g) (g_real_free g) v (g_registry_lock g) (g_stats g)
  (g_capture_depth g) (g_next_allocation_id g) (g_bootstrap_offset g).
Definition set_registry_lock v g := Globals (g_resolve_once g) (g_in_resolver g) (g_real_malloc g)
  (g_real_calloc g) (g_real_realloc g) (g_real_free g) (g_registry g) v (g_stats g)
  (g_capture_depth g) (g_next_allocation_id g) (g_bootstrap_offset g).
Definition set_stats v g := Globals (g_resolve_once g) (g_in_resolver g) (g_real_malloc g)
  (g_real_calloc g) (g_real_realloc g) (g_real_free g) (g_registry g) (g_registry_lock g) v
  (g_capture_depth g) (g_next_allocation_id g) (g_bootstrap_offset g).
Definition set_capture_depth v g := Globals (g_resolve_once g) (g_in_resolver g) (g_real_malloc g)
  (g_real_calloc g) (g_real_realloc g) (g_real_free g) (g_registry g) (g_registry_lock g) (g_stats g)
  v (g_next_allocation_id g) (g_bootstrap_offset g).
Definition set_next_allocation_id v g := Globals (g_resolve_once g) (g_in_resolver g)
  (g_real_malloc g) (g_real_calloc g) (g_real_realloc g) (g_real_free g) (g_registry g)
  (g_registry_lock g) (g_stats g) (g_capture_depth g) v (g_bootstrap_offset g).
Definition set_bootstrap_offset v g := Globals (g_resolve_once g) (g_in_resolver g)
  (g_real_malloc g) (g_real_calloc g) (g_real_realloc g) (g_real_free g) (g_registry g)
  (g_registry_lock g) (g_stats g) (g_capture_depth g) (g_next_allocation_id g) v.

(** ** Commands on the globals *)

Section Counters.
Context {Y : Type}.
Abbreviation M := (C (globals * Y)).

Definition get_globals : M globals := fun s => Ret (fst (ext s), s).
Definition mod_globals (f : globals -> globals) : M unit := fun s =>
  Ret (tt, St (mem s) (errno s) (f (fst (ext s)), snd (ext s))).

(** [atomic_fetch_add_explicit(&g_stats.c, n, ...)] and its siblings. *)
Definition stat_fetch_add (c : counter) (n : Z) : M unit :=
  mod_globals (fun g => set_stats (stat_set c (u64 (stat_get c (g_stats g) + n)) (g_stats g)) g).
Definition stat_fetch_sub (c : counter) (n : Z) : M unit :=
  mod_globals (fun g => set_stats (stat_set c (u64 (stat_get c (g_stats g) - n)) (g_stats g)) g).
Definition stat_store (c : counter) (v : Z) : M unit :=
  mod_globals (fun g => set_stats (stat_set c v (g_stats g)) g).

Definition ao_capture_enabled : M bool :=
  let* g := get_globals in ret (0 <? g_capture_depth g).

Definition ao_record_failed_allocation : M unit :=
  let* on := ao_capture_enabled in
  if on then stat_fetch_add Failed_allocations 1 else ret tt.

Definition ao_record_successful_allocation (kind size : Z) : M unit :=
  let* on := ao_capture_enabled in
  if negb on then ret tt
  else
    do* (if kind =? 0 then stat_fetch_add Malloc_calls 1
         else if kind =? 1 then stat_fetch_add Calloc_calls 1
         else if kind =? 2 then stat_fetch_add Realloc_calls 1
         else ret tt) in
    do* stat_fetch_add Successful_allocations 1 in
    stat_fetch_add Successful_allocation_bytes size.

Definition ao_record_free (bypass : bool) : M unit :=
  let* on := ao_capture_enabled in
  if negb on then ret tt
  else
    do* stat_fetch_add Free_calls 1 in
    if bypass then stat_fetch_add Bypass_free_calls 1 else ret tt.

Definition ao_record_realloc (bypass : bool) : M unit :=
  let* on := ao_capture_enabled in
  if negb on then ret tt
  else
    do* stat_fetch_add Realloc_calls 1 in
    if bypass then stat_fetch_add Bypass_realloc_calls 1 else ret tt.

Definition ao_live_add (size : Z) : M unit :=
  do* stat_fetch_add Live_blocks 1 in stat_fetch_add Live_bytes size.

Definition ao_live_update (old_size new_size : Z) : M unit :=
  if old_size <? new_size then stat_fetch_add Live_bytes (u64 (new_size - old_size))
  else if new_size <? old_size then stat_fetch_sub Live_bytes (u64 (old_size - new_size))
  else ret tt.

Definition ao_live_remove (size : Z) : M unit :=
  do* stat_fetch_sub Live_blocks 1 in stat_fetch_sub Live_bytes size.

(** Returns the id and advances the counter. *)
Definition ao_next_allocation_id : M Z :=
  let* g := get_globals in
  do* mod_globals (set_next_allocation_id (u64 (g_next_allocation_id g + 1))) in
  ret (g_next_allocation_id g).

Definition ao_mock_reset : M unit :=
  do* stat_store Malloc_calls 0 in
  do* stat_store Calloc_calls 0 in
  do* stat_store Realloc_calls 0 in
  do* stat_store Free_calls 0 in
  do* stat_store Successful_allocations 0 in
  do* stat_store Successful_allocation_bytes 0 in
  do* stat_store Failed_allocations 0 in
  do* stat_store Bypass_realloc_calls 0 in
  stat_store Bypass_free_calls 0.

Definition ao_mock_begin_capture : M unit :=
  mod_globals (fun g => set_capture_depth (s32 (g_capture_depth g + 1)) g).

Definition ao_mock_end_capture : M unit :=
  let* g := get_globals in
  let current := g_capture_depth g in
  if 0 <? current
  then mod_globals (fun g => set_capture_depth (s32 (g_capture_depth g - 1)) g)
  else ret tt.

(** The order of the fields of [ao_mock_stats] (include/mock_allocator_test_api.h). *)
Definition stats_fields : list counter :=
  [Malloc_calls; Calloc_calls; Realloc_calls; Free_calls; Successful_allocations;
   Successful_allocation_bytes; Failed_allocations; Bypass_realloc_calls; Bypass_free_calls;
   Live_blocks; Live_bytes].

(** Eleven stores of eight bytes into the structure at [out]. *)
Fixpoint store_stats (out : Z) (cs : list counter) : M unit :=
  match cs with
  | [] => ret tt
  | c :: cs' =>
      let* g := get_globals in
      do* store_u64 out (stat_get c (g_stats g)) in
      store_stats (out + 8) cs'
  end.

Definition ao_mock_get_stats (out : Z) : M unit :=
  if out =? 0 then ret tt else store_stats out stats_fields.

End Counters.

(** ** Effects of the counter commands

    Every one of them changes [g_stats] (or the id) only, always succeeds, and
    its effect is a function of the globals. *)

(** [f] run on the globals, as a specification of a command that does nothing
    else. *)
Definition acts {Y A} (m : C (globals * Y) A) (f : globals -> A * globals) : Prop :=
  forall s, m s = Ret ((f (fst (ext s))).1,
                       St (mem s) (errno s) ((f (fst (ext s))).2, snd (ext s))).

Section Acts.
Context {Y : Type}.

Lemma acts_wp {A} E (m : C (globals * Y) A) f Q s :
  acts m f -> Q (f (fst (ext s))).1 (St (mem s) (errno s) ((f (fst (ext s))).2, snd (ext s))) ->
  wp E m Q s.
Proof. intros H HQ. unfold wp. by rewrite H. Qed.

Lemma acts_mod f : acts (mod_globals (Y:=Y) f) (fun g => (tt, f g)).
Proof. by intros s. Qed.

Lemma acts_get : acts (get_globals (Y:=Y)) (fun g => (g, g)).
Proof. intros [m e [g y]]. done. Qed.

Lemma acts_ret {A} (a : A) : acts (ret (X:=globals * Y) a) (fun g => (a, g)).
Proof. intros [m e [g y]]. done. Qed.

Lemma acts_bind {A B} (m : C (globals * Y) A) (k : A -> C (globals * Y) B) f h :
  acts m f -> (forall a, acts (k a) (h a)) ->
  acts (bind m k) (fun g => h (f g).1 (f g).2).
Proof. intros Hm Hk s. unfold bind. by rewrite Hm, Hk. Qed.

Lemma acts_if {A} (b : bool) (m1 m2 : C (globals * Y) A) f1 f2 :
  acts m1 f1 -> acts m2 f2 -> acts (if b then m1 else m2) (fun g => if b then f1 g else f2 g).
Proof. by destruct b. Qed.

End Acts.

Create HintDb acts.
#[export] Hint Resolve acts_mod acts_get acts_ret acts_bind acts_if : acts.

(** The change of one counter. *)
Definition bump (c : counter) (n : Z) (g : globals) : globals :=
  set_stats (stat_set c (u64 (stat_get c (g_stats g) + n)) (g_stats g)) g.

(** Counters whose value the capture depth gates: all but the live ones. *)
Definition captured (c : counter) : Prop := c <> Live_blocks /\ c <> Live_bytes.

(** [g'] differs from [g] in captured counters only. *)
Definition quiet (g g' : globals) : Prop :=
  exists st, g' = set_stats st g /\
    live_blocks st = live_blocks (g_stats g) /\ live_bytes st = live_bytes (g_stats g).

Lemma set_stats_same g : set_stats (g_stats g) g = g.
Proof. by destruct g. Qed.

#[export] Instance quiet_preorder : PreOrder quiet.
Proof.
  split.
  - intros g. exists (g_stats g). by rewrite set_stats_same.
  - intros g g1 g2 (s1 & -> & H1 & H2) (s2 & -> & H3 & H4). exists s2. cbn in *.
    by rewrite H3, H4.
Qed.

Lemma bump_quiet c n g : captured c -> quiet g (bump c n g).
Proof.
  intros [H1 H2]. eexists. split; [done|].
  cbn. by rewrite !decide_False by congruence.
Qed.

(** *** The counter commands as functions of the globals *)

Definition capturing (g : globals) : bool := 0 <? g_capture_depth g.

Definition failed_effect (g : globals) : globals :=
  if capturing g then bump Failed_allocations 1 g else g.

(** The call counter of an allocation kind: 0 [malloc], 1 [calloc], 2 [realloc]. *)
Definition kind_effect (kind : Z) (g : globals) : globals :=
  if kind =? 0 then bump Malloc_calls 1 g
  else if kind =? 1 then bump Calloc_calls 1 g
  else if kind =? 2 then bump Realloc_calls 1 g else g.

Definition success_effect (kind size : Z) (g : globals) : globals :=
  if capturing g
  then bump Successful_allocation_bytes size (bump Successful_allocations 1 (kind_effect kind g))
  else g.

Definition free_effect (bypass : bool) (g : globals) : globals :=
  if capturing g
  then if bypass then bump Bypass_free_calls 1 (bump Free_calls 1 g) else bump Free_calls 1 g
  else g.

Definition realloc_effect (bypass : bool) (g : globals) : globals :=
  if capturing g
  then if bypass then bump Bypass_realloc_calls 1 (bump Realloc_calls 1 g)
       else bump Realloc_calls 1 g
  else g.

Definition live_effect (blocks bytes : Z) (g : globals) : globals :=
  bump Live_bytes bytes (bump Live_blocks blocks g).

(** Run a counter command on a state in canonical form. *)
Ltac run_counters :=
  intros [m e [g y]]; cbv [bind ret stat_fetch_add stat_fetch_sub mod_globals get_globals];
  cbn [ext fst snd mem errno];
  repeat match goal with
  | |- context [if ?b then _ else _] => destruct b eqn:?; cbn [ext fst snd mem errno negb]
  end; try done.

Section Effects.
Context {Y : Type}.

Lemma acts_failed : acts (ao_record_failed_allocation (Y:=Y)) (fun g => (tt, failed_effect g)).
Proof.
  unfold acts, ao_record_failed_allocation, ao_capture_enabled, failed_effect, capturing.
  run_counters.
Qed.

Lemma acts_success kind size :
  acts (ao_record_successful_allocation (Y:=Y) kind size) (fun g => (tt, success_effect kind size g)).
Proof.
  unfold acts, ao_record_successful_allocation, ao_capture_enabled, success_effect, capturing,
    kind_effect. run_counters.
Qed.

Lemma acts_free bypass :
  acts (ao_record_free (Y:=Y) bypass) (fun g => (tt, free_effect bypass g)).
Proof. unfold acts, ao_record_free, ao_capture_enabled, free_effect, capturing. run_counters. Qed.

Lemma acts_realloc bypass :
  acts (ao_record_realloc (Y:=Y) bypass) (fun g => (tt, realloc_effect bypass g)).
Proof.
  unfold acts, ao_record_realloc, ao_capture_enabled, realloc_effect, capturing. run_counters.
Qed.

Lemma acts_live_add size :
  acts (ao_live_add (Y:=Y) size) (fun g => (tt, live_effect 1 size g)).
Proof. unfold acts, ao_live_add. run_counters. Qed.

Lemma acts_live_remove size :
  acts (ao_live_remove (Y:=Y) size) (fun g => (tt, live_effect (-1) (- size) g)).
Proof. unfold acts, ao_live_remove. run_counters. Qed.

(** Whatever the two sizes, [live_bytes] moves by their difference. *)
Lemma acts_live_update old new :
  acts (ao_live_update (Y:=Y) old new)
    (fun g => (tt, if old =? new then g else bump Live_bytes (new - old) g)).
Proof.
  unfold acts, ao_live_update. intros s.
  destruct (Z.ltb_spec old new); [|destruct (Z.ltb_spec new old)].
  - destruct (Z.eqb_spec old new); [lia|]. destruct s as [m e [g y]].
    unfold stat_fetch_add, mod_globals, bump. cbn [ext fst snd]. by rewrite u64_add_r.
  - destruct (Z.eqb_spec old new); [lia|]. destruct s as [m e [g y]].
    unfold stat_fetch_sub, mod_globals, bump. cbn [ext fst snd].
    rewrite u64_sub_r.
    by replace (stat_get Live_bytes (g_stats g) - (old - new))
      with (stat_get Live_bytes (g_stats g) + (new - old)) by lia.
  - by destruct (Z.eqb_spec old new); [destruct s as [m er [g y]]|lia].
Qed.

Lemma acts_next_id :
  acts (ao_next_allocation_id (Y:=Y))
    (fun g => (g_next_allocation_id g,
               set_next_allocation_id (u64 (g_next_allocation_id g + 1)) g)).
Proof. unfold acts, ao_next_allocation_id. run_counters. Qed.

End Effects.

#[export] Hint Resolve acts_failed acts_success acts_free acts_realloc acts_live_add
  acts_live_remove acts_live_update acts_next_id : acts.

Lemma failed_quiet g : quiet g (failed_effect g).
Proof. unfold failed_effect. destruct (capturing g); [by apply bump_quiet|done]. Qed.

Lemma success_quiet kind size g : quiet g (success_effect kind size g).
Proof.
  unfold success_effect, kind_effect. destruct (capturing g); [|done].
  transitivity (kind_effect kind g).
  - unfold kind_effect. repeat case_cmp; try done; by apply bump_quiet.
  - etransitivity; by apply bump_quiet.
Qed.

Lemma free_quiet bypass g : quiet g (free_effect bypass g).
Proof.
  unfold free_effect. destruct (capturing g); [|done].
  destruct bypass; [etransitivity|]; by apply bump_quiet.
Qed.

Lemma realloc_quiet bypass g : quiet g (realloc_effect bypass g).
Proof.
  unfold realloc_effect. destruct (capturing g); [|done].
  destruct bypass; [etransitivity|]; by apply bump_quiet.
Qed.

#[export] Hint Resolve failed_quiet success_quiet free_quiet realloc_quiet : acts.

(** Without a capture no captured counter moves. *)
Lemma not_capturing g :
  capturing g = false ->
  failed_effect g = g /\ (forall k n, success_effect k n g = g) /\
  (forall b, free_effect b g = g) /\ (forall b, realloc_effect b g = g).
Proof.
  intros H. unfold failed_effect, success_effect, free_effect, realloc_effect.
  by rewrite H.
Qed.

(** *** The live counters *)

Lemma live_effect_blocks b n g :
  live_blocks (g_stats (live_effect b n g)) = u64 (live_blocks (g_stats g) + b).
Proof. reflexivity. Qed.

Lemma live_effect_bytes b n g :
  live_bytes (g_stats (live_effect b n g)) = u64 (live_bytes (g_stats g) + n).
Proof. reflexivity. Qed.

Lemma bump_bytes_blocks n g : live_blocks (g_stats (bump Live_bytes n g)) = live_blocks (g_stats g).
Proof. reflexivity. Qed.

Lemma bump_bytes_bytes n g :
  live_bytes (g_stats (bump Live_bytes n g)) = u64 (live_bytes (g_stats g) + n).
Proof. reflexivity. Qed.
