(* ===== verification/Bootstrap.v ===== *)
(** * The bootstrap heap of the mock allocator (src/mock_allocator.c)

    While [dlsym] looks the real functions up, allocation requests are served
    from a static array of 64 KiB by bumping an offset; the blocks are never
    freed.  The compare-and-swap loop is modelled by its sequential effect: read
    the offset, test, write it back; [ConcurrentBoot] has the loop itself, under
    threads. *)
From S2P Require Import Prelude CMem CCmd CLib Registry MockState.

Definition AO_BOOTSTRAP_HEAP_SIZE : Z := 64 * 1024.

(** [sizeof(max_align_t)] and [sizeof(ao_bootstrap_header)] on the LP64 targets:
    a [size_t], padding to 16, and a [max_align_t]. *)
Definition SIZEOF_MAX_ALIGN_T : Z := 32.
Definition SIZEOF_BOOTSTRAP_HEADER : Z := 48.

(** What the program links against and is not in the sources: the address the
    linker gives to [g_bootstrap_heap], the dynamic linker and [write]. *)
Class Platform (Y : Type) := {
  g_bootstrap_heap : Z;
  dlsym : string -> C (globals * Y) Z;
  sys_write : Z -> list Z -> C (globals * Y) Z
}.

Definition ao_align_up (value alignment : Z) : Z :=
  let remainder := value `mod` alignment in
  if remainder =? 0 then value else u64 (value + u64 (alignment - remainder)).

Section Bootstrap.
Context {Y : Type} `{!Platform Y}.

Definition ao_bootstrap_alloc (size : Z) : C (globals * Y) Z :=
  let total := ao_align_up (u64 (SIZEOF_BOOTSTRAP_HEADER + size)) SIZEOF_MAX_ALIGN_T in
  let* g := get_globals in
  let current := g_bootstrap_offset g in
  if (AO_BOOTSTRAP_HEAP_SIZE <? current) || (u64 (AO_BOOTSTRAP_HEAP_SIZE - current) <? total) then
    do* set_errno ENOMEM in ret 0
  else
    let next := u64 (current + total) in
    do* mod_globals (set_bootstrap_offset next) in
    let header := g_bootstrap_heap + current in
    do* store_u64 header size in
    ret (header + SIZEOF_BOOTSTRAP_HEADER).

Definition ao_bootstrap_contains (ptr : Z) : bool :=
  (g_bootstrap_heap <=? ptr) && (ptr <? g_bootstrap_heap + AO_BOOTSTRAP_HEAP_SIZE).

Definition ao_bootstrap_realloc (ptr size : Z) : C (globals * Y) Z :=
  if ptr =? 0 then ao_bootstrap_alloc size
  else if negb (ao_bootstrap_contains ptr) then do* set_errno ENOMEM in ret 0
  else
    let header := ptr - SIZEOF_BOOTSTRAP_HEADER in
    let* new_ptr := ao_bootstrap_alloc size in
    if new_ptr =? 0 then ret 0
    else
      let* requested := load_u64 header in
      let copy_size := if requested <? size then requested else size in
      if negb (copy_size =? 0) then do* memcpy new_ptr ptr copy_size in ret new_ptr
      else ret new_ptr.

End Bootstrap.

(** ** Alignment *)

Lemma align_up_spec value :
  0 <= value -> value + 31 <= SIZE_MAX ->
  value <= ao_align_up value 32 < value + 32 /\ ao_align_up value 32 `mod` 32 = 0.
Proof.
  intros H1 H2. unfold ao_align_up. pose proof (Z.mod_pos_bound value 32).
  destruct (Z.eqb_spec (value `mod` 32) 0); [lia|].
  rewrite u64_add_r, u64_small by lia. split; [lia|]. Z.div_mod_to_equations. lia.
Qed.

(** ** Allocation *)

(** [s'] differs from [s] in the bootstrap heap only: its offset, which only
    grows, and bytes of the array. *)
Definition boot_only {Y} `{!Platform Y} (s s' : st (globals * Y)) : Prop :=
  snd (ext s') = snd (ext s) /\ same_dom (mem s) (mem s') /\
  same_outside g_bootstrap_heap AO_BOOTSTRAP_HEAP_SIZE (mem s) (mem s') /\
  exists o, g_bootstrap_offset (fst (ext s)) <= o <= AO_BOOTSTRAP_HEAP_SIZE /\
    fst (ext s') = set_bootstrap_offset o (fst (ext s)).

(** What the bootstrap heap needs of the state. *)
Definition boot_ok {Y} `{!Platform Y} (s : st (globals * Y)) : Prop :=
  0 < g_bootstrap_heap /\ g_bootstrap_heap + AO_BOOTSTRAP_HEAP_SIZE <= SIZE_MAX /\
  mapped (mem s) g_bootstrap_heap AO_BOOTSTRAP_HEAP_SIZE /\
  0 <= g_bootstrap_offset (fst (ext s)) <= AO_BOOTSTRAP_HEAP_SIZE /\
  g_bootstrap_offset (fst (ext s)) `mod` 32 = 0.

Section Specs.
Context {Y : Type} `{!Platform Y}.
Implicit Types s : st (globals * Y).

(** The block a successful allocation of [size] bytes returns. *)
Record boot_block s (size : Z) (p : Z) s' : Prop := {
  bb_in : g_bootstrap_heap + g_bootstrap_offset (fst (ext s)) + SIZEOF_BOOTSTRAP_HEADER = p;
  bb_end : p + size <= g_bootstrap_heap + g_bootstrap_offset (fst (ext s'));
  bb_frame : same_outside (p - SIZEOF_BOOTSTRAP_HEADER) 8 (mem s) (mem s');
  bb_header : holds (mem s') (p - SIZEOF_BOOTSTRAP_HEADER) (le_encode 8 size);
  bb_only : boot_only s s';
  bb_ok : boot_ok s'
}.

Lemma bootstrap_alloc_ok E size s :
  boot_ok s -> 0 <= size -> SIZEOF_BOOTSTRAP_HEADER + size + 31 <= SIZE_MAX ->
  wp E (ao_bootstrap_alloc size)
    (fun p s' =>
      (p = 0 /\ s' = St (mem s) ENOMEM (ext s) /\
       AO_BOOTSTRAP_HEAP_SIZE - g_bootstrap_offset (fst (ext s)) < SIZEOF_BOOTSTRAP_HEADER + size + 31) \/
      (p <> 0 /\ boot_block s size p s')) s.
Proof.
  intros (Hb & He & Hm & Ho & Hal) Hs Hmax. unfold ao_bootstrap_alloc.
  unfold SIZEOF_MAX_ALIGN_T. rewrite (u64_small (_ + size)) by (unfold SIZEOF_BOOTSTRAP_HEADER in *; lia).
  destruct (align_up_spec (SIZEOF_BOOTSTRAP_HEADER + size)) as [Ht Htal];
    [unfold SIZEOF_BOOTSTRAP_HEADER; lia|lia|].
  set (total := ao_align_up _ 32) in *.
  apply wp_bind. eapply acts_wp; [apply acts_get|]. cbn [fst snd].
  destruct (ext s) as [g y] eqn:Hx. cbn [fst snd] in *.
  unfold AO_BOOTSTRAP_HEAP_SIZE, SIZEOF_BOOTSTRAP_HEADER in *.
  destruct (Z.ltb_spec (64 * 1024) (g_bootstrap_offset g)); [lia|]. cbn [orb].
  rewrite u64_small by zlia.
  destruct (Z.ltb_spec (64 * 1024 - g_bootstrap_offset g) total) as [Hfull|Hfit].
  { apply wp_bind, wp_set_errno, wp_ret. left. cbn. split_and!; [done|done|lia]. }
  rewrite u64_small by zlia.
  apply wp_bind. eapply acts_wp; [apply acts_mod|]. cbn [fst snd mem errno ext].
  apply wp_bind, wp_store_u64; [intros x Hxx; apply Hm; lia|]. apply wp_ret. right.
  assert (Hdom : same_dom (mem s)
    (write (mem s) (g_bootstrap_heap + g_bootstrap_offset g) (le_encode 8 size))).
  { apply same_dom_write. rewrite length_le_encode. intros x Hxx. apply Hm. lia. }
  pose proof (same_outside_write (mem s) (g_bootstrap_heap + g_bootstrap_offset g) (le_encode 8 size))
    as Hout. rewrite length_le_encode in Hout.
  split; [lia|]. split; cbn [mem ext fst snd errno].
  - rewrite Hx. unfold SIZEOF_BOOTSTRAP_HEADER. cbn. lia.
  - cbn. lia.
  - intros x Hxx. apply Hout. unfold SIZEOF_BOOTSTRAP_HEADER in Hxx. lia.
  - unfold SIZEOF_BOOTSTRAP_HEADER.
    replace (g_bootstrap_heap + g_bootstrap_offset g + 48 - 48)
      with (g_bootstrap_heap + g_bootstrap_offset g) by lia. apply holds_write.
  - unfold boot_only. rewrite Hx. cbn. unfold AO_BOOTSTRAP_HEAP_SIZE. split_and!; [done|done| |].
    + intros x Hxx. apply Hout. lia.
    + exists (g_bootstrap_offset g + total). split; [lia|done].
  - unfold boot_ok. cbn. unfold AO_BOOTSTRAP_HEAP_SIZE. split_and!; [lia|lia| |lia|lia|].
    + by rewrite <- Hdom.
    + Z.div_mod_to_equations. lia.
Qed.

(** A request the size computation cannot represent: the header and the size
    wrap around and the block is smaller than asked for. *)
Lemma bootstrap_alloc_wrapped E size s :
  boot_ok s -> SIZE_MAX - SIZEOF_BOOTSTRAP_HEADER < size <= SIZE_MAX ->
  g_bootstrap_offset (fst (ext s)) + 64 <= AO_BOOTSTRAP_HEAP_SIZE ->
  wp E (ao_bootstrap_alloc size)
    (fun p s' => p <> 0 /\
      g_bootstrap_offset (fst (ext s')) <= g_bootstrap_offset (fst (ext s)) + 64) s.
Proof.
  intros (Hb & He & Hm & Ho & Hal) Hs Hroom. unfold ao_bootstrap_alloc.
  unfold SIZEOF_MAX_ALIGN_T, SIZEOF_BOOTSTRAP_HEADER in *.
  assert (Hw : u64 (48 + size) = 48 + size - 2 ^ 64).
  { rewrite <- (u64_small (48 + size - 2 ^ 64)) by zlia. unfold u64.
    rewrite <- (Z.mod_add _ (-1) (2 ^ 64)) by lia. f_equal. }
  rewrite Hw. destruct (align_up_spec (48 + size - 2 ^ 64)) as [Ht Htal]; [zlia|zlia|].
  set (total := ao_align_up _ 32) in *.
  apply wp_bind. eapply acts_wp; [apply acts_get|]. cbn [fst snd].
  destruct (ext s) as [g y] eqn:Hx. cbn [fst snd] in *.
  unfold AO_BOOTSTRAP_HEAP_SIZE in *.
  destruct (Z.ltb_spec (64 * 1024) (g_bootstrap_offset g)); [lia|]. cbn [orb].
  rewrite u64_small by zlia.
  assert (total <= 64).
  { unfold SIZE_MAX in *. Z.div_mod_to_equations. lia. }
  destruct (Z.ltb_spec (64 * 1024 - g_bootstrap_offset g) total); [lia|].
  rewrite u64_small by zlia.
  apply wp_bind. eapply acts_wp; [apply acts_mod|]. cbn [fst snd mem errno ext].
  apply wp_bind, wp_store_u64; [intros x Hxx; apply Hm; lia|]. apply wp_ret.
  cbn. lia.
Qed.

Lemma boot_only_refl s : boot_ok s -> boot_only s s.
Proof.
  intros (_ & _ & _ & Ho & _). unfold boot_only. split_and!; [done|done|done|].
  exists (g_bootstrap_offset (fst (ext s))). split; [lia|]. by destruct (fst (ext s)).
Qed.

Lemma boot_only_trans s1 s2 s3 : boot_only s1 s2 -> boot_only s2 s3 -> boot_only s1 s3.
Proof.
  intros (H1 & H2 & H3 & o & Ho & H4) (K1 & K2 & K3 & o' & Ho' & K4).
  rewrite H4 in Ho'. cbn in Ho'. split_and!; [congruence|by etransitivity| |].
  - intros x Hx. by rewrite K3, H3.
  - exists o'. split; [lia|]. by rewrite K4, H4.
Qed.

(** The result of moving a bootstrap block of [old] bytes: its first bytes are in
    the new block, and the old block is still there. *)
Lemma bootstrap_realloc_ok E p old size s :
  boot_ok s -> 0 <= size -> SIZEOF_BOOTSTRAP_HEADER + size + 31 <= SIZE_MAX ->
  g_bootstrap_heap <= p - SIZEOF_BOOTSTRAP_HEADER ->
  p < g_bootstrap_heap + AO_BOOTSTRAP_HEAP_SIZE ->
  0 <= old -> p + old <= g_bootstrap_heap + g_bootstrap_offset (fst (ext s)) ->
  holds (mem s) (p - SIZEOF_BOOTSTRAP_HEADER) (le_encode 8 old) ->
  wp E (ao_bootstrap_realloc p size)
    (fun q s' =>
      (q = 0 /\ mem s' = mem s /\ ext s' = ext s /\ errno s' = ENOMEM) \/
      (q <> 0 /\ boot_only s s' /\
       p + old <= q - SIZEOF_BOOTSTRAP_HEADER /\
       q + size <= g_bootstrap_heap + g_bootstrap_offset (fst (ext s')) /\
       forall i, 0 <= i < Z.min old size -> mem s' !! (q + i) = mem s !! (p + i))) s.
Proof.
  intros B Hs Hmax Hlo Hhi Hold Hend Hhdr. unfold ao_bootstrap_realloc.
  pose proof B as (Hb & He & Hm & Ho & _).
  unfold SIZEOF_BOOTSTRAP_HEADER, AO_BOOTSTRAP_HEAP_SIZE in *.
  destruct (Z.eqb_spec p 0); [lia|]. unfold ao_bootstrap_contains, AO_BOOTSTRAP_HEAP_SIZE.
  destruct (Z.leb_spec g_bootstrap_heap p); [|lia].
  destruct (Z.ltb_spec p (g_bootstrap_heap + 64 * 1024)); [|lia]. cbn [andb negb].
  apply wp_bind. eapply wp_mono; [by apply bootstrap_alloc_ok|].
  intros q s1 [(-> & -> & _)|[Hq [Hin Hqend Hframe Hqh O1 B1]]].

  { apply wp_ret. by left. }
  pose proof O1 as (_ & Hdom & _). unfold SIZEOF_BOOTSTRAP_HEADER in *.
  destruct (Z.eqb_spec q 0); [done|].
  apply wp_bind, (wp_load_u64 _ _ old); [|zlia|].
  { eapply holds_outside; [exact Hframe| |done]. rewrite length_le_encode. lia. }
  assert (Hmin : (if old <? size then old else size) = Z.min old size) by (case_cmp; lia).
  rewrite Hmin. assert (Hend' : p + old <= q - 48) by lia.
  destruct (Z.eqb_spec (Z.min old size) 0) as [Hz|Hz]; cbn [negb].
  { apply wp_ret. right. split_and!; [done|done|lia|done|lia]. }
  apply wp_bind.
  assert (Hpm : mapped (mem s1) p (Z.min old size)).
  { rewrite <- Hdom. intros x Hx. apply Hm. lia. }
  destruct (mapped_load (mem s1) p (Z.min old size)) as (bs & _ & Hbs & Hlen); [lia|done|].
  assert (Hqm : mapped (mem s1) q (Z.min old size)).
  { rewrite <- Hdom. intros x Hx. apply Hm. destruct B1 as (_ & _ & _ & ? & _).
    unfold AO_BOOTSTRAP_HEAP_SIZE in *. lia. }
  assert (Hqbs : mapped (mem s1) q (Z.of_nat (length bs))) by (by rewrite Hlen).
  eapply wp_memcpy; [done|done|done|lia|]. apply wp_ret. right. cbn [mem ext errno].
  split_and!; [done| |lia|done|].
  - eapply boot_only_trans; [done|]. split_and!; cbn; [done|by apply same_dom_write| |].
    + intros x Hx. apply lookup_write_out.
      destruct B1 as (_ & _ & _ & ? & _). unfold AO_BOOTSTRAP_HEAP_SIZE in *. lia.
    + exists (g_bootstrap_offset (fst (ext s1))). split; [|by destruct (fst (ext s1))].
      destruct B1 as (_ & _ & _ & ? & _). lia.
  - intros i Hi. rewrite lookup_write_in by lia. replace (q + i - q) with i by lia.
    destruct (lookup_lt_is_Some_2 bs (Z.to_nat i)) as [b Hbi]; [lia|]. rewrite Hbi.
    apply Hbs in Hbi. rewrite Z2Nat.id in Hbi by lia. rewrite <- Hbi.
    apply Hframe. lia.
Qed.

End Specs.
