(* ===== verification/MockAllocator.v ===== *)
(** * The mock allocator (src/mock_allocator.c)

    [malloc], [calloc], [realloc] and [free] in front of the C library's
    allocator, with the registry of the blocks that went through them, the
    resolution of the real functions and the bridge the override library uses. *)
From S2P Require Import Prelude CMem CCmd CLib Alloc Registry MockState Bootstrap.

(** The bytes of a string literal. *)
Fixpoint bytes_of_string (s : string) : list Z :=
  match s with
  | EmptyString => []
  | String c s' => Z.of_N (Ascii.N_of_ascii c) :: bytes_of_string s'
  end.

Section MockAllocator.
Context {Y : Type} `{!Platform Y} `{!Allocator Y}.
Abbreviation M := (C (globals * Y)).

(** ** Fatal errors *)

(** [message] is what is left of the text; every turn writes at least a byte, so
    its length is enough fuel. *)
Fixpoint write_literal_loop (fuel : nat) (message : list Z) : M unit :=
  let len := Z.of_nat (length message) in
  if 0 <? len then
    match fuel with
    | O => diverge
    | S fuel' =>
        let* written := sys_write 2 message in
        if written <=? 0 then ret tt
        else if len <? written then undef
        else write_literal_loop fuel' (drop (Z.to_nat written) message)
    end
  else ret tt.

Definition ao_write_literal (message : list Z) : M unit :=
  write_literal_loop (length message) message.

Definition ao_fatal {A} (message : string) : M A :=
  do* ao_write_literal (bytes_of_string message) in exit_with 127.

(** ** The registry lock: spinning on a lock that is held makes no progress *)

Definition ao_registry_lock : M unit :=
  let* g := get_globals in
  if g_registry_lock g then diverge else mod_globals (set_registry_lock true).

Definition ao_registry_unlock : M unit := mod_globals (set_registry_lock false).

Definition registry_insert (ptr size id : Z) : M bool :=
  let* g := get_globals in
  let '(inserted, t) := ao_registry_insert_locked (g_registry g) ptr size id in
  do* mod_globals (set_registry t) in ret inserted.

Definition registry_lookup (ptr : Z) : M (option (Z * Z)) :=
  let* g := get_globals in ret (ao_registry_lookup_locked (g_registry g) ptr).

Definition registry_remove (ptr : Z) : M (option (Z * Z)) :=
  let* g := get_globals in
  let '(found, t) := ao_registry_remove_locked (g_registry g) ptr in
  do* mod_globals (set_registry t) in ret found.

Definition ao_registry_contains (ptr : Z) : M bool :=
  do* ao_registry_lock in
  let* found := registry_lookup ptr in
  do* ao_registry_unlock in
  ret (bool_decide (is_Some found)).

(** ** The real functions *)

Definition ao_resolve_real_functions : M unit :=
  do* mod_globals (set_in_resolver 1) in
  let* symbol := dlsym "malloc" in
  do* mod_globals (set_real_malloc symbol) in
  let* symbol := dlsym "calloc" in
  do* mod_globals (set_real_calloc symbol) in
  let* symbol := dlsym "realloc" in
  do* mod_globals (set_real_realloc symbol) in
  let* symbol := dlsym "free" in
  do* mod_globals (set_real_free symbol) in
  do* mod_globals (set_in_resolver 0) in
  let* g := get_globals in
  if (g_real_malloc g =? 0) || (g_real_calloc g =? 0) || (g_real_realloc g =? 0)
     || (g_real_free g =? 0)
  then ao_fatal "mock_allocator: failed to resolve real allocation symbols
"
  else ret tt.

(** [pthread_once]. *)
Definition ao_ensure_real_functions : M unit :=
  let* g := get_globals in
  if g_resolve_once g then ret tt
  else do* ao_resolve_real_functions in mod_globals (set_once true).

(** A call through a function pointer: null is undefined, anything else is the C
    library's function, which cannot see the mock allocator's statics. *)
Definition call_real {A} (fp : globals -> Z) (f : C Y A) : M A :=
  let* g := get_globals in if fp g =? 0 then undef else lift f.

(** ** Tracking *)

Definition ao_track_allocation_or_die (ptr size : Z) : M unit :=
  do* ao_registry_lock in
  let* id := ao_next_allocation_id in
  let* inserted := registry_insert ptr size id in
  do* ao_registry_unlock in
  do* (if negb inserted then
         ao_fatal "mock_allocator: allocation registry exhausted
"
       else ret tt) in
  ao_live_add size.

Definition ao_mock_is_tracked_allocation (ptr : Z) : M bool :=
  if ptr =? 0 then ret false else ao_registry_contains ptr.

Definition ao_alloc_bridge_owns (ptr : Z) : M bool := ao_mock_is_tracked_allocation ptr.

Definition ao_alloc_bridge_libc_free (ptr : Z) : M unit :=
  if ptr =? 0 then ret tt
  else do* ao_ensure_real_functions in call_real g_real_free (al_free ptr).

Definition ao_alloc_bridge_libc_realloc (ptr size : Z) : M Z :=
  do* ao_ensure_real_functions in call_real g_real_realloc (al_realloc ptr size).

(** ** The allocation functions *)

Definition in_resolver : M bool :=
  let* g := get_globals in ret (negb (g_in_resolver g =? 0)).

Definition malloc (size : Z) : M Z :=
  let* resolving := in_resolver in
  if resolving then ao_bootstrap_alloc size
  else
    do* ao_ensure_real_functions in
    let* ptr := call_real g_real_malloc (al_malloc size) in
    if ptr =? 0 then do* ao_record_failed_allocation in ret 0
    else
      do* ao_track_allocation_or_die ptr size in
      do* ao_record_successful_allocation 0 size in
      ret ptr.

Definition calloc (nmemb size : Z) : M Z :=
  let* resolving := in_resolver in
  if resolving then
    let requested_size := u64 (nmemb * size) in
    let* ptr := ao_bootstrap_alloc requested_size in
    do* (if negb (ptr =? 0) then do* memset ptr 0 requested_size in ret tt else ret tt) in
    ret ptr
  else if negb (nmemb =? 0) && (SIZE_MAX / nmemb <? size) then
    do* set_errno ENOMEM in
    do* ao_record_failed_allocation in
    ret 0
  else
    let requested_size := u64 (nmemb * size) in
    do* ao_ensure_real_functions in
    let* ptr := call_real g_real_calloc (al_calloc nmemb size) in
    if ptr =? 0 then do* ao_record_failed_allocation in ret 0
    else
      do* ao_track_allocation_or_die ptr requested_size in
      do* ao_record_successful_allocation 1 requested_size in
      ret ptr.

(** The branch of [realloc] for a pointer the registry holds, with the size and id
    it was registered with. *)
Definition realloc_tracked (ptr size old_size allocation_id : Z) : M Z :=
  let* new_ptr := call_real g_real_realloc (al_realloc ptr size) in
  if (new_ptr =? 0) && negb (size =? 0) then
    do* ao_record_realloc false in
    do* ao_record_failed_allocation in
    ret 0
  else
    do* ao_registry_lock in
    do* registry_remove ptr in
    do* (if negb (new_ptr =? 0) then
           let* inserted := registry_insert new_ptr size allocation_id in
           if negb inserted then
             do* ao_registry_unlock in
             ao_fatal "mock_allocator: allocation registry exhausted during realloc
"
           else ret tt
         else ret tt) in
    do* ao_registry_unlock in
    do* ao_record_realloc false in
    do* (if negb (new_ptr =? 0) then ao_live_update old_size size
         else ao_live_remove old_size) in
    ret new_ptr.

Definition realloc (ptr size : Z) : M Z :=
  let* resolving := in_resolver in
  if resolving then ao_bootstrap_realloc ptr size
  else if ao_bootstrap_contains ptr then ao_bootstrap_realloc ptr size
  else
    do* ao_ensure_real_functions in
    if ptr =? 0 then
      let* new_ptr := call_real g_real_realloc (al_realloc 0 size) in
      if new_ptr =? 0 then do* ao_record_failed_allocation in ret 0
      else
        do* ao_track_allocation_or_die new_ptr size in
        do* ao_record_successful_allocation 2 size in
        ret new_ptr
    else
      do* ao_registry_lock in
      let* tracked := registry_lookup ptr in
      do* ao_registry_unlock in
      match tracked with
      | None =>
          do* ao_record_realloc true in
          let* new_ptr := call_real g_real_realloc (al_realloc ptr size) in
          do* (if (new_ptr =? 0) && negb (size =? 0) then ao_record_failed_allocation else ret tt) in
          ret new_ptr
      | Some (old_size, allocation_id) => realloc_tracked ptr size old_size allocation_id
      end.

Definition free (ptr : Z) : M unit :=
  if ptr =? 0 then ret tt
  else if ao_bootstrap_contains ptr then ret tt
  else
    let* resolving := in_resolver in
    if resolving then ret tt
    else
      do* ao_ensure_real_functions in
      do* ao_registry_lock in
      let* tracked := registry_remove ptr in
      do* ao_registry_unlock in
      do* ao_record_free (negb (bool_decide (is_Some tracked))) in
      do* match tracked with
          | Some (requested_size, _) => ao_live_remove requested_size
          | None => ret tt
          end in
      call_real g_real_free (al_free ptr).

#[export] Instance mock_allocator : Allocator (globals * Y) := {
  al_malloc := malloc;
  al_calloc := calloc;
  al_realloc := realloc;
  al_free := free
}.

End MockAllocator.
