(* ===== verification/MockSpec.v ===== *)
(** * The mock allocator implements the allocator interface

    The invariant of the mock allocator, its preservation by every operation and
    the instance of [AllocatorLaws] derived from the one of the C library. *)
From S2P Require Import Prelude CMem CCmd CLib Alloc Registry MockState Bootstrap MockAllocator.

(** The sizes of the tracked blocks. *)
Definition tracked (g : globals) : gmap Z Z := fst <$> registry_map (g_registry g).

Definition total_bytes (m : gmap Z Z) : Z := map_fold (fun _ n acc => n + acc) 0 m.

(** What the development assumes of the dynamic linker and of [write]: the linker
    resolves the four functions, and allocates, if it does, from the bootstrap
    heap; [write] reports at most what it was given. *)
Class PlatformLaws (Y : Type) `{!Platform Y} `{!Allocator Y} `{!AllocatorLaws Y} : Prop := {
  heap_range : 0 < g_bootstrap_heap /\ g_bootstrap_heap + AO_BOOTSTRAP_HEAP_SIZE <= SIZE_MAX;
  dlsym_ok nm s :
    nm = "malloc"%string \/ nm = "calloc"%string \/ nm = "realloc"%string \/ nm = "free"%string ->
    g_in_resolver (fst (ext s)) = 1 -> boot_ok s -> al_inv (snd (ext s)) (mem s) ->
    wp no_exit (dlsym nm) (fun fp s' => fp <> 0 /\ boot_only s s' /\ boot_ok s') s;
  sys_write_ok fd bs s :
    wp no_exit (sys_write fd bs)
      (fun n s' => n <= Z.of_nat (length bs) /\ mem s' = mem s /\ ext s' = ext s) s
}.

(** A block keeps clear of the bootstrap heap. *)
Definition apart_from_heap {Y} `{!Platform Y} (p n : Z) : Prop :=
  p + Z.max 1 n <= g_bootstrap_heap \/ g_bootstrap_heap + AO_BOOTSTRAP_HEAP_SIZE <= p.

(** The state of the mock allocator between two calls, once the real functions
    are resolved. *)
Record mock_inv {Y} `{!Platform Y} `{!Allocator Y} `{!AllocatorLaws Y}
    (x : globals * Y) (m : gmap Z Z) : Prop := {
  mi_lock : g_registry_lock (fst x) = false;
  mi_resolver : g_in_resolver (fst x) = 0;
  mi_once : g_resolve_once (fst x) = true;
  mi_real : g_real_malloc (fst x) <> 0 /\ g_real_calloc (fst x) <> 0 /\
    g_real_realloc (fst x) <> 0 /\ g_real_free (fst x) <> 0;
  mi_heap : mapped m g_bootstrap_heap AO_BOOTSTRAP_HEAP_SIZE;
  mi_libc : al_inv (snd x) m;
  mi_wf : registry_wf (g_registry (fst x));
  mi_sub : tracked (fst x) ⊆ al_live (snd x);
  mi_apart p n : al_live (snd x) !! p = Some n -> apart_from_heap p n;
  mi_blocks : live_blocks (g_stats (fst x)) = u64 (Z.of_nat (size (tracked (fst x))));
  mi_bytes : live_bytes (g_stats (fst x)) = u64 (total_bytes (tracked (fst x)))
}.

(** ** Lemmas on the accounting *)

Lemma total_bytes_insert m p n : m !! p = None -> total_bytes (<[p := n]> m) = n + total_bytes m.
Proof.
  intros H. unfold total_bytes. apply map_fold_insert_L; [|done].
  intros. lia.
Qed.

Lemma total_bytes_delete m p n : m !! p = Some n -> total_bytes (delete p m) = total_bytes m - n.
Proof.
  intros H. rewrite <- (insert_delete_id m p n H) at 2.
  rewrite total_bytes_insert by apply lookup_delete_eq. lia.
Qed.

Lemma size_delete_Z (m : gmap Z Z) p n :
  m !! p = Some n -> Z.of_nat (size (delete p m)) = Z.of_nat (size m) - 1.
Proof.
  intros H. rewrite <- (insert_delete_id m p n H) at 2.
  rewrite map_size_insert_None by apply lookup_delete_eq. lia.
Qed.

Lemma size_tracked g : size (tracked g) = size (registry_map (g_registry g)).
Proof. unfold tracked. apply map_size_fmap. Qed.

Lemma tracked_lookup g p :
  tracked g !! p = fst <$> registry_map (g_registry g) !! p.
Proof. unfold tracked. apply lookup_fmap. Qed.

Lemma good_valid p n : good_block p n -> valid_key p.
Proof.
  intros (H1 & H2 & _). unfold valid_key, AO_REGISTRY_EMPTY, AO_REGISTRY_TOMBSTONE.
  split; [lia|]. intros ->. done.
Qed.

Section Spec.
Context {Y : Type} `{!Platform Y} `{!Allocator Y} `{!AllocatorLaws Y} `{!PlatformLaws Y}.
Implicit Types (g : globals) (y : Y) (m : gmap Z Z).

(** ** Blocks and the bootstrap heap *)

Lemma allocated_apart_heap m live p n m' live' :
  mapped m g_bootstrap_heap AO_BOOTSTRAP_HEAP_SIZE -> allocated m live p n m' live' ->
  apart_from_heap p n.
Proof.
  intros Hm A. unfold apart_from_heap.
  destruct (decide (p + Z.max 1 n <= g_bootstrap_heap \/
    g_bootstrap_heap + AO_BOOTSTRAP_HEAP_SIZE <= p)) as [|Hn]; [done|exfalso].
  destruct (Hm (Z.max p g_bootstrap_heap)) as [b Hb]; [unfold AO_BOOTSTRAP_HEAP_SIZE in *; lia|].
  rewrite (alloc_fresh _ _ _ _ _ _ A) in Hb; [done|lia].
Qed.

Lemma reallocated_apart_heap m live p old q n m' live' :
  mapped m g_bootstrap_heap AO_BOOTSTRAP_HEAP_SIZE -> apart_from_heap p old ->
  reallocated m live p old q n m' live' -> apart_from_heap q n.
Proof.
  intros Hm Hp R. unfold apart_from_heap in *.
  destruct (decide (q + Z.max 1 n <= g_bootstrap_heap \/
    g_bootstrap_heap + AO_BOOTSTRAP_HEAP_SIZE <= q)) as [|Hn]; [done|exfalso].
  set (x := Z.max q g_bootstrap_heap).
  destruct (Hm x) as [b Hb]; [unfold x, AO_BOOTSTRAP_HEAP_SIZE in *; lia|].
  destruct (realloc_fresh _ _ _ _ _ _ _ _ R x); [unfold x; lia|congruence|].
  unfold x, AO_BOOTSTRAP_HEAP_SIZE in *. lia.
Qed.

Lemma apart_contains p n : apart_from_heap p n -> ao_bootstrap_contains p = false.
Proof.
  unfold apart_from_heap, ao_bootstrap_contains, AO_BOOTSTRAP_HEAP_SIZE. intros H.
  apply andb_false_iff. rewrite Z.leb_gt, Z.ltb_ge. lia.
Qed.

Lemma null_not_in_heap : ao_bootstrap_contains 0 = false.
Proof.
  destruct heap_range as [H _]. unfold ao_bootstrap_contains.
  apply andb_false_iff. rewrite Z.leb_gt. lia.
Qed.

(** ** The invariant under the elementary changes *)

Lemma mock_inv_quiet g g' y m : quiet g g' -> mock_inv (g, y) m -> mock_inv (g', y) m.
Proof.
  intros (st & -> & Hb & Hy) I. destruct I; split; cbn in *; try done.
  - by rewrite Hb.
  - by rewrite Hy.
Qed.

Lemma mock_inv_dom x m m' : same_dom m m' -> mock_inv x m -> mock_inv x m'.
Proof.
  intros D I. destruct I; split; cbn in *; try done.
  - by rewrite <- D.
  - by apply (al_inv_dom _ m).
Qed.

(** The globals after a block of [n] bytes is registered in the table [t]. *)
Definition registered (n : Z) (t : gmap Z ao_registry_entry) (g : globals) : globals :=
  live_effect 1 n
    (set_registry t (set_next_allocation_id (u64 (g_next_allocation_id g + 1)) g)).

Lemma tracked_registered n t g : tracked (registered n t g) = fst <$> registry_map t.
Proof. done. Qed.

Lemma mock_inv_registered g y m p n y' m' t :
  mock_inv (g, y) m -> al_inv y' m' ->
  allocated m (al_live y) p n m' (al_live y') -> registry_wf t ->
  registry_map t = <[p := (n, g_next_allocation_id g)]> (registry_map (g_registry g)) ->
  mock_inv (registered n t g, y') m' /\
  allocated m (tracked g) p n m' (tracked (registered n t g)).
Proof.
  intros I I' A WF Hmap.
  assert (Htr : tracked (registered n t g) = <[p := n]> (tracked g)).
  { rewrite tracked_registered, Hmap, fmap_insert. done. }
  assert (Hnew : tracked g !! p = None).
  { pose proof (mi_sub _ _ I) as Hsub. cbn in Hsub.
    apply (lookup_weaken_None _ _ _ (alloc_new _ _ _ _ _ _ A) Hsub). }
  split; [|by destruct A; split].
  destruct I; split; cbn [fst snd] in *; try done.
  - eapply allocated_keeps_mapped; eauto.
  - rewrite Htr, (alloc_live _ _ _ _ _ _ A). by apply insert_mono.
  - intros q k. rewrite (alloc_live _ _ _ _ _ _ A), lookup_insert_Some.
    intros [[<- <-]|[_ Hq]]; [|eauto]. by eapply allocated_apart_heap.
  - unfold registered at 1. rewrite live_effect_blocks, Htr, map_size_insert_None by done.
    cbn [g_stats set_registry set_next_allocation_id].
    rewrite mi_blocks0, u64_add_l. f_equal. lia.
  - unfold registered at 1. rewrite live_effect_bytes, Htr, total_bytes_insert by done.
    cbn [g_stats set_registry set_next_allocation_id].
    rewrite mi_bytes0, u64_add_l. f_equal. lia.
Qed.

(** The globals after a block of [n] bytes leaves the registry, now [t]. *)
Definition unregistered (n : Z) (t : gmap Z ao_registry_entry) (g : globals) : globals :=
  live_effect (-1) (- n) (set_registry t g).

Lemma mock_inv_unregistered g y m p n y' m' t :
  mock_inv (g, y) m -> al_inv y' m' -> mapped m' g_bootstrap_heap AO_BOOTSTRAP_HEAP_SIZE ->
  al_live y' = delete p (al_live y) -> tracked g !! p = Some n -> registry_wf t ->
  registry_map t = delete p (registry_map (g_registry g)) ->
  mock_inv (unregistered n t g, y') m' /\ tracked (unregistered n t g) = delete p (tracked g).
Proof.
  intros I I' Hheap Hlive Hp WF Hmap.
  assert (Htr : tracked (unregistered n t g) = delete p (tracked g)).
  { unfold tracked. cbn. by rewrite Hmap, fmap_delete. }
  split; [|done]. destruct I; split; cbn [fst snd] in *; try done.
  - rewrite Htr, Hlive. by apply delete_mono.
  - intros q k. rewrite Hlive. intros [_ Hq]%lookup_delete_Some. eauto.
  - unfold unregistered at 1. rewrite live_effect_blocks, Htr, size_delete_Z with (n := n) by done.
    cbn [g_stats set_registry]. by rewrite mi_blocks0, u64_add_l.
  - unfold unregistered at 1. rewrite live_effect_bytes, Htr, total_bytes_delete with (n := n) by done.
    cbn [g_stats set_registry]. by rewrite mi_bytes0, u64_add_l.
Qed.

(** The globals after a block of [old] bytes became one of [n] bytes. *)
Definition reregistered (old n : Z) (t : gmap Z ao_registry_entry) (g : globals) : globals :=
  if old =? n then set_registry t g else bump Live_bytes (n - old) (set_registry t g).

Lemma reregistered_fields old n t g :
  g_registry (reregistered old n t g) = t /\
  live_blocks (g_stats (reregistered old n t g)) = live_blocks (g_stats g) /\
  (live_bytes (g_stats g) = u64 (live_bytes (g_stats g)) ->
   live_bytes (g_stats (reregistered old n t g)) = u64 (live_bytes (g_stats g) + (n - old))).
Proof.
  unfold reregistered. destruct (Z.eqb_spec old n) as [->|]; [|done].
  split_and!; [done|done|]. intros H. cbn. rewrite H at 1. f_equal. lia.
Qed.

Lemma mock_inv_reregistered g y m p old q n y' m' t id :
  mock_inv (g, y) m -> al_inv y' m' -> tracked g !! p = Some old ->
  reallocated m (al_live y) p old q n m' (al_live y') -> registry_wf t ->
  registry_map t = <[q := (n, id)]> (delete p (registry_map (g_registry g))) ->
  mock_inv (reregistered old n t g, y') m' /\
  reallocated m (tracked g) p old q n m' (tracked (reregistered old n t g)).
Proof.
  intros I I' Hp R WF Hmap. pose proof (mi_sub _ _ I) as Hsub. cbn in Hsub.
  destruct (reregistered_fields old n t g) as (Hreg & Hblk & Hbytes).
  assert (Htr : tracked (reregistered old n t g) = <[q := n]> (delete p (tracked g))).
  { unfold tracked. by rewrite Hreg, Hmap, fmap_insert, fmap_delete. }
  assert (Hpl : al_live y !! p = Some old) by (by eapply lookup_weaken).
  assert (Hnew : q = p \/ tracked g !! q = None).
  { destruct (realloc_new _ _ _ _ _ _ _ _ R) as [|Hq]; [by left|right].
    by apply (lookup_weaken_None _ _ _ Hq). }
  assert (Hq : delete p (tracked g) !! q = None).
  { destruct Hnew as [->|H]; [apply lookup_delete_eq|]. rewrite lookup_delete. by case_decide. }
  assert (Hout : forall x, g_bootstrap_heap <= x < g_bootstrap_heap + AO_BOOTSTRAP_HEAP_SIZE ->
    m' !! x = m !! x).
  { intros x Hx. pose proof (mi_apart _ _ I _ _ Hpl) as H1.
    pose proof (reallocated_apart_heap _ _ _ _ _ _ _ _ (mi_heap _ _ I) H1 R) as H2.
    unfold apart_from_heap in *. apply (realloc_frame _ _ _ _ _ _ _ _ R); lia. }
  split; [|by destruct R; split].
  destruct I; split; cbn [fst snd] in *;
    try (unfold reregistered; destruct (old =? n); done); try done.
  - intros x Hx. rewrite Hout by done. by apply mi_heap0.
  - rewrite Htr, (realloc_live _ _ _ _ _ _ _ _ R). by apply insert_mono, delete_mono.
  - intros q' k. rewrite (realloc_live _ _ _ _ _ _ _ _ R), lookup_insert_Some.
    intros [[<- <-]|[_ [_ Hq']%lookup_delete_Some]]; [|eauto].
    by eapply reallocated_apart_heap; [..|eauto]; eauto.
  - rewrite Hblk, Htr, map_size_insert_None, mi_blocks0 by done. f_equal.
    pose proof (size_delete_Z _ _ _ Hp). lia.
  - rewrite Hbytes, Htr, total_bytes_insert, mi_bytes0, u64_add_l by
      (done || by rewrite mi_bytes0, u64_idemp).
    f_equal. rewrite (total_bytes_delete _ _ _ Hp). lia.
Qed.

(** ** Commands *)

Lemma wp_ensure E Q g y m e :
  g_resolve_once g = true -> Q tt (St m e (g, y)) ->
  wp E ao_ensure_real_functions Q (St m e (g, y)).
Proof.
  intros H HQ. apply wp_bind. eapply acts_wp; [apply acts_get|]. cbn. by rewrite H.
Qed.

Lemma wp_in_resolver E Q g y m e :
  g_in_resolver g = 0 -> Q false (St m e (g, y)) -> wp E in_resolver Q (St m e (g, y)).
Proof.
  intros H HQ. apply wp_bind. eapply acts_wp; [apply acts_get|]. cbn. rewrite H. by apply wp_ret.
Qed.

Lemma wp_call_real {A} E fp (f : C Y A) Q g y m e :
  fp g <> 0 ->
  wp E f (fun a s' => Q a (St (mem s') (errno s') (g, ext s'))) (St m e y) ->
  wp E (call_real fp f) Q (St m e (g, y)).
Proof.
  intros H HQ. apply wp_bind. eapply acts_wp; [apply acts_get|]. cbn [fst snd ext mem errno].
  destruct (Z.eqb_spec (fp g) 0); [done|]. by apply wp_lift.
Qed.

Lemma wp_lock E Q g y m e :
  g_registry_lock g = false -> Q tt (St m e (set_registry_lock true g, y)) ->
  wp E ao_registry_lock Q (St m e (g, y)).
Proof.
  intros H HQ. apply wp_bind. eapply acts_wp; [apply acts_get|]. cbn [fst snd ext mem errno].
  rewrite H. eapply acts_wp; [apply acts_mod|]. done.
Qed.

Lemma wp_write_literal E message s (Q : unit -> st (globals * Y) -> Prop) :
  (forall e, Q tt (St (mem s) e (ext s))) -> Q tt s -> wp E (ao_write_literal message) Q s.
Proof.
  unfold ao_write_literal. intros HQ.
  assert (H : forall fuel msg s', (length msg <= fuel)%nat -> mem s' = mem s -> ext s' = ext s ->
    wp E (write_literal_loop fuel msg) Q s').
  { induction fuel as [|fuel IH]; intros msg s' Hf Hm Hx; cbn [write_literal_loop];
      destruct (Z.ltb_spec 0 (Z.of_nat (length msg))) as [Hl|_];
      try (apply wp_ret; destruct s' as [m' e' x']; cbn in *; subst; apply HQ); [lia|].
    apply wp_bind. eapply wp_mono; [eapply wp_exits; [by apply sys_write_ok|done]|].
    intros w s1 (Hw & Hm1 & Hx1). destruct (Z.leb_spec w 0).
    { apply wp_ret. destruct s1 as [m' e' x']; cbn in *; subst.
      rewrite Hm, Hx. apply HQ. }
    destruct (Z.ltb_spec (Z.of_nat (length msg)) w); [lia|].
    apply IH; [rewrite length_drop; lia|congruence|congruence]. }
  intros _. by apply H.
Qed.

Lemma wp_fatal {A} (E : Z -> Prop) message s (Q : A -> st (globals * Y) -> Prop) :
  E 127 -> wp E (ao_fatal message) Q s.
Proof. intros HE. apply wp_bind. by apply wp_write_literal. Qed.

Lemma full_iff g :
  registry_wf (g_registry g) ->
  (forall i, 0 <= i < AO_REGISTRY_CAPACITY -> valid_key (key (get_entry (g_registry g) i))) ->
  Z.of_nat (size (tracked g)) = AO_REGISTRY_CAPACITY.
Proof. intros WF H. rewrite size_tracked. by apply registry_full_size. Qed.

Ltac mock_cbn := cbn [fst snd ext mem errno].

(** Read the globals. *)
Ltac mock_get := apply wp_bind; eapply acts_wp; [apply acts_get|]; mock_cbn.
(** Run a command whose effect is a function of the globals. *)
Ltac mock_act := apply wp_bind; eapply acts_wp; [solve [auto with acts]|]; mock_cbn.

Lemma acts_unlock : acts (ao_registry_unlock (Y:=Y)) (fun g => (tt, set_registry_lock false g)).
Proof. apply acts_mod. Qed.
#[local] Hint Resolve acts_unlock : acts.

Lemma wp_registry_insert E p n id Q g y m e :
  registry_wf (g_registry g) -> valid_key p ->
  (forall t, registry_wf t -> registry_map t = <[p := (n, id)]> (registry_map (g_registry g)) ->
    Q true (St m e (set_registry t g, y))) ->
  (Z.of_nat (size (tracked g)) = AO_REGISTRY_CAPACITY -> tracked g !! p = None ->
    Q false (St m e (g, y))) ->
  wp E (registry_insert p n id) Q (St m e (g, y)).
Proof.
  intros WF V Hok Hfull. unfold registry_insert. mock_get.
  destruct (insert_locked_map (g_registry g) p n id WF V)
    as [(t & -> & WFt & Ht)|(-> & Hp & Hall)].
  - mock_act. by apply wp_ret, Hok.
  - mock_act. apply wp_ret. replace (set_registry (g_registry g) g) with g by (by destruct g).
    apply Hfull; [by apply full_iff|]. by rewrite tracked_lookup, Hp.
Qed.

Lemma wp_registry_remove E p Q g y m e :
  registry_wf (g_registry g) -> valid_key p ->
  (forall t, registry_wf t -> registry_map t = delete p (registry_map (g_registry g)) ->
    Q (registry_map (g_registry g) !! p) (St m e (set_registry t g, y))) ->
  wp E (registry_remove p) Q (St m e (g, y)).
Proof.
  intros WF V HQ. unfold registry_remove. mock_get.
  destruct (remove_locked_map (g_registry g) p WF V) as (t & -> & WFt & Ht).
  mock_act. by apply wp_ret, HQ.
Qed.

Lemma wp_track E p n Q g y m e :
  g_registry_lock g = false -> registry_wf (g_registry g) -> valid_key p ->
  (forall t, registry_wf t ->
    registry_map t = <[p := (n, g_next_allocation_id g)]> (registry_map (g_registry g)) ->
    Q tt (St m e (registered n t g, y))) ->
  (Z.of_nat (size (tracked g)) = AO_REGISTRY_CAPACITY -> tracked g !! p = None -> E 127) ->
  wp E (ao_track_allocation_or_die p n) Q (St m e (g, y)).
Proof.
  intros HL WF V HQ HE. apply wp_bind, wp_lock; [done|].
  mock_act. apply wp_bind, wp_registry_insert; [exact WF|done| |].
  - intros t WFt Ht. mock_act. apply wp_bind, wp_ret.
    eapply acts_wp; [apply acts_live_add|]. mock_cbn.
    specialize (HQ t WFt Ht). unfold registered in HQ.
    assert (Hg : set_registry_lock false (set_registry t
        (set_next_allocation_id (u64 (g_next_allocation_id g + 1)) (set_registry_lock true g))) =
      set_registry t (set_next_allocation_id (u64 (g_next_allocation_id g + 1)) g))
      by (destruct g; cbn in *; by subst).
    change (g_next_allocation_id (set_registry_lock true g)) with (g_next_allocation_id g).
    by rewrite Hg.
  - intros Hsize Hnone. mock_act. apply wp_bind. by apply wp_fatal, HE.
Qed.

(** ** [malloc], [calloc] and [realloc] of a null pointer *)

(** The outcome of an allocation of [n] bytes, kind [kind], from the globals
    [g]: a failure recorded, or a fresh block registered and recorded. *)
Definition alloc_outcome (kind n : Z) g y m (p : Z) (s' : st (globals * Y)) : Prop :=
  mock_inv (ext s') (mem s') /\
  ((p = 0 /\ mem s' = m /\ errno s' = ENOMEM /\ fst (ext s') = failed_effect g) \/
   (p <> 0 /\ exists t, fst (ext s') = success_effect kind n (registered n t g) /\
      registry_map t = <[p := (n, g_next_allocation_id g)]> (registry_map (g_registry g)) /\
      allocated m (tracked g) p n (mem s') (tracked (registered n t g)))).

Lemma mul_overflow_test k n :
  0 <= k -> 0 <= n -> negb (k =? 0) && (SIZE_MAX / k <? n) = negb (k * n <=? SIZE_MAX).
Proof.
  intros Hk Hn. destruct (Z.eqb_spec k 0) as [->|]; [done|]. cbn [negb andb].
  destruct (Z.ltb_spec (SIZE_MAX / k) n) as [H|H]; destruct (Z.leb_spec (k * n) SIZE_MAX); try done.
  - assert (n <= SIZE_MAX / k) by (apply Z.div_le_lower_bound; lia). lia.
  - assert (k * n <= SIZE_MAX); [|lia]. pose proof (Z.mul_div_le SIZE_MAX k). nia.
Qed.

Section Allocation.
Context (E : Z -> Prop) (HE : forall c, al_exits c -> E c) (g : globals) (y : Y) (m : gmap Z Z).
Context (I : mock_inv (g, y) m).
Context (HF : Z.of_nat (size (tracked g)) = AO_REGISTRY_CAPACITY -> E 127).

(** What follows a successful call of the real function. *)
Lemma wp_register kind p n y' m' e :
  al_inv y' m' -> allocated m (al_live y) p n m' (al_live y') ->
  wp E (do* ao_track_allocation_or_die p n in
        do* ao_record_successful_allocation kind n in ret p)
    (fun q s' => (q = p /\ mem s' = m' /\ snd (ext s') = y') /\ alloc_outcome kind n g y m q s')
    (St m' e (g, y')).
Proof.
  intros I' A. apply wp_bind, wp_track;
    [apply I|apply I|eapply good_valid, (alloc_good _ _ _ _ _ _ A)| |by intros; apply HF].
  intros t WFt Ht. mock_act. apply wp_ret. split; [done|]. unfold alloc_outcome. mock_cbn.
  destruct (mock_inv_registered g y m p n y' m' t I I' A WFt Ht) as [I1 A1].
  split; [by eapply mock_inv_quiet; [apply success_quiet|]|]. right.
  split; [|by exists t]. destruct (alloc_good _ _ _ _ _ _ A). lia.
Qed.

(** What follows a failed one. *)
Lemma wp_alloc_failed kind n y' e :
  al_inv y' m -> al_live y' = al_live y -> e = ENOMEM ->
  wp E (do* ao_record_failed_allocation in ret 0)
    (fun q s' => (q = 0 /\ snd (ext s') = y') /\ alloc_outcome kind n g y m q s') (St m e (g, y')).
Proof.
  intros I' Hl ->. mock_act. apply wp_ret. split; [done|]. unfold alloc_outcome. mock_cbn. split; [|by left].
  eapply mock_inv_quiet; [apply failed_quiet|]. destruct I; split; cbn [fst snd] in *; try done.
  - by rewrite Hl.
  - intros q k. rewrite Hl. eauto.
Qed.

Lemma malloc_wp n e :
  0 <= n <= SIZE_MAX -> wp E (malloc n) (alloc_outcome 0 n g y m) (St m e (g, y)).
Proof.
  intros Hn. apply wp_bind, wp_in_resolver; [apply I|]. apply wp_bind, wp_ensure; [apply I|].
  apply wp_bind, wp_call_real; [apply I|].
  eapply wp_mono; [eapply wp_exits; [apply al_malloc_ok; [apply I|done]|done]|].
  intros p [m' e' y'] (I' & [[-> (Hm & Hl & He)]|[Hp A]]); mock_cbn; cbn in *.
  - subst m'. eapply wp_mono; [by apply wp_alloc_failed|]. by intros ?? [].
  - destruct (Z.eqb_spec p 0); [done|]. eapply wp_mono; [by apply wp_register|]. by intros ?? [].
Qed.

(** What [malloc] does to the blocks of the C library. *)
Lemma malloc_live_wp n e :
  0 <= n <= SIZE_MAX ->
  wp E (malloc n) (fun p s' =>
    (p = 0 /\ al_live (snd (ext s')) = al_live y) \/
    (p <> 0 /\ al_live y !! p = None /\ al_live (snd (ext s')) = <[p := n]> (al_live y)))
    (St m e (g, y)).
Proof.
  intros Hn. apply wp_bind, wp_in_resolver; [apply I|]. apply wp_bind, wp_ensure; [apply I|].
  apply wp_bind, wp_call_real; [apply I|].
  eapply wp_mono; [eapply wp_exits; [apply al_malloc_ok; [apply I|done]|done]|].
  intros p [m' e' y'] (I' & [[-> (Hm & Hl & He)]|[Hp A]]); mock_cbn; cbn in *.
  - subst m'. eapply wp_mono; [by apply (wp_alloc_failed 0 n)|]. intros p s' [[-> ->] _]. by left.
  - destruct (Z.eqb_spec p 0); [done|]. eapply wp_mono; [by apply (wp_register 0)|].
    intros q s' [(-> & _ & ->) _]. right. split_and!; [done|apply A|apply A].
Qed.

Lemma realloc_null_wp n e :
  0 <= n <= SIZE_MAX -> wp E (realloc 0 n) (alloc_outcome 2 n g y m) (St m e (g, y)).
Proof.
  intros Hn. apply wp_bind, wp_in_resolver; [apply I|]. cbn iota. rewrite null_not_in_heap.
  apply wp_bind, wp_ensure; [apply I|]. rewrite Z.eqb_refl.
  apply wp_bind, wp_call_real; [apply I|].
  eapply wp_mono; [eapply wp_exits; [apply al_realloc_null; [apply I|done]|done]|].
  intros p [m' e' y'] (I' & [[-> (Hm & Hl & He)]|[Hp A]]); mock_cbn; cbn in *.
  - subst m'. eapply wp_mono; [by apply wp_alloc_failed|]. by intros ?? [].
  - destruct (Z.eqb_spec p 0); [done|]. eapply wp_mono; [by apply wp_register|]. by intros ?? [].
Qed.

Lemma calloc_wp k n e :
  0 <= k <= SIZE_MAX -> 0 <= n <= SIZE_MAX ->
  wp E (calloc k n)
    (fun p s' => alloc_outcome 1 (k * n) g y m p s' /\
       (p <> 0 -> k * n <= SIZE_MAX /\ forall x, p <= x < p + k * n -> mem s' !! x = Some 0))
    (St m e (g, y)).
Proof.
  intros Hk Hn. apply wp_bind, wp_in_resolver; [apply I|]. cbn iota.
  rewrite mul_overflow_test by lia. destruct (Z.leb_spec (k * n) SIZE_MAX) as [Hkn|Hkn]; cbn [negb].
  2: { apply wp_bind, wp_set_errno. mock_cbn.
       eapply wp_mono; [apply (wp_alloc_failed 1 (k * n)); [apply I|done|done]|].
       by intros p s' [[-> _] ?]. }
  rewrite u64_small by nia.
  apply wp_bind, wp_ensure; [apply I|]. apply wp_bind, wp_call_real; [apply I|].
  eapply wp_mono; [eapply wp_exits; [apply al_calloc_ok; [apply I|done|done]|done]|].
  intros p [m' e' y'] (I' & [[-> (Hm & Hl & He)]|(Hp & _ & A & HZ)]); mock_cbn; cbn in *.
  - subst m'. eapply wp_mono; [by apply (wp_alloc_failed 1 (k * n))|]. by intros p s' [[-> _] ?].
  - destruct (Z.eqb_spec p 0); [done|]. eapply wp_mono; [by apply wp_register|].
    intros q s' [(-> & -> & _) ?]. by split.
Qed.

End Allocation.

(** ** [realloc] of a block, [free], and the bridge *)

Lemma realloc_effect_registry b t g :
  realloc_effect b (set_registry t g) = set_registry t (realloc_effect b g).
Proof. unfold realloc_effect, capturing. cbn. by destruct (0 <? g_capture_depth g), b. Qed.

Lemma free_effect_registry b t g :
  free_effect b (set_registry t g) = set_registry t (free_effect b g).
Proof. unfold free_effect, capturing. cbn. by destruct (0 <? g_capture_depth g), b. Qed.

Lemma quiet_same g g' :
  quiet g g' -> tracked g' = tracked g /\ g_registry g' = g_registry g /\
    g_registry_lock g' = g_registry_lock g /\ g_real_free g' = g_real_free g /\
    g_real_realloc g' = g_real_realloc g.
Proof. by intros (st & -> & _). Qed.

Lemma unlock_registry t g :
  g_registry_lock g = false ->
  set_registry_lock false (set_registry t (set_registry_lock true g)) = set_registry t g.
Proof. destruct g; cbn. by intros ->. Qed.

Lemma set_registry_twice t t' g : set_registry t' (set_registry t g) = set_registry t' g.
Proof. done. Qed.

Lemma relock g :
  g_registry_lock g = false -> set_registry_lock false (set_registry_lock true g) = g.
Proof. destruct g; cbn. by intros ->. Qed.

Lemma tracked_registry_map g p n :
  tracked g !! p = Some n -> exists id, registry_map (g_registry g) !! p = Some (n, id).
Proof.
  rewrite tracked_lookup. intros ([k id] & Hp & [=])%fmap_Some. subst. by exists id.
Qed.

Lemma freed_heap m live p n m' live' :
  mapped m g_bootstrap_heap AO_BOOTSTRAP_HEAP_SIZE -> apart_from_heap p n ->
  freed m live p n m' live' -> mapped m' g_bootstrap_heap AO_BOOTSTRAP_HEAP_SIZE.
Proof.
  intros Hm Ha F x Hx. rewrite (freed_frame _ _ _ _ _ _ F); [by apply Hm|].
  unfold apart_from_heap in Ha. lia.
Qed.

(** The outcome of [realloc(p, n)] for a tracked block of [old] bytes. *)
Definition realloc_outcome (p old n : Z) g y m (q : Z) (s' : st (globals * Y)) : Prop :=
  let g1 := realloc_effect false g in
  mock_inv (ext s') (mem s') /\
  ((q = 0 /\ n <> 0 /\ mem s' = m /\ errno s' = ENOMEM /\ fst (ext s') = failed_effect g1) \/
   (q = 0 /\ n = 0 /\ exists t, fst (ext s') = unregistered old t g1 /\
      freed m (tracked g) p old (mem s') (tracked (unregistered old t g1))) \/
   (q <> 0 /\ exists t, fst (ext s') = reregistered old n t g1 /\
      reallocated m (tracked g) p old q n (mem s') (tracked (reregistered old n t g1)))).

Section Blocks.
Context (E : Z -> Prop) (HE : forall c, al_exits c -> E c) (g : globals) (y : Y) (m : gmap Z Z).
Context (I : mock_inv (g, y) m) (p old : Z) (Hp : tracked g !! p = Some old).

Lemma tracked_libc : al_live y !! p = Some old.
Proof using I Hp. eapply lookup_weaken; [exact Hp|apply I]. Qed.

Lemma tracked_good : good_block p old /\ apart_from_heap p old /\ valid_key p /\ p <> 0.
Proof using I Hp.
  pose proof tracked_libc as Hl. pose proof (al_live_block _ _ _ _ (mi_libc _ _ I) Hl) as [G _].
  split_and!; [done|by apply (mi_apart _ _ I)|by eapply good_valid|]. destruct G. lia.
Qed.

(** After the real [realloc] moved the block: the registry follows. *)
Lemma wp_reregister q n id y' m' e :
  q <> 0 -> al_inv y' m' -> reallocated m (al_live y) p old q n m' (al_live y') ->
  wp E (do* ao_registry_lock in
        do* registry_remove p in
        do* (let* inserted := registry_insert q n id in
             if negb inserted then
               do* ao_registry_unlock in
               ao_fatal "mock_allocator: allocation registry exhausted during realloc
"
             else ret tt) in
        do* ao_registry_unlock in
        do* ao_record_realloc false in
        do* ao_live_update old n in
        ret q) (realloc_outcome p old n g y m) (St m' e (g, y')).
Proof.
  intros Hq I' R. destruct tracked_good as (_ & _ & V & _).
  apply wp_bind, wp_lock; [apply I|].
  apply wp_bind, wp_registry_remove; [exact (mi_wf _ _ I)|done|]. intros t1 WF1 Ht1.
  assert (Vq : valid_key q) by (eapply good_valid, (realloc_good _ _ _ _ _ _ _ _ R)).
  apply wp_bind, wp_bind, wp_registry_insert; [exact WF1|done| |].
  - intros t WFt Ht. cbn [negb]. apply wp_ret. mock_act. mock_act. mock_act. apply wp_ret.
    rewrite set_registry_twice, unlock_registry by apply I. rewrite realloc_effect_registry.
    fold (reregistered old n t (realloc_effect false g)).
    cbn [g_registry set_registry] in Ht. rewrite Ht1 in Ht. cbn in Ht.
    destruct (quiet_same _ _ (realloc_quiet false g)) as (Htr & Hreg & _).
    edestruct (mock_inv_reregistered (realloc_effect false g) y m p old q n y' m' t id)
      as [I1 R1]; [by eapply mock_inv_quiet; [apply realloc_quiet|]|done|by rewrite Htr|done|done
                  |by rewrite Hreg|].
    unfold realloc_outcome. split; [done|]. right; right. split; [done|]. exists t.
    split; [done|]. by rewrite Htr in R1.
  - (* the removal left room *)
    intros Hfull _. exfalso. rewrite size_tracked in Hfull. cbn in Hfull. rewrite Ht1 in Hfull.
    destruct (tracked_registry_map g p old Hp) as [id' Hid].
    pose proof (registry_map_size _ (mi_wf _ _ I)) as Hle. cbn in Hle, Hfull.
    rewrite <- (insert_delete_id _ _ _ Hid), map_size_insert_None in Hle by apply lookup_delete_eq.
    lia.
Qed.

(** After the real [realloc] of zero bytes freed the block. *)
Lemma wp_unregister y' m' e :
  al_inv y' m' -> freed m (al_live y) p old m' (al_live y') ->
  wp E (do* ao_registry_lock in
        do* registry_remove p in
        do* ret tt in
        do* ao_registry_unlock in
        do* ao_record_realloc false in
        do* ao_live_remove old in
        ret 0) (realloc_outcome p old 0 g y m) (St m' e (g, y')).
Proof.
  intros I' F. destruct tracked_good as (_ & Ha & V & _).
  apply wp_bind, wp_lock; [apply I|].
  apply wp_bind, wp_registry_remove; [exact (mi_wf _ _ I)|done|]. intros t WFt Ht.
  apply wp_bind, wp_ret. mock_act. mock_act. mock_act. apply wp_ret.
  rewrite unlock_registry by apply I. rewrite realloc_effect_registry.
  fold (unregistered old t (realloc_effect false g)). cbn in Ht.
  destruct (quiet_same _ _ (realloc_quiet false g)) as (Htr & Hreg & _).
  edestruct (mock_inv_unregistered (realloc_effect false g) y m p old y' m' t)
    as [I1 F1]; [by eapply mock_inv_quiet; [apply realloc_quiet|]|done
                |by eapply freed_heap; [apply I|done|done]|apply F|by rewrite Htr|done
                |by rewrite Hreg|].
  unfold realloc_outcome. split; [done|]. right; left. do 2 (split; [done|]). exists t.
  split; [done|]. rewrite Htr in F1. by destruct F; split.
Qed.

Lemma realloc_wp n e :
  0 <= n <= SIZE_MAX -> wp E (realloc p n) (realloc_outcome p old n g y m) (St m e (g, y)).
Proof.
  intros Hn. destruct tracked_good as (_ & Ha & V & Hp0).
  apply wp_bind, wp_in_resolver; [apply I|]. cbn iota. rewrite (apart_contains _ _ Ha).
  apply wp_bind, wp_ensure; [apply I|]. destruct (Z.eqb_spec p 0); [done|].
  apply wp_bind, wp_lock; [apply I|]. unfold registry_lookup.
  apply wp_bind. mock_get. apply wp_ret. mock_act. rewrite relock by apply I.
  cbn [g_registry set_registry_lock]. rewrite lookup_locked_map by (done || apply I).
  destruct (tracked_registry_map g p old Hp) as [id ->].
  unfold realloc_tracked. apply wp_bind, wp_call_real; [apply I|].
  eapply wp_mono; [eapply wp_exits; [apply (al_realloc_ok p old); [apply I|apply tracked_libc|done]|done]|].
  intros q [m' e' y'] (I' & [(-> & Hn0 & Hm & Hl & He)|[(-> & -> & F)|[Hq R]]]);
    mock_cbn; cbn [mem ext errno] in *.
  - destruct (Z.eqb_spec n 0); [done|]. cbn [Z.eqb negb andb].
    subst m'. mock_act. mock_act. apply wp_ret. unfold realloc_outcome. mock_cbn.
    split; [|by left].
    eapply mock_inv_quiet; [etransitivity; [apply realloc_quiet|apply failed_quiet]|].
    pose proof I as I0. destruct I0; split; cbn [fst snd] in *; try done.
    + by rewrite Hl.
    + intros q k. rewrite Hl. eauto.
  - by apply wp_unregister.
  - destruct (Z.eqb_spec q 0); [done|]. cbn [andb negb]. by apply wp_reregister.
Qed.

Lemma free_wp e :
  wp E (free p) (fun _ s' => mock_inv (ext s') (mem s') /\
    exists t, fst (ext s') = unregistered old t (free_effect false g) /\
      freed m (tracked g) p old (mem s') (tracked (fst (ext s')))) (St m e (g, y)).
Proof.
  destruct tracked_good as (_ & Ha & V & Hp0). unfold free.
  destruct (Z.eqb_spec p 0); [done|]. rewrite (apart_contains _ _ Ha).
  apply wp_bind, wp_in_resolver; [apply I|]. cbn iota. apply wp_bind, wp_ensure; [apply I|].
  apply wp_bind, wp_lock; [apply I|].
  apply wp_bind, wp_registry_remove; [exact (mi_wf _ _ I)|done|]. intros t WFt Ht.
  cbn [g_registry set_registry_lock] in Ht |- *.
  destruct (tracked_registry_map g p old Hp) as [id Hid]. rewrite Hid. mock_act.
  rewrite bool_decide_eq_true_2 by done. cbn [negb]. mock_act. mock_act.
  rewrite unlock_registry by apply I. rewrite free_effect_registry.
  fold (unregistered old t (free_effect false g)).
  destruct (quiet_same _ _ (free_quiet false g)) as (Htr & Hreg & _ & Hrf & _).
  apply wp_call_real; [change (g_real_free (free_effect false g) <> 0); rewrite Hrf; apply I|].
  eapply wp_mono; [eapply wp_exits; [apply (al_free_ok p old); [apply I|apply tracked_libc]|done]|].
  intros [] [m' e' y'] (I' & F). mock_cbn. cbn [mem ext] in *.
  edestruct (mock_inv_unregistered (free_effect false g) y m p old y' m' t)
    as [I1 F1]; [by eapply mock_inv_quiet; [apply free_quiet|]|done
                |by eapply freed_heap; [apply I|done|done]|apply F|by rewrite Htr|done
                |by rewrite Hreg|].
  split; [done|]. exists t. split; [done|]. rewrite F1, Htr. by destruct F; split.
Qed.

(** What [free] does to the blocks of the C library. *)
Lemma free_live_wp e :
  wp E (free p) (fun _ s' => al_live (snd (ext s')) = delete p (al_live y)) (St m e (g, y)).
Proof.
  destruct tracked_good as (_ & Ha & V & Hp0). unfold free.
  destruct (Z.eqb_spec p 0); [done|]. rewrite (apart_contains _ _ Ha).
  apply wp_bind, wp_in_resolver; [apply I|]. cbn iota. apply wp_bind, wp_ensure; [apply I|].
  apply wp_bind, wp_lock; [apply I|].
  apply wp_bind, wp_registry_remove; [exact (mi_wf _ _ I)|done|]. intros t WFt Ht.
  cbn [g_registry set_registry_lock] in Ht |- *.
  destruct (tracked_registry_map g p old Hp) as [id Hid]. rewrite Hid. mock_act.
  rewrite bool_decide_eq_true_2 by done. cbn [negb]. mock_act. mock_act.
  rewrite unlock_registry by apply I. rewrite free_effect_registry.
  destruct (quiet_same _ _ (free_quiet false g)) as (Htr & Hreg & _ & Hrf & _).
  apply wp_call_real; [change (g_real_free (free_effect false g) <> 0); rewrite Hrf; apply I|].
  eapply wp_mono; [eapply wp_exits; [apply (al_free_ok p old); [apply I|apply tracked_libc]|done]|].
  intros [] [m' e' y'] (I' & F). apply F.
Qed.

End Blocks.

(** ** Queries and the bridge *)

Lemma is_tracked_wp E g y m e p :
  mock_inv (g, y) m -> p mod 16 = 0 ->
  wp E (ao_mock_is_tracked_allocation p)
    (fun b s' => b = bool_decide (is_Some (tracked g !! p)) /\ s' = St m e (g, y)) (St m e (g, y)).
Proof.
  intros I Hal. unfold ao_mock_is_tracked_allocation.
  destruct (Z.eqb_spec p 0) as [->|Hp].
  { apply wp_ret. split; [|done]. symmetry. apply bool_decide_eq_false_2. intros [n Hn].
    destruct (tracked_good g y m I 0 n Hn) as (_ & _ & _ & []). done. }
  assert (V : valid_key p).
  { unfold valid_key, AO_REGISTRY_EMPTY, AO_REGISTRY_TOMBSTONE. split; [done|]. by intros ->. }
  apply wp_bind, wp_lock; [apply I|]. unfold registry_lookup.
  apply wp_bind. mock_get. apply wp_ret. mock_act. apply wp_ret.
  rewrite relock by apply I. split; [|done].
  cbn [g_registry set_registry_lock]. rewrite lookup_locked_map by (done || apply I).
  apply bool_decide_ext. rewrite tracked_lookup. by rewrite fmap_is_Some.
Qed.

(** A block of the C library the registry does not know, freed behind its back. *)
Lemma mock_inv_bypass g y m p n y' m' :
  mock_inv (g, y) m -> al_inv y' m' -> al_live y !! p = Some n -> tracked g !! p = None ->
  freed m (al_live y) p n m' (al_live y') -> mock_inv (g, y') m'.
Proof.
  intros I I' Hp Ht F. pose proof (mi_apart _ _ I p n Hp) as Ha.
  pose proof (freed_heap _ _ _ _ _ _ (mi_heap _ _ I) Ha F) as Hheap.
  pose proof (freed_live _ _ _ _ _ _ F) as Hl.
  destruct I; split; cbn [fst snd] in *; try done.
  - rewrite Hl, <- (delete_id (tracked g) p Ht). by apply delete_mono.
  - intros q k. rewrite Hl. intros [_ Hq]%lookup_delete_Some. eauto.
Qed.

Lemma bridge_free_wp E g y m e p n :
  (forall c, al_exits c -> E c) ->
  mock_inv (g, y) m -> al_live y !! p = Some n -> tracked g !! p = None ->
  wp E (ao_alloc_bridge_libc_free p)
    (fun _ s' => mock_inv (ext s') (mem s') /\ fst (ext s') = g /\
       freed m (al_live y) p n (mem s') (al_live (snd (ext s')))) (St m e (g, y)).
Proof.
  intros HE I Hp Ht. unfold ao_alloc_bridge_libc_free.
  destruct (al_live_block _ _ _ _ (mi_libc _ _ I) Hp) as [[Hp0 _] _].
  destruct (Z.eqb_spec p 0); [lia|]. apply wp_bind, wp_ensure; [apply I|].
  apply wp_call_real; [apply I|].
  eapply wp_mono; [eapply wp_exits; [apply (al_free_ok p n); [apply I|done]|done]|].
  intros [] [m' e' y'] (I' & F). cbn in *. split; [by eapply mock_inv_bypass|done].
Qed.

(** [free] of such a block counts as a bypass and leaves the registry alone. *)
Lemma free_untracked_wp E g y m e p n :
  (forall c, al_exits c -> E c) ->
  mock_inv (g, y) m -> al_live y !! p = Some n -> tracked g !! p = None ->
  wp E (free p)
    (fun _ s' => mock_inv (ext s') (mem s') /\ tracked (fst (ext s')) = tracked g /\
       g_stats (fst (ext s')) = g_stats (free_effect true g) /\
       freed m (al_live y) p n (mem s') (al_live (snd (ext s')))) (St m e (g, y)).
Proof.
  intros HE I Hp Ht.
  destruct (al_live_block _ _ _ _ (mi_libc _ _ I) Hp) as [G _].
  pose proof (good_valid _ _ G) as V. unfold free.
  destruct (Z.eqb_spec p 0); [destruct G; lia|].
  rewrite (apart_contains _ _ (mi_apart _ _ I p n Hp)).
  apply wp_bind, wp_in_resolver; [apply I|]. cbn iota. apply wp_bind, wp_ensure; [apply I|].
  apply wp_bind, wp_lock; [apply I|].
  apply wp_bind, wp_registry_remove; [exact (mi_wf _ _ I)|done|]. intros t WFt Hmt.
  cbn [g_registry set_registry_lock] in Hmt |- *.
  assert (Hnone : registry_map (g_registry g) !! p = None).
  { rewrite tracked_lookup in Ht. by apply fmap_None in Ht. }
  rewrite Hnone. mock_act. rewrite bool_decide_eq_false_2 by (by intros []). cbn [negb].
  mock_act. apply wp_bind, wp_ret.
  rewrite unlock_registry by apply I. rewrite free_effect_registry.
  destruct (quiet_same _ _ (free_quiet true g)) as (Htr & Hreg & _ & Hrf & _).
  assert (I1 : mock_inv (set_registry t (free_effect true g), y) m).
  { assert (Htt : tracked (set_registry t (free_effect true g)) = tracked g).
    { unfold tracked at 1. cbn. rewrite Hmt, delete_id by done. done. }
    pose proof (mock_inv_quiet _ _ _ _ (free_quiet true g) I) as I1.
    destruct I1; split; cbn [fst snd] in *; try done; rewrite Htt; by rewrite Htr in *. }
  apply wp_call_real; [exact (proj2 (proj2 (proj2 (mi_real _ _ I1))))|].
  eapply wp_mono; [eapply wp_exits; [apply (al_free_ok p n); [apply I|done]|done]|].
  intros [] [m' e' y'] (I' & F). cbn [mem ext fst snd] in *.
  assert (Htt : tracked (set_registry t (free_effect true g)) = tracked g).
  { unfold tracked at 1. cbn. rewrite Hmt, delete_id by done. done. }
  split; [|by split].
  eapply mock_inv_bypass; [exact I1|done|done|by rewrite Htt|done].
Qed.

(** ** The instance *)

#[export] Program Instance mock_laws : AllocatorLaws (globals * Y) := {
  al_inv := mock_inv;
  al_live x := tracked (fst x);
  al_exits c := c = 127 \/ al_exits c
}.
Next Obligation. intros x m m'. apply mock_inv_dom. Qed.
Next Obligation.
  intros [g y] m p n I Hp. destruct (tracked_good g y m I p n Hp) as [G _].
  split; [done|]. apply (al_live_block y m p n); [apply I|]. by apply (tracked_libc g y m I).
Qed.
Next Obligation.
  intros [g y] m p n q k I Hp Hq. cbn in *.
  apply (al_live_disjoint y m p n q k); [apply I|by apply (tracked_libc g y m I)..].
Qed.
Next Obligation.
  intros n [m e [g y]] I Hn. cbn in *.
  eapply wp_mono; [apply malloc_wp; [by right|exact I|by left|done]|].
  intros p s' [I' [(-> & Hm & He & Hg)|(Hp & t & Hg & _ & A)]].
  - split; [done|]. left. split; [done|]. split_and!; [done| |done]. rewrite Hg.
    apply (quiet_same _ _ (failed_quiet g)).
  - split; [done|]. right. split; [done|]. rewrite Hg.
    by rewrite (proj1 (quiet_same _ _ (success_quiet 0 n _))).
Qed.
Next Obligation.
  intros k n [m e [g y]] I Hk Hn. cbn in *.
  eapply wp_mono; [apply calloc_wp; [by right|exact I|by left|done|done]|].
  intros p s' [[I' [(-> & Hm & He & Hg)|(Hp & t & Hg & _ & A)]] HZ].
  - split; [done|]. left. split; [done|]. split_and!; [done| |done]. rewrite Hg.
    apply (quiet_same _ _ (failed_quiet g)).
  - destruct (HZ Hp) as [Hkn HZ']. split; [done|]. right. split_and!; [done|done| |done].
    rewrite Hg. by rewrite (proj1 (quiet_same _ _ (success_quiet 1 _ _))).
Qed.
Next Obligation.
  intros n [m e [g y]] I Hn. cbn in *.
  eapply wp_mono; [apply realloc_null_wp; [by right|exact I|by left|done]|].
  intros p s' [I' [(-> & Hm & He & Hg)|(Hp & t & Hg & _ & A)]].
  - split; [done|]. left. split; [done|]. split_and!; [done| |done]. rewrite Hg.
    apply (quiet_same _ _ (failed_quiet g)).
  - split; [done|]. right. split; [done|]. rewrite Hg.
    by rewrite (proj1 (quiet_same _ _ (success_quiet 2 n _))).
Qed.
Next Obligation.
  intros p old n [m e [g y]] I Hp Hn. cbn in *.
  eapply wp_mono; [apply realloc_wp; [by right|exact I|exact Hp|done]|].
  intros q s' [I' [(-> & Hn0 & Hm & He & Hg)|[(-> & -> & t & Hg & F)|(Hq & t & Hg & R)]]].
  - split; [done|]. left. do 2 (split; [done|]). split_and!; [done| |done]. rewrite Hg.
    apply (quiet_same g). etransitivity; [apply realloc_quiet|apply failed_quiet].
  - split; [done|]. right; left. do 2 (split; [done|]). by rewrite Hg.
  - split; [done|]. right; right. split; [done|]. by rewrite Hg.
Qed.
Next Obligation.
  intros [m e [g y]] I. by apply wp_ret.
Qed.
Next Obligation.
  intros p n [m e [g y]] I Hp. cbn in *.
  eapply wp_mono; [apply free_wp; [by right|exact I|exact Hp]|].
  by intros [] s' (I' & t & _ & F).
Qed.

End Spec.
