(* ===== verification/MockRun.v ===== *)
(** * Runs of the mock allocator

    The resolution of the real functions from the initial state, and the
    reachable states of a program that allocates, frees, writes to its blocks and
    takes captures: the invariant holds in all of them and no operation has
    undefined behaviour or hangs. *)
From S2P Require Import Prelude CMem CCmd CLib Alloc Registry MockState Bootstrap MockAllocator MockSpec.

(** ** Resolution *)

(** The state in which the library is loaded. *)
Record fresh_state {Y} `{!Platform Y} `{!Allocator Y} `{!AllocatorLaws Y}
    (s : st (globals * Y)) : Prop := {
  fresh_globals : fst (ext s) = initial_globals;
  fresh_heap : mapped (mem s) g_bootstrap_heap AO_BOOTSTRAP_HEAP_SIZE;
  fresh_libc : al_inv (snd (ext s)) (mem s);
  fresh_apart p n : al_live (snd (ext s)) !! p = Some n -> apart_from_heap p n
}.

Section Resolve.
Context {Y : Type} `{!Platform Y} `{!Allocator Y} `{!AllocatorLaws Y} `{!PlatformLaws Y}.
Implicit Types (g : globals) (y : Y) (m : gmap Z Z).

(** The globals the resolver can leave: function pointers and the bootstrap offset. *)
Definition resolving g (rm rc rr rf : Z) (o : Z) : globals :=
  set_bootstrap_offset o (set_real_free rf (set_real_realloc rr (set_real_calloc rc
    (set_real_malloc rm (set_in_resolver 1 g))))).

(** One symbol: what a state of the resolver is, and that [dlsym] keeps it. *)
Record resolver_state (y : Y) (m0 : gmap Z Z) rm rc rr rf (s : st (globals * Y)) : Prop := {
  rs_globals : exists o, fst (ext s) = resolving initial_globals rm rc rr rf o;
  rs_libc : snd (ext s) = y;
  rs_boot : boot_ok s;
  rs_dom : same_dom m0 (mem s)
}.

Lemma wp_dlsym_step nm y m0 rm rc rr rf rm' rc' rr' rf' (Q : unit -> st (globals * Y) -> Prop)
    (setter : Z -> globals -> globals) s :
  nm = "malloc"%string \/ nm = "calloc"%string \/ nm = "realloc"%string \/ nm = "free"%string ->
  al_inv y m0 -> resolver_state y m0 rm rc rr rf s ->
  (forall v o, setter v (resolving initial_globals rm rc rr rf o) =
     resolving initial_globals (rm' v) (rc' v) (rr' v) (rf' v) o) ->
  (forall v s', v <> 0 -> resolver_state y m0 (rm' v) (rc' v) (rr' v) (rf' v) s' -> Q tt s') ->
  wp no_exit (let* symbol := dlsym nm in mod_globals (setter symbol)) Q s.
Proof.
  intros Hnm I [(o & Hg) Hy B D] Hset HQ. apply wp_bind.
  eapply wp_mono; [apply dlsym_ok; [exact Hnm|by rewrite Hg|exact B|]|].
  { rewrite Hy. by eapply al_inv_dom. }
  intros v s1 (Hv & (Hy1 & D1 & _ & o1 & Ho1 & Hg1) & B1).
  eapply acts_wp; [apply acts_mod|]. cbn [fst snd ext mem errno]. apply (HQ v); [done|].
  rewrite Hg1, Hg. split; cbn [fst snd ext mem].
  - exists o1. rewrite <- Hset. done.
  - congruence.
  - destruct B1 as (? & ? & ? & Ho & Hal). rewrite Hg1, Hg in Ho, Hal. unfold boot_ok.
    cbn [fst snd ext mem].
    assert (Hoff : g_bootstrap_offset (setter v
      (set_bootstrap_offset o1 (resolving initial_globals rm rc rr rf o))) = o1).
    { change (set_bootstrap_offset o1 (resolving initial_globals rm rc rr rf o))
        with (resolving initial_globals rm rc rr rf o1). by rewrite Hset. }
    by rewrite Hoff.
  - by etransitivity.
Qed.

Lemma bind_assoc {X A B D} (m : C X A) (k : A -> C X B) (h : B -> C X D) E Q s :
  wp E (bind (bind m k) h) Q s -> wp E (bind m (fun a => bind (k a) h)) Q s.
Proof. unfold wp, bind. by destruct (m s) as [[]| | |]. Qed.

Lemma fresh_boot_ok (s : st (globals * Y)) : fresh_state s -> boot_ok s.
Proof.
  intros [Hg Hh _ _]. destruct heap_range as [H1 H2]. unfold boot_ok. rewrite Hg.
  split_and!; done.
Qed.

(** From the load of the library to the invariant, without a bypass. *)
Lemma resolve_wp (s : st (globals * Y)) :
  fresh_state s ->
  wp no_exit ao_ensure_real_functions
    (fun _ s' => mock_inv (ext s') (mem s') /\ tracked (fst (ext s')) = ∅ /\
       snd (ext s') = snd (ext s) /\ g_stats (fst (ext s')) = zero_stats /\
       g_capture_depth (fst (ext s')) = 0 /\ g_next_allocation_id (fst (ext s')) = 1 /\
       0 <= g_bootstrap_offset (fst (ext s')) <= AO_BOOTSTRAP_HEAP_SIZE) s.
Proof.
  intros F. pose proof (fresh_boot_ok s F) as B. destruct F as [Hg Hh I Ha].
  unfold ao_ensure_real_functions. apply wp_bind. eapply acts_wp; [apply acts_get|].
  cbn [fst snd ext mem errno]. rewrite Hg. cbn [g_resolve_once initial_globals].
  apply wp_bind. unfold ao_resolve_real_functions. apply wp_bind.
  eapply acts_wp; [apply acts_mod|]. cbn [fst snd ext mem errno].
  set (y := snd (ext s)) in *. set (m0 := mem s) in *.
  assert (R0 : resolver_state y m0 0 0 0 0
    (St m0 (errno s) (set_in_resolver 1 initial_globals, y))).
  { split; cbn; [by exists 0|done| |done]. destruct B as (? & ? & ? & ? & ?). by rewrite Hg in *. }
  apply bind_assoc, wp_bind.
  apply (wp_dlsym_step _ y m0 0 0 0 0 (fun v => v) (fun _ => 0) (fun _ => 0) (fun _ => 0));
    [by left|done|exact R0|done|]. intros rm s1 Hrm R1.
  apply bind_assoc, wp_bind.
  apply (wp_dlsym_step _ y m0 rm 0 0 0 (fun _ => rm) (fun v => v) (fun _ => 0) (fun _ => 0));
    [by right; left|done|exact R1|done|]. intros rc s2 Hrc R2.
  apply bind_assoc, wp_bind.
  apply (wp_dlsym_step _ y m0 rm rc 0 0 (fun _ => rm) (fun _ => rc) (fun v => v) (fun _ => 0));
    [by do 2 right; left|done|exact R2|done|]. intros rr s3 Hrr R3.
  apply bind_assoc, wp_bind.
  apply (wp_dlsym_step _ y m0 rm rc rr 0 (fun _ => rm) (fun _ => rc) (fun _ => rr) (fun v => v));
    [by do 3 right|done|exact R3|done|].
  intros rf s4 Hrf [(o & Hg4) Hy4 B4 D4].
  apply wp_bind. eapply acts_wp; [apply acts_mod|]. cbn [fst snd ext mem errno].
  apply wp_bind. eapply acts_wp; [apply acts_get|]. cbn [fst snd ext mem errno].
  rewrite Hg4. cbn [g_real_malloc g_real_calloc g_real_realloc g_real_free resolving
    set_bootstrap_offset set_real_free set_real_realloc set_real_calloc set_real_malloc
    set_in_resolver].
  destruct (Z.eqb_spec rm 0); [done|]. destruct (Z.eqb_spec rc 0); [done|].
  destruct (Z.eqb_spec rr 0); [done|]. destruct (Z.eqb_spec rf 0); [done|]. cbn [orb].
  apply wp_ret. eapply acts_wp; [apply acts_mod|]. cbn [fst snd ext mem errno].
  destruct B4 as (_ & _ & _ & Hoff & _). rewrite Hg4 in Hoff.
  split; [|split_and!; [done..|apply Hoff|apply Hoff]]. split; cbn [fst snd]; try done.
  - by rewrite <- D4.
  - rewrite Hy4. by eapply al_inv_dom.
  - apply registry_empty_wf.
  - unfold tracked. cbn. rewrite registry_empty_map, fmap_empty. apply map_empty_subseteq.
  - intros p k. rewrite Hy4. apply Ha.
Qed.

(** ** Operations of a client *)

Inductive mock_op :=
| CallMalloc (n : Z)
| CallCalloc (k n : Z)
| CallRealloc (p n : Z)
| CallFree (p : Z)
| BeginCapture
| EndCapture
| ResetStats
| WriteBytes (p : Z) (bs : list Z).

(** What the operation returns, 0 when it returns nothing. *)
Definition run_op (o : mock_op) : C (globals * Y) Z :=
  match o with
  | CallMalloc n => malloc n
  | CallCalloc k n => calloc k n
  | CallRealloc p n => realloc p n
  | CallFree p => do* free p in ret 0
  | BeginCapture => do* ao_mock_begin_capture in ret 0
  | EndCapture => do* ao_mock_end_capture in ret 0
  | ResetStats => do* ao_mock_reset in ret 0
  | WriteBytes p bs => do* store p bs in ret 0
  end.

(** What C asks of the caller. *)
Definition op_ok (o : mock_op) (s : st (globals * Y)) : Prop :=
  let live := tracked (fst (ext s)) in
  match o with
  | CallMalloc n => 0 <= n <= SIZE_MAX
  | CallCalloc k n => 0 <= k <= SIZE_MAX /\ 0 <= n <= SIZE_MAX
  | CallRealloc p n => (p = 0 \/ is_Some (live !! p)) /\ 0 <= n <= SIZE_MAX
  | CallFree p => p = 0 \/ is_Some (live !! p)
  | BeginCapture | EndCapture | ResetStats => True
  | WriteBytes p bs => exists a n, live !! a = Some n /\ a <= p /\
      p + Z.of_nat (length bs) <= a + n
  end.

Inductive mock_step : st (globals * Y) -> mock_op -> Z -> st (globals * Y) -> Prop :=
| MockStep s o r s' : op_ok o s -> run_op o s = Ret (r, s') -> mock_step s o r s'.

(** The states a run reaches: the library is loaded, its functions are resolved
    by the first call, and the client performs operations. *)
Inductive reachable : st (globals * Y) -> Prop :=
| reach_start s0 s1 : fresh_state s0 -> ao_ensure_real_functions s0 = Ret (tt, s1) -> reachable s1
| reach_step s o r s' : reachable s -> mock_step s o r s' -> reachable s'.

(** The exits that a call in state [s] may take. *)
Definition may_exit (s : st (globals * Y)) (o : mock_op) (c : Z) : Prop :=
  al_exits (X := Y) c \/
  (c = 127 /\ Z.of_nat (size (tracked (fst (ext s)))) = AO_REGISTRY_CAPACITY /\
   match o with CallMalloc _ | CallCalloc _ _ => True | CallRealloc p _ => p = 0 | _ => False end).

Lemma wp_returns_zero E (m : C (globals * Y) unit) (Q : st (globals * Y) -> Prop) s :
  wp E m (fun _ s' => Q s') s -> wp E (do* m in ret 0) (fun _ s' => Q s') s.
Proof. intros H. by apply wp_bind. Qed.

Lemma mock_inv_depth g y m d :
  mock_inv (g, y) m -> mock_inv (set_capture_depth d g, y) m.
Proof. intros []. by split. Qed.

Lemma mock_inv_reset g y m : mock_inv (g, y) m ->
  mock_inv (set_stats (Stats 0 0 0 0 0 0 0 0 0 (live_blocks (g_stats g)) (live_bytes (g_stats g))) g, y) m.
Proof. intros []. by split. Qed.

Lemma acts_reset : acts (ao_mock_reset (Y:=Y)) (fun g => (tt,
  set_stats (Stats 0 0 0 0 0 0 0 0 0 (live_blocks (g_stats g)) (live_bytes (g_stats g))) g)).
Proof. intros [m e [g y]]. done. Qed.

Lemma acts_begin : acts (ao_mock_begin_capture (Y:=Y))
  (fun g => (tt, set_capture_depth (s32 (g_capture_depth g + 1)) g)).
Proof. intros [m e [g y]]. done. Qed.

Lemma acts_end : acts (ao_mock_end_capture (Y:=Y))
  (fun g => (tt, if 0 <? g_capture_depth g then set_capture_depth (s32 (g_capture_depth g - 1)) g
                 else g)).
Proof.
  intros [m e [g y]]. unfold ao_mock_end_capture, bind. cbn. by destruct (0 <? g_capture_depth g).
Qed.

Lemma write_block_inv g y m e p n q bs :
  mock_inv (g, y) m -> tracked g !! p = Some n -> p <= q ->
  q + Z.of_nat (length bs) <= p + n ->
  wp no_exit (store q bs)
    (fun _ s' => mock_inv (ext s') (mem s') /\ s' = St (write m q bs) e (g, y)) (St m e (g, y)).
Proof.
  intros I Hp H1 H2.
  destruct (al_live_block y m p n (mi_libc _ _ I) (tracked_libc g y m I p n Hp)) as [_ Hm].
  assert (Hq : mapped m q (Z.of_nat (length bs))) by (eapply mapped_sub; [exact Hm|lia..]).
  apply wp_store; [done|]. split; [|done]. cbn. eapply mock_inv_dom; [by apply same_dom_write|done].
Qed.

(** Every permitted operation returns, with the invariant, or exits as allowed. *)
Lemma run_op_safe o s :
  mock_inv (ext s) (mem s) -> op_ok o s ->
  wp (may_exit s o) (run_op o) (fun _ s' => mock_inv (ext s') (mem s')) s.
Proof.
  destruct s as [m e [g y]]. intros I Hok.
  assert (HE : forall c, al_exits c -> may_exit (St m e (g, y)) o c) by (by left).
  destruct o as [n|k n|p n|p| | | |p bs]; cbn [run_op op_ok fst snd ext mem] in *.
  - eapply wp_mono; [eapply malloc_wp; [exact HE|exact I| |done]|by intros ?? []]. by right.
  - destruct Hok. eapply wp_mono; [eapply calloc_wp; [exact HE|exact I| |done..]|by intros ?? [[] ?]]. by right.
  - destruct Hok as [[->|[old Hp]] Hn].
    + eapply wp_mono; [eapply realloc_null_wp; [exact HE|exact I| |done]|by intros ?? []]. by right.
    + eapply wp_mono; [by eapply realloc_wp|by intros ?? []].
  - apply wp_returns_zero. destruct Hok as [->|[n Hp]]; [done|].
    eapply wp_mono; [by eapply free_wp|by intros ?? []].
  - apply wp_returns_zero. eapply acts_wp; [apply acts_begin|]. by apply mock_inv_depth.
  - apply wp_returns_zero. eapply acts_wp; [apply acts_end|]. cbn.
    destruct (0 <? g_capture_depth g); [by apply mock_inv_depth|done].
  - apply wp_returns_zero. eapply acts_wp; [apply acts_reset|]. by apply mock_inv_reset.
  - apply wp_returns_zero. destruct Hok as (a & n & Ha & H1 & H2).
    eapply wp_mono; [eapply wp_exits; [by eapply write_block_inv|done]|by intros ?? []].
Qed.

Lemma reachable_inv s : reachable s -> mock_inv (ext s) (mem s).
Proof.
  induction 1 as [s0 s1 F H|s o r s' _ IH Hstep].
  - pose proof (resolve_wp s0 F) as W. unfold wp in W. rewrite H in W. apply W.
  - inversion Hstep as [? ? ? ? Hok H]; subst. pose proof (run_op_safe _ _ IH Hok) as W. unfold wp in W. by rewrite H in W.
Qed.

(** ** Without a capture the captured counters stand still *)

Definition is_call (o : mock_op) : bool :=
  match o with
  | CallMalloc _ | CallCalloc _ _ | CallRealloc _ _ | CallFree _ | WriteBytes _ _ => true
  | BeginCapture | EndCapture | ResetStats => false
  end.

(** [g'] has the captured counters and the depth of [g]. *)
Definition same_captured (g g' : globals) : Prop :=
  g_capture_depth g' = g_capture_depth g /\
  forall c, captured c -> stat_get c (g_stats g') = stat_get c (g_stats g).

Lemma same_captured_live b n t id g :
  same_captured g (live_effect b n (set_registry t (set_next_allocation_id id g))).
Proof. split; [done|]. intros [] [H1 H2]; cbn; done. Qed.

Lemma same_captured_unregistered n t g : same_captured g (unregistered n t g).
Proof. split; [done|]. intros [] [H1 H2]; cbn; done. Qed.

Lemma same_captured_reregistered old n t g : same_captured g (reregistered old n t g).
Proof.
  unfold reregistered. destruct (old =? n); (split; [done|]); [done|].
  intros [] [H1 H2]; cbn; done.
Qed.

Lemma alloc_outcome_frozen kind n g y m p s' :
  capturing g = false -> alloc_outcome kind n g y m p s' -> same_captured g (fst (ext s')).
Proof.
  intros Hc [_ [(_ & _ & _ & ->)|(_ & t & -> & _)]].
  - by destruct (not_capturing g Hc) as (-> & _).
  - destruct (not_capturing (registered n t g) Hc) as (_ & -> & _). apply same_captured_live.
Qed.

Lemma realloc_outcome_frozen p old n g y m q s' :
  capturing g = false -> realloc_outcome p old n g y m q s' -> same_captured g (fst (ext s')).
Proof.
  intros Hc. destruct (not_capturing g Hc) as (Hf & _ & _ & Hr). unfold realloc_outcome.
  rewrite Hr, Hf. intros [_ [(_ & _ & _ & _ & ->)|[(_ & _ & t & -> & _)|(_ & t & -> & _)]]].
  - done.
  - apply same_captured_unregistered.
  - apply same_captured_reregistered.
Qed.

Lemma run_op_frozen o s :
  mock_inv (ext s) (mem s) -> op_ok o s -> is_call o = true -> capturing (fst (ext s)) = false ->
  wp (fun _ => True) (run_op o) (fun _ s' => same_captured (fst (ext s)) (fst (ext s'))) s.
Proof.
  destruct s as [m e [g y]]. intros I Hok Ho Hc.
  destruct o as [n|k n|p n|p| | | |p bs]; cbn [run_op op_ok is_call fst snd ext mem] in *;
    try discriminate Ho.
  - eapply wp_mono; [by eapply malloc_wp|]. intros ??. by apply alloc_outcome_frozen.
  - destruct Hok. eapply wp_mono; [by eapply calloc_wp|]. intros ?? [? _]. by eapply alloc_outcome_frozen.
  - destruct Hok as [[->|[old Hp]] Hn].
    + eapply wp_mono; [by eapply realloc_null_wp|]. intros ??. by apply alloc_outcome_frozen.
    + eapply wp_mono; [by eapply realloc_wp|]. intros ??. by apply realloc_outcome_frozen.
  - apply (wp_returns_zero _ _ (fun s' => same_captured g (fst (ext s')))).
    destruct Hok as [->|[n Hp]]; [done|].
    eapply wp_mono; [by eapply (free_wp (fun _ => True))|]. intros _ s' (_ & t & -> & _).
    destruct (not_capturing g Hc) as (_ & _ & -> & _). apply same_captured_unregistered.
  - apply (wp_returns_zero _ _ (fun s' => same_captured g (fst (ext s')))).
    destruct Hok as (a & n & Ha & H1 & H2).
    eapply wp_mono; [eapply wp_exits; [by eapply write_block_inv|done]|]. by intros _ s' [_ ->].
Qed.

(** ** Reading the counters *)

Definition stats_bytes (st : ao_atomic_stats) : list Z :=
  concat (map (fun c => le_encode 8 (stat_get c st)) stats_fields).

Lemma store_stats_wp E (s : st (globals * Y)) out cs :
  mapped (mem s) out (8 * Z.of_nat (length cs)) ->
  wp E (store_stats out cs) (fun _ s' =>
    s' = St (write (mem s) out (concat (map (fun c => le_encode 8 (stat_get c (g_stats (fst (ext s))))) cs)))
      (errno s) (ext s)) s.
Proof.
  revert s out. induction cs as [|c cs IH]; intros s out H; cbn [store_stats map concat].
  { apply wp_ret. destruct s. cbn. unfold write. cbn. by rewrite (left_id_L ∅ (∪)). }
  apply wp_bind. eapply acts_wp; [apply acts_get|]. cbn [fst snd ext mem errno].
  cbn [length] in H. rewrite Nat2Z.inj_succ in H.
  assert (H8 : mapped (mem s) out 8) by (eapply mapped_sub; [exact H|lia..]).
  apply wp_bind, wp_store_u64; [done|]. cbn [fst snd ext mem errno].
  eapply wp_mono; [apply IH|].
  - cbn [mem]. rewrite <- same_dom_write by (by rewrite length_le_encode).
    eapply mapped_sub; [exact H|lia..].
  - intros _ s' ->. cbn [fst snd ext mem errno]. destruct (ext s) as [g y]; cbn [fst snd].
    by rewrite write_app, length_le_encode.
Qed.

End Resolve.
