(* ===== verification/SimplePlatform.v ===== *)
(** * A concrete world for the mock allocator

    The bump heap of [SimpleHeap] behind the mock allocator, a bootstrap heap at a
    fixed address, a dynamic linker that allocates while it looks symbols up, and
    a [write] that writes at most four bytes at a time.  It shows that the laws of
    [PlatformLaws] can hold; the theorems on the mock allocator are exercised on
    the states defined here. *)
From S2P Require Import Prelude CMem CCmd CLib Alloc SimpleHeap Registry MockState Bootstrap MockAllocator MockSpec MockRun.

(** The bootstrap allocator does not depend on the two functions it is declared
    beside. *)
Definition simple_heap_base : Z := 4096.

Definition bare_platform : Platform arena := {|
  g_bootstrap_heap := simple_heap_base;
  dlsym _ := ret 0;
  sys_write _ _ := ret 0
|}.

(** The linker allocates 24 bytes for its error string, and finds the function. *)
Definition simple_dlsym (nm : string) : C (globals * arena) Z :=
  do* ao_bootstrap_alloc (Platform0 := bare_platform) 24 in
  if bool_decide (nm = "malloc"%string) then ret 11
  else if bool_decide (nm = "calloc"%string) then ret 12
  else if bool_decide (nm = "realloc"%string) then ret 13
  else if bool_decide (nm = "free"%string) then ret 14
  else ret 0.

#[export] Instance simple_platform : Platform arena := {
  g_bootstrap_heap := simple_heap_base;
  dlsym := simple_dlsym;
  sys_write _ bs := ret (Z.min 4 (Z.of_nat (length bs)))
}.

#[export] Instance simple_platform_laws : PlatformLaws arena.
Proof.
  split.
  - done.
  - intros nm s Hnm _ B _. apply wp_bind.
    eapply wp_mono; [apply (@bootstrap_alloc_ok _ bare_platform); [exact B|done|done]|].
    intros p s1 H1.
    assert (HB : boot_only s s1 /\ boot_ok s1).
    { destruct H1 as [(_ & -> & _)|(_ & [_ _ _ _ O1 B1])]; [|done].
      split; [exact (boot_only_refl s B)|exact B]. }
    destruct Hnm as [->|[->|[->| ->]]]; by apply wp_ret.
  - intros fd bs s. apply wp_ret. split; [lia|done].
Qed.

(** ** States *)

Definition simple_memory : gmap Z Z := write ∅ simple_heap_base (replicate (Z.to_nat 65536) 0).

Lemma simple_memory_heap : mapped simple_memory g_bootstrap_heap AO_BOOTSTRAP_HEAP_SIZE.
Proof.
  pose proof (holds_mapped _ _ _ (holds_write ∅ simple_heap_base (replicate (Z.to_nat 65536) 0))) as H.
  rewrite length_replicate, Z2Nat.id in H by lia. exact H.
Qed.

Lemma simple_memory_free x : 2 ^ 20 <= x -> simple_memory !! x = None.
Proof.
  intros Hx. unfold simple_memory. rewrite lookup_write_out; [apply lookup_empty|].
  rewrite length_replicate. unfold simple_heap_base. lia.
Qed.

#[global] Opaque simple_memory.

Definition simple_start : st (globals * arena) :=
  St simple_memory 0 (initial_globals, empty_arena (2 ^ 20) (2 ^ 21)).

Lemma simple_start_fresh : fresh_state simple_start.
Proof.
  split; cbn [simple_start mem ext fst snd]; [done|apply simple_memory_heap| |].
  - apply empty_arena_inv; [lia|done|done|]. intros x [Hx _]. by apply simple_memory_free.
  - intros p n. cbn. by rewrite lookup_empty.
Qed.

(** After the resolution: no block. *)
Definition ready_globals (depth : Z) : globals :=
  Globals true 0 11 12 13 14 ∅ false zero_stats depth 1 384.

Definition simple_ready (depth : Z) : st (globals * arena) :=
  St simple_memory 0 (ready_globals depth, empty_arena (2 ^ 20) (2 ^ 21)).

Lemma simple_ready_inv depth : mock_inv (ext (simple_ready depth)) (mem (simple_ready depth)).
Proof.
  destruct simple_start_fresh as [_ Hh I Ha].
  split; cbn [simple_ready ext mem fst snd] in *; try done.
  - apply registry_empty_wf.
Qed.

(** One block of ten bytes that spell [simple_text], registered under the id 1. *)
Definition simple_block : Z := 2 ^ 20.
Definition simple_text : list Z := [104; 101; 108; 108; 111; 32; 121; 111; 117; 0].

Definition busy_globals (depth : Z) : globals :=
  registered 10 (ao_registry_insert_locked ∅ simple_block 10 1).2 (ready_globals depth).

Definition busy_arena : arena := Arena (2 ^ 20 + 16) (2 ^ 21) {[ simple_block := 10 ]}.

Definition busy_memory : gmap Z Z := write simple_memory simple_block simple_text.

Definition simple_busy (depth : Z) : st (globals * arena) :=
  St busy_memory 0 (busy_globals depth, busy_arena).

Lemma busy_allocated :
  allocated simple_memory ∅ simple_block 10 (write simple_memory simple_block simple_text)
    {[ simple_block := 10 ]}.
Proof.
  split.
  - done.
  - apply lookup_empty.
  - intros x Hx. apply simple_memory_free. unfold simple_block in Hx. lia.
  - change 10 with (Z.of_nat (length simple_text)). apply holds_mapped, holds_write.
  - change 10 with (Z.of_nat (length simple_text)). apply same_outside_write.
  - done.
Qed.

Lemma busy_heap : heap_inv busy_arena (write simple_memory simple_block simple_text).
Proof.
  split; cbn.
  - done.
  - intros x Hx. rewrite lookup_write_out; [by apply simple_memory_free; lia|].
    unfold simple_block. cbn. lia.
  - intros p n [<- <-]%lookup_singleton_Some. split_and!; try done.
    apply (alloc_mapped _ _ _ _ _ _ busy_allocated).
  - intros p n q k [<- <-]%lookup_singleton_Some [<- <-]%lookup_singleton_Some. done.
Qed.

Lemma busy_inv depth :
  mock_inv (ext (simple_busy depth)) (mem (simple_busy depth)) /\
  tracked (fst (ext (simple_busy depth))) = {[ simple_block := 10 ]}.
Proof.
  pose proof (simple_ready_inv depth) as I.
  destruct (insert_locked_map ∅ simple_block 10 1 registry_empty_wf) as [(t & Ht & WF & Hm)|(_ & _ & Hfull)].
  { done. }
  2: { destruct (Hfull 0) as [H _]; [pose proof capacity_pos; lia|].
       unfold get_entry in H. rewrite lookup_empty in H. done. }
  cbn [simple_busy ext mem fst snd]. unfold busy_globals. rewrite Ht. cbn [snd].
  destruct (mock_inv_registered (ready_globals depth) (empty_arena (2 ^ 20) (2 ^ 21))
    simple_memory simple_block 10 busy_arena (write simple_memory simple_block simple_text) t)
    as [I1 A1].
  - exact I.
  - apply busy_heap.
  - apply busy_allocated.
  - done.
  - exact Hm.
  - split; [done|]. rewrite (alloc_live _ _ _ _ _ _ A1). unfold tracked. cbn.
    by rewrite registry_empty_map, fmap_empty.
Qed.

Lemma busy_pair_inv depth : mock_inv (busy_globals depth, busy_arena) busy_memory.
Proof. exact (proj1 (busy_inv depth)). Qed.

Lemma busy_tracked depth : tracked (busy_globals depth) !! simple_block = Some 10.
Proof.
  change (busy_globals depth) with (fst (ext (simple_busy depth))).
  rewrite (proj2 (busy_inv depth)). apply lookup_singleton_eq.
Qed.

(** A client may keep its own data in the bootstrap array: it is mapped memory
    nobody else looks at. *)
Lemma heap_write_inv (x : globals * arena) m a bs :
  mock_inv x m -> simple_heap_base <= a ->
  a + Z.of_nat (length bs) <= simple_heap_base + AO_BOOTSTRAP_HEAP_SIZE ->
  mock_inv x (write m a bs).
Proof.
  intros I H1 H2. apply (mock_inv_dom x m); [|done].
  apply same_dom_write. eapply mapped_sub; [exact (mi_heap _ _ I)|exact H1|exact H2].
Qed.
