(* ===== verification/MockProps.v ===== *)
(** * Correctness of the mock allocator

    The properties of the allocation functions, of the accounting and of the
    bootstrap heap, with the concrete states that satisfy their hypotheses. *)
From S2P Require Import Prelude CMem CCmd CLib Alloc SimpleHeap Registry MockState Bootstrap MockAllocator MockSpec MockRun SimplePlatform.

Section Props.
Context {Y : Type} `{!Platform Y} `{!Allocator Y} `{!AllocatorLaws Y} `{!PlatformLaws Y}.

(** C1: in every state a client reaches from the load of the library, the
    invariant holds (lock free, registry well formed, every tracked block live in
    the C library, counters exact), and every call the C standard permits there
    returns with the invariant: no undefined behaviour, no hang on the lock, and
    an exit only when the registry is full and the call needs a new entry. *)
Theorem reachable_safe (s : st (globals * Y)) (o : mock_op) :
  reachable s -> op_ok o s ->
  mock_inv (ext s) (mem s) /\
  wp (may_exit s o) (run_op o) (fun _ s' => mock_inv (ext s') (mem s') /\ reachable s') s.
Proof.
  intros R Hok. pose proof (reachable_inv s R) as I. split; [done|].
  pose proof (run_op_safe o s I Hok) as W. unfold wp in *.
  destruct (run_op o s) as [[r s']| | |] eqn:Hrun; try done.
  split; [done|]. eapply reach_step; [exact R|]. by apply MockStep.
Qed.

(** Loading the library and resolving the real functions establishes the
    invariant with nothing tracked, all counters zero and the C library's state
    untouched, whatever [dlsym] allocates from the bootstrap heap meanwhile. *)
Theorem resolve_establishes (s : st (globals * Y)) :
  fresh_state s ->
  wp no_exit ao_ensure_real_functions
    (fun _ s' => mock_inv (ext s') (mem s') /\ tracked (fst (ext s')) = ∅ /\
       snd (ext s') = snd (ext s) /\ g_stats (fst (ext s')) = zero_stats /\
       g_capture_depth (fst (ext s')) = 0) s.
Proof. intros F. eapply wp_mono; [by apply resolve_wp|]. intros ?? (? & ? & ? & ? & ? & _). by split_and!. Qed.

Section Calls.
Context (g : globals) (y : Y) (m : gmap Z Z) (e : Z).

(** The exits of a call that needs a new registry entry. *)
Definition full_exit (c : Z) : Prop :=
  al_exits (X := Y) c \/ (c = 127 /\ Z.of_nat (size (tracked g)) = AO_REGISTRY_CAPACITY).

(** C5: [malloc] returns null with [ENOMEM], memory unchanged and one failure
    counted, or a fresh, aligned, mapped block that is registered under its size
    with the next id and counted. *)
Theorem malloc_correct n :
  mock_inv (g, y) m -> 0 <= n <= SIZE_MAX ->
  wp full_exit (malloc n) (fun p s' =>
    mock_inv (ext s') (mem s') /\
    ((p = 0 /\ mem s' = m /\ errno s' = ENOMEM /\ fst (ext s') = failed_effect g) \/
     (p <> 0 /\ allocated m (tracked g) p n (mem s') (tracked (fst (ext s'))) /\
      registry_map (g_registry (fst (ext s'))) =
        <[p := (n, g_next_allocation_id g)]> (registry_map (g_registry g)) /\
      live_blocks (g_stats (fst (ext s'))) = u64 (live_blocks (g_stats g) + 1) /\
      live_bytes (g_stats (fst (ext s'))) = u64 (live_bytes (g_stats g) + n) /\
      malloc_calls (g_stats (fst (ext s'))) =
        if capturing g then u64 (malloc_calls (g_stats g) + 1) else malloc_calls (g_stats g))))
    (St m e (g, y)).
Proof.
  intros I Hn. eapply wp_mono; [eapply malloc_wp; [by left|exact I|by right|done]|].
  intros p s' [I' [H|(Hp & t & Hg & Hmap & A)]]; (split; [done|]); [by left|right].
  split; [done|]. rewrite Hg. destruct (quiet_same _ _ (success_quiet 0 n (registered n t g)))
    as (Htr & Hreg & _).
  rewrite Htr, Hreg. do 2 (split; [done|]).
  unfold success_effect, capturing, registered. cbn. by destruct (0 <? g_capture_depth g).
Qed.

(** The product overflows: the C library is not called. *)
Lemma calloc_overflow_eq k n :
  mock_inv (g, y) m -> 0 <= k -> 0 <= n -> SIZE_MAX < k * n ->
  calloc k n (St m e (g, y)) = Ret (0, St m ENOMEM (failed_effect g, y)).
Proof.
  intros I Hk Hn Hkn.
  destruct (wp_returns (calloc k n) (fun p s' => p = 0 /\ s' = St m ENOMEM (failed_effect g, y)) (St m e (g, y)))
    as (p & s' & -> & -> & ->); [|done].
  apply wp_bind, wp_in_resolver; [apply I|]. cbn iota.
  rewrite mul_overflow_test by lia. destruct (Z.leb_spec (k * n) SIZE_MAX); [lia|]. cbn [negb].
  apply wp_bind, wp_set_errno. apply wp_bind. eapply acts_wp; [apply acts_failed|]. by apply wp_ret.
Qed.

(** The product fits: the C library decides. *)
Lemma calloc_library_wp k n :
  mock_inv (g, y) m -> 0 <= k <= SIZE_MAX -> 0 <= n <= SIZE_MAX -> k * n <= SIZE_MAX ->
  wp full_exit (calloc k n) (fun p s' =>
    alloc_outcome 1 (k * n) g y m p s' /\
    exists e', al_calloc k n (St m e y) = Ret (p, St (mem s') e' (snd (ext s'))) /\
      (p <> 0 -> forall x, p <= x < p + k * n -> mem s' !! x = Some 0)) (St m e (g, y)).
Proof.
  intros I Hk Hn Hkn. assert (HE : forall c, al_exits (X := Y) c -> full_exit c) by (intros c; by left).
  apply wp_bind, wp_in_resolver; [apply I|]. cbn iota.
  rewrite mul_overflow_test by lia. destruct (Z.leb_spec (k * n) SIZE_MAX); [|lia]. cbn [negb].
  rewrite u64_small by nia. apply wp_bind, wp_ensure; [apply I|]. apply wp_bind, wp_call_real; [apply I|].
  eapply wp_mono; [eapply wp_exits; [apply wp_eq, al_calloc_ok; [apply I|done|done]|exact HE]|].
  intros p [m' e' y'] [(I' & [[-> (Hm & Hl & He)]|(Hp & _ & A & HZ)]) Heq]; cbn in *.
  - subst m'. eapply wp_mono; [by apply (wp_alloc_failed full_exit g y m I 1 (k * n))|].
    intros p s' [[-> <-] O]. split; [done|]. exists e'.
    destruct O as [_ [(_ & -> & _)|(? & _)]]; done.
  - destruct (Z.eqb_spec p 0); [done|].
    eapply wp_mono; [by apply (wp_register full_exit g y m I ltac:(by right))|].
    intros q s' [(-> & -> & <-) O]. split; [done|]. by exists e'.
Qed.

Lemma wp_resolving E (Q : bool -> st (globals * Y) -> Prop) s :
  g_in_resolver (fst (ext s)) <> 0 -> Q true s -> wp E in_resolver Q s.
Proof.
  destruct s as [m0 e0 [g0 y0]]. intros H HQ. apply wp_bind. eapply acts_wp; [apply acts_get|].
  apply wp_ret. cbn in *. by destruct (Z.eqb_spec (g_in_resolver g0) 0).
Qed.

(** While the functions are resolved: a cleared bootstrap block of the product as
    [size_t] has it. *)
Lemma calloc_resolving_wp k n (s : st (globals * Y)) :
  g_in_resolver (fst (ext s)) <> 0 -> boot_ok s ->
  SIZEOF_BOOTSTRAP_HEADER + u64 (k * n) + 31 <= SIZE_MAX ->
  wp no_exit (calloc k n) (fun p s' =>
    (p = 0 /\ s' = St (mem s) ENOMEM (ext s)) \/
    (p <> 0 /\ boot_only s s' /\ p + u64 (k * n) <= g_bootstrap_heap + g_bootstrap_offset (fst (ext s')) /\
     g_bootstrap_heap + g_bootstrap_offset (fst (ext s)) < p /\
     forall x, p <= x < p + u64 (k * n) -> mem s' !! x = Some 0)) s.
Proof.
  intros Hg B Hsz. pose proof (u64_range (k * n)) as Hr. apply wp_bind, wp_resolving; [done|].
  apply wp_bind. eapply wp_mono; [apply bootstrap_alloc_ok; [done|lia|done]|].
  intros p s1 [(-> & -> & _)|[Hp [Hin Hend _ _ Hbo Hok]]].
  { cbn. apply wp_bind, wp_ret, wp_ret. by left. }
  destruct (Z.eqb_spec p 0); [done|]. cbn [negb].
  destruct B as (_ & _ & _ & ? & _). destruct Hok as (_ & _ & Hmap & Ho & _).
  unfold SIZEOF_BOOTSTRAP_HEADER, AO_BOOTSTRAP_HEAP_SIZE in *.
  assert (Hm : mapped (mem s1) p (u64 (k * n))) by (eapply mapped_sub; [exact Hmap|lia|lia]).
  apply wp_bind, wp_bind, wp_memset; [lia|done|]. apply wp_ret, wp_ret. right. cbn [mem ext errno].
  pose proof (same_outside_write (mem s1) p (replicate (Z.to_nat (u64 (k * n))) (0 `mod` 256))) as Hout.
  rewrite length_replicate, Z2Nat.id in Hout by lia. split_and!; [done| |done|lia|].
  - destruct Hbo as (H1 & H2 & H3 & o & Hoo & H4). split_and!; [done| | |by exists o]; cbn [mem ext].
    + etrans; [exact H2|]. apply same_dom_write. rewrite length_replicate, Z2Nat.id by lia. done.
    + intros x Hx. rewrite Hout by (unfold AO_BOOTSTRAP_HEAP_SIZE in *; lia). by apply H3.
  - intros x Hx. rewrite lookup_write_in by (rewrite length_replicate; lia).
    by rewrite lookup_replicate_2 by lia.
Qed.

(** C6: [calloc] on its three branches.  A product that exceeds [SIZE_MAX] is refused
    with [ENOMEM] and one failure counted, and the C library is not called: its state
    and the memory are what they were.  A product that fits is never refused here: the
    answer and the memory are those of the C library's [calloc] at the same two
    arguments; null is counted as a failure, and a block is registered under the
    product with the next id and counted, with the zeros the C library put in it.
    While the real functions are being resolved, the block comes from the bootstrap
    heap and is cleared here; its size is the product modulo [2^64]. *)
Theorem calloc_correct k n :
  0 <= k <= SIZE_MAX -> 0 <= n <= SIZE_MAX ->
  (mock_inv (g, y) m -> SIZE_MAX < k * n ->
   calloc k n (St m e (g, y)) = Ret (0, St m ENOMEM (failed_effect g, y))) /\
  (mock_inv (g, y) m -> k * n <= SIZE_MAX ->
   wp full_exit (calloc k n) (fun p s' =>
     mock_inv (ext s') (mem s') /\
     (exists e', al_calloc k n (St m e y) = Ret (p, St (mem s') e' (snd (ext s')))) /\
     ((p = 0 /\ mem s' = m /\ errno s' = ENOMEM /\ fst (ext s') = failed_effect g) \/
      (p <> 0 /\ allocated m (tracked g) p (k * n) (mem s') (tracked (fst (ext s'))) /\
       (forall x, p <= x < p + k * n -> mem s' !! x = Some 0) /\
       registry_map (g_registry (fst (ext s'))) =
         <[p := (k * n, g_next_allocation_id g)]> (registry_map (g_registry g)) /\
       live_blocks (g_stats (fst (ext s'))) = u64 (live_blocks (g_stats g) + 1) /\
       live_bytes (g_stats (fst (ext s'))) = u64 (live_bytes (g_stats g) + k * n) /\
       calloc_calls (g_stats (fst (ext s'))) =
         if capturing g then u64 (calloc_calls (g_stats g) + 1) else calloc_calls (g_stats g))))
     (St m e (g, y))) /\
  (g_in_resolver g <> 0 -> boot_ok (St m e (g, y)) ->
   SIZEOF_BOOTSTRAP_HEADER + u64 (k * n) + 31 <= SIZE_MAX ->
   wp no_exit (calloc k n) (fun p s' =>
     (p = 0 /\ s' = St m ENOMEM (g, y)) \/
     (p <> 0 /\ boot_only (St m e (g, y)) s' /\
      p + u64 (k * n) <= g_bootstrap_heap + g_bootstrap_offset (fst (ext s')) /\
      g_bootstrap_heap + g_bootstrap_offset g < p /\
      forall x, p <= x < p + u64 (k * n) -> mem s' !! x = Some 0)) (St m e (g, y))).
Proof.
  intros Hk Hn. split; [|split]; [intros; apply calloc_overflow_eq; (done || lia)| |exact (calloc_resolving_wp k n (St m e (g, y)))].
  intros I Hkn. eapply wp_mono; [by apply calloc_library_wp|].
  intros p s' [[I' [H|(Hp & t & Hg & Hmap & A)]] (e' & Heq & HZ)];
    (split; [done|split; [by exists e'|]]); [by left|right].
  split; [done|]. rewrite Hg. destruct (quiet_same _ _ (success_quiet 1 (k * n) (registered (k * n) t g)))
    as (Htr & Hreg & _).
  rewrite Htr, Hreg. do 3 (split; [by auto|]).
  unfold success_effect, capturing, registered. cbn. by destruct (0 <? g_capture_depth g).
Qed.

(** C7: [realloc] of a tracked block of [old] bytes never ends the process on its
    own: it fails leaving everything in place, or frees the block (size zero), or
    moves it with its contents, and the registry and the byte count follow. *)
Theorem realloc_correct p old n :
  mock_inv (g, y) m -> tracked g !! p = Some old -> 0 <= n <= SIZE_MAX ->
  wp al_exits (realloc p n) (fun q s' =>
    mock_inv (ext s') (mem s') /\
    ((q = 0 /\ n <> 0 /\ mem s' = m /\ errno s' = ENOMEM /\ tracked (fst (ext s')) = tracked g) \/
     (q = 0 /\ n = 0 /\ freed m (tracked g) p old (mem s') (tracked (fst (ext s')))) \/
     (q <> 0 /\ reallocated m (tracked g) p old q n (mem s') (tracked (fst (ext s'))) /\
      (old <> n ->
       live_bytes (g_stats (fst (ext s'))) = u64 (live_bytes (g_stats g) + (n - old))))))
    (St m e (g, y)).
Proof.
  intros I Hp Hn. eapply wp_mono; [by eapply realloc_wp|].
  intros q s' [I' [(-> & Hn0 & Hm & He & Hg)|[(-> & -> & t & Hg & F)|(Hq & t & Hg & R)]]];
    (split; [done|]).
  - left. split_and!; try done. rewrite Hg. apply (quiet_same g).
    etransitivity; [apply realloc_quiet|apply failed_quiet].
  - right; left. rewrite Hg. by split_and!.
  - right; right. rewrite Hg. split_and!; [done|done|]. intros Hne.
    unfold reregistered. destruct (Z.eqb_spec old n); [done|]. cbn.
    by destruct (realloc_quiet false g) as (st & -> & _ & <-).
Qed.

(** C8: [free] on every branch.  A tracked block is released in the C library and in
    the registry and leaves the live counters; a block of the C library the registry
    does not know is released all the same, a capture counts a bypass, and neither the
    registry nor the live counters move; null and a pointer into the bootstrap heap
    are left alone. *)
Theorem free_correct :
  mock_inv (g, y) m ->
  (forall p n, tracked g !! p = Some n ->
     wp al_exits (free p) (fun _ s' =>
       mock_inv (ext s') (mem s') /\
       freed m (tracked g) p n (mem s') (tracked (fst (ext s'))) /\
       live_blocks (g_stats (fst (ext s'))) = u64 (live_blocks (g_stats g) - 1) /\
       live_bytes (g_stats (fst (ext s'))) = u64 (live_bytes (g_stats g) - n) /\
       free_calls (g_stats (fst (ext s'))) =
         (if capturing g then u64 (free_calls (g_stats g) + 1) else free_calls (g_stats g)) /\
       bypass_free_calls (g_stats (fst (ext s'))) = bypass_free_calls (g_stats g))
       (St m e (g, y))) /\
  (forall p n, al_live y !! p = Some n -> tracked g !! p = None ->
     wp al_exits (free p) (fun _ s' =>
       mock_inv (ext s') (mem s') /\ tracked (fst (ext s')) = tracked g /\
       freed m (al_live y) p n (mem s') (al_live (snd (ext s'))) /\
       live_blocks (g_stats (fst (ext s'))) = live_blocks (g_stats g) /\
       bypass_free_calls (g_stats (fst (ext s'))) =
         if capturing g then u64 (bypass_free_calls (g_stats g) + 1)
         else bypass_free_calls (g_stats g))
       (St m e (g, y))) /\
  (forall p, p = 0 \/ ao_bootstrap_contains p = true ->
     free p (St m e (g, y)) = Ret (tt, St m e (g, y))).
Proof.
  intros I. split_and!.
  - intros p n Hp. eapply wp_mono; [by eapply free_wp|]. intros _ s' (I' & t & Hg & F).
    split; [done|]. split; [done|]. rewrite Hg. unfold free_effect, capturing.
    by destruct (0 <? g_capture_depth g).
  - intros p n Hp Ht. eapply wp_mono; [by eapply free_untracked_wp|].
    intros _ s' (I' & Htr & Hst & F). split_and!; try done; rewrite Hst; unfold free_effect, capturing;
      by destruct (0 <? g_capture_depth g).
  - intros p [->|Hb]; [done|]. unfold free. rewrite Hb. by destruct (p =? 0).
Qed.

(** [ao_mock_is_tracked_allocation] answers exactly whether the pointer is a
    tracked block, and changes nothing. *)
Theorem is_tracked_exact p :
  mock_inv (g, y) m -> p mod 16 = 0 ->
  wp no_exit (ao_mock_is_tracked_allocation p)
    (fun b s' => (b = true <-> is_Some (tracked g !! p)) /\ s' = St m e (g, y)) (St m e (g, y)).
Proof.
  intros I Hp. eapply wp_mono; [by apply is_tracked_wp|]. intros b s' [-> ->].
  by rewrite bool_decide_eq_true.
Qed.

(** The bridge frees a block that came from the C library directly without
    any trace in the mock allocator's globals. *)
Theorem bridge_free_silent p n :
  mock_inv (g, y) m -> al_live y !! p = Some n -> tracked g !! p = None ->
  wp al_exits (ao_alloc_bridge_libc_free p) (fun _ s' =>
    mock_inv (ext s') (mem s') /\ fst (ext s') = g /\
    freed m (al_live y) p n (mem s') (al_live (snd (ext s')))) (St m e (g, y)).
Proof. intros I Hp Ht. by apply bridge_free_wp. Qed.

(** C9: [ao_mock_get_stats] writes the eleven counters in the order of the
    structure, and the two live fields are the number and the total size of the
    tracked blocks (modulo 2^64). *)
Theorem get_stats_exact out :
  mock_inv (g, y) m -> out <> 0 -> mapped m out 88 ->
  wp no_exit (ao_mock_get_stats out) (fun _ s' =>
    holds (mem s') out (stats_bytes (g_stats g)) /\ same_outside out 88 m (mem s') /\
    ext s' = (g, y) /\
    holds (mem s') (out + 72)
      (le_encode 8 (u64 (Z.of_nat (size (tracked g)))) ++
       le_encode 8 (u64 (total_bytes (tracked g))))) (St m e (g, y)).
Proof.
  intros I Hout Hm. unfold ao_mock_get_stats. destruct (Z.eqb_spec out 0); [done|].
  eapply wp_mono; [by apply store_stats_wp|]. intros _ s' ->. cbn [mem ext fst].
  fold (stats_bytes (g_stats g)).
  assert (Hlen : Z.of_nat (length (stats_bytes (g_stats g))) = 88) by done.
  pose proof (holds_write m out (stats_bytes (g_stats g))) as H.
  split_and!; [done| |done|].
  - rewrite <- Hlen. apply same_outside_write.
  - change (stats_bytes (g_stats g)) with
      (concat (map (fun c => le_encode 8 (stat_get c (g_stats g))) (take 9 stats_fields)) ++
       (le_encode 8 (live_blocks (g_stats g)) ++ le_encode 8 (live_bytes (g_stats g)) ++ [])) in H.
    apply holds_app in H as [_ H]. rewrite app_nil_r in H.
    pose proof (mi_blocks _ _ I) as Hb. pose proof (mi_bytes _ _ I) as Hy.
    cbn [fst] in Hb, Hy. by rewrite <- Hb, <- Hy.
Qed.

End Calls.

(** C11: outside a capture, no call moves a captured counter: whatever the client
    allocates or frees, only the two live counters change. *)
Theorem no_capture_frozen (s : st (globals * Y)) (o : mock_op) :
  reachable s -> op_ok o s -> is_call o = true -> g_capture_depth (fst (ext s)) <= 0 ->
  wp (fun _ => True) (run_op o) (fun _ s' => forall c, captured c ->
    stat_get c (g_stats (fst (ext s'))) = stat_get c (g_stats (fst (ext s)))) s.
Proof.
  intros R Hok Ho Hd. eapply wp_mono.
  - apply run_op_frozen; [by apply reachable_inv|done|done|]. unfold capturing. by apply Z.ltb_ge.
  - by intros _ s' [_ H].
Qed.

(** Captures nest: [n] times [ao_mock_begin_capture] and then [n] times
    [ao_mock_end_capture] give back the depth, captures are on in between, and
    an [ao_mock_end_capture] without a capture changes nothing. *)
Theorem capture_nesting (k : nat) (g : globals) (y : Y) m e :
  0 <= g_capture_depth g -> g_capture_depth g + Z.of_nat k < 2 ^ 31 ->
  let begins := Nat.iter k (fun c : C (globals * Y) unit => do* ao_mock_begin_capture in c) in
  let ends := Nat.iter k (fun c : C (globals * Y) unit => do* c in ao_mock_end_capture) in
  begins (ret tt) (St m e (g, y)) =
    Ret (tt, St m e (set_capture_depth (g_capture_depth g + Z.of_nat k) g, y)) /\
  ends (ret tt) (St m e (set_capture_depth (g_capture_depth g + Z.of_nat k) g, y)) =
    Ret (tt, St m e (g, y)) /\
  ao_mock_end_capture (St m e (set_capture_depth 0 g, y)) =
    Ret (tt, St m e (set_capture_depth 0 g, y)).
Proof.
  intros H0 H1 begins ends. split_and!; [| |done].
  - unfold begins. clear begins ends. revert g H0 H1. induction k as [|k IH]; intros g H0 H1.
    { replace (g_capture_depth g + Z.of_nat 0) with (g_capture_depth g) by lia. by destruct g. }
    rewrite Nat.iter_succ, (bind_ret _ _ _ _ _ (acts_begin _)). cbn [ext fst snd mem errno].
    rewrite s32_small by lia. rewrite IH by (cbn; lia). cbn.
    by replace (g_capture_depth g + 1 + Z.of_nat k) with (g_capture_depth g + Z.of_nat (S k)) by lia.
  - unfold ends. clear begins ends. 
    assert (H : forall d, 0 <= d -> d + Z.of_nat k < 2 ^ 31 ->
      Nat.iter k (fun c : C (globals * Y) unit => do* c in ao_mock_end_capture) (ret tt)
        (St m e (set_capture_depth (d + Z.of_nat k) g, y)) =
      Ret (tt, St m e (set_capture_depth d g, y))).
    { clear H0 H1. induction k as [|k IH]; intros d H0 H1.
      { by replace (d + Z.of_nat 0) with d by lia. }
      rewrite Nat.iter_succ.
      replace (d + Z.of_nat (S k)) with ((d + 1) + Z.of_nat k) by lia.
      erewrite bind_ret by (apply IH; lia). rewrite acts_end. cbn. destruct (Z.ltb_spec 0 (d + 1)); [|lia].
      rewrite s32_small by lia. by replace (d + 1 - 1) with d by lia. }
    rewrite H by done. by destruct g.
Qed.

(** ** The bootstrap heap *)

(** C12: two bootstrap allocations, whatever the resolver does to the bootstrap
    heap between them, give blocks that lie in the array, do not overlap, and the
    second allocation leaves the first block's contents alone. *)
Theorem bootstrap_disjoint size1 size2 (s : st (globals * Y)) :
  boot_ok s -> 0 <= size1 <= AO_BOOTSTRAP_HEAP_SIZE -> 0 <= size2 <= AO_BOOTSTRAP_HEAP_SIZE ->
  wp no_exit (ao_bootstrap_alloc size1) (fun p s1 => p <> 0 ->
    (g_bootstrap_heap < p /\ p + size1 <= g_bootstrap_heap + AO_BOOTSTRAP_HEAP_SIZE) /\
    forall s2, boot_ok s2 ->
      g_bootstrap_offset (fst (ext s1)) <= g_bootstrap_offset (fst (ext s2)) ->
      wp no_exit (ao_bootstrap_alloc size2) (fun q s3 => q <> 0 ->
        p + size1 <= q - SIZEOF_BOOTSTRAP_HEADER /\
        q + size2 <= g_bootstrap_heap + AO_BOOTSTRAP_HEAP_SIZE /\
        forall x, p <= x < p + size1 -> mem s3 !! x = mem s2 !! x) s2) s.
Proof.
  intros B H1 H2. unfold AO_BOOTSTRAP_HEAP_SIZE in *.
  assert (Hsmall : forall z, z <= 64 * 1024 -> SIZEOF_BOOTSTRAP_HEADER + z + 31 <= SIZE_MAX)
    by (intros; unfold SIZEOF_BOOTSTRAP_HEADER; zlia).
  eapply wp_mono; [apply bootstrap_alloc_ok; [done|lia|apply Hsmall; lia]|].
  intros p s1 [(-> & _)|[_ [Hin Hend _ _ _ (_ & _ & _ & Ho1 & _)]]] Hp; [done|].
  destruct B as (_ & _ & _ & Ho & _). unfold SIZEOF_BOOTSTRAP_HEADER, AO_BOOTSTRAP_HEAP_SIZE in *.
  split; [lia|]. intros s2 B2 Hoff.
  eapply wp_mono; [apply bootstrap_alloc_ok; [done|lia|apply Hsmall; lia]|].
  intros q s3 [(-> & _)|[_ [Hin2 Hend2 Hfr _ _ (_ & _ & _ & Ho3 & _)]]] Hq; [done|].
  unfold SIZEOF_BOOTSTRAP_HEADER, AO_BOOTSTRAP_HEAP_SIZE in *.
  split_and!; [lia|lia|]. intros x Hx. apply Hfr. lia.
Qed.

(** C14: [ao_bootstrap_realloc] of a bootstrap block either fails with [ENOMEM]
    and changes nothing, or gives a later block of the new size in the array that
    starts with the old contents. *)
Theorem bootstrap_realloc_copies p old size (s : st (globals * Y)) :
  boot_ok s -> 0 <= size <= AO_BOOTSTRAP_HEAP_SIZE ->
  g_bootstrap_heap <= p - SIZEOF_BOOTSTRAP_HEADER ->
  p < g_bootstrap_heap + AO_BOOTSTRAP_HEAP_SIZE ->
  0 <= old -> p + old <= g_bootstrap_heap + g_bootstrap_offset (fst (ext s)) ->
  holds (mem s) (p - SIZEOF_BOOTSTRAP_HEADER) (le_encode 8 old) ->
  wp no_exit (ao_bootstrap_realloc p size) (fun q s' =>
    (q = 0 /\ mem s' = mem s /\ ext s' = ext s /\ errno s' = ENOMEM) \/
    (q <> 0 /\ boot_only s s' /\ p + old <= q - SIZEOF_BOOTSTRAP_HEADER /\
     q + size <= g_bootstrap_heap + g_bootstrap_offset (fst (ext s')) /\
     forall i, 0 <= i < Z.min old size -> mem s' !! (q + i) = mem s !! (p + i))) s.
Proof.
  intros. apply bootstrap_realloc_ok; try done; [lia|].
  unfold SIZEOF_BOOTSTRAP_HEADER, AO_BOOTSTRAP_HEAP_SIZE in *. zlia.
Qed.

(** C15: the size computation of [ao_bootstrap_alloc] is not guarded: for a size
    within 48 bytes of [SIZE_MAX] header and size wrap around, the call succeeds
    and the offset advances by at most 64 bytes. *)
Theorem bootstrap_size_wraps size (s : st (globals * Y)) :
  boot_ok s -> SIZE_MAX - SIZEOF_BOOTSTRAP_HEADER < size <= SIZE_MAX ->
  g_bootstrap_offset (fst (ext s)) + 64 <= AO_BOOTSTRAP_HEAP_SIZE ->
  wp no_exit (ao_bootstrap_alloc size) (fun p s' =>
    p <> 0 /\ g_bootstrap_offset (fst (ext s')) <= g_bootstrap_offset (fst (ext s)) + 64) s.
Proof. apply bootstrap_alloc_wrapped. Qed.

End Props.

(** ** Witnesses *)

(** The state after the resolution from [simple_start]. *)
Definition simple_resolved : st (globals * arena) :=
  match ao_ensure_real_functions simple_start with Ret (_, s) => s | _ => simple_start end.

Lemma simple_resolved_reachable :
  reachable simple_resolved /\ g_capture_depth (fst (ext simple_resolved)) = 0.
Proof.
  pose proof (wp_returns _ _ _ (resolve_wp simple_start simple_start_fresh)) as R.
  destruct R as (u & R). destruct R as (s & H & W). unfold simple_resolved. rewrite H. destruct u.
  split; [|apply W]. exact (reach_start simple_start s simple_start_fresh H).
Qed.

Lemma simple_boot_ok : boot_ok simple_start.
Proof. apply fresh_boot_ok, simple_start_fresh. Qed.

Lemma reachable_safe_witness :
  reachable simple_resolved /\ mock_inv (ext simple_resolved) (mem simple_resolved) /\
  wp (may_exit simple_resolved (CallMalloc 16)) (run_op (CallMalloc 16))
    (fun _ s' => mock_inv (ext s') (mem s') /\ reachable s') simple_resolved.
Proof.
  split; [apply simple_resolved_reachable|]. apply reachable_safe; [apply simple_resolved_reachable|].
  cbn. unfold SIZE_MAX. lia.
Defined.

Lemma resolve_establishes_witness :
  wp no_exit ao_ensure_real_functions
    (fun _ s' => mock_inv (ext s') (mem s') /\ tracked (fst (ext s')) = ∅ /\
       snd (ext s') = snd (ext simple_start) /\ g_stats (fst (ext s')) = zero_stats /\
       g_capture_depth (fst (ext s')) = 0) simple_start.
Proof. apply resolve_establishes, simple_start_fresh. Defined.

Lemma malloc_correct_witness :
  let s := simple_busy 1 in
  wp (full_exit (Y := arena) (fst (ext s))) (malloc 40) (fun p s' =>
    mock_inv (ext s') (mem s') /\
    ((p = 0 /\ mem s' = mem s /\ errno s' = ENOMEM /\ fst (ext s') = failed_effect (fst (ext s))) \/
     (p <> 0 /\ allocated (mem s) (tracked (fst (ext s))) p 40 (mem s') (tracked (fst (ext s'))) /\
      registry_map (g_registry (fst (ext s'))) =
        <[p := (40, g_next_allocation_id (fst (ext s)))]> (registry_map (g_registry (fst (ext s)))) /\
      live_blocks (g_stats (fst (ext s'))) = u64 (live_blocks (g_stats (fst (ext s))) + 1) /\
      live_bytes (g_stats (fst (ext s'))) = u64 (live_bytes (g_stats (fst (ext s))) + 40) /\
      malloc_calls (g_stats (fst (ext s'))) =
        if capturing (fst (ext s)) then u64 (malloc_calls (g_stats (fst (ext s))) + 1)
        else malloc_calls (g_stats (fst (ext s)))))) s.
Proof. apply (malloc_correct _ _ _ 0); [apply busy_inv|unfold SIZE_MAX; lia]. Defined.

(** The library calls [calloc] while it resolves. *)
Definition simple_resolving : st (globals * arena) :=
  St (mem simple_start) 0 (set_in_resolver 1 (fst (ext simple_start)), snd (ext simple_start)).

Lemma calloc_correct_witness :
  (let s := simple_busy 0 in
   calloc (2 ^ 40) (2 ^ 40) s = Ret (0, St (mem s) ENOMEM (failed_effect (fst (ext s)), snd (ext s)))) /\
  (let s := simple_busy 1 in
   wp (full_exit (Y := arena) (fst (ext s))) (calloc 3 4) (fun p s' =>
     mock_inv (ext s') (mem s') /\
     (exists e', al_calloc 3 4 (St (mem s) 0 (snd (ext s))) = Ret (p, St (mem s') e' (snd (ext s')))) /\
     ((p = 0 /\ mem s' = mem s /\ errno s' = ENOMEM /\ fst (ext s') = failed_effect (fst (ext s))) \/
      (p <> 0 /\ allocated (mem s) (tracked (fst (ext s))) p (3 * 4) (mem s') (tracked (fst (ext s'))) /\
       (forall x, p <= x < p + 3 * 4 -> mem s' !! x = Some 0) /\
       registry_map (g_registry (fst (ext s'))) =
         <[p := (3 * 4, g_next_allocation_id (fst (ext s)))]> (registry_map (g_registry (fst (ext s)))) /\
       live_blocks (g_stats (fst (ext s'))) = u64 (live_blocks (g_stats (fst (ext s))) + 1) /\
       live_bytes (g_stats (fst (ext s'))) = u64 (live_bytes (g_stats (fst (ext s))) + 3 * 4) /\
       calloc_calls (g_stats (fst (ext s'))) =
         if capturing (fst (ext s)) then u64 (calloc_calls (g_stats (fst (ext s))) + 1)
         else calloc_calls (g_stats (fst (ext s)))))) s) /\
  (let s := simple_resolving in
   wp no_exit (calloc 3 4) (fun p s' =>
     (p = 0 /\ s' = St (mem s) ENOMEM (ext s)) \/
     (p <> 0 /\ boot_only s s' /\
      p + u64 (3 * 4) <= g_bootstrap_heap + g_bootstrap_offset (fst (ext s')) /\
      g_bootstrap_heap + g_bootstrap_offset (fst (ext s)) < p /\
      forall x, p <= x < p + u64 (3 * 4) -> mem s' !! x = Some 0)) s).
Proof.
  assert (Hs : forall n, 0 <= n <= 2 ^ 40 -> 0 <= n <= SIZE_MAX) by (unfold SIZE_MAX; lia).
  split; [|split].
  - refine (proj1 (calloc_correct _ (snd (ext (simple_busy 0))) (mem (simple_busy 0)) 0 (2 ^ 40) (2 ^ 40) _ _) _ _);
      [by apply Hs|by apply Hs|exact (proj1 (busy_inv 0))|done].
  - refine (proj1 (proj2 (calloc_correct (fst (ext (simple_busy 1))) (snd (ext (simple_busy 1))) (mem (simple_busy 1)) 0 3 4 _ _)) _ _);
      [by apply Hs|by apply Hs|exact (proj1 (busy_inv 1))|done].
  - refine (proj2 (proj2 (calloc_correct (fst (ext simple_resolving)) (snd (ext simple_resolving)) (mem simple_resolving) 0 3 4 _ _)) _ _ _);
      [by apply Hs|by apply Hs|done|exact simple_boot_ok|done].
Defined.

Lemma realloc_correct_witness :
  let s := simple_busy 0 in
  wp (al_exits (X := arena)) (realloc simple_block 20) (fun q s' =>
    mock_inv (ext s') (mem s') /\
    ((q = 0 /\ 20 <> 0 /\ mem s' = mem s /\ errno s' = ENOMEM /\
      tracked (fst (ext s')) = tracked (fst (ext s))) \/
     (q = 0 /\ 20 = 0 /\
      freed (mem s) (tracked (fst (ext s))) simple_block 10 (mem s') (tracked (fst (ext s')))) \/
     (q <> 0 /\
      reallocated (mem s) (tracked (fst (ext s))) simple_block 10 q 20 (mem s')
        (tracked (fst (ext s'))) /\
      (10 <> 20 -> live_bytes (g_stats (fst (ext s'))) =
         u64 (live_bytes (g_stats (fst (ext s))) + (20 - 10)))))) s.
Proof.
  apply (realloc_correct _ _ _ 0); [apply busy_inv|apply busy_tracked|unfold SIZE_MAX; lia].
Defined.

(** A block of the C library that no one registered: [simple_block] seen from a
    mock allocator with an empty registry. *)
Definition simple_foreign : st (globals * arena) :=
  St (write simple_memory simple_block simple_text) 0 (ready_globals 1, busy_arena).

Lemma simple_foreign_inv :
  mock_inv (ext simple_foreign) (mem simple_foreign) /\
  tracked (fst (ext simple_foreign)) !! simple_block = None.
Proof.
  destruct (busy_inv 1) as [J _]. pose proof (mi_heap _ _ J) as Hh. pose proof (mi_libc _ _ J) as Hl.
  pose proof (mi_apart _ _ J) as Ha. destruct (simple_ready_inv 1).
  split; [|rewrite tracked_lookup; reflexivity].
  split; [reflexivity|reflexivity|reflexivity|done|exact Hh|exact Hl|done| |exact Ha|done|done].
  unfold tracked. cbn. rewrite registry_empty_map, fmap_empty. apply map_empty_subseteq.
Qed.

Lemma free_correct_witness :
  (let s := simple_busy 1 in
   wp (al_exits (X := arena)) (free simple_block) (fun _ s' =>
     mock_inv (ext s') (mem s') /\
     freed (mem s) (tracked (fst (ext s))) simple_block 10 (mem s') (tracked (fst (ext s'))) /\
     live_blocks (g_stats (fst (ext s'))) = u64 (live_blocks (g_stats (fst (ext s))) - 1) /\
     live_bytes (g_stats (fst (ext s'))) = u64 (live_bytes (g_stats (fst (ext s))) - 10) /\
     free_calls (g_stats (fst (ext s'))) =
       (if capturing (fst (ext s)) then u64 (free_calls (g_stats (fst (ext s))) + 1)
        else free_calls (g_stats (fst (ext s)))) /\
     bypass_free_calls (g_stats (fst (ext s'))) = bypass_free_calls (g_stats (fst (ext s)))) s) /\
  (let s := simple_foreign in
   wp (al_exits (X := arena)) (free simple_block) (fun _ s' =>
     mock_inv (ext s') (mem s') /\ tracked (fst (ext s')) = tracked (fst (ext s)) /\
     freed (mem s) (al_live (snd (ext s))) simple_block 10 (mem s') (al_live (snd (ext s'))) /\
     live_blocks (g_stats (fst (ext s'))) = live_blocks (g_stats (fst (ext s))) /\
     bypass_free_calls (g_stats (fst (ext s'))) =
       if capturing (fst (ext s)) then u64 (bypass_free_calls (g_stats (fst (ext s))) + 1)
       else bypass_free_calls (g_stats (fst (ext s)))) s) /\
  free simple_heap_base (simple_busy 1) = Ret (tt, simple_busy 1).
Proof.
  split_and!.
  - apply (free_correct _ _ _ 0 (proj1 (busy_inv 1))). apply busy_tracked.
  - apply (free_correct _ _ _ 0 (proj1 simple_foreign_inv)); [reflexivity|exact (proj2 simple_foreign_inv)].
  - apply (free_correct _ _ _ 0 (proj1 (busy_inv 1))). right. reflexivity.
Defined.

Lemma is_tracked_exact_witness :
  wp no_exit (ao_mock_is_tracked_allocation simple_block)
    (fun b s' => (b = true <-> is_Some (tracked (busy_globals 0) !! simple_block)) /\
       s' = simple_busy 0) (simple_busy 0).
Proof. apply (is_tracked_exact _ _ _ 0); [apply busy_inv|reflexivity]. Defined.

Lemma bridge_free_silent_witness :
  let s := simple_foreign in
  wp (al_exits (X := arena)) (ao_alloc_bridge_libc_free simple_block) (fun _ s' =>
    mock_inv (ext s') (mem s') /\ fst (ext s') = fst (ext s) /\
    freed (mem s) (al_live (snd (ext s))) simple_block 10 (mem s') (al_live (snd (ext s')))) s.
Proof.
  apply (bridge_free_silent _ _ _ 0); [apply simple_foreign_inv|done|apply simple_foreign_inv].
Defined.

(** The structure is read into a region of the bootstrap array: any mapped
    memory will do. *)
Lemma get_stats_exact_witness :
  let s := simple_busy 0 in
  wp no_exit (ao_mock_get_stats 8192) (fun _ s' =>
    holds (mem s') 8192 (stats_bytes (g_stats (fst (ext s)))) /\
    same_outside 8192 88 (mem s) (mem s') /\ ext s' = ext s /\
    holds (mem s') (8192 + 72)
      (le_encode 8 (u64 (Z.of_nat (size (tracked (fst (ext s)))))) ++
       le_encode 8 (u64 (total_bytes (tracked (fst (ext s))))))) s.
Proof.
  apply (get_stats_exact _ _ _ 0); [apply busy_inv|lia|].
  intros x Hx. apply (mi_heap _ _ (proj1 (busy_inv 0))).
  unfold AO_BOOTSTRAP_HEAP_SIZE, g_bootstrap_heap, simple_platform, simple_heap_base. lia.
Defined.

Lemma no_capture_frozen_witness :
  wp (fun _ => True) (run_op (CallMalloc 16)) (fun _ s' => forall c, captured c ->
    stat_get c (g_stats (fst (ext s'))) = stat_get c (g_stats (fst (ext simple_resolved))))
    simple_resolved.
Proof.
  apply no_capture_frozen; [apply simple_resolved_reachable|cbn; unfold SIZE_MAX; lia|reflexivity|].
  rewrite (proj2 simple_resolved_reachable). reflexivity.
Defined.

Lemma capture_nesting_witness :
  let g := ready_globals 2 in let y := busy_arena in
  let begins := Nat.iter 3 (fun c : C (globals * arena) unit => do* ao_mock_begin_capture in c) in
  let ends := Nat.iter 3 (fun c : C (globals * arena) unit => do* c in ao_mock_end_capture) in
  begins (ret tt) (St ∅ 0 (g, y)) = Ret (tt, St ∅ 0 (set_capture_depth 5 g, y)) /\
  ends (ret tt) (St ∅ 0 (set_capture_depth 5 g, y)) = Ret (tt, St ∅ 0 (g, y)) /\
  ao_mock_end_capture (St ∅ 0 (set_capture_depth 0 g, y)) = Ret (tt, St ∅ 0 (set_capture_depth 0 g, y)).
Proof. apply (capture_nesting 3 (ready_globals 2)); [cbn; lia|cbn; lia]. Defined.

Lemma bootstrap_disjoint_witness :
  wp no_exit (ao_bootstrap_alloc 100) (fun p s1 => p <> 0 ->
    (g_bootstrap_heap < p /\ p + 100 <= g_bootstrap_heap + AO_BOOTSTRAP_HEAP_SIZE) /\
    forall s2, boot_ok s2 ->
      g_bootstrap_offset (fst (ext s1)) <= g_bootstrap_offset (fst (ext s2)) ->
      wp no_exit (ao_bootstrap_alloc 200) (fun q s3 => q <> 0 ->
        p + 100 <= q - SIZEOF_BOOTSTRAP_HEADER /\
        q + 200 <= g_bootstrap_heap + AO_BOOTSTRAP_HEAP_SIZE /\
        forall x, p <= x < p + 100 -> mem s3 !! x = mem s2 !! x) s2) simple_start.
Proof.
  apply bootstrap_disjoint; [apply simple_boot_ok|unfold AO_BOOTSTRAP_HEAP_SIZE; lia..].
Defined.

(** A bootstrap block of 16 bytes at the start of the array. *)
Definition simple_boot_block : st (globals * arena) :=
  St (write simple_memory simple_heap_base (le_encode 8 16)) 0
    (set_bootstrap_offset 64 initial_globals, empty_arena (2 ^ 20) (2 ^ 21)).

Lemma simple_boot_block_ok : boot_ok simple_boot_block.
Proof.
  destruct simple_boot_ok as (? & ? & Hm & _ & _). 
  split; [done|]. split; [done|]. split; [|split; [split; discriminate|reflexivity]].
  cbn [mem simple_boot_block]. rewrite <- same_dom_write; [done|].
  rewrite length_le_encode. eapply mapped_sub; [exact Hm|done|].
  unfold AO_BOOTSTRAP_HEAP_SIZE, g_bootstrap_heap, simple_platform, simple_heap_base. lia.
Qed.

Lemma bootstrap_realloc_copies_witness :
  let s := simple_boot_block in let p := simple_heap_base + 48 in
  wp no_exit (ao_bootstrap_realloc p 32) (fun q s' =>
    (q = 0 /\ mem s' = mem s /\ ext s' = ext s /\ errno s' = ENOMEM) \/
    (q <> 0 /\ boot_only s s' /\ p + 16 <= q - SIZEOF_BOOTSTRAP_HEADER /\
     q + 32 <= g_bootstrap_heap + g_bootstrap_offset (fst (ext s')) /\
     forall i, 0 <= i < Z.min 16 32 -> mem s' !! (q + i) = mem s !! (p + i))) s.
Proof.
  apply bootstrap_realloc_copies; [apply simple_boot_block_ok|unfold AO_BOOTSTRAP_HEAP_SIZE; lia
    |reflexivity|reflexivity|lia|cbn; discriminate|].
  apply holds_write.
Defined.

Lemma bootstrap_size_wraps_witness :
  wp no_exit (ao_bootstrap_alloc SIZE_MAX) (fun p s' =>
    p <> 0 /\ g_bootstrap_offset (fst (ext s')) <= g_bootstrap_offset (fst (ext simple_start)) + 64)
    simple_start.
Proof.
  apply bootstrap_size_wraps; [apply simple_boot_ok|unfold SIZE_MAX, SIZEOF_BOOTSTRAP_HEADER; lia|].
  unfold AO_BOOTSTRAP_HEAP_SIZE. cbn. lia.
Defined.
