(* ===== verification/MockTyped.v ===== *)
(** * The integer variables of the mock allocator keep to their types

    In every reachable state each counter is an [unsigned long long], the capture
    depth an [int], the next id an [uint64_t], the bootstrap offset a position in the
    bootstrap heap, and every tracked block a pointer and a size. *)
From S2P Require Import Prelude CMem CCmd CLib Alloc SimpleHeap Registry MockState Bootstrap MockAllocator MockSpec MockRun SimplePlatform.

Lemma s32_range z : - 2 ^ 31 <= s32 z < 2 ^ 31.
Proof. unfold s32. pose proof (Z.mod_pos_bound (z + 2 ^ 31) (2 ^ 32)). lia. Qed.

(** The variables that no lock guards. *)
Record variables_typed (g : globals) : Prop := {
  vt_stats c : 0 <= stat_get c (g_stats g) <= SIZE_MAX;
  vt_depth : - 2 ^ 31 <= g_capture_depth g < 2 ^ 31;
  vt_id : 0 <= g_next_allocation_id g <= SIZE_MAX;
  vt_offset : 0 <= g_bootstrap_offset g <= AO_BOOTSTRAP_HEAP_SIZE
}.

Create HintDb typed.

Lemma typed_bump c n g : variables_typed g -> variables_typed (bump c n g).
Proof.
  intros [H1 H2 H3 H4]. split; cbn [bump set_stats g_stats g_capture_depth g_next_allocation_id g_bootstrap_offset];
    [|done..]. intros d. rewrite stat_get_set. destruct (decide (c = d)); [apply u64_range|apply H1].
Qed.

Lemma typed_registry t g : variables_typed g -> variables_typed (set_registry t g).
Proof. intros []. by split. Qed.

Lemma typed_id z g : variables_typed g -> variables_typed (set_next_allocation_id (u64 z) g).
Proof. intros []. split; try done. apply u64_range. Qed.

Lemma typed_depth z g : variables_typed g -> variables_typed (set_capture_depth (s32 z) g).
Proof. intros []. split; try done. apply s32_range. Qed.

#[export] Hint Resolve typed_bump typed_registry typed_id typed_depth : typed.

Ltac typed_cases :=
  repeat match goal with |- variables_typed (if ?b then _ else _) => destruct b end; auto 8 with typed.

Lemma typed_failed g : variables_typed g -> variables_typed (failed_effect g).
Proof. unfold failed_effect. intros. typed_cases. Qed.

Lemma typed_success kind n g : variables_typed g -> variables_typed (success_effect kind n g).
Proof.
  intros T. unfold success_effect. destruct (capturing g); [|done]. do 2 apply typed_bump.
  unfold kind_effect. typed_cases.
Qed.

Lemma typed_free b g : variables_typed g -> variables_typed (free_effect b g).
Proof. unfold free_effect. intros. typed_cases. Qed.

Lemma typed_realloc b g : variables_typed g -> variables_typed (realloc_effect b g).
Proof. unfold realloc_effect. intros. typed_cases. Qed.

Lemma typed_registered n t g : variables_typed g -> variables_typed (registered n t g).
Proof. unfold registered, live_effect. auto with typed. Qed.

Lemma typed_unregistered n t g : variables_typed g -> variables_typed (unregistered n t g).
Proof. unfold unregistered, live_effect. auto with typed. Qed.

Lemma typed_reregistered old n t g : variables_typed g -> variables_typed (reregistered old n t g).
Proof. unfold reregistered. intros. typed_cases. Qed.

#[export] Hint Resolve typed_failed typed_success typed_free typed_realloc typed_registered
  typed_unregistered typed_reregistered : typed.

Section Typed.
Context {Y : Type} `{!Platform Y} `{!Allocator Y} `{!AllocatorLaws Y} `{!PlatformLaws Y}.
Implicit Types (g : globals) (y : Y) (m : gmap Z Z).

Definition typed (s : st (globals * Y)) : Prop := variables_typed (fst (ext s)).

Lemma alloc_outcome_typed kind n g y m p s' :
  variables_typed g -> alloc_outcome kind n g y m p s' -> typed s'.
Proof. unfold typed. intros T [_ [(_ & _ & _ & ->)|(_ & t & -> & _)]]; auto with typed. Qed.

Lemma realloc_outcome_typed p old n g y m q s' :
  variables_typed g -> realloc_outcome p old n g y m q s' -> typed s'.
Proof.
  unfold typed. intros T [_ [(_ & _ & _ & _ & ->)|[(_ & _ & t & -> & _)|(_ & t & -> & _)]]]; auto with typed.
Qed.

Lemma run_op_typed o (s : st (globals * Y)) :
  mock_inv (ext s) (mem s) -> op_ok o s -> typed s ->
  wp (fun _ => True) (run_op o) (fun _ s' => typed s') s.
Proof.
  destruct s as [m e [g y]]. intros I Hok T. change (variables_typed g) in T.
  destruct o as [n|k n|p n|p| | | |p bs]; cbn [run_op op_ok fst snd ext mem] in *.
  - eapply wp_mono; [by eapply malloc_wp|]. intros ??. by apply alloc_outcome_typed.
  - destruct Hok. eapply wp_mono; [by eapply calloc_wp|]. intros ?? [? _]. by eapply alloc_outcome_typed.
  - destruct Hok as [[->|[old Hp]] Hn].
    + eapply wp_mono; [by eapply realloc_null_wp|]. intros ??. by apply alloc_outcome_typed.
    + eapply wp_mono; [by eapply realloc_wp|]. intros ??. by apply realloc_outcome_typed.
  - apply (wp_returns_zero _ _ typed). destruct Hok as [->|[n Hp]]; [done|].
    eapply wp_mono; [by eapply (free_wp (fun _ => True))|]. intros _ s' (_ & t & Hg & _).
    unfold typed. rewrite Hg. auto with typed.
  - apply (wp_returns_zero _ _ typed). eapply acts_wp; [apply acts_begin|]. by apply typed_depth.
  - apply (wp_returns_zero _ _ typed). eapply acts_wp; [apply acts_end|]. unfold typed.
    cbn [fst snd ext]. destruct (0 <? g_capture_depth g); [by apply typed_depth|done].
  - apply (wp_returns_zero _ _ typed). eapply acts_wp; [apply acts_reset|]. unfold typed. cbn [fst snd ext].
    destruct T as [H1 H2 H3 H4]. split; try done. intros []; cbn; try (by split).
    + apply (H1 Live_blocks).
    + apply (H1 Live_bytes).
  - apply (wp_returns_zero _ _ typed). destruct Hok as (a & n & Ha & H1 & H2).
    eapply wp_mono; [eapply wp_exits; [by eapply write_block_inv|done]|]. by intros _ s' [_ ->].
Qed.

Lemma reachable_typed (s : st (globals * Y)) : reachable s -> typed s.
Proof.
  induction 1 as [s0 s1 F H|s o r s' R IH Hstep].
  - pose proof (resolve_wp s0 F) as W. unfold wp in W. rewrite H in W.
    destruct W as (_ & _ & _ & Hs & Hd & Hi & Ho). split.
    + intros c. rewrite Hs. by destruct c.
    + by rewrite Hd.
    + by rewrite Hi.
    + done.
  - inversion Hstep as [? ? ? ? Hok Hrun]; subst.
    pose proof (run_op_typed _ _ (reachable_inv s R) Hok IH) as W. unfold wp in W. by rewrite Hrun in W.
Qed.

(** C10: in every state a client reaches, each static variable holds a value of its
    C type: the eleven counters and the next id are 64-bit unsigned integers, the
    capture depth is an [int], the bootstrap offset never leaves its heap, and every
    registered pointer is aligned for every type, with a block that ends inside the
    address space. *)
Theorem variables_keep_types (s : st (globals * Y)) :
  reachable s ->
  variables_typed (fst (ext s)) /\
  forall p n, tracked (fst (ext s)) !! p = Some n -> good_block p n.
Proof.
  intros R. split; [by apply reachable_typed|]. intros p n Hp.
  pose proof (reachable_inv s R) as I. destruct s as [m e [g y]]. by destruct (tracked_good g y m I p n Hp).
Qed.

End Typed.

(** The state after the resolution on the concrete platform. *)
Definition typed_example : st (globals * arena) :=
  match ao_ensure_real_functions simple_start with Ret (_, s) => s | _ => simple_start end.

Lemma typed_example_reachable : reachable typed_example.
Proof.
  destruct (wp_returns _ _ _ (resolve_wp simple_start simple_start_fresh)) as ([] & s & H & _).
  unfold typed_example. rewrite H. exact (reach_start simple_start s simple_start_fresh H).
Qed.

Lemma variables_keep_types_witness :
  variables_typed (fst (ext typed_example)) /\
  forall p n, tracked (fst (ext typed_example)) !! p = Some n -> good_block p n.
Proof. exact (variables_keep_types typed_example typed_example_reachable). Defined.
