(* ===== verification/Threads.v ===== *)
(** * Threads: interleaved commands

    A program is a tree of atomic commands; threads run interleaved, one command at a
    time, in the order a schedule gives.  A command that makes no progress in a state
    (a test-and-set of a flag that is set) leaves its thread where it is: it spins.
    [safe] is a small program logic for one thread among others: an invariant that
    relates the shared state to the threads' ghost states, which a thread updates as
    it goes.  A pool of safe threads is safe under every schedule, and ends under
    every fair one. *)
From S2P Require Import Prelude CMem CCmd.

(** ** Programs *)

Inductive prog (X A : Type) : Type :=
| Done (a : A)
| Atom (B : Type) (c : C X B) (k : B -> prog X A).
Arguments Done {X A} a.
Arguments Atom {X A B} c k.

Fixpoint pbind {X A B} (p : prog X A) (f : A -> prog X B) : prog X B :=
  match p with
  | Done a => f a
  | Atom c k => Atom c (fun b => pbind (k b) f)
  end.

Declare Scope prog_scope.
Delimit Scope prog_scope with prog.
Notation "'atom*' x ':=' m 'in' k" := (Atom m (fun x => k))
  (at level 10, x name, m at level 100, k at level 200) : prog_scope.
Notation "'step*' m 'in' k" := (Atom m (fun _ => k))
  (at level 10, m at level 100, k at level 200) : prog_scope.
Notation "'call*' x ':=' p 'in' k" := (pbind p (fun x => k))
  (at level 10, x name, p at level 100, k at level 200) : prog_scope.
Notation "'run*' p 'in' k" := (pbind p (fun _ => k))
  (at level 10, p at level 100, k at level 200) : prog_scope.

(** A program that runs alone is a command. *)
Fixpoint alone {X A} (p : prog X A) : C X A :=
  match p with
  | Done a => ret a
  | Atom c k => bind c (fun b => alone (k b))
  end.

Lemma alone_pbind {X A B} (p : prog X A) (f : A -> prog X B) s :
  alone (pbind p f) s = bind (alone p) (fun a => alone (f a)) s.
Proof.
  revert s. induction p as [a|D c k IH]; intros s; [done|]. cbn. unfold bind at 1 2 3.
  destruct (c s) as [[b s']| | |]; [apply IH|done..].
Qed.

(** ** Schedules *)

Section Pool.
Context {X A : Type}.
Abbreviation pool := (list (prog X A)).

Definition thread_step (p : prog X A) : C X (prog X A) := fun s =>
  match p with
  | Done _ => Ret (p, s)
  | Atom c k =>
      match c s with
      | Ret (b, s') => Ret (k b, s')
      | Diverge => Ret (p, s)
      | Exit e => Exit e
      | Undef => Undef
      end
  end.

Definition pool_step (i : nat) (ps : pool) : C X pool :=
  match ps !! i with
  | None => ret ps
  | Some p => let* p' := thread_step p in ret (<[i := p']> ps)
  end.

Fixpoint run (sched : list nat) (ps : pool) : C X pool :=
  match sched with
  | [] => ret ps
  | i :: sched' => let* ps' := pool_step i ps in run sched' ps'
  end.

Definition is_done (p : prog X A) : bool := match p with Done _ => true | Atom _ _ => false end.
Definition all_done (ps : pool) : Prop := Forall (fun p => is_done p = true) ps.

(** The schedule of the next [n] steps, and fairness: every thread runs again and
    again. *)
Definition slice (sched : nat -> nat) (t n : nat) : list nat := map sched (seq t n).
Definition fair (threads : nat) (sched : nat -> nat) : Prop :=
  forall i t, (i < threads)%nat -> exists t', (t <= t')%nat /\ sched t' = i.

(** ** Programs decrease *)

Definition child (p' p : prog X A) : Prop :=
  match p with Done _ => False | Atom _ k => exists b, p' = k b end.

Inductive advances : pool -> pool -> Prop :=
| advances_here p p' ps : child p' p -> advances (p' :: ps) (p :: ps)
| advances_later p ps ps' : advances ps' ps -> advances (p :: ps') (p :: ps).

Lemma child_wf : well_founded child.
Proof. intros p. induction p as [a|B c k IH]; constructor; intros p' H; [done|]. by destruct H as [b ->]. Qed.

Lemma child_irreflexive p : ~ child p p.
Proof. induction (child_wf p) as [p _ IH]. intros H. by apply (IH p). Qed.

Lemma advances_wf : well_founded advances.
Proof.
  intros ps. induction ps as [|p ps IH]; [constructor; intros ? H; inversion H|].
  revert ps IH. induction (child_wf p) as [p _ IHp]. intros ps Hps.
  induction Hps as [ps Hps IHps]. constructor. intros qs H. inversion H; subst.
  - apply IHp; [done|]. by constructor.
  - by apply IHps.
Qed.

Lemma advances_insert ps i p p' : ps !! i = Some p -> child p' p -> advances (<[i := p']> ps) ps.
Proof.
  revert i. induction ps as [|q ps IH]; intros [|i] H Hc; [done|done| |].
  - injection H as ->. by constructor.
  - constructor. by apply IH.
Qed.

(** ** The logic *)

Section Logic.
Context {L : Type} (I : st X -> list L -> Prop) (holder : L -> Prop) (E : Z -> Prop).
Context (Q : A -> L -> Prop) (Q_free : forall a l, Q a l -> ~ holder l).

(** In every state the invariant allows, the thread's next command keeps it with a
    new ghost state; it may spin only while another thread holds what it waits for. *)
Fixpoint safe (p : prog X A) (l : L) : Prop :=
  match p with
  | Done a => Q a l
  | Atom c k => forall s ls i, ls !! i = Some l -> I s ls ->
      match c s with
      | Ret (b, s') => exists l', I s' (<[i := l']> ls) /\ safe (k b) l'
      | Exit e => E e
      | Undef => False
      | Diverge => ~ holder l /\ exists j l', ls !! j = Some l' /\ holder l'
      end
  end.

Definition pool_safe (ps : pool) (s : st X) : Prop := exists ls, I s ls /\ Forall2 safe ps ls.

Lemma pool_step_safe i ps s : pool_safe ps s -> wp E (pool_step i ps) pool_safe s.
Proof.
  intros (ls & HI & HF). unfold pool_step. destruct (ps !! i) as [p|] eqn:Hp; [|by exists ls].
  destruct (Forall2_lookup_l _ _ _ _ _ HF Hp) as (l & Hl & Hs).
  apply wp_bind. unfold wp, thread_step. destruct p as [a|B c k].
  - exists ls. split; [done|]. by rewrite list_insert_id.
  - specialize (Hs s ls i Hl HI). destruct (c s) as [[b s']|e| |]; [|done|done|].
    + destruct Hs as (l' & HI' & Hs'). exists (<[i := l']> ls). split; [done|]. by apply Forall2_insert.
    + exists ls. split; [done|]. by rewrite list_insert_id.
Qed.

Theorem run_safe sched ps s : pool_safe ps s -> wp E (run sched ps) pool_safe s.
Proof.
  revert ps s. induction sched as [|i sched IH]; intros ps s H; [done|]. cbn [run].
  apply wp_bind. eapply wp_mono; [by apply pool_step_safe|]. intros ps' s' H'. by apply IH.
Qed.

(** What a step of a thread does to a safe pool: nothing, or it advances. *)
Lemma step_cases i ps s :
  pool_safe ps s ->
  pool_step i ps s = Ret (ps, s) \/ (exists e, pool_step i ps s = Exit e /\ E e) \/
  (exists ps' s', pool_step i ps s = Ret (ps', s') /\ advances ps' ps /\ pool_safe ps' s').
Proof.
  intros HP. pose proof (pool_step_safe i ps s HP) as Hw. revert Hw. unfold wp, pool_step, bind, ret.
  destruct (ps !! i) as [p|] eqn:Hp; [|by left].
  destruct p as [a|B c k]; cbn; [left; by rewrite list_insert_id|].
  destruct (c s) as [[b s']|e| |]; [|by right; left; eauto|done|left; by rewrite list_insert_id].
  intros Hw. right; right. do 2 eexists. split_and!; [done| |done]. eapply advances_insert; [done|by exists b].
Qed.

(** Some thread of a safe pool that has not ended does not spin. *)
Lemma some_progress ps s : pool_safe ps s -> ~ all_done ps ->
  exists i, (i < length ps)%nat /\ pool_step i ps s <> Ret (ps, s).
Proof.
  intros (ls & HI & HF) Hnd. unfold all_done in Hnd.
  assert (Hrun : forall i p l, ps !! i = Some p -> ls !! i = Some l -> safe p l -> is_done p = false ->
    (pool_step i ps s <> Ret (ps, s)) \/ (~ holder l /\ exists j l', ls !! j = Some l' /\ holder l')).
  { intros i p l Hp Hl Hs Hd. destruct p as [a|B c k]; [done|]. specialize (Hs s ls i Hl HI).
    unfold pool_step, bind, ret. rewrite Hp. cbn. destruct (c s) as [[b s']|e| |]; [|by left|done|by right].
    left. intros [= Heq _]. assert (Hi : <[i := k b]> ps !! i = Some (k b)).
    { apply list_lookup_insert_eq. by eapply lookup_lt_Some. }
    rewrite Heq, Hp in Hi. injection Hi as Hi.
    by apply (child_irreflexive (Atom c k)); exists b. }
  assert (Hex : exists i p, ps !! i = Some p /\ is_done p = false).
  { apply not_Forall_Exists in Hnd; [|intros p; apply _].
    apply list.Exists_exists in Hnd as (p & Hin & Hd). apply list_elem_of_lookup_1 in Hin as [i Hi].
    exists i, p. split; [done|]. apply not_true_is_false, Hd. }
  destruct Hex as (i & p & Hp & Hd). destruct (Forall2_lookup_l _ _ _ _ _ HF Hp) as (l & Hl & Hs).
  destruct (Hrun i p l Hp Hl Hs Hd) as [H|(_ & j & l' & Hj & Hh)].
  { exists i. split; [by eapply lookup_lt_Some|done]. }
  destruct (Forall2_lookup_r _ _ _ _ _ HF Hj) as (q & Hq & Hs').
  destruct (is_done q) eqn:Hdq.
  { destruct q as [a|]; [|done]. exfalso. by eapply Q_free. }
  destruct (Hrun j q l' Hq Hj Hs' Hdq) as [H|(Hn & _)]; [|done].
  exists j. split; [by eapply lookup_lt_Some|done].
Qed.

(** Wait for a step that advances; at most [d] steps pass before one does. *)
Lemma wait_progress sched d t i ps s :
  pool_safe ps s -> sched (t + d)%nat = i -> pool_step i ps s <> Ret (ps, s) ->
  (forall ps' s' t', advances ps' ps -> pool_safe ps' s' ->
     exists n, wp E (run (slice sched t' n) ps') (fun ps2 s2 => all_done ps2 /\ pool_safe ps2 s2) s') ->
  exists n, wp E (run (slice sched t n) ps) (fun ps2 s2 => all_done ps2 /\ pool_safe ps2 s2) s.
Proof.
  revert t. induction d as [|d IHd]; intros t HP Hi Hne Hrec.
  - rewrite Nat.add_0_r in Hi. destruct (step_cases i ps s HP) as [H|[(e & H & He)|(ps' & s' & H & Ha & HP')]]; [done| |].
    + exists 1%nat. unfold slice. cbn [seq map run]. rewrite Hi. unfold wp, bind. by rewrite H.
    + destruct (Hrec ps' s' (S t) Ha HP') as [n Hn]. exists (S n). unfold slice. cbn [seq map run]. rewrite Hi.
      apply wp_bind. unfold wp at 1. rewrite H. exact Hn.
  - destruct (step_cases (sched t) ps s HP) as [H|[(e & H & He)|(ps' & s' & H & Ha & HP')]].
    + destruct (IHd (S t)) as [n Hn]; [done|by rewrite <- Hi; f_equal; lia|done|done|].
      exists (S n). unfold slice. cbn [seq map run]. apply wp_bind. unfold wp at 1. rewrite H. exact Hn.
    + exists 1%nat. unfold slice. cbn [seq map run]. unfold wp, bind. by rewrite H.
    + destruct (Hrec ps' s' (S t) Ha HP') as [n Hn]. exists (S n). unfold slice. cbn [seq map run].
      apply wp_bind. unfold wp at 1. rewrite H. exact Hn.
Qed.

Lemma advances_length ps ps' : advances ps' ps -> length ps' = length ps.
Proof. induction 1; cbn; congruence. Qed.

(** Under a fair schedule every thread of a safe pool ends. *)
Theorem run_ends sched t ps s :
  pool_safe ps s -> fair (length ps) sched ->
  exists n, wp E (run (slice sched t n) ps) (fun ps' s' => all_done ps' /\ pool_safe ps' s') s.
Proof.
  revert t s. induction (advances_wf ps) as [ps _ IH]. intros t s HP HF.
  destruct (decide (Forall (fun p => is_done p = true) ps)) as [Hd|Hnd].
  { exists 0%nat. by split. }
  destruct (some_progress ps s HP Hnd) as (i & Hi & Hne). destruct (HF i t Hi) as (t' & Ht & Hs).
  apply (wait_progress sched (t' - t) t i); [done|by rewrite <- Hs; f_equal; lia|done|].
  intros ps' s' t2 Ha HP'. apply IH; [done|done|]. by rewrite (advances_length _ _ Ha).
Qed.

End Logic.
End Pool.

Lemma all_done_results {X A} (ps : list (prog X A)) : all_done ps -> exists outs, ps = map Done outs.
Proof.
  induction 1 as [|p ps Hp _ [outs ->]]; [by exists []|]. destruct p as [a|]; [|done]. by exists (a :: outs).
Qed.

(** ** Parts of a schedule *)

Lemma run_app {X A} sched1 sched2 (ps : list (prog X A)) s :
  run (sched1 ++ sched2) ps s = bind (run sched1 ps) (run sched2) s.
Proof.
  revert ps s. induction sched1 as [|i sched1 IH]; intros ps s; [done|]. cbn [app run]. unfold bind.
  destruct (pool_step i ps s) as [[ps' s']| | |]; [|done..].
  rewrite IH. reflexivity.
Qed.

Lemma run_atom {X A B} i sched (ps : list (prog X A)) (c : C X B) k s b s' :
  ps !! i = Some (Atom c k) -> c s = Ret (b, s') ->
  run (i :: sched) ps s = run sched (<[i := k b]> ps) s'.
Proof. intros Hi Hc. cbn [run]. unfold pool_step, bind. rewrite Hi. cbn. by rewrite Hc. Qed.

(** A thread that runs for as long as it takes. *)
Lemma run_alone {X A} i (ps : list (prog X A)) p s a s' :
  ps !! i = Some p -> alone p s = Ret (a, s') ->
  exists n, run (replicate n i) ps s = Ret (<[i := Done a]> ps, s').
Proof.
  revert ps s. induction p as [a0|B c k IH]; intros ps s Hi Ha.
  - injection Ha as -> ->. exists 0%nat. by rewrite list_insert_id.
  - cbn [alone] in Ha. unfold bind in Ha. destruct (c s) as [[b s1]| | |] eqn:Hc; [|done..].
    destruct (IH b (<[i := k b]> ps) s1) as [n Hn]; [|done|].
    { apply list_lookup_insert_eq. by eapply lookup_lt_Some. }
    exists (S n). cbn [replicate]. rewrite (run_atom i _ _ c k s b s1 Hi Hc), Hn.
    by rewrite list_insert_insert_eq.
Qed.

(** A call followed by the rest of the thread. *)
Lemma safe_pbind {X A B L} (I : st X -> list L -> Prop) holder E
    (QA : A -> L -> Prop) (QB : B -> L -> Prop) (p : prog X A) (f : A -> prog X B) l :
  safe I holder E QA p l -> (forall a l', QA a l' -> safe I holder E QB (f a) l') ->
  safe I holder E QB (pbind p f) l.
Proof.
  revert l. induction p as [a|D c k IH]; intros l Hp Hf; [by apply Hf|]. cbn in *. intros s ls i Hl HI.
  specialize (Hp s ls i Hl HI). destruct (c s) as [[b s']|e| |]; [|done..].
  destruct Hp as (l' & HI' & Hs). exists l'. split; [done|]. by apply IH.
Qed.

(** ** A program that runs alone is the function

    Equality of commands state by state, and its rewriting under [bind]. *)

Definition ceq {X A} : relation (C X A) := pointwise_relation _ eq.
Infix "≡c" := ceq (at level 70) : cmd_scope.

#[export] Instance ceq_equivalence X A : Equivalence (@ceq X A).
Proof. unfold ceq. apply _. Qed.

#[export] Instance bind_proper X A B :
  Proper (ceq ==> pointwise_relation A ceq ==> ceq) (@bind X A B).
Proof. intros m m' Hm k k' Hk s. unfold bind. rewrite (Hm s). destruct (m' s) as [[a s']| | |]; [apply Hk|done..]. Qed.

Lemma bind_bind {X A B D} (m : C X A) (k : A -> C X B) (h : B -> C X D) :
  bind (bind m k) h ≡c bind m (fun a => bind (k a) h).
Proof. intros s. unfold bind. by destruct (m s) as [[]| | |]. Qed.

Lemma ret_bind {X A B} (a : A) (k : A -> C X B) : bind (ret a) k ≡c k a.
Proof. by intros s. Qed.

Lemma bind_ret_r {X A} (m : C X A) : bind m ret ≡c m.
Proof. intros s. unfold bind. by destruct (m s) as [[]| | |]. Qed.

Lemma alone_call {X A B} (p : prog X A) (f : A -> prog X B) :
  alone (pbind p f) ≡c bind (alone p) (fun a => alone (f a)).
Proof. intros s. apply alone_pbind. Qed.

Lemma bind_ret_tt {X} (m : C X unit) : bind m (fun _ => ret tt) ≡c m.
Proof. intros s. unfold bind. by destruct (m s) as [[[]]| | |]. Qed.

Create HintDb alone.

(** Compare two commands step by step. *)
Ltac same_command :=
  intros; cbn [alone];
  repeat first
    [ reflexivity
    | solve [auto with alone nocore]
    | setoid_rewrite alone_call; cbn [alone]
    | rewrite bind_ret_tt
    | rewrite bind_ret_r
    | rewrite ret_bind
    | rewrite bind_bind
    | match goal with
      | |- context [if ?b then _ else _] => destruct b; cbn [alone]
      | |- context [match ?o with Some _ => _ | None => _ end] => destruct o; cbn [alone]
      | |- context [let '(_, _) := ?o in _] => destruct o; cbn [alone]
      end
    | apply bind_proper; [|intros ?] ].

Lemma wp_ceq {X A} E (m m' : C X A) Q s : m ≡c m' -> wp E m' Q s -> wp E m Q s.
Proof. intros H. unfold wp. by rewrite (H s). Qed.
