(* ===== verification/Concurrent.v ===== *)
(** * The mock allocator under threads (src/mock_allocator.c)

    The allocation functions as programs of [Threads]: each atomic operation of the
    source (a test-and-set, a fetch-and-add, a load of the capture depth), each read
    and each write of the registry and each call of a C library function is one atomic
    command, and anything may run between two of them.  A program that runs alone is
    the function of [MockAllocator] ([malloc_alone] and the like); here are the
    programs, the threads of a client, and the invariant they keep. *)
From S2P Require Import Prelude CMem CCmd CLib Alloc Registry MockState Bootstrap MockAllocator Threads.
#[local] Open Scope prog_scope.

Section Programs.
Context {Y : Type} `{!Platform Y} `{!Allocator Y}.
Abbreviation P := (prog (globals * Y)).

(** ** Counters *)

Definition record_failed_prog : P unit :=
  atom* on := ao_capture_enabled in
  if on then step* stat_fetch_add Failed_allocations 1 in Done tt else Done tt.

Definition record_success_prog (kind size : Z) : P unit :=
  atom* on := ao_capture_enabled in
  if negb on then Done tt
  else
    run* (if kind =? 0 then step* stat_fetch_add Malloc_calls 1 in Done tt
          else if kind =? 1 then step* stat_fetch_add Calloc_calls 1 in Done tt
          else if kind =? 2 then step* stat_fetch_add Realloc_calls 1 in Done tt
          else Done tt) in
    step* stat_fetch_add Successful_allocations 1 in
    step* stat_fetch_add Successful_allocation_bytes size in
    Done tt.

Definition record_free_prog (bypass : bool) : P unit :=
  atom* on := ao_capture_enabled in
  if negb on then Done tt
  else
    step* stat_fetch_add Free_calls 1 in
    if bypass then step* stat_fetch_add Bypass_free_calls 1 in Done tt else Done tt.

Definition record_realloc_prog (bypass : bool) : P unit :=
  atom* on := ao_capture_enabled in
  if negb on then Done tt
  else
    step* stat_fetch_add Realloc_calls 1 in
    if bypass then step* stat_fetch_add Bypass_realloc_calls 1 in Done tt else Done tt.

Definition live_add_prog (size : Z) : P unit :=
  step* stat_fetch_add Live_blocks 1 in step* stat_fetch_add Live_bytes size in Done tt.

Definition live_update_prog (old_size new_size : Z) : P unit :=
  if old_size <? new_size then step* stat_fetch_add Live_bytes (u64 (new_size - old_size)) in Done tt
  else if new_size <? old_size then step* stat_fetch_sub Live_bytes (u64 (old_size - new_size)) in Done tt
  else Done tt.

Definition live_remove_prog (size : Z) : P unit :=
  step* stat_fetch_sub Live_blocks 1 in step* stat_fetch_sub Live_bytes size in Done tt.

(** A capture begins with one fetch-and-add; it ends with a load and then a
    fetch-and-sub, between which another thread may end one too; a reset is nine
    stores. *)
Definition begin_capture_prog : P unit := step* ao_mock_begin_capture in Done tt.

Definition end_capture_prog : P unit :=
  atom* g := get_globals in
  if 0 <? g_capture_depth g then
    step* mod_globals (fun g => set_capture_depth (s32 (g_capture_depth g - 1)) g) in Done tt
  else Done tt.

Definition reset_prog : P unit :=
  step* stat_store Malloc_calls 0 in
  step* stat_store Calloc_calls 0 in
  step* stat_store Realloc_calls 0 in
  step* stat_store Free_calls 0 in
  step* stat_store Successful_allocations 0 in
  step* stat_store Successful_allocation_bytes 0 in
  step* stat_store Failed_allocations 0 in
  step* stat_store Bypass_realloc_calls 0 in
  step* stat_store Bypass_free_calls 0 in
  Done tt.

(** ** The registry: its array is read and written between the lock and the unlock *)

Definition insert_prog (ptr size id : Z) : P bool :=
  atom* g := get_globals in
  let r := ao_registry_insert_locked (g_registry g) ptr size id in
  step* mod_globals (set_registry r.2) in
  Done r.1.

Definition lookup_prog (ptr : Z) : P (option (Z * Z)) :=
  atom* g := get_globals in Done (ao_registry_lookup_locked (g_registry g) ptr).

Definition remove_prog (ptr : Z) : P (option (Z * Z)) :=
  atom* g := get_globals in
  let r := ao_registry_remove_locked (g_registry g) ptr in
  step* mod_globals (set_registry r.2) in
  Done r.1.

Definition contains_prog (ptr : Z) : P bool :=
  step* ao_registry_lock in
  call* found := lookup_prog ptr in
  step* ao_registry_unlock in
  Done (bool_decide (is_Some found)).

Definition is_tracked_prog (ptr : Z) : P bool :=
  if ptr =? 0 then Done false else contains_prog ptr.

Definition fatal_prog (message : string) : P unit := atom* u := ao_fatal message in Done u.

Definition track_prog (ptr size : Z) : P unit :=
  step* ao_registry_lock in
  atom* id := ao_next_allocation_id in
  call* inserted := insert_prog ptr size id in
  step* ao_registry_unlock in
  run* (if negb inserted then
          fatal_prog "mock_allocator: allocation registry exhausted
"
        else Done tt) in
  live_add_prog size.

(** ** The allocation functions *)

(** What follows the call of a real allocation function. *)
Definition finish_allocation (kind size ptr : Z) : P Z :=
  if ptr =? 0 then run* record_failed_prog in Done 0
  else
    run* track_prog ptr size in
    run* record_success_prog kind size in
    Done ptr.

Definition malloc_prog (size : Z) : P Z :=
  atom* resolving := in_resolver in
  if resolving then atom* p := ao_bootstrap_alloc size in Done p
  else
    step* ao_ensure_real_functions in
    atom* ptr := call_real g_real_malloc (al_malloc size) in
    finish_allocation 0 size ptr.

Definition calloc_prog (nmemb size : Z) : P Z :=
  atom* resolving := in_resolver in
  if resolving then
    let requested_size := u64 (nmemb * size) in
    atom* ptr := ao_bootstrap_alloc requested_size in
    if negb (ptr =? 0) then step* memset ptr 0 requested_size in Done ptr else Done ptr
  else if negb (nmemb =? 0) && (SIZE_MAX / nmemb <? size) then
    step* set_errno ENOMEM in
    run* record_failed_prog in
    Done 0
  else
    let requested_size := u64 (nmemb * size) in
    step* ao_ensure_real_functions in
    atom* ptr := call_real g_real_calloc (al_calloc nmemb size) in
    finish_allocation 1 requested_size ptr.

(** What follows the call of the real [realloc] for a tracked block. *)
Definition realloc_tail_prog (ptr size old_size allocation_id new_ptr : Z) : P Z :=
  if (new_ptr =? 0) && negb (size =? 0) then
    run* record_realloc_prog false in
    run* record_failed_prog in
    Done 0
  else
    step* ao_registry_lock in
    run* remove_prog ptr in
    run* (if negb (new_ptr =? 0) then
            call* inserted := insert_prog new_ptr size allocation_id in
            if negb inserted then
              step* ao_registry_unlock in
              fatal_prog "mock_allocator: allocation registry exhausted during realloc
"
            else Done tt
          else Done tt) in
    step* ao_registry_unlock in
    run* record_realloc_prog false in
    run* (if negb (new_ptr =? 0) then live_update_prog old_size size
          else live_remove_prog old_size) in
    Done new_ptr.

Definition realloc_tracked_prog (ptr size old_size allocation_id : Z) : P Z :=
  atom* new_ptr := call_real g_real_realloc (al_realloc ptr size) in
  realloc_tail_prog ptr size old_size allocation_id new_ptr.

Definition realloc_prog (ptr size : Z) : P Z :=
  atom* resolving := in_resolver in
  if resolving then atom* p := ao_bootstrap_realloc ptr size in Done p
  else if ao_bootstrap_contains ptr then atom* p := ao_bootstrap_realloc ptr size in Done p
  else
    step* ao_ensure_real_functions in
    if ptr =? 0 then
      atom* new_ptr := call_real g_real_realloc (al_realloc 0 size) in
      finish_allocation 2 size new_ptr
    else
      step* ao_registry_lock in
      call* tracked := lookup_prog ptr in
      step* ao_registry_unlock in
      match tracked with
      | None =>
          run* record_realloc_prog true in
          atom* new_ptr := call_real g_real_realloc (al_realloc ptr size) in
          run* (if (new_ptr =? 0) && negb (size =? 0) then record_failed_prog else Done tt) in
          Done new_ptr
      | Some (old_size, allocation_id) => realloc_tracked_prog ptr size old_size allocation_id
      end.

Definition free_prog (ptr : Z) : P unit :=
  if ptr =? 0 then Done tt
  else if ao_bootstrap_contains ptr then Done tt
  else
    atom* resolving := in_resolver in
    if resolving then Done tt
    else
      step* ao_ensure_real_functions in
      step* ao_registry_lock in
      call* tracked := remove_prog ptr in
      step* ao_registry_unlock in
      run* record_free_prog (negb (bool_decide (is_Some tracked))) in
      run* match tracked with
           | Some (requested_size, _) => live_remove_prog requested_size
           | None => Done tt
           end in
      step* call_real g_real_free (al_free ptr) in
      Done tt.

End Programs.

(** ** Programs that run alone are the functions *)

Section Alone.
Context {Y : Type} `{!Platform Y} `{!Allocator Y}.
#[local] Open Scope cmd_scope.

Lemma record_failed_alone : alone record_failed_prog ≡c ao_record_failed_allocation (Y := Y).
Proof. unfold record_failed_prog, ao_record_failed_allocation. same_command. Qed.

Lemma record_success_alone kind size :
  alone (record_success_prog kind size) ≡c ao_record_successful_allocation (Y := Y) kind size.
Proof. unfold record_success_prog, ao_record_successful_allocation. same_command. Qed.

Lemma record_free_alone b : alone (record_free_prog b) ≡c ao_record_free (Y := Y) b.
Proof. unfold record_free_prog, ao_record_free. same_command. Qed.

Lemma record_realloc_alone b : alone (record_realloc_prog b) ≡c ao_record_realloc (Y := Y) b.
Proof. unfold record_realloc_prog, ao_record_realloc. same_command. Qed.

Lemma live_add_alone n : alone (live_add_prog n) ≡c ao_live_add (Y := Y) n.
Proof. unfold live_add_prog, ao_live_add. same_command. Qed.

Lemma live_update_alone o n : alone (live_update_prog o n) ≡c ao_live_update (Y := Y) o n.
Proof. unfold live_update_prog, ao_live_update. same_command. Qed.

Lemma live_remove_alone n : alone (live_remove_prog n) ≡c ao_live_remove (Y := Y) n.
Proof. unfold live_remove_prog, ao_live_remove. same_command. Qed.

Lemma begin_capture_alone : alone begin_capture_prog ≡c ao_mock_begin_capture (Y := Y).
Proof. unfold begin_capture_prog. same_command. Qed.

Lemma end_capture_alone : alone end_capture_prog ≡c ao_mock_end_capture (Y := Y).
Proof. unfold end_capture_prog, ao_mock_end_capture. same_command. Qed.

Lemma reset_alone : alone reset_prog ≡c ao_mock_reset (Y := Y).
Proof. unfold reset_prog, ao_mock_reset. same_command. Qed.

#[local] Hint Resolve record_failed_alone record_success_alone record_free_alone record_realloc_alone
  live_add_alone live_update_alone live_remove_alone : alone.

Lemma insert_alone p n id : alone (insert_prog p n id) ≡c registry_insert (Y := Y) p n id.
Proof. unfold insert_prog, registry_insert. same_command. Qed.

Lemma lookup_alone p : alone (lookup_prog p) ≡c registry_lookup (Y := Y) p.
Proof. unfold lookup_prog, registry_lookup. same_command. Qed.

Lemma remove_alone p : alone (remove_prog p) ≡c registry_remove (Y := Y) p.
Proof. unfold remove_prog, registry_remove. same_command. Qed.

Lemma fatal_alone message : alone (fatal_prog message) ≡c ao_fatal (Y := Y) message.
Proof. unfold fatal_prog. same_command. Qed.

#[local] Hint Resolve insert_alone lookup_alone remove_alone fatal_alone : alone.

Lemma is_tracked_alone p : alone (is_tracked_prog p) ≡c ao_mock_is_tracked_allocation (Y := Y) p.
Proof.
  unfold is_tracked_prog, ao_mock_is_tracked_allocation, contains_prog, ao_registry_contains. same_command.
Qed.

Lemma track_alone p n : alone (track_prog p n) ≡c ao_track_allocation_or_die (Y := Y) p n.
Proof. unfold track_prog, ao_track_allocation_or_die. same_command. Qed.

#[local] Hint Resolve track_alone : alone.

Lemma malloc_alone n : alone (malloc_prog n) ≡c malloc (Y := Y) n.
Proof. unfold malloc_prog, malloc, finish_allocation. same_command. Qed.

Lemma calloc_alone k n : alone (calloc_prog k n) ≡c calloc (Y := Y) k n.
Proof. unfold calloc_prog, calloc, finish_allocation. same_command. Qed.

Lemma realloc_tracked_alone p n old id :
  alone (realloc_tracked_prog p n old id) ≡c realloc_tracked (Y := Y) p n old id.
Proof. unfold realloc_tracked_prog, realloc_tail_prog, realloc_tracked. same_command. Qed.

#[local] Hint Resolve realloc_tracked_alone : alone.

Lemma realloc_alone p n : alone (realloc_prog p n) ≡c realloc (Y := Y) p n.
Proof. unfold realloc_prog, realloc, finish_allocation. same_command. Qed.

Lemma free_alone p : alone (free_prog p) ≡c free (Y := Y) p.
Proof. unfold free_prog, free. same_command. Qed.

End Alone.

#[export] Hint Resolve record_failed_alone record_success_alone record_free_alone record_realloc_alone
  live_add_alone live_update_alone live_remove_alone insert_alone lookup_alone remove_alone fatal_alone
  track_alone realloc_tracked_alone : alone.
