(* ===== verification/ConcurrentInv.v ===== *)
(** * The invariant of concurrent calls

    Ghost state of a thread: what it knows of the registry while it holds the lock,
    the blocks its client holds, the block in flight between the C library and the
    registry, what it still owes to the live counters, and how many more blocks it may
    ask for.  The invariant ties the globals to the ghost states of all threads; one
    lemma per kind of atomic command shows that the command keeps it. *)
From S2P Require Import Prelude CMem CCmd CLib Alloc Registry MockState Bootstrap MockAllocator MockSpec Threads Concurrent.

Record local := Local {
  l_lock : option (gmap Z ao_registry_entry);
  l_own : gmap Z Z;
  l_flight : option (Z * Z);
  l_blocks : Z;
  l_bytes : Z;
  l_credit : Z
}.

(** Between two calls. *)
Definition rest (own : gmap Z Z) (credit : Z) : local := Local None own None 0 0 credit.

(** ** Sums over the threads *)

Definition zsum (xs : list Z) : Z := foldr Z.add 0 xs.

Lemma zsum_insert xs i x x' : xs !! i = Some x -> zsum (<[i := x']> xs) = zsum xs - x + x'.
Proof.
  revert i. induction xs as [|y xs IH]; intros [|i] H; [done|done| |].
  - injection H as ->. cbn. lia.
  - change (y + zsum (<[i := x']> xs) = y + zsum xs - x + x'). rewrite (IH i) by done. lia.
Qed.

Lemma zsum_ge xs i x : xs !! i = Some x -> (forall j z, xs !! j = Some z -> 0 <= z) -> x <= zsum xs.
Proof.
  revert i. induction xs as [|z xs IH]; intros [|i] H Hn; [done|done| |].
  - injection H as ->. assert (0 <= zsum xs); [|change (x <= x + zsum xs); lia].
    clear IH. revert Hn. induction xs as [|w xs IH]; intros Hn; [done|].
    change (0 <= w + zsum xs). pose proof (Hn 1%nat w eq_refl).
    enough (0 <= zsum xs) by lia. apply IH. intros [|j] v Hj; [by apply (Hn 0%nat)|by apply (Hn (S (S j)))].
  - change (x <= z + zsum xs). pose proof (Hn 0%nat z eq_refl).
    enough (x <= zsum xs) by lia. apply (IH i); [done|]. intros j v Hj. by apply (Hn (S j)).
Qed.

(** ** The lock *)

Record lock_inv (b : bool) (t : gmap Z ao_registry_entry)
    (ks : list (option (gmap Z ao_registry_entry))) : Prop := {
  li_known i t' : ks !! i = Some (Some t') -> b = true /\ t' = t;
  li_one i j ti tj : ks !! i = Some (Some ti) -> ks !! j = Some (Some tj) -> i = j;
  li_held : b = true -> exists i, ks !! i = Some (Some t)
}.

(** Look a position of an updated list up. *)
Ltac at_insert H :=
  apply list_lookup_insert_Some in H as [(<- & ? & _)|[? H]]; [simplify_eq|].

Lemma lock_take t ks i : ks !! i = Some None -> lock_inv false t ks -> lock_inv true t (<[i := Some t]> ks).
Proof.
  intros Hi L. assert (Hno : forall j t', ks !! j = Some (Some t') -> False).
  { intros j t' Hj. by destruct (li_known _ _ _ L j t' Hj). }
  split.
  - intros j t' Hj. at_insert Hj; [done|]. by destruct (Hno j t').
  - intros j k tj tk Hj Hk. at_insert Hj; at_insert Hk; naive_solver.
  - intros _. exists i. apply list_lookup_insert_eq. by eapply lookup_lt_Some.
Qed.

Lemma lock_store b t t0 t' ks i :
  ks !! i = Some (Some t0) -> lock_inv b t ks -> lock_inv b t' (<[i := Some t']> ks).
Proof.
  intros Hi L. destruct (li_known _ _ _ L i t0 Hi) as [-> ->]. split.
  - intros j tj Hj. at_insert Hj; [done|]. pose proof (li_one _ _ _ L _ _ _ _ Hi Hj). naive_solver.
  - intros j k tj tk Hj Hk. at_insert Hj; at_insert Hk; [done| | |by eapply li_one].
    + pose proof (li_one _ _ _ L _ _ _ _ Hi Hk). naive_solver.
    + pose proof (li_one _ _ _ L _ _ _ _ Hi Hj). naive_solver.
  - intros _. exists i. apply list_lookup_insert_eq. by eapply lookup_lt_Some.
Qed.

Lemma lock_drop b t t0 ks i :
  ks !! i = Some (Some t0) -> lock_inv b t ks -> lock_inv false t (<[i := None]> ks).
Proof.
  intros Hi L. assert (Hno : forall j tj, <[i := None]> ks !! j = Some (Some tj) -> False).
  { intros j tj Hj. apply list_lookup_insert_Some in Hj as [(_ & ? & _)|[Hne Hj]]; [done|].
    by pose proof (li_one _ _ _ L _ _ _ _ Hi Hj). }
  split; [|intros j k tj tk Hj|done]; naive_solver.
Qed.

(** ** The blocks *)

Record blocks_inv (base tr live : gmap Z Z) (fs : list (gmap Z Z * option (Z * Z))) : Prop := {
  bi_tracked p n : tr !! p = Some n <->
    base !! p = Some n \/ exists i f, fs !! i = Some f /\ f.1 !! p = Some n;
  bi_live : tr ⊆ live;
  bi_flight i f p n : fs !! i = Some f -> f.2 = Some (p, n) -> live !! p = Some n /\ tr !! p = None;
  bi_own i j fi fj p n k : fs !! i = Some fi -> fs !! j = Some fj ->
    fi.1 !! p = Some n -> fj.1 !! p = Some k -> i = j;
  bi_flights i j fi fj p n k : fs !! i = Some fi -> fs !! j = Some fj ->
    fi.2 = Some (p, n) -> fj.2 = Some (p, k) -> i = j;
  bi_base i f p n k : fs !! i = Some f -> base !! p = Some n -> f.1 !! p = Some k -> False
}.

Lemma bi_own_tracked base tr live fs i f p n :
  blocks_inv base tr live fs -> fs !! i = Some f -> f.1 !! p = Some n -> tr !! p = Some n.
Proof. intros B Hi Hp. apply (bi_tracked _ _ _ _ B). right. eauto. Qed.

(** A statement about every position of an updated list. *)
Lemma insert_lookup_same {A} (xs : list A) i x y : xs !! i = Some y -> <[i := x]> xs !! i = Some x.
Proof. intros H. apply list_lookup_insert_eq. by eapply lookup_lt_Some. Qed.

Section Blocks.
Context (base tr live : gmap Z Z) (fs : list (gmap Z Z * option (Z * Z))) (B : blocks_inv base tr live fs).
Context (i : nat) (o : gmap Z Z) (p n : Z).

(** The C library hands out a new block. *)
Lemma blocks_alloc :
  fs !! i = Some (o, None) -> live !! p = None ->
  blocks_inv base tr (<[p := n]> live) (<[i := (o, Some (p, n))]> fs).
Proof.
  intros Hi Hp. assert (Htr : tr !! p = None) by (eapply lookup_weaken_None; [exact Hp|apply B]). split.
  - intros q k. rewrite (bi_tracked _ _ _ _ B). split; (intros [?|(j & f & Hj & Hq)]; [by left|right]).
    + destruct (decide (i = j)) as [<-|Hne]; [|exists j, f; by rewrite list_lookup_insert_ne].
      exists i, (o, Some (p, n)). split; [by eapply insert_lookup_same|]. by simplify_eq.
    + at_insert Hj; [by exists i, (o, None)|by exists j, f].
  - etransitivity; [apply B|]. by apply insert_subseteq.
  - intros j f q k Hj Hq. at_insert Hj; [cbn in Hq; simplify_eq; split; [apply lookup_insert_eq|done]|].
    destruct (bi_flight _ _ _ _ B j f q k Hj Hq) as [Hl ?]. split; [|done].
    rewrite lookup_insert_ne; [done|]. intros ->. by rewrite Hp in Hl.
  - intros a b fa fb q k k' Ha Hb Hka Hkb.
    at_insert Ha; at_insert Hb; cbn in *; [done|by eapply (bi_own _ _ _ _ B)..].
  - intros a b fa fb q k k' Ha Hb Hka Hkb. at_insert Ha; at_insert Hb; cbn in *; simplify_eq; [done| | |].
    + destruct (bi_flight _ _ _ _ B _ _ _ _ Hb Hkb). congruence.
    + destruct (bi_flight _ _ _ _ B _ _ _ _ Ha Hka). congruence.
    + by eapply (bi_flights _ _ _ _ B).
  - intros a f q k k' Ha Hb Hk. at_insert Ha; by eapply (bi_base _ _ _ _ B).
Qed.

(** The block in flight is registered: the thread's client holds it. *)
Lemma blocks_register :
  fs !! i = Some (o, Some (p, n)) ->
  blocks_inv base (<[p := n]> tr) live (<[i := (<[p := n]> o, None)]> fs).
Proof.
  intros Hi. destruct (bi_flight _ _ _ _ B i _ p n Hi eq_refl) as [Hl Hp].
  assert (Hno : forall j f k, fs !! j = Some f -> f.1 !! p = Some k -> False).
  { intros j f k Hj Hk. rewrite (bi_own_tracked _ _ _ _ _ _ _ _ B Hj Hk) in Hp. done. }
  split.
  - intros q k. rewrite lookup_insert_Some, (bi_tracked _ _ _ _ B). split.
    + intros [[<- <-]|[Hne [?|(j & f & Hj & Hq)]]]; [|by left|].
      * right. exists i, (<[p := n]> o, None). split; [by eapply insert_lookup_same|apply lookup_insert_eq].
      * right. destruct (decide (i = j)) as [<-|]; [|exists j, f; by rewrite list_lookup_insert_ne].
        exists i, (<[p := n]> o, None). split; [by eapply insert_lookup_same|]. simplify_eq.
        cbn. by rewrite lookup_insert_ne.
    + intros [Hb|(j & f & Hj & Hq)].
      * right. split; [|by left]. intros ->.
        assert (tr !! q = Some k) by (apply (bi_tracked _ _ _ _ B); by left). congruence.
      * at_insert Hj; cbn in Hq.
        -- apply lookup_insert_Some in Hq as [[<- <-]|[Hne Hq]]; [by left|right].
           split; [done|]. right. by exists i, (o, Some (p, n)).
        -- right. split; [intros ->; by eapply Hno|]. right. by exists j, f.
  - by apply insert_subseteq_l, B.
  - intros j f q k Hj Hq. at_insert Hj; [done..|]. destruct (bi_flight _ _ _ _ B j f q k Hj Hq) as [? Ht].
    split; [done|]. rewrite lookup_insert_ne; [done|]. intros ->.
    by pose proof (bi_flights _ _ _ _ B i j _ f q n k Hi Hj eq_refl Hq).
  - intros a b fa fb q k k' Ha Hb Hka Hkb.
    at_insert Ha; at_insert Hb; cbn in *; [done| | |by eapply (bi_own _ _ _ _ B)].
    + apply lookup_insert_Some in Hka as [[<- <-]|[Hne Hka]]; [by destruct (Hno b fb k')|].
      by eapply (bi_own _ _ _ _ B i b).
    + apply lookup_insert_Some in Hkb as [[<- <-]|[Hne Hkb]]; [by destruct (Hno a fa k)|].
      by eapply (bi_own _ _ _ _ B a i).
  - intros a b fa fb q k k' Ha Hb Hka Hkb. at_insert Ha; at_insert Hb; [done..|by eapply (bi_flights _ _ _ _ B)].
  - intros a f q k k' Ha Hb Hk. at_insert Ha; [|by eapply (bi_base _ _ _ _ B)]. cbn in Hk.
    apply lookup_insert_Some in Hk as [[<- <-]|[Hne Hk]]; [|by eapply (bi_base _ _ _ _ B i)].
    assert (tr !! p = Some k) by (apply (bi_tracked _ _ _ _ B); by left). congruence.
Qed.

(** A block the thread's client holds leaves the registry. *)
Lemma blocks_unregister :
  fs !! i = Some (o, None) -> o !! p = Some n ->
  blocks_inv base (delete p tr) live (<[i := (delete p o, Some (p, n))]> fs).
Proof.
  intros Hi Hp. pose proof (bi_own_tracked _ _ _ _ _ _ _ _ B Hi Hp) as Htr.
  pose proof (lookup_weaken _ _ _ _ Htr (bi_live _ _ _ _ B)) as Hl. split.
  - intros q k. rewrite lookup_delete_Some, (bi_tracked _ _ _ _ B). split.
    + intros [Hne [?|(j & f & Hj & Hq)]]; [by left|right].
      destruct (decide (i = j)) as [<-|]; [|exists j, f; by rewrite list_lookup_insert_ne].
      exists i, (delete p o, Some (p, n)). split; [by eapply insert_lookup_same|]. simplify_eq.
      cbn. by rewrite lookup_delete_ne.
    + intros [Hb|(j & f & Hj & Hq)].
      * split; [|by left]. intros ->. by eapply (bi_base _ _ _ _ B i).
      * at_insert Hj; cbn in Hq.
        -- apply lookup_delete_Some in Hq as [Hne Hq]. split; [done|]. right. by exists i, (o, None).
        -- split; [|right; by exists j, f]. intros ->.
           by pose proof (bi_own _ _ _ _ B i j _ f q n k Hi Hj Hp Hq).
  - etransitivity; [apply delete_subseteq|apply B].
  - intros j f q k Hj Hq. at_insert Hj; cbn in *.
    + simplify_eq. split; [done|apply lookup_delete_eq].
    + destruct (bi_flight _ _ _ _ B j f q k Hj Hq) as [? Ht]. split; [done|].
      rewrite lookup_delete. by case_decide.
  - intros a b fa fb q k k' Ha Hb Hka Hkb. at_insert Ha; at_insert Hb; cbn in *; [done| | |by eapply (bi_own _ _ _ _ B)].
    + apply lookup_delete_Some in Hka as [_ Hka]. by eapply (bi_own _ _ _ _ B i b).
    + apply lookup_delete_Some in Hkb as [_ Hkb]. by eapply (bi_own _ _ _ _ B a i).
  - intros a b fa fb q k k' Ha Hb Hka Hkb. at_insert Ha; at_insert Hb; cbn in *; simplify_eq; [done| | |].
    + destruct (bi_flight _ _ _ _ B _ _ _ _ Hb Hkb). congruence.
    + destruct (bi_flight _ _ _ _ B _ _ _ _ Ha Hka). congruence.
    + by eapply (bi_flights _ _ _ _ B).
  - intros a f q k k' Ha Hb Hk. at_insert Ha; [|by eapply (bi_base _ _ _ _ B)]. cbn in Hk.
    apply lookup_delete_Some in Hk as [_ Hk]. by eapply (bi_base _ _ _ _ B i).
Qed.

(** The block in flight goes back to the C library. *)
Lemma blocks_free :
  fs !! i = Some (o, Some (p, n)) -> blocks_inv base tr (delete p live) (<[i := (o, None)]> fs).
Proof.
  intros Hi. destruct (bi_flight _ _ _ _ B i _ p n Hi eq_refl) as [Hl Hp]. split.
  - intros q k. rewrite (bi_tracked _ _ _ _ B). split; (intros [?|(j & f & Hj & Hq)]; [by left|right]).
    + destruct (decide (i = j)) as [<-|Hne]; [|exists j, f; by rewrite list_lookup_insert_ne].
      exists i, (o, None). split; [by eapply insert_lookup_same|]. by simplify_eq.
    + at_insert Hj; [by exists i, (o, Some (p, n))|by exists j, f].
  - rewrite <- (delete_id tr p Hp). by apply delete_mono, B.
  - intros j f q k Hj Hq. at_insert Hj; [done..|]. destruct (bi_flight _ _ _ _ B j f q k Hj Hq) as [? Ht].
    split; [|done]. rewrite lookup_delete_ne; [done|]. intros ->.
    by pose proof (bi_flights _ _ _ _ B i j _ f q n k Hi Hj eq_refl Hq).
  - intros a b fa fb q k k' Ha Hb Hka Hkb. at_insert Ha; at_insert Hb; cbn in *; [done|by eapply (bi_own _ _ _ _ B)..].
  - intros a b fa fb q k k' Ha Hb Hka Hkb. at_insert Ha; at_insert Hb; [done..|by eapply (bi_flights _ _ _ _ B)].
  - intros a f q k k' Ha Hb Hk. at_insert Ha; by eapply (bi_base _ _ _ _ B).
Qed.

End Blocks.

(** ** The invariant *)

Definition foot (l : local) : gmap Z Z * option (Z * Z) := (l_own l, l_flight l).

(** [base] are the tracked blocks that no thread holds. *)
Record conc_inv {Y} `{!Platform Y} `{!Allocator Y} `{!AllocatorLaws Y}
    (base : gmap Z Z) (s : st (globals * Y)) (ls : list local) : Prop := {
  cv_resolver : g_in_resolver (fst (ext s)) = 0;
  cv_once : g_resolve_once (fst (ext s)) = true;
  cv_real : g_real_malloc (fst (ext s)) <> 0 /\ g_real_calloc (fst (ext s)) <> 0 /\
    g_real_realloc (fst (ext s)) <> 0 /\ g_real_free (fst (ext s)) <> 0;
  cv_heap : mapped (mem s) g_bootstrap_heap AO_BOOTSTRAP_HEAP_SIZE;
  cv_libc : al_inv (snd (ext s)) (mem s);
  cv_apart p n : al_live (snd (ext s)) !! p = Some n -> apart_from_heap p n;
  cv_wf : registry_wf (g_registry (fst (ext s)));
  cv_lock : lock_inv (g_registry_lock (fst (ext s))) (g_registry (fst (ext s))) (l_lock <$> ls);
  cv_blocks : blocks_inv base (tracked (fst (ext s))) (al_live (snd (ext s))) (foot <$> ls);
  cv_count : live_blocks (g_stats (fst (ext s))) =
    u64 (Z.of_nat (size (tracked (fst (ext s)))) + zsum (l_blocks <$> ls));
  cv_bytes : live_bytes (g_stats (fst (ext s))) =
    u64 (total_bytes (tracked (fst (ext s))) + zsum (l_bytes <$> ls));
  cv_nonneg : Forall (fun l => 0 <= l_credit l) ls;
  cv_credit : Z.of_nat (size (tracked (fst (ext s)))) + zsum (l_credit <$> ls) <= AO_REGISTRY_CAPACITY
}.

Lemma fmap_at {A} (f : local -> A) (ls : list local) i l : ls !! i = Some l -> (f <$> ls) !! i = Some (f l).
Proof. intros H. by rewrite list_lookup_fmap, H. Qed.

Lemma fmap_same {A} (f : local -> A) (ls : list local) i l l' :
  ls !! i = Some l -> f l' = f l -> f <$> <[i := l']> ls = f <$> ls.
Proof. intros H Hf. rewrite list_fmap_insert, Hf. apply list_insert_id, fmap_at, H. Qed.

(** Rewrite the projections of an updated list of ghost states: those the update
    leaves alone are the old ones. *)
Ltac ghost Hi := rewrite ?(fmap_same _ _ _ _ _ Hi) by done; rewrite ?list_fmap_insert; cbn [l_lock l_own l_flight l_blocks l_bytes l_credit foot rest].

(** The fields of the invariant an update of thread [i] leaves alone. *)
Ltac conc_fields HI Hi :=
  pose proof (Forall_lookup_1 _ _ _ _ (cv_nonneg _ _ _ HI) Hi) as Hcredit;
  destruct HI; split; cbn [fst snd ext mem] in *; ghost Hi; try done;
  try (apply Forall_insert; [done|cbn in *; lia]).

Section Atoms.
Context {Y : Type} `{!Platform Y} `{!Allocator Y} `{!AllocatorLaws Y} `{!PlatformLaws Y}.
Context (base : gmap Z Z) {A : Type} (Q : A -> local -> Prop).
Implicit Types (g : globals) (y : Y) (m : gmap Z Z).

Definition csafe (p : prog (globals * Y) A) (l : local) : Prop :=
  safe (conc_inv base) (fun l => is_Some (l_lock l)) al_exits Q p l.

Lemma csafe_atom {B} (c : C (globals * Y) B) (k : B -> prog (globals * Y) A) l :
  (forall m e g y ls i, ls !! i = Some l -> conc_inv base (St m e (g, y)) ls ->
     wp al_exits c (fun b s' => exists l', conc_inv base s' (<[i := l']> ls) /\ csafe (k b) l')
       (St m e (g, y))) ->
  csafe (Atom c k) l.
Proof.
  intros H [m e [g y]] ls i Hi HI. specialize (H m e g y ls i Hi HI). unfold wp in H.
  by destruct (c _) as [[b s']|x| |].
Qed.

(** A command that only moves captured counters. *)
Lemma csafe_quiet {B} (c : C (globals * Y) B) f k l :
  acts c f -> (forall g, quiet g (f g).2) -> (forall b, csafe (k b) l) -> csafe (Atom c k) l.
Proof.
  intros Ha Hq Hk. apply csafe_atom. intros m e g y ls i Hi HI. eapply acts_wp; [exact Ha|].
  cbn [fst snd ext mem errno]. exists l. split; [|apply Hk]. rewrite list_insert_id by done.
  destruct (Hq g) as (st & -> & Hb & Hy). destruct HI; split; cbn [fst snd ext mem] in *; try done.
  - cbn in *. by rewrite Hb.
  - cbn in *. by rewrite Hy.
Qed.

(** A command that only moves the capture depth, or clears a captured counter. *)
Lemma csafe_depth f k l :
  (forall g, exists d, f g = set_capture_depth d g) ->
  csafe (k tt) l -> csafe (Atom (mod_globals f) k) l.
Proof.
  intros Hf Hk. apply csafe_atom. intros m e g y ls i Hi HI. eapply acts_wp; [apply acts_mod|].
  cbn [fst snd ext mem errno]. destruct (Hf g) as [d ->]. exists l. split; [|done].
  rewrite list_insert_id by done. by destruct HI; split.
Qed.

Lemma csafe_get k l : (forall g, csafe (k g) l) -> csafe (Atom get_globals k) l.
Proof.
  intros Hk. apply csafe_atom. intros m e g y ls i Hi HI. eapply acts_wp; [apply acts_get|].
  exists l. split; [by rewrite list_insert_id|apply Hk].
Qed.

Lemma csafe_errno v k l : csafe (k tt) l -> csafe (Atom (set_errno v) k) l.
Proof.
  intros Hk. apply csafe_atom. intros m e g y ls i Hi HI. apply wp_set_errno. exists l. split; [|done].
  rewrite list_insert_id by done. by destruct HI; split.
Qed.

Lemma csafe_in_resolver k l : csafe (k false) l -> csafe (Atom in_resolver k) l.
Proof.
  intros Hk. apply csafe_atom. intros m e g y ls i Hi HI. apply wp_in_resolver; [apply HI|].
  exists l. split; [|done]. by rewrite list_insert_id.
Qed.

Lemma csafe_ensure k l : csafe (k tt) l -> csafe (Atom ao_ensure_real_functions k) l.
Proof.
  intros Hk. apply csafe_atom. intros m e g y ls i Hi HI. apply wp_ensure; [apply HI|].
  exists l. split; [|done]. by rewrite list_insert_id.
Qed.

Lemma csafe_next_id k l : (forall id, csafe (k id) l) -> csafe (Atom ao_next_allocation_id k) l.
Proof.
  intros Hk. apply csafe_atom. intros m e g y ls i Hi HI. eapply acts_wp; [apply acts_next_id|].
  exists l. split; [|apply Hk]. rewrite list_insert_id by done. by destruct HI; split.
Qed.

(** ** The lock and the array *)

Lemma csafe_lock k o f b z c :
  (forall t, csafe (k tt) (Local (Some t) o f b z c)) ->
  csafe (Atom ao_registry_lock k) (Local None o f b z c).
Proof.
  intros Hk [m e [g y]] ls i Hi HI. unfold ao_registry_lock, get_globals, mod_globals, bind.
  cbn [fst snd ext mem errno]. pose proof (cv_lock _ _ _ HI) as HL. cbn [fst ext] in HL.
  destruct (g_registry_lock g) eqn:Hl.
  - split; [by intros [? ?]|]. destruct (li_held _ _ _ HL eq_refl) as [j Hj].
    rewrite list_lookup_fmap in Hj. destruct (ls !! j) as [lj|] eqn:Hlj; [|done]. exists j, lj.
    split; [done|]. injection Hj as ->. by eexists.
  - exists (Local (Some (g_registry g)) o f b z c). split; [|apply Hk].
    conc_fields HI Hi.
    apply lock_take; [|done]. by rewrite list_lookup_fmap, Hi.
Qed.

Lemma csafe_unlock k t o f b z c :
  csafe (k tt) (Local None o f b z c) -> csafe (Atom ao_registry_unlock k) (Local (Some t) o f b z c).
Proof.
  intros Hk. apply csafe_atom. intros m e g y ls i Hi HI. eapply acts_wp; [apply acts_mod|].
  exists (Local None o f b z c). split; [|done].
  conc_fields HI Hi.
  eapply lock_drop; [|done]. by rewrite list_lookup_fmap, Hi.
Qed.

(** The holder of the lock reads the array: what it will find there until it writes. *)
Lemma csafe_read k t o f b z c :
  (forall g, registry_wf t -> g_registry g = t ->
     (forall p n, o !! p = Some n -> exists id, registry_map t !! p = Some (n, id)) ->
     Z.of_nat (size (registry_map t)) + c <= AO_REGISTRY_CAPACITY ->
     csafe (k g) (Local (Some t) o f b z c)) ->
  csafe (Atom get_globals k) (Local (Some t) o f b z c).
Proof.
  intros Hk. apply csafe_atom. intros m e g y ls i Hi HI. eapply acts_wp; [apply acts_get|].
  exists (Local (Some t) o f b z c). split; [by rewrite list_insert_id|].
  destruct (li_known _ _ _ (cv_lock _ _ _ HI) i t) as [_ Ht]; [by rewrite list_lookup_fmap, Hi|].
  cbn [fst ext] in Ht. subst t. apply Hk; [apply HI|done| |].
  - intros p n Hp. apply tracked_registry_map.
    eapply (bi_own_tracked _ _ _ _ i (foot _) _ _ (cv_blocks _ _ _ HI)); [by rewrite list_lookup_fmap, Hi|done].
  - pose proof (cv_credit _ _ _ HI) as H. cbn [fst ext] in H. rewrite size_tracked in H.
    enough (c <= zsum (l_credit <$> ls)) by lia. apply (zsum_ge _ i); [by rewrite list_lookup_fmap, Hi|].
    intros j x Hj. rewrite list_lookup_fmap in Hj. destruct (ls !! j) as [lj|] eqn:Hlj; [|done].
    injection Hj as <-. by apply (Forall_lookup_1 _ _ _ _ (cv_nonneg _ _ _ HI) Hlj).
Qed.

Lemma csafe_write_inserted k t t' p n id o b z c :
  registry_wf t' -> registry_map t' = <[p := (n, id)]> (registry_map t) -> 1 <= c ->
  csafe (k tt) (Local (Some t') (<[p := n]> o) None (b - 1) (z - n) (c - 1)) ->
  csafe (Atom (mod_globals (set_registry t')) k) (Local (Some t) o (Some (p, n)) b z c).
Proof.
  intros WF Ht Hc Hk. apply csafe_atom. intros m e g y ls i Hi HI. eapply acts_wp; [apply acts_mod|].
  exists (Local (Some t') (<[p := n]> o) None (b - 1) (z - n) (c - 1)). split; [|done].
  destruct (li_known _ _ _ (cv_lock _ _ _ HI) i t) as [_ Hg]; [by rewrite list_lookup_fmap, Hi|].
  destruct (bi_flight _ _ _ _ (cv_blocks _ _ _ HI) i (o, Some (p, n)) p n) as [_ Hp];
    [by rewrite list_lookup_fmap, Hi|done|].
  cbn [fst ext] in Hg, Hp. subst t.
  assert (Htr : tracked (set_registry t' g) = <[p := n]> (tracked g))
    by (unfold tracked; cbn; by rewrite Ht, fmap_insert).
  assert (Hsz : Z.of_nat (size (tracked (set_registry t' g))) = Z.of_nat (size (tracked g)) + 1)
    by (rewrite Htr, map_size_insert_None by done; lia).
  conc_fields HI Hi.
  - eapply lock_store; [|done]. by rewrite list_lookup_fmap, Hi.
  - rewrite Htr. apply blocks_register; [done|]. by rewrite list_lookup_fmap, Hi.
  - rewrite Hsz, (zsum_insert _ _ b) by (by rewrite list_lookup_fmap, Hi).
    etransitivity; [exact cv_count0|]. f_equal. lia.
  - rewrite Htr, total_bytes_insert, (zsum_insert _ _ z) by (done || by rewrite list_lookup_fmap, Hi).
    etransitivity; [exact cv_bytes0|]. f_equal. lia.
  - rewrite Hsz, (zsum_insert _ _ c) by (by rewrite list_lookup_fmap, Hi). lia.
Qed.

Lemma csafe_write_removed k t t' p n o b z c :
  registry_wf t' -> registry_map t' = delete p (registry_map t) -> o !! p = Some n ->
  csafe (k tt) (Local (Some t') (delete p o) (Some (p, n)) (b + 1) (z + n) c) ->
  csafe (Atom (mod_globals (set_registry t')) k) (Local (Some t) o None b z c).
Proof.
  intros WF Ht Ho Hk. apply csafe_atom. intros m e g y ls i Hi HI. eapply acts_wp; [apply acts_mod|].
  exists (Local (Some t') (delete p o) (Some (p, n)) (b + 1) (z + n) c). split; [|done].
  destruct (li_known _ _ _ (cv_lock _ _ _ HI) i t) as [_ Hg]; [by rewrite list_lookup_fmap, Hi|].
  pose proof (bi_own_tracked _ _ _ _ i (o, None) p n (cv_blocks _ _ _ HI)) as Hp.
  cbn [fst ext] in Hg, Hp. rewrite list_lookup_fmap, Hi in Hp. specialize (Hp eq_refl Ho). subst t.
  assert (Htr : tracked (set_registry t' g) = delete p (tracked g))
    by (unfold tracked; cbn; by rewrite Ht, fmap_delete).
  pose proof (size_delete_Z _ _ _ Hp) as Hsz. rewrite <- Htr in Hsz.
  conc_fields HI Hi.
  - eapply lock_store; [|done]. by rewrite list_lookup_fmap, Hi.
  - rewrite Htr. apply blocks_unregister; [done| |done]. by rewrite list_lookup_fmap, Hi.
  - rewrite Hsz, (zsum_insert _ _ b) by (by rewrite list_lookup_fmap, Hi).
    etransitivity; [exact cv_count0|]. f_equal. lia.
  - rewrite Htr, (total_bytes_delete _ _ n), (zsum_insert _ _ z) by (done || by rewrite list_lookup_fmap, Hi).
    etransitivity; [exact cv_bytes0|]. f_equal. lia.
  - rewrite Hsz. lia.
Qed.

(** ** The live counters *)

Lemma csafe_live_blocks k d t o f b z c :
  csafe (k tt) (Local t o f (b + d) z c) ->
  csafe (Atom (stat_fetch_add Live_blocks d) k) (Local t o f b z c).
Proof.
  intros Hk. apply csafe_atom. intros m e g y ls i Hi HI. eapply acts_wp; [apply acts_mod|].
  exists (Local t o f (b + d) z c). split; [|done]. conc_fields HI Hi.
  rewrite (zsum_insert _ _ b) by (by rewrite list_lookup_fmap, Hi).
  change (u64 (live_blocks (g_stats g) + d) = u64 (Z.of_nat (size (tracked g)) + (zsum (l_blocks <$> ls) - b + (b + d)))).
  rewrite cv_count0, u64_add_l. f_equal. lia.
Qed.

Lemma csafe_live_bytes k d t o f b z c :
  csafe (k tt) (Local t o f b (z + d) c) ->
  csafe (Atom (stat_fetch_add Live_bytes d) k) (Local t o f b z c).
Proof.
  intros Hk. apply csafe_atom. intros m e g y ls i Hi HI. eapply acts_wp; [apply acts_mod|].
  exists (Local t o f b (z + d) c). split; [|done]. conc_fields HI Hi.
  rewrite (zsum_insert _ _ z) by (by rewrite list_lookup_fmap, Hi).
  change (u64 (live_bytes (g_stats g) + d) = u64 (total_bytes (tracked g) + (zsum (l_bytes <$> ls) - z + (z + d)))).
  rewrite cv_bytes0, u64_add_l. f_equal. lia.
Qed.

(** ** The C library *)

Lemma csafe_libc_alloc (f : C Y Z) fp n k o c :
  (forall g, g_real_malloc g <> 0 /\ g_real_calloc g <> 0 /\ g_real_realloc g <> 0 /\ g_real_free g <> 0 ->
     fp g <> 0) ->
  (forall s, al_inv (ext s) (mem s) -> wp al_exits f (fun p s' => al_inv (ext s') (mem s') /\
     ((p = 0 /\ alloc_failed al_live s s') \/
      (p <> 0 /\ allocated (mem s) (al_live (ext s)) p n (mem s') (al_live (ext s'))))) s) ->
  csafe (k 0) (rest o c) ->
  (forall p, good_block p n -> apart_from_heap p n -> o !! p = None ->
     csafe (k p) (Local None o (Some (p, n)) 0 0 c)) ->
  csafe (Atom (call_real fp f) k) (rest o c).
Proof.
  intros Hfp Hf H0 Hk. apply csafe_atom. intros m e g y ls i Hi HI.
  apply wp_call_real; [apply Hfp, HI|].
  eapply wp_mono; [apply Hf, HI|]. intros p [m' e' y'] (I' & [[-> (Hm & Hl & He)]|[Hp HA]]); cbn in *.
  - exists (rest o c). split; [|done]. rewrite list_insert_id by done. subst m'.
    destruct HI; split; cbn [fst snd ext mem] in *; try done; by rewrite Hl.
  - pose proof (allocated_apart_heap _ _ _ _ _ _ (cv_heap _ _ _ HI) HA) as Hap.
    assert (Ho : o !! p = None).
    { apply eq_None_not_Some. intros [x Hx].
      pose proof (bi_own_tracked _ _ _ _ i (o, None) p x (cv_blocks _ _ _ HI)) as Ht. cbn [fst ext snd] in Ht.
      rewrite list_lookup_fmap, Hi in Ht. specialize (Ht eq_refl Hx).
      pose proof (lookup_weaken _ _ _ _ Ht (bi_live _ _ _ _ (cv_blocks _ _ _ HI))) as Hl.
      pose proof (alloc_new _ _ _ _ _ _ HA) as Hn. cbn in *. congruence. }
    exists (Local None o (Some (p, n)) 0 0 c). split; [|apply Hk; [apply HA|done|done]].
    conc_fields HI Hi.
    + by eapply allocated_keeps_mapped.
    + intros q k'. rewrite (alloc_live _ _ _ _ _ _ HA), lookup_insert_Some. intros [[<- <-]|[_ Hq]]; [done|eauto].
    + rewrite (alloc_live _ _ _ _ _ _ HA). apply blocks_alloc; [done| |apply HA].
      by rewrite list_lookup_fmap, Hi.
Qed.

Lemma csafe_libc_free k p n o c :
  csafe (k tt) (rest o c) ->
  csafe (Atom (call_real g_real_free (al_free p)) k) (Local None o (Some (p, n)) 0 0 c).
Proof.
  intros Hk. apply csafe_atom. intros m e g y ls i Hi HI.
  destruct (bi_flight _ _ _ _ (cv_blocks _ _ _ HI) i (o, Some (p, n)) p n) as [Hl _];
    [by rewrite list_lookup_fmap, Hi|done|].
  apply wp_call_real; [apply HI|].
  eapply wp_mono; [apply (al_free_ok p n); [apply HI|exact Hl]|]. intros [] [m' e' y'] (I' & F). cbn in *.
  exists (rest o c). split; [|done]. pose proof (cv_apart _ _ _ HI p n Hl) as Hap. conc_fields HI Hi.
  - by eapply freed_heap.
  - intros q k'. rewrite (freed_live _ _ _ _ _ _ F). intros [_ Hq]%lookup_delete_Some. eauto.
  - rewrite (freed_live _ _ _ _ _ _ F). eapply blocks_free; [done|]. by rewrite list_lookup_fmap, Hi.
Qed.

End Atoms.
