(* ===== verification/ConcurrentOps.v ===== *)
(** * Calls among threads

    What each program of [Concurrent] does to the ghost state of its thread, whatever
    the other threads do meanwhile, and the threads of a client that makes a list of
    requests. *)
From S2P Require Import Prelude CMem CCmd CLib Alloc Registry MockState Bootstrap MockAllocator MockSpec Threads Concurrent ConcurrentInv.
#[local] Open Scope prog_scope.

Section Ops.
Context {Y : Type} `{!Platform Y} `{!Allocator Y} `{!AllocatorLaws Y} `{!PlatformLaws Y}.
Context (base : gmap Z Z).
Abbreviation P := (prog (globals * Y)).

Lemma csafe_call {A B} (QA : A -> local -> Prop) (QB : B -> local -> Prop) (p : P A) (f : A -> P B) l :
  csafe base QA p l -> (forall a l', QA a l' -> csafe base QB (f a) l') -> csafe base QB (pbind p f) l.
Proof. apply safe_pbind. Qed.

Lemma csafe_done {A} (Q : A -> local -> Prop) a l : Q a l -> csafe base Q (Done a) l.
Proof. done. Qed.

(** ** Counters *)

Lemma acts_capture : acts (ao_capture_enabled (Y := Y)) (fun g => (capturing g, g)).
Proof. intros [m e [g y]]. done. Qed.

Lemma csafe_capture {A} (Q : A -> local -> Prop) k l :
  (forall b, csafe base Q (k b) l) -> csafe base Q (Atom ao_capture_enabled k) l.
Proof. intros Hk. by eapply csafe_quiet; [apply acts_capture| |]. Qed.

Lemma csafe_captured {A} (Q : A -> local -> Prop) c n k l :
  captured c -> csafe base Q (k tt) l -> csafe base Q (Atom (stat_fetch_add c n) k) l.
Proof.
  intros Hc Hk. eapply csafe_quiet; [apply acts_mod| |by intros []]. intros g. by apply (bump_quiet c n g).
Qed.

(** The bookkeeping of a capture leaves the ghost state alone. *)
Ltac captures :=
  repeat first
    [ apply csafe_done; reflexivity
    | apply csafe_capture; intros []; cbn [negb]
    | apply csafe_captured; [split; discriminate|]
    | match goal with |- csafe _ _ (if ?b then _ else _) _ => destruct b end ].

Definition unchanged {A} (l : local) (_ : A) (l' : local) : Prop := l' = l.

Lemma record_failed_safe l : csafe base (unchanged l) record_failed_prog l.
Proof. unfold record_failed_prog. captures. Qed.

Lemma record_success_safe kind n l : csafe base (unchanged l) (record_success_prog kind n) l.
Proof.
  unfold record_success_prog. apply csafe_capture. intros []; cbn [negb]; [|captures].
  apply (csafe_call (unchanged l)); [captures|]. intros [] l' ->. captures.
Qed.

Lemma record_free_safe b l : csafe base (unchanged l) (record_free_prog b) l.
Proof. unfold record_free_prog. captures. Qed.

Lemma begin_capture_safe l : csafe base (unchanged l) begin_capture_prog l.
Proof. apply csafe_depth; [by eexists|by apply csafe_done]. Qed.

Lemma end_capture_safe l : csafe base (unchanged l) end_capture_prog l.
Proof.
  apply csafe_get. intros g. destruct (0 <? g_capture_depth g); [|by apply csafe_done].
  apply csafe_depth; [by eexists|by apply csafe_done].
Qed.

Lemma csafe_store {A} (Q : A -> local -> Prop) c v k l :
  captured c -> csafe base Q (k tt) l -> csafe base Q (Atom (stat_store c v) k) l.
Proof.
  intros [H1 H2] Hk. eapply csafe_quiet; [apply acts_mod| |by intros []]. intros g. eexists. split; [done|].
  cbn. by rewrite !decide_False by congruence.
Qed.

Lemma reset_safe l : csafe base (unchanged l) reset_prog l.
Proof. unfold reset_prog. do 9 (apply csafe_store; [split; discriminate|]). by apply csafe_done. Qed.

(** ** The registry *)

Lemma insert_safe p n id t o b z c :
  valid_key p -> 1 <= c ->
  csafe base (fun r l => r = true /\ exists t', l = Local (Some t') (<[p := n]> o) None (b - 1) (z - n) (c - 1))
    (insert_prog p n id) (Local (Some t) o (Some (p, n)) b z c).
Proof.
  intros V Hc. apply csafe_read. intros g WF Hg _ Hcap. cbn zeta. rewrite Hg.
  destruct (insert_locked_map t p n id WF V) as [(t' & -> & WF' & Ht)|(_ & _ & Hall)].
  - cbn [fst snd]. eapply csafe_write_inserted; [done|exact Ht|done|]. apply csafe_done. split; [done|by exists t'].
  - pose proof (registry_full_size t WF Hall). lia.
Qed.

Lemma lookup_safe p n t o f b z c :
  valid_key p -> o !! p = Some n ->
  csafe base (fun r l => is_Some r /\ l = Local (Some t) o f b z c) (lookup_prog p) (Local (Some t) o f b z c).
Proof.
  intros V Ho. apply csafe_read. intros g WF Hg Hown _. rewrite Hg, lookup_locked_map by done.
  destruct (Hown p n Ho) as [id ->]. apply csafe_done. split; [by eexists|done].
Qed.

Lemma remove_safe p n t o b z c :
  valid_key p -> o !! p = Some n ->
  csafe base (fun r l => (exists id, r = Some (n, id)) /\
      exists t', l = Local (Some t') (delete p o) (Some (p, n)) (b + 1) (z + n) c)
    (remove_prog p) (Local (Some t) o None b z c).
Proof.
  intros V Ho. apply csafe_read. intros g WF Hg Hown _. cbn zeta. rewrite Hg.
  destruct (remove_locked_map t p WF V) as (t' & -> & WF' & Ht). cbn [fst snd].
  eapply csafe_write_removed; [done|exact Ht|done|]. apply csafe_done. split; [|by exists t'].
  destruct (Hown p n Ho) as [id ->]. by exists id.
Qed.

Lemma is_tracked_safe p n o c :
  valid_key p -> p <> 0 -> o !! p = Some n ->
  csafe base (fun r l => r = true /\ l = rest o c) (is_tracked_prog p) (rest o c).
Proof.
  intros V Hp Ho. unfold is_tracked_prog, contains_prog. destruct (Z.eqb_spec p 0); [done|].
  apply csafe_lock. intros t. eapply csafe_call; [by apply (lookup_safe p n)|]. intros r l [Hr ->].
  apply csafe_unlock, csafe_done. by rewrite bool_decide_eq_true_2.
Qed.

(** ** The allocation functions *)

Lemma live_add_safe n o c :
  csafe base (unchanged (rest o c)) (live_add_prog n) (Local None o None (0 - 1) (0 - n) c).
Proof.
  apply csafe_live_blocks, csafe_live_bytes, csafe_done. unfold unchanged, rest. f_equal; lia.
Qed.

Lemma live_remove_safe n o f c :
  csafe base (unchanged (Local None o f 0 0 c)) (live_remove_prog n) (Local None o f (0 + 1) (0 + n) c).
Proof.
  apply (csafe_live_blocks base _ _ (-1)), (csafe_live_bytes base _ _ (- n)), csafe_done.
  unfold unchanged. f_equal; lia.
Qed.

Lemma track_safe p n o c :
  valid_key p -> 1 <= c ->
  csafe base (unchanged (rest (<[p := n]> o) (c - 1))) (track_prog p n) (Local None o (Some (p, n)) 0 0 c).
Proof.
  intros V Hc. apply csafe_lock. intros t. apply csafe_next_id. intros id.
  eapply csafe_call; [by apply insert_safe|]. intros r l (-> & t' & ->). apply csafe_unlock. cbn [negb pbind].
  apply live_add_safe.
Qed.

(** The outcome of an allocation of [n] bytes for a thread that holds [o]: null, or a
    new block it now holds. *)
Definition alloc_done (n : Z) (o : gmap Z Z) (c p : Z) (l : local) : Prop :=
  (p = 0 /\ l = rest o c) \/
  (p <> 0 /\ good_block p n /\ apart_from_heap p n /\ o !! p = None /\ l = rest (<[p := n]> o) (c - 1)).

Lemma finish_null_safe kind n m o c : csafe base (alloc_done n o c) (finish_allocation kind m 0) (rest o c).
Proof.
  eapply csafe_call; [apply record_failed_safe|]. intros [] l ->. apply csafe_done. by left.
Qed.

Lemma finish_safe kind p n o c :
  good_block p n -> apart_from_heap p n -> o !! p = None -> 1 <= c ->
  csafe base (alloc_done n o c) (finish_allocation kind n p) (Local None o (Some (p, n)) 0 0 c).
Proof.
  intros Hg Ha Ho Hc. unfold finish_allocation. destruct Hg as (Hp & ?). destruct (Z.eqb_spec p 0); [lia|].
  eapply csafe_call; [apply track_safe; [by eapply good_valid|done]|]. intros [] l ->.
  eapply csafe_call; [apply record_success_safe|]. intros [] l ->. apply csafe_done. right. by split_and!.
Qed.

Lemma malloc_safe n o c :
  0 <= n <= SIZE_MAX -> 1 <= c -> csafe base (alloc_done n o c) (malloc_prog n) (rest o c).
Proof.
  intros Hn Hc. apply csafe_in_resolver, csafe_ensure. eapply (csafe_libc_alloc _ _ _ _ n).
  - by intros g (? & _).
  - intros s Hs. by apply al_malloc_ok.
  - apply finish_null_safe.
  - intros p Hg Ha Ho. by apply finish_safe.
Qed.

Lemma calloc_safe k n o c :
  0 <= k <= SIZE_MAX -> 0 <= n <= SIZE_MAX -> 1 <= c ->
  csafe base (alloc_done (k * n) o c) (calloc_prog k n) (rest o c).
Proof.
  intros Hk Hn Hc. apply csafe_in_resolver. cbn iota. rewrite (mul_overflow_test k n) by lia.
  destruct (Z.leb_spec (k * n) SIZE_MAX) as [Hkn|Hkn]; cbn [negb].
  2: { apply csafe_errno. eapply csafe_call; [apply record_failed_safe|]. intros [] l ->. apply csafe_done. by left. }
  cbn zeta. rewrite u64_small by nia. apply csafe_ensure. eapply (csafe_libc_alloc _ _ _ _ (k * n)).
  - by intros g (_ & ? & _).
  - intros s Hs. eapply wp_mono; [by apply al_calloc_ok|]. intros p s' [I' [H|(H1 & _ & H2 & _)]]; split; [done|by left|done|by right].
  - apply finish_null_safe.
  - intros p Hg Ha Ho. by apply finish_safe.
Qed.

(** [realloc] of a null pointer. *)
Lemma realloc_null_safe n o c :
  0 <= n <= SIZE_MAX -> 1 <= c -> csafe base (alloc_done n o c) (realloc_prog 0 n) (rest o c).
Proof.
  intros Hn Hc. apply csafe_in_resolver. rewrite null_not_in_heap. apply csafe_ensure. cbn [Z.eqb].
  eapply (csafe_libc_alloc _ _ _ _ n).
  - by intros g (_ & _ & ? & _).
  - intros s Hs. by apply al_realloc_null.
  - apply finish_null_safe.
  - intros p Hg Ha Ho. by apply finish_safe.
Qed.

Lemma free_safe p n o c :
  good_block p n -> apart_from_heap p n -> o !! p = Some n ->
  csafe base (unchanged (rest (delete p o) c)) (free_prog p) (rest o c).
Proof.
  intros Hg Ha Ho. unfold free_prog. pose proof (good_valid _ _ Hg) as V. destruct Hg as (Hp & _).
  destruct (Z.eqb_spec p 0); [lia|]. rewrite (apart_contains _ _ Ha).
  apply csafe_in_resolver, csafe_ensure, csafe_lock. intros t.
  eapply csafe_call; [by apply (remove_safe p n)|]. intros r l ([id ->] & t' & ->).
  apply csafe_unlock. eapply csafe_call; [apply record_free_safe|]. intros [] l ->.
  eapply csafe_call; [apply live_remove_safe|]. intros [] l ->. by apply csafe_libc_free, csafe_done.
Qed.

End Ops.

(** ** The threads of a client

    A thread makes a list of requests: blocks, the release of a block it holds,
    whether a block it holds is tracked, and captures.  It ends with the blocks it still holds and
    the answers it got. *)

Inductive request :=
| Malloc (size : Z)
| Calloc (nmemb size : Z)
| ReallocNull (size : Z)
| Free (index : nat)
| Query (index : nat)
| Begin
| Finish
| Reset.

Definition request_ok (r : request) : Prop :=
  match r with
  | Malloc n | ReallocNull n => 0 <= n <= SIZE_MAX
  | Calloc k n => 0 <= k <= SIZE_MAX /\ 0 <= n <= SIZE_MAX
  | Free _ | Query _ | Begin | Finish | Reset => True
  end.

#[export] Instance request_ok_dec r : Decision (request_ok r).
Proof. destruct r; apply _. Defined.

(** How many blocks a thread may ask for. *)
Fixpoint demand (rs : list request) : Z :=
  match rs with
  | [] => 0
  | Malloc _ :: rs | Calloc _ _ :: rs | ReallocNull _ :: rs => 1 + demand rs
  | _ :: rs => demand rs
  end.

Lemma demand_nonneg rs : 0 <= demand rs.
Proof. induction rs as [|[]]; cbn [demand]; lia. Qed.

Abbreviation outcome := (list (Z * Z) * list bool)%type.

Section Client.
Context {Y : Type} `{!Platform Y} `{!Allocator Y}.

Fixpoint client (rs : list request) (held : list (Z * Z)) (answers : list bool) :
    prog (globals * Y) outcome :=
  match rs with
  | [] => Done (held, answers)
  | Malloc n :: rs =>
      call* p := malloc_prog n in
      client rs (if p =? 0 then held else (p, n) :: held) answers
  | Calloc k n :: rs =>
      call* p := calloc_prog k n in
      client rs (if p =? 0 then held else (p, k * n) :: held) answers
  | ReallocNull n :: rs =>
      call* p := realloc_prog 0 n in
      client rs (if p =? 0 then held else (p, n) :: held) answers
  | Free j :: rs =>
      match held !! j with
      | None => client rs held answers
      | Some (p, _) => run* free_prog p in client rs (delete j held) answers
      end
  | Query j :: rs =>
      match held !! j with
      | None => client rs held answers
      | Some (p, _) => call* b := is_tracked_prog p in client rs held (b :: answers)
      end
  | Begin :: rs => run* begin_capture_prog in client rs held answers
  | Finish :: rs => run* end_capture_prog in client rs held answers
  | Reset :: rs => run* reset_prog in client rs held answers
  end.

Definition clients (scripts : list (list request)) : list (prog (globals * Y) outcome) :=
  map (fun rs => client rs [] []) scripts.

End Client.

Section ClientSafe.
Context {Y : Type} `{!Platform Y} `{!Allocator Y} `{!AllocatorLaws Y} `{!PlatformLaws Y}.
Context (base : gmap Z Z).

Definition client_post (out : outcome) (l : local) : Prop :=
  exists c, l = rest (list_to_map out.1) c /\ NoDup out.1.*1 /\ Forall (eq true) out.2.

Definition block_ok (b : Z * Z) : Prop := good_block b.1 b.2 /\ apart_from_heap b.1 b.2.

Lemma list_to_map_remove (held : list (Z * Z)) j p n :
  NoDup held.*1 -> held !! j = Some (p, n) ->
  list_to_map (M := gmap Z Z) (delete j held) = delete p (list_to_map held) /\
  NoDup (delete j held).*1 /\ list_to_map (M := gmap Z Z) held !! p = Some n.
Proof.
  intros Hnd Hj. pose proof (delete_Permutation held j (p, n) Hj) as HP.
  assert (Hnd' : NoDup ((p, n) :: delete j held).*1) by (by rewrite <- HP).
  rewrite fmap_cons in Hnd'. apply list.NoDup_cons in Hnd' as [Hp Hd].
  rewrite (list_to_map_proper _ _ Hnd HP), list_to_map_cons. split_and!.
  - rewrite delete_insert_id; [done|]. by apply not_elem_of_list_to_map_1.
  - done.
  - apply lookup_insert_eq.
Qed.

Lemma client_safe rs held answers c :
  demand rs <= c -> Forall request_ok rs -> NoDup held.*1 -> Forall block_ok held -> Forall (eq true) answers ->
  csafe base client_post (client rs held answers) (rest (list_to_map held) c).
Proof.
  revert held answers c. induction rs as [|r rs IH]; intros held answers c Hc Hr Hnd Hb Ha; [by exists c|].
  pose proof (demand_nonneg rs) as Hd0. apply list.Forall_cons in Hr as [Hr0 Hr].
  assert (Halloc : forall n p l, demand rs + 1 <= c -> alloc_done n (list_to_map held) c p l ->
    csafe base client_post (client rs (if p =? 0 then held else (p, n) :: held) answers) l).
  { intros n p l Hd [[-> ->]|(Hp & Hg & Hap & Ho & ->)]; cbn [Z.eqb].
    - apply IH; [lia|done..].
    - destruct (Z.eqb_spec p 0); [done|]. apply (IH ((p, n) :: held) answers (c - 1)); [lia|done| |by constructor|done].
      rewrite fmap_cons. apply list.NoDup_cons. split; [|done]. by apply not_elem_of_list_to_map_2. }
  destruct r as [n|k n|n|j|j| | |]; cbn [client].
  - eapply csafe_call; [apply malloc_safe; [done|cbn in Hc; lia]|]. intros p l Hl.
    apply Halloc; [cbn in Hc; lia|done].
  - eapply csafe_call; [apply calloc_safe; [apply Hr0..|cbn in Hc; lia]|]. intros p l Hl.
    apply Halloc; [cbn in Hc; lia|done].
  - eapply csafe_call; [apply realloc_null_safe; [done|cbn in Hc; lia]|]. intros p l Hl.
    apply Halloc; [cbn in Hc; lia|done].
  - destruct (held !! j) as [[p n]|] eqn:Hj; [|by apply IH].
    destruct (list_to_map_remove held j p n Hnd Hj) as (Hdel & Hnd' & Hp).
    destruct (Forall_lookup_1 _ _ _ _ Hb Hj) as [Hg Hap].
    eapply csafe_call; [by apply (free_safe base p n)|]. intros [] l ->. rewrite <- Hdel.
    apply IH; [done|done|done| |done]. by apply Forall_delete.
  - destruct (held !! j) as [[p n]|] eqn:Hj; [|by apply IH].
    destruct (list_to_map_remove held j p n Hnd Hj) as (_ & _ & Hp).
    destruct (Forall_lookup_1 _ _ _ _ Hb Hj) as [Hg _].
    eapply csafe_call.
    { apply (is_tracked_safe base p n); [by eapply good_valid|destruct Hg; cbn in *; lia|done]. }
    intros b l [-> ->]. apply IH; [done..|]. by constructor.
  - eapply csafe_call; [apply begin_capture_safe|]. intros [] l ->. by apply IH.
  - eapply csafe_call; [apply end_capture_safe|]. intros [] l ->. by apply IH.
  - eapply csafe_call; [apply reset_safe|]. intros [] l ->. by apply IH.
Qed.

(** ** From the invariant between calls and back *)

Lemma conc_start (s : st (globals * Y)) (cs : list Z) :
  mock_inv (ext s) (mem s) -> Forall (fun c => 0 <= c) cs ->
  Z.of_nat (size (tracked (fst (ext s)))) + zsum cs <= AO_REGISTRY_CAPACITY ->
  conc_inv (tracked (fst (ext s))) s (rest ∅ <$> cs).
Proof.
  intros I Hc Hcap. destruct s as [m e [g y]].
  assert (Hnone : forall i k, (l_lock <$> (rest ∅ <$> cs)) !! i = Some (Some k) -> False).
  { intros i k. rewrite !list_lookup_fmap. by destruct (cs !! i). }
  assert (Hfoot : forall i f, (foot <$> (rest ∅ <$> cs)) !! i = Some f -> f = (∅, None)).
  { intros i f. rewrite !list_lookup_fmap. destruct (cs !! i); [|done]. cbn. by intros [= <-]. }
  assert (Hzero : forall (F : local -> Z), (forall c, F (rest ∅ c) = 0) -> zsum (F <$> (rest ∅ <$> cs)) = 0).
  { intros F HF. clear -HF. induction cs as [|c cs IH]; [done|].
    change (F (rest ∅ c) + zsum (F <$> (rest ∅ <$> cs)) = 0). rewrite HF, IH. lia. }
  destruct I; split; cbn [fst snd ext mem] in *; try done.
  - rewrite mi_lock. split; [intros i t' H|intros i j ti tj H|done]; by destruct (Hnone _ _ H).
  - split; [|done|..].
    + intros p n. split; [by left|]. intros [?|(i & f & Hi & Hp)]; [done|].
      apply Hfoot in Hi as ->. cbn in Hp. by rewrite lookup_empty in Hp.
    + intros i f p n Hi Hp. by apply Hfoot in Hi as ->.
    + intros i j fi fj p n k Hi Hj Hp. apply Hfoot in Hi as ->. cbn in Hp. by rewrite lookup_empty in Hp.
    + intros i j fi fj p n k Hi Hj Hp. by apply Hfoot in Hi as ->.
    + intros i f p n k Hi _ Hp. apply Hfoot in Hi as ->. cbn in Hp. by rewrite lookup_empty in Hp.
  - rewrite mi_blocks, Hzero by done. f_equal. lia.
  - rewrite mi_bytes, Hzero by done. f_equal. lia.
  - by apply Forall_fmap.
  - rewrite <- list_fmap_compose. replace (l_credit ∘ rest ∅ <$> cs) with cs; [done|].
    symmetry. by apply list_fmap_id.
Qed.

Lemma conc_quiescent (s : st (globals * Y)) ls :
  conc_inv base s ls -> Forall (fun l => exists o c, l = rest o c) ls -> mock_inv (ext s) (mem s).
Proof.
  intros I Hr. assert (Hzero : forall (F : local -> Z), (forall o c, F (rest o c) = 0) -> zsum (F <$> ls) = 0).
  { intros F HF. clear I. induction Hr as [|l ls (o & c & ->) Hr IH]; [done|].
    change (F (rest o c) + zsum (F <$> ls) = 0). rewrite HF, IH. lia. }
  destruct I; split; try done.
  - destruct (g_registry_lock _) eqn:Hl; [|done]. destruct (li_held _ _ _ cv_lock eq_refl) as [i Hi].
    rewrite list_lookup_fmap in Hi. destruct (ls !! i) as [l|] eqn:Hli; [|done].
    by destruct (Forall_lookup_1 _ _ _ _ Hr Hli) as (o & c & ->).
  - apply cv_blocks.
  - rewrite cv_count, Hzero by done. f_equal. lia.
  - rewrite cv_bytes, Hzero by done. f_equal. lia.
Qed.

End ClientSafe.
