(* ===== verification/ConcurrentProps.v ===== *)
(** * Concurrent calls: properties

    Threads that allocate, free and query through the mock allocator at the same time:
    the accounting is exact when they are done, and they are done under every fair
    schedule.  ([realloc] is another matter: see [ConcurrentRace].) *)
From S2P Require Import Prelude CMem CCmd CLib Alloc SimpleHeap Registry MockState Bootstrap MockAllocator MockSpec SimplePlatform Threads Concurrent ConcurrentInv ConcurrentOps.

Section Props.
Context {Y : Type} `{!Platform Y} `{!Allocator Y} `{!AllocatorLaws Y} `{!PlatformLaws Y}.
Context (scripts : list (list request)) (s : st (globals * Y)).

(** The start: no call under way, sizes that [size_t] can hold, and room in the
    registry for every block that may be asked for. *)
Record clients_start : Prop := {
  cs_inv : mock_inv (ext s) (mem s);
  cs_requests : Forall (Forall request_ok) scripts;
  cs_room : Z.of_nat (size (tracked (fst (ext s)))) + zsum (map demand scripts) <= AO_REGISTRY_CAPACITY
}.

Abbreviation base := (tracked (fst (ext s))).
Abbreviation safe_pool := (pool_safe (conc_inv base) (fun l => is_Some (l_lock l)) al_exits client_post).

Lemma clients_safe : clients_start -> safe_pool (clients scripts) s.
Proof.
  intros [I Hr Hroom]. exists (rest ∅ <$> map demand scripts). split.
  - apply conc_start; [done| |done]. apply list.Forall_forall. intros c Hc.
    apply list_elem_of_fmap in Hc as (rs & -> & _). apply demand_nonneg.
  - unfold clients. clear Hroom I. induction Hr as [|rs rss Hr _ IH]; [constructor|]. cbn [map fmap list_fmap].
    constructor; [|done]. by apply (client_safe _ rs [] [] (demand rs)); [lia| |constructor| |].
Qed.

Lemma client_post_unlocked out l : client_post out l -> ~ is_Some (l_lock l).
Proof. intros (c & -> & _). by intros [? ?]. Qed.

(** What the threads and the mock allocator agree on when all calls have returned. *)
Record clients_end (outs : list outcome) (s' : st (globals * Y)) : Prop := {
  ce_inv : mock_inv (ext s') (mem s');
  ce_tracked p n : tracked (fst (ext s')) !! p = Some n <->
    tracked (fst (ext s)) !! p = Some n \/ exists i out, outs !! i = Some out /\ (p, n) ∈ out.1;
  ce_new i out p n : outs !! i = Some out -> (p, n) ∈ out.1 -> tracked (fst (ext s)) !! p = None;
  ce_apart i j oi oj p n k : outs !! i = Some oi -> outs !! j = Some oj ->
    (p, n) ∈ oi.1 -> (p, k) ∈ oj.1 -> i = j;
  ce_answers : Forall (fun out : outcome => NoDup out.1.*1 /\ Forall (eq true) out.2) outs
}.

Lemma clients_quiescent outs s' : safe_pool (map Done outs) s' -> clients_end outs s'.
Proof.
  intros (ls & HI & HF).
  assert (Hpost : forall i out, outs !! i = Some out -> exists c, ls !! i = Some (rest (list_to_map out.1) c) /\
    NoDup out.1.*1 /\ Forall (eq true) out.2).
  { intros i out Hi. assert (Hd : ((@Done (globals * Y) outcome) <$> outs) !! i = Some (Done out))
      by (rewrite list_lookup_fmap; by rewrite Hi).
    destruct (Forall2_lookup_l _ _ _ _ _ HF Hd) as (l & Hl & c & -> & H). by exists c. }
  assert (Hback : forall i f, (foot <$> ls) !! i = Some f -> exists out, outs !! i = Some out /\
    f = (list_to_map out.1, None) /\ NoDup out.1.*1).
  { intros i f Hi. rewrite list_lookup_fmap in Hi. destruct (ls !! i) as [l|] eqn:Hl; [|done].
    destruct (Forall2_lookup_r _ _ _ _ _ HF Hl) as (p & Hp & _).
    rewrite (list_lookup_fmap (@Done (globals * Y) outcome)) in Hp.
    destruct (outs !! i) as [out|] eqn:Ho; [|done]. exists out. split; [done|].
    destruct (Hpost i out Ho) as (c & Hl' & Hnd & _). rewrite Hl in Hl'. injection Hl' as ->. by injection Hi as <-. }
  assert (Hfoot : forall i out p n, outs !! i = Some out -> (p, n) ∈ out.1 ->
    exists f, (foot <$> ls) !! i = Some f /\ f.1 !! p = Some n).
  { intros i out p n Ho Hp. destruct (Hpost i out Ho) as (c & Hl & Hnd & _).
    exists (list_to_map out.1, None). split; [by rewrite list_lookup_fmap, Hl|]. by apply elem_of_list_to_map_1. }
  pose proof (cv_blocks _ _ _ HI) as B. split.
  - eapply conc_quiescent; [exact HI|]. apply list.Forall_forall. intros l Hl.
    apply list_elem_of_lookup_1 in Hl as [i Hi].
    destruct (Hback i (foot l)) as (out & Ho & _); [by rewrite list_lookup_fmap, Hi|].
    destruct (Hpost i out Ho) as (c & Hl & _). rewrite Hi in Hl. injection Hl as ->. by eexists _, _.
  - intros p n. rewrite (bi_tracked _ _ _ _ B). split; (intros [?|(i & x & Hi & Hp)]; [by left|right]).
    + destruct (Hback i x Hi) as (out & Ho & -> & Hnd). exists i, out. split; [done|].
      by apply elem_of_list_to_map_2.
    + destruct (Hfoot i x p n Hi Hp) as (f & ? & ?). by exists i, f.
  - intros i out p n Ho Hp. destruct (Hfoot i out p n Ho Hp) as (f & Hf & Hfp).
    apply eq_None_not_Some. intros [k Hk]. by eapply (bi_base _ _ _ _ B).
  - intros i j oi oj p n k Hi Hj Hp Hq. destruct (Hfoot i oi p n Hi Hp) as (fi & ? & ?).
    destruct (Hfoot j oj p k Hj Hq) as (fj & ? & ?). by eapply (bi_own _ _ _ _ B).
  - apply list.Forall_forall. intros out Ho. apply list_elem_of_lookup_1 in Ho as [i Hi].
    by destruct (Hpost i out Hi) as (c & _ & ?).
Qed.

(** C2: whatever the schedule, threads that call [malloc], [calloc], [free],
    [realloc] of a null pointer, [ao_mock_is_tracked_allocation] and the functions of
    captures at the same time never meet undefined behaviour and never exhaust a
    registry that has room for their demands; when all have returned, the invariant of
    the mock allocator holds again, so the live counters are exact; the tracked blocks
    are those of the start and those the threads hold, each held by one thread; and
    every query about a held block was answered yes. *)
Theorem concurrent_calls_exact sched :
  clients_start ->
  wp al_exits (run sched (clients scripts)) (fun ps s' =>
    forall outs, ps = map Done outs -> clients_end outs s') s.
Proof.
  intros H. eapply wp_mono; [by eapply run_safe, clients_safe|]. intros ps s' HP outs ->.
  by apply clients_quiescent.
Qed.

(** C3: under every fair schedule all the calls return: a thread that spins on the
    registry lock waits for a thread that makes progress, and no call is starved for
    ever. *)
Theorem concurrent_calls_end sched :
  clients_start -> fair (length scripts) sched ->
  exists n, wp al_exits (run (slice sched 0 n) (clients scripts)) (fun ps _ => all_done ps) s.
Proof.
  intros H HF. destruct (run_ends (conc_inv base) (fun l => is_Some (l_lock l)) al_exits client_post
    client_post_unlocked sched 0 (clients scripts) s) as [n Hn].
  - by apply clients_safe.
  - unfold clients. by rewrite length_map.
  - exists n. eapply wp_mono; [exact Hn|]. by intros ps s' [? _].
Qed.

End Props.

(** ** Two threads on the bump heap *)

Definition two_scripts : list (list request) :=
  [[Begin; Malloc 8; Query 0; Free 0; Finish]; [Calloc 2 4; ReallocNull 5; Query 1; Reset]].

Definition round_robin (t : nat) : nat := (t mod 2)%nat.

Lemma round_robin_fair : fair 2 round_robin.
Proof.
  intros i t Hi. exists (t * 2 + i)%nat. split; [lia|]. unfold round_robin.
  rewrite Nat.add_comm, Nat.Div0.mod_add. by apply Nat.mod_small.
Qed.

Lemma two_start : clients_start two_scripts (simple_ready 1).
Proof.
  split.
  - apply simple_ready_inv.
  - repeat constructor; done.
  - assert (H : tracked (fst (ext (simple_ready 1))) = ∅).
    { unfold tracked. cbn [simple_ready ext fst g_registry ready_globals]. by rewrite registry_empty_map, fmap_empty. }
    rewrite H. done.
Qed.

(** The two threads in turns: the second ends holding two blocks, with its query
    answered. *)
Definition thread_result (p : prog (globals * arena) outcome) : option outcome :=
  match p with Done out => Some out | Atom _ _ => None end.

Example two_threads_run :
  match run (slice round_robin 0 120) (clients two_scripts) (simple_ready 1) with
  | Ret (ps, s') =>
      map thread_result ps = [Some ([], [true]); Some ([(2 ^ 20 + 32, 5); (2 ^ 20, 8)], [true])] /\
      live_blocks (g_stats (fst (ext s'))) = 2 /\ live_bytes (g_stats (fst (ext s'))) = 13
  | _ => False
  end.
Proof. vm_compute. by split_and!. Qed.

Lemma concurrent_calls_exact_witness :
  wp no_exit (run (slice round_robin 0 120) (clients two_scripts)) (fun ps s' =>
    forall outs, ps = map Done outs -> clients_end (simple_ready 1) outs s') (simple_ready 1).
Proof. exact (concurrent_calls_exact two_scripts (simple_ready 1) (slice round_robin 0 120) two_start). Defined.

Lemma concurrent_calls_end_witness :
  exists n, wp no_exit (run (slice round_robin 0 n) (clients two_scripts)) (fun ps _ => all_done ps) (simple_ready 1).
Proof. exact (concurrent_calls_end two_scripts (simple_ready 1) round_robin two_start round_robin_fair). Defined.
