(* ===== verification/ConcurrentRace.v ===== *)
(** * [realloc] among other calls

    [realloc] gives the old address back to the C library first and takes it out of
    the registry afterwards, under a second hold of the lock.  When another thread is
    handed that address in between, its entry is the one that is removed: the block it
    was given is tracked no more, and the live counter counts it all the same. *)
From S2P Require Import Prelude CMem CCmd CLib Alloc SimpleHeap Registry MockState Bootstrap MockAllocator MockSpec SimplePlatform Threads Concurrent.

Section Race.
Context {Y : Type} `{!Platform Y} `{!Allocator Y}.

(** Between two calls, with [p] a tracked block: what [mock_inv] gives
    ([mock_inv_tracks]). *)
Record tracks (g : globals) (p old : Z) : Prop := {
  tk_lock : g_registry_lock g = false;
  tk_resolver : g_in_resolver g = 0;
  tk_once : g_resolve_once g = true;
  tk_real : g_real_malloc g <> 0 /\ g_real_realloc g <> 0;
  tk_wf : registry_wf (g_registry g);
  tk_block : tracked g !! p = Some old;
  tk_pointer : valid_key p /\ p <> 0 /\ ao_bootstrap_contains p = false;
  tk_count : live_blocks (g_stats g) = u64 (Z.of_nat (size (tracked g)))
}.

Lemma mock_inv_tracks `{!AllocatorLaws Y} `{!PlatformLaws Y} g y m p old :
  mock_inv (g, y) m -> tracked g !! p = Some old -> tracks g p old.
Proof.
  intros I Hp. destruct (tracked_good g y m I p old Hp) as (_ & Ha & V & Hp0).
  pose proof (apart_contains _ _ Ha). destruct I as [? ? ? (? & _ & ? & _)]. by split.
Qed.

Context (g : globals) (y : Y) (m : gmap Z Z) (e : Z) (p old n q k : Z) (T : tracks g p old).
Context (m1 m2 : gmap Z Z) (e1 e2 : Z) (y1 y2 : Y).
Context (Hrealloc : al_realloc p n (St m e y) = Ret (q, St m1 e1 y1)) (Hq : valid_key q) (Hqp : q <> p).
Context (Hmalloc : al_malloc k (St m1 e1 y1) = Ret (p, St m2 e2 y2)).

(** The globals when the second thread has returned. *)
Record handed_out (id : Z) (r : Z) (s' : st (globals * Y)) : Prop := {
  ho_result : r = p;
  ho_world : snd (ext s') = y2;
  ho_lock : g_registry_lock (fst (ext s')) = false;
  ho_wf : registry_wf (g_registry (fst (ext s')));
  ho_map : registry_map (g_registry (fst (ext s'))) = <[p := (k, id)]> (registry_map (g_registry g));
  ho_blocks : live_blocks (g_stats (fst (ext s'))) = u64 (live_blocks (g_stats g) + 1)
}.

Lemma handed_out_wp : wp no_exit (malloc k) (handed_out (g_next_allocation_id g)) (St m1 e1 (g, y1)).
Proof.
  destruct T as [Hl Hres Ho (Hr & _) HWF Hp (V & Hp0 & _) _].
  apply wp_bind, wp_in_resolver; [done|]. apply wp_bind, wp_ensure; [done|].
  apply wp_bind, wp_call_real; [done|]. unfold wp at 1. rewrite Hmalloc. cbn [mem errno ext].
  destruct (Z.eqb_spec p 0); [done|]. apply wp_bind, wp_bind, wp_lock; [done|].
  apply wp_bind. eapply acts_wp; [apply acts_next_id|]. cbn [fst snd ext mem errno].
  apply wp_bind, wp_registry_insert; [exact HWF|done| |].
  - intros t WF Ht. apply wp_bind. eapply acts_wp; [apply acts_mod|]. apply wp_bind, wp_ret.
    eapply acts_wp; [apply acts_live_add|]. apply wp_bind. eapply acts_wp; [apply acts_success|]. apply wp_ret.
    cbn [fst snd ext mem errno].
    edestruct (success_quiet 0 k) as (st & -> & Hb & _).
    split; cbn [fst snd ext g_registry g_registry_lock g_stats set_stats]; [done|done|done|exact WF|exact Ht|].
    by rewrite Hb.
  - intros _ Hnone. change (tracked g !! p = None) in Hnone. congruence.
Qed.

(** The rest of [realloc] from there on. *)
Lemma realloc_tail_wp id oid r s' :
  handed_out id r s' -> wp no_exit (alone (realloc_tail_prog p n old oid q)) (fun r s'' =>
    r = q /\ snd (ext s'') = y2 /\ tracked (fst (ext s'')) = <[q := n]> (delete p (tracked g)) /\
    live_blocks (g_stats (fst (ext s''))) = u64 (live_blocks (g_stats g) + 1)) s'.
Proof.
  destruct T as [_ _ _ _ _ _ (V & Hp0 & _) _].
  destruct s' as [m' e' [g' y']]. intros [_ Hy Hl WF Hmap Hb]. cbn [fst snd ext] in *. subst y'.
  unfold realloc_tail_prog. destruct (Z.eqb_spec q 0) as [->|Hq0]; [by destruct Hq|]. cbn [andb negb alone].
  apply wp_bind, wp_lock; [done|].
  eapply wp_ceq; [apply alone_call|]. apply wp_bind. eapply wp_ceq; [apply remove_alone|].
  apply wp_registry_remove; [done|done|]. intros t WFt Ht. cbn [g_registry set_registry_lock] in Ht.
  eapply wp_ceq; [apply alone_call|]. apply wp_bind. eapply wp_ceq; [apply alone_call|]. apply wp_bind.
  eapply wp_ceq; [apply insert_alone|]. apply wp_registry_insert; [exact WFt|done| |].
  2: { intros Hfull _. exfalso. rewrite size_tracked in Hfull. cbn [g_registry set_registry] in Hfull.
       rewrite Ht in Hfull. pose proof (registry_map_size (g_registry g') WF) as Hs.
       assert (Hin : registry_map (g_registry g') !! p = Some (k, id)) by (rewrite Hmap; apply lookup_insert_eq).
       rewrite <- (insert_delete_id _ _ _ Hin), map_size_insert_None in Hs by apply lookup_delete_eq.
       lia. }
  intros t' WFt' Ht'. cbn [g_registry set_registry] in Ht'. cbn [negb alone]. apply wp_ret.
  apply wp_bind. eapply acts_wp; [apply acts_mod|]. cbn [fst snd ext mem errno].
  eapply wp_ceq; [apply alone_call|]. apply wp_bind. eapply wp_ceq; [apply record_realloc_alone|].
  eapply acts_wp; [apply acts_realloc|]. cbn [fst snd ext mem errno].
  eapply wp_ceq; [apply alone_call|]. apply wp_bind. eapply wp_ceq; [apply live_update_alone|].
  eapply acts_wp; [apply acts_live_update|]. apply wp_ret. cbn [fst snd ext mem errno].
  set (g0 := set_registry_lock false (set_registry t' (set_registry t (set_registry_lock true g')))).
  destruct (realloc_quiet false g0) as (st & -> & Hst & _).
  assert (Htr : fst <$> registry_map t' = <[q := n]> (delete p (tracked g))).
  { rewrite Ht', Ht, Hmap, fmap_insert, delete_insert_eq, fmap_delete. done. }
  split_and!; [done|done| |].
  - destruct (old =? n); exact Htr.
  - rewrite <- Hb. destruct (old =? n); exact Hst.
Qed.

(** The first thread runs until its call of the C library has returned. *)
Lemma realloc_head (ps : list (prog (globals * Y) Z)) :
  exists oid, run (replicate 6 0%nat) (realloc_prog p n :: ps) (St m e (g, y)) =
    Ret (realloc_tail_prog p n old oid q :: ps, St m1 e1 (g, y1)).
Proof.
  destruct T as [Hl Hres Ho (_ & Hr) HWF Hp (V & Hp0 & Ha) _].
  destruct (tracked_registry_map g p old Hp) as [oid Hid]. exists oid. unfold realloc_prog. cbn [replicate].
  erewrite run_atom; [|done|unfold in_resolver, bind, get_globals, ret; cbn [ext fst]; by rewrite Hres].
  cbn [list_insert insert Z.eqb negb]. rewrite Ha.
  erewrite run_atom; [|done|unfold ao_ensure_real_functions, bind, get_globals, ret; cbn [ext fst]; by rewrite Ho].
  cbn [list_insert insert]. destruct (Z.eqb_spec p 0); [done|].
  erewrite run_atom; [|done|unfold ao_registry_lock, bind, get_globals, mod_globals; cbn [ext fst snd]; by rewrite Hl].
  cbn [list_insert insert lookup_prog pbind].
  erewrite run_atom; [|done|reflexivity]. cbn [list_insert insert pbind ext fst snd mem errno g_registry set_registry_lock].
  rewrite lookup_locked_map, Hid by done.
  erewrite run_atom; [|done|reflexivity]. cbn [list_insert insert ext fst snd mem errno]. rewrite relock by done.
  erewrite run_atom; [|done|].
  2: { unfold call_real, bind, get_globals. cbn [ext fst]. destruct (Z.eqb_spec (g_real_realloc g) 0); [done|].
       unfold lift. cbn [ext snd fst mem errno]. by rewrite Hrealloc. }
  reflexivity.
Qed.

(** C4: [realloc] is not safe among other calls.  Whenever the C library moves a
    tracked block and hands its old address out to the next caller, there is a
    schedule of the two calls after which both have returned their blocks and the
    second one, live in the C library, is not tracked; the live counter says one
    block more than there was, although no more are tracked. *)
Theorem realloc_race :
  exists sched s', run sched [realloc_prog p n; malloc_prog k] (St m e (g, y)) = Ret ([Done q; Done p], s') /\
    snd (ext s') = y2 /\
    tracked (fst (ext s')) = <[q := n]> (delete p (tracked g)) /\ tracked (fst (ext s')) !! p = None /\
    live_blocks (g_stats (fst (ext s'))) = u64 (Z.of_nat (size (tracked g)) + 1).
Proof.
  destruct (realloc_head [malloc_prog k]) as [oid H1].
  destruct (wp_returns _ _ _ handed_out_wp) as (r & s2 & H2 & HO). pose proof (ho_result _ _ _ HO) as ->.
  destruct (run_alone 1 [realloc_tail_prog p n old oid q; malloc_prog k] (malloc_prog k) (St m1 e1 (g, y1)) p s2)
    as [n2 H2']; [done|by rewrite (malloc_alone k _)|].
  destruct (wp_returns _ _ _ (realloc_tail_wp _ oid _ _ HO)) as (r3 & s3 & H3 & -> & Hy & Htr & Hb).
  destruct (run_alone 0 [realloc_tail_prog p n old oid q; Done p] _ s2 q s3 eq_refl H3) as [n3 H3'].
  exists (replicate 6 0%nat ++ replicate n2 1%nat ++ replicate n3 0%nat), s3. split_and!.
  - rewrite run_app. unfold bind. rewrite H1, run_app. unfold bind. rewrite H2'. exact H3'.
  - done.
  - done.
  - rewrite Htr, lookup_insert_ne by done. apply lookup_delete_eq.
  - by rewrite Hb, (tk_count _ _ _ T), u64_add_l.
Qed.

End Race.

(** A C library that reuses addresses: blocks of 64 bytes, the last freed first. *)
Record recycler := Recycler { r_next : Z; r_free : list Z; r_live : gmap Z Z }.

Definition recycler_malloc (n : Z) : C recycler Z := fun s =>
  let r := ext s in
  match r_free r with
  | p :: free => Ret (p, St (mem s) (errno s) (Recycler (r_next r) free (<[p := n]> (r_live r))))
  | [] => Ret (r_next r, St (mem s) (errno s) (Recycler (r_next r + 64) [] (<[r_next r := n]> (r_live r))))
  end.

Definition recycler_free (p : Z) : C recycler unit := fun s =>
  let r := ext s in
  Ret (tt, St (mem s) (errno s) (Recycler (r_next r) (p :: r_free r) (delete p (r_live r)))).

#[local] Instance recycler_allocator : Allocator recycler := {
  al_malloc := recycler_malloc;
  al_calloc k n := recycler_malloc (k * n);
  al_realloc p n := let* q := recycler_malloc n in do* recycler_free p in ret q;
  al_free := recycler_free
}.

#[local] Instance recycler_platform : Platform recycler := {
  g_bootstrap_heap := 4096;
  dlsym _ := ret 1;
  sys_write _ bs := ret (Z.of_nat (length bs))
}.

(** One block of 8 bytes, tracked. *)
Definition recycler_globals : globals := registered 8 (ao_registry_insert_locked ∅ 1048576 8 1).2 (ready_globals 0).

Definition recycler_start : st (globals * recycler) :=
  St ∅ 0 (recycler_globals, Recycler (1048576 + 64) [] {[ 1048576 := 8 ]}).

(** Two threads end the one capture there is: both read a depth of one before either
    lowers it, and the depth ends below zero, where the next capture does not count. *)
Example captures_unbalanced :
  match run [0; 1; 0; 1]%nat [end_capture_prog; end_capture_prog]
    (St ∅ 0 (set_capture_depth 1 recycler_globals, Recycler 1048640 [] ∅)) with
  | Ret (_, s') => g_capture_depth (fst (ext s')) = -1 /\ capturing (set_capture_depth (-1 + 1) (fst (ext s'))) = false
  | _ => False
  end.
Proof. vm_compute. by split. Qed.

Definition race_pool : list (prog (globals * recycler) Z) := [realloc_prog 1048576 100; malloc_prog 24].

(** The first thread up to its call of the C library, the second one, the first. *)
Definition race_schedule : list nat := replicate 6 0%nat ++ replicate 12 1%nat ++ replicate 12 0%nat.

(** One after the other, both blocks are tracked. *)
Example calls_in_order :
  match run (replicate 18 0%nat ++ replicate 12 1%nat) race_pool recycler_start with
  | Ret ([Done q; Done p], s') =>
      p = 1048576 /\ size (r_live (snd (ext s'))) = 2%nat /\ size (tracked (fst (ext s'))) = 2%nat /\
      live_blocks (g_stats (fst (ext s'))) = 2
  | _ => False
  end.
Proof. vm_compute. by split_and!. Qed.

(** On this schedule the second thread is handed a block the registry loses. *)
Example calls_interleaved :
  match run race_schedule race_pool recycler_start with
  | Ret ([Done q; Done p], s') =>
      p = 1048576 /\ r_live (snd (ext s')) !! p = Some 24 /\ tracked (fst (ext s')) !! p = None /\
      size (tracked (fst (ext s'))) = 1%nat /\ live_blocks (g_stats (fst (ext s'))) = 2
  | _ => False
  end.
Proof. vm_compute. by split_and!. Qed.

Lemma recycler_tracks : tracks recycler_globals 1048576 8.
Proof.
  assert (V : valid_key 1048576) by done.
  destruct (insert_locked_map ∅ 1048576 8 1 registry_empty_wf V) as [(t & Ht & WF & Hm)|(_ & _ & Hfull)].
  2: { destruct (Hfull 0) as [H _]; [pose proof capacity_pos; lia|].
       unfold get_entry in H. rewrite lookup_empty in H. done. }
  rewrite registry_empty_map in Hm. unfold recycler_globals. rewrite Ht. cbn [snd].
  assert (Htr : tracked (registered 8 t (ready_globals 0)) = {[ 1048576 := 8 ]}).
  { unfold tracked. cbn. rewrite Hm. by rewrite fmap_insert, fmap_empty. }
  split; [done|done|done|done|exact WF| |done|].
  - rewrite Htr. apply lookup_singleton_eq.
  - by rewrite Htr, map_size_singleton.
Qed.

(** The C library before the two calls, after the first and after both. *)
Definition recycler_first : recycler := Recycler (1048576 + 64) [] {[ 1048576 := 8 ]}.
Definition recycler_moved : recycler :=
  Recycler (1048576 + 64 + 64) [1048576] (delete 1048576 (<[1048576 + 64 := 100]> {[ 1048576 := 8 ]})).
Definition recycler_reused : recycler :=
  Recycler (r_next recycler_moved) [] (<[1048576 := 24]> (r_live recycler_moved)).

Lemma recycler_moves : al_realloc 1048576 100 (St ∅ 0 recycler_first) = Ret (1048576 + 64, St ∅ 0 recycler_moved).
Proof. reflexivity. Qed.

Lemma recycler_reuses : al_malloc 24 (St ∅ 0 recycler_moved) = Ret (1048576, St ∅ 0 recycler_reused).
Proof. reflexivity. Qed.

Lemma recycler_valid : valid_key (1048576 + 64).
Proof. done. Qed.

Lemma recycler_apart : 1048576 + 64 <> 1048576.
Proof. done. Qed.

#[local] Opaque recycler_globals recycler_moved recycler_reused.

Lemma realloc_race_witness :
  exists sched s', run sched [realloc_prog 1048576 100; malloc_prog 24] (St ∅ 0 (recycler_globals, recycler_first)) =
      Ret ([Done (1048576 + 64); Done 1048576], s') /\
    snd (ext s') = recycler_reused /\
    tracked (fst (ext s')) = <[1048576 + 64 := 100]> (delete 1048576 (tracked recycler_globals)) /\
    tracked (fst (ext s')) !! 1048576 = None /\
    live_blocks (g_stats (fst (ext s'))) = u64 (Z.of_nat (size (tracked recycler_globals)) + 1).
Proof.
  exact (realloc_race recycler_globals recycler_first ∅ 0 1048576 8 100 (1048576 + 64) 24 recycler_tracks
    ∅ ∅ 0 0 recycler_moved recycler_reused recycler_moves recycler_valid recycler_apart recycler_reuses).
Defined.
