(* ===== verification/ConcurrentBoot.v ===== *)
(** * The bootstrap heap under threads (src/mock_allocator.c)

    The compare-and-swap loop of [ao_bootstrap_alloc] as a program of [Threads]: a load
    of the offset and a compare-and-swap that fails when the offset has moved, or
    spuriously.  The ghost state of a thread holds the blocks it claimed, the offset it
    last read, the requests it has still to make, and how many turns of the loop it may
    still lose to the others: a turn is lost only when another thread claims a block. *)
From S2P Require Import Prelude CMem CCmd CLib Alloc SimpleHeap Registry MockState Bootstrap MockAllocator MockSpec SimplePlatform MockProps Threads Concurrent ConcurrentInv ConcurrentProps.
#[local] Open Scope prog_scope.

(** [total] of the source. *)
Definition boot_total (size : Z) : Z := ao_align_up (u64 (SIZEOF_BOOTSTRAP_HEADER + size)) SIZEOF_MAX_ALIGN_T.

Section Programs.
Context {Y : Type} `{!Platform Y}.
Abbreviation P := (prog (globals * Y)).

Definition load_offset : C (globals * Y) Z := (let* g := get_globals in ret (g_bootstrap_offset g))%cmd.

Definition cas_offset (expected desired : Z) : C (globals * Y) bool :=
  (let* g := get_globals in
   if g_bootstrap_offset g =? expected
   then do* mod_globals (set_bootstrap_offset desired) in ret true
   else ret false)%cmd.

(** The loop: the offset it claimed, or nothing when the heap is exhausted.  [spurious]
    says which compare-and-swaps fail for no reason; the list ends with the last one. *)
Fixpoint cas_loop (fuel : nat) (spurious : list bool) (total : Z) : P (option Z) :=
  match fuel with
  | O => atom* r := diverge in Done r
  | S fuel' =>
      atom* current := load_offset in
      if (AO_BOOTSTRAP_HEAP_SIZE <? current) || (u64 (AO_BOOTSTRAP_HEAP_SIZE - current) <? total) then
        step* set_errno ENOMEM in Done None
      else
        let next := u64 (current + total) in
        atom* ok := (if default false (head spurious) then ret false else cas_offset current next) in
        if ok then Done (Some current) else cas_loop fuel' (tail spurious) total
  end.

Definition bootstrap_alloc_prog (fuel : nat) (spurious : list bool) (size : Z) : P Z :=
  call* claimed := cas_loop fuel spurious (boot_total size) in
  match claimed with
  | None => Done 0
  | Some current =>
      let header := g_bootstrap_heap + current in
      step* store_u64 header size in
      Done (header + SIZEOF_BOOTSTRAP_HEADER)
  end.

(** Alone and without spurious failures, one turn is enough. *)
Lemma bootstrap_alloc_alone fuel size :
  (alone (bootstrap_alloc_prog (S fuel) [] size) ≡c ao_bootstrap_alloc (Y := Y) size)%cmd.
Proof.
  intros [m e [g y]]. unfold bootstrap_alloc_prog. rewrite alone_pbind. cbn [cas_loop].
  unfold ao_bootstrap_alloc, load_offset, cas_offset, get_globals, mod_globals, bind, ret, boot_total.
  cbn [alone fst snd ext mem errno head default from_option]. unfold bind. cbn [fst snd ext mem errno].
  destruct ((AO_BOOTSTRAP_HEAP_SIZE <? g_bootstrap_offset g) || _); [done|].
  cbn [alone]. unfold bind. cbn [fst snd ext mem errno]. rewrite Z.eqb_refl. cbn [alone].
  unfold ret, bind. done.
Qed.

(** A thread that makes requests, and the blocks it got with their sizes. *)
Fixpoint boot_client (fuel : nat) (rs : list (Z * list bool)) (got : list (Z * Z)) : P (list (Z * Z)) :=
  match rs with
  | [] => Done got
  | (size, spurious) :: rs =>
      call* p := bootstrap_alloc_prog fuel spurious size in
      boot_client fuel rs (if p =? 0 then got else (p, size) :: got)
  end.

End Programs.

(** ** Ghost state and invariant *)

Record claimer := Claimer {
  c_blocks : list (Z * Z);
  c_pending : bool;
  c_seen : option Z;
  c_todo : list Z;
  c_turns : Z
}.

(** The blocks whose header is written: the newest may be pending. *)
Definition settled (l : claimer) : list (Z * Z) := if c_pending l then tail (c_blocks l) else c_blocks l.

Definition waiting (l : claimer) : Z := Z.of_nat (length (c_todo l)).
Definition needed (sizes : list Z) : Z := zsum (map boot_total sizes).

(** Two blocks with the headers before them. *)
Definition blocks_apart (b b' : Z * Z) : Prop :=
  b.1 + b.2 <= b'.1 - SIZEOF_BOOTSTRAP_HEADER \/ b'.1 + b'.2 <= b.1 - SIZEOF_BOOTSTRAP_HEADER.

Lemma blocks_apart_sym b b' : blocks_apart b b' -> blocks_apart b' b.
Proof. unfold blocks_apart. tauto. Qed.

(** A size whose block [size_t] can hold. *)
Definition boot_request (size : Z) : Prop := 0 <= size /\ SIZEOF_BOOTSTRAP_HEADER + size + 31 <= SIZE_MAX.

Lemma boot_total_spec size : boot_request size ->
  SIZEOF_BOOTSTRAP_HEADER + size <= boot_total size <= SIZE_MAX /\ boot_total size `mod` 32 = 0.
Proof.
  unfold boot_request, boot_total, SIZEOF_MAX_ALIGN_T, SIZEOF_BOOTSTRAP_HEADER. intros [H1 H2].
  rewrite (u64_small (48 + size)) by lia. destruct (align_up_spec (48 + size)); [lia|lia|].
  split; [|done]. split; [lia|]. unfold SIZE_MAX in *. Z.div_mod_to_equations. lia.
Qed.

Lemma needed_nonneg sizes : Forall boot_request sizes -> 0 <= needed sizes.
Proof.
  induction 1 as [|z zs Hz _ IH]; [done|]. change (0 <= boot_total z + needed zs).
  destruct (boot_total_spec z Hz). unfold SIZEOF_BOOTSTRAP_HEADER, boot_request in *. lia.
Qed.

Lemma zsum_map_insert {A} (f : A -> Z) ls i l l' :
  ls !! i = Some l -> zsum (f <$> <[i := l']> ls) = zsum (f <$> ls) - f l + f l'.
Proof.
  intros H. rewrite list_fmap_insert. apply zsum_insert. rewrite list_lookup_fmap. by rewrite H.
Qed.

Lemma zsum_map_ge {A} (f : A -> Z) ls i l :
  ls !! i = Some l -> (forall j l, ls !! j = Some l -> 0 <= f l) -> f l <= zsum (f <$> ls).
Proof.
  intros H Hn. apply (zsum_ge _ i); [rewrite list_lookup_fmap; by rewrite H|]. intros j z Hj.
  rewrite list_lookup_fmap in Hj. destruct (ls !! j) as [lj|] eqn:Hlj; [|done]. injection Hj as <-. by eapply Hn.
Qed.

Section Invariant.
Context {Y : Type} `{!Platform Y}.
(** The offset at the start, a bound of the requests, the sizes each thread asks for,
    and whether they all fit. *)
Context (start limit : Z) (asked : list (list Z)) (fits : Prop).
Implicit Types (s : st (globals * Y)) (ls : list claimer).

Abbreviation offset s := (g_bootstrap_offset (fst (ext s))).

Definition all_waiting (ls : list claimer) : Z := zsum (waiting <$> ls).
Definition all_needed (ls : list claimer) : Z := zsum ((fun l => needed (c_todo l)) <$> ls).

Record boot_inv s ls : Prop := {
  bo_ok : boot_ok s;
  bo_start : 0 <= start <= offset s;
  bo_in i l b : ls !! i = Some l -> b ∈ c_blocks l ->
    g_bootstrap_heap + start + SIZEOF_BOOTSTRAP_HEADER <= b.1 /\ 0 <= b.2 /\ b.1 + b.2 <= g_bootstrap_heap + offset s;
  bo_apart i j l l' k k' b b' : ls !! i = Some l -> ls !! j = Some l' ->
    c_blocks l !! k = Some b -> c_blocks l' !! k' = Some b' -> (i, k) <> (j, k') -> blocks_apart b b';
  bo_header i l b : ls !! i = Some l -> b ∈ settled l ->
    holds (mem s) (b.1 - SIZEOF_BOOTSTRAP_HEADER) (le_encode 8 b.2);
  bo_requests i l : ls !! i = Some l -> Forall boot_request (c_todo l);
  bo_limit : all_waiting ls <= limit;
  bo_turns i l : ls !! i = Some l -> all_waiting ls - waiting l <= c_turns l;
  bo_seen i l o : ls !! i = Some l -> c_seen l = Some o -> start <= o <= offset s /\
    (o = offset s \/ all_waiting ls - waiting l < c_turns l);
  bo_fits : fits -> offset s + all_needed ls <= AO_BOOTSTRAP_HEAP_SIZE;
  bo_served i l sizes : ls !! i = Some l -> asked !! i = Some sizes ->
    sublist (rev (map snd (c_blocks l)) ++ c_todo l) sizes /\
    (fits -> rev (map snd (c_blocks l)) ++ c_todo l = sizes)
}.

Lemma others_nonneg s ls i l : boot_inv s ls -> ls !! i = Some l -> 0 <= all_waiting ls - waiting l.
Proof.
  intros HI Hi. enough (waiting l <= all_waiting ls) by lia.
  apply (zsum_map_ge _ _ i _ Hi). intros j l' _. unfold waiting. lia.
Qed.

Lemma fits_here s ls i l size todo :
  boot_inv s ls -> ls !! i = Some l -> c_todo l = size :: todo -> fits ->
  offset s + boot_total size <= AO_BOOTSTRAP_HEAP_SIZE.
Proof.
  intros HI Hi Ht Hf. pose proof (bo_fits _ _ HI Hf) as H.
  assert (needed (c_todo l) <= all_needed ls).
  { apply (zsum_map_ge (fun l => needed (c_todo l)) _ i _ Hi). intros j l' Hj.
    by apply needed_nonneg, (bo_requests _ _ HI j). }
  pose proof (bo_requests _ _ HI i l Hi) as Hr. rewrite Ht in *.
  apply list.Forall_cons in Hr as [_ Hr]. pose proof (needed_nonneg _ Hr).
  change (needed (size :: todo)) with (boot_total size + needed todo) in *. lia.
Qed.

(** A step that touches neither the array nor the offset: the thread looks, loses a
    turn, or gives a request up. *)
Lemma boot_look s s' ls i l l' :
  boot_inv s ls -> ls !! i = Some l -> mem s' = mem s -> ext s' = ext s ->
  c_blocks l' = c_blocks l -> c_pending l' = c_pending l ->
  c_todo l' = c_todo l \/ (~ fits /\ exists size, c_todo l = size :: c_todo l') ->
  all_waiting ls - waiting l <= c_turns l' ->
  (forall o, c_seen l' = Some o -> start <= o <= offset s /\ (o = offset s \/ all_waiting ls - waiting l < c_turns l')) ->
  boot_inv s' (<[i := l']> ls).
Proof.
  intros HI Hi Hm Hx Hb Hp Ht Hturns Hseen.
  assert (Hw : 0 <= waiting l - waiting l')
    by (unfold waiting; destruct Ht as [->|(_ & z & ->)]; cbn [length]; lia).
  assert (HW : all_waiting (<[i := l']> ls) = all_waiting ls - waiting l + waiting l')
    by (by apply zsum_map_insert).
  split; rewrite ?Hx, ?Hm, ?HW.
  - pose proof (bo_ok _ _ HI) as Hok. unfold boot_ok in *. by rewrite Hx, Hm.
  - apply HI.
  - intros j lj b Hj Hin. at_insert Hj; [rewrite Hb in Hin|]; by eapply (bo_in _ _ HI).
  - intros a b la lb k k' x y Ha Hlb. at_insert Ha; at_insert Hlb; rewrite ?Hb; by eapply (bo_apart _ _ HI).
  - intros j lj b Hj Hin. at_insert Hj; [|by eapply (bo_header _ _ HI)].
    unfold settled in Hin. rewrite Hb, Hp in Hin. by eapply (bo_header _ _ HI).
  - intros j lj Hj. at_insert Hj; [|by eapply (bo_requests _ _ HI)].
    pose proof (bo_requests _ _ HI i l Hi) as H. destruct Ht as [->|(_ & z & Hz)]; [done|].
    rewrite Hz in H. by apply list.Forall_cons in H as [_ H].
  - pose proof (bo_limit _ _ HI). lia.
  - intros j lj Hj. at_insert Hj; [lia|]. pose proof (bo_turns _ _ HI j lj Hj). lia.
  - intros j lj o Hj Ho. at_insert Hj.
    + destruct (Hseen o Ho). split; [done|]. lia.
    + destruct (bo_seen _ _ HI j lj o Hj Ho). split; [done|]. lia.
  - intros Hf. destruct Ht as [Ht|[? _]]; [|done]. pose proof (bo_fits _ _ HI Hf) as H.
    unfold all_needed. rewrite (zsum_map_insert _ ls i l) by done. rewrite Ht. unfold all_needed in H. lia.
  - intros j lj sizes Hj Hs. at_insert Hj; [|by eapply (bo_served _ _ HI)].
    destruct (bo_served _ _ HI i l sizes Hi Hs) as [Hsub Heq]. rewrite Hb.
    destruct Ht as [->|(Hn & z & Hz)]; [done|]. split; [|done]. rewrite Hz in Hsub.
    etransitivity; [|exact Hsub]. apply sublist_app; [done|]. by constructor.
Qed.

(** A new block after all the others is apart from them. *)
Lemma boot_claim_apart s ls i l l' x0 :
  boot_inv s ls -> ls !! i = Some l -> c_blocks l' = x0 :: c_blocks l ->
  (forall j lj b, ls !! j = Some lj -> b ∈ c_blocks lj -> b.1 + b.2 <= x0.1 - SIZEOF_BOOTSTRAP_HEADER) ->
  forall a b la lb k k' x x', <[i := l']> ls !! a = Some la -> <[i := l']> ls !! b = Some lb ->
    c_blocks la !! k = Some x -> c_blocks lb !! k' = Some x' -> (a, k) <> (b, k') -> blocks_apart x x'.
Proof.
  intros HI Hi Hl' Hnew.
  assert (Hsep : forall j lj k b, ls !! j = Some lj -> c_blocks lj !! k = Some b -> blocks_apart x0 b).
  { intros j lj k b Hj Hb. apply list_elem_of_lookup_2 in Hb. right. by eapply Hnew. }
  intros a b la lb k k' x x' Ha Hlb Hx Hx' Hne. at_insert Ha; at_insert Hlb; rewrite ?Hl' in Hx; rewrite ?Hl' in Hx'.
  - destruct k as [|k], k' as [|k']; cbn in Hx, Hx'; simplify_eq; [by eapply Hsep| |].
    + apply blocks_apart_sym. by eapply Hsep.
    + eapply (bo_apart _ _ HI _ _ _ _ _ _ _ _ Hi Hi Hx Hx'). congruence.
  - destruct k as [|k]; cbn in Hx; simplify_eq; [by eapply Hsep|].
    eapply (bo_apart _ _ HI _ _ _ _ _ _ _ _ Hi Hlb Hx Hx'). congruence.
  - destruct k' as [|k']; cbn in Hx'; simplify_eq; [apply blocks_apart_sym; by eapply Hsep|].
    eapply (bo_apart _ _ HI _ _ _ _ _ _ _ _ Ha Hi Hx Hx'). congruence.
  - exact (bo_apart _ _ HI _ _ _ _ _ _ _ _ Ha Hlb Hx Hx' Hne).
Qed.

(** The compare-and-swap succeeds. *)
Lemma boot_claim m e g y ls i bs todo turns size o :
  boot_inv (St m e (g, y)) ls -> o = g_bootstrap_offset g -> boot_total size <= AO_BOOTSTRAP_HEAP_SIZE - o ->
  ls !! i = Some (Claimer bs false (Some o) (size :: todo) turns) ->
  boot_inv (St m e (set_bootstrap_offset (o + boot_total size) g, y))
    (<[i := Claimer ((g_bootstrap_heap + o + SIZEOF_BOOTSTRAP_HEADER, size) :: bs) true None todo limit]> ls).
Proof.
  intros HI Ho Hfit Hi. pose proof (bo_requests _ _ HI i _ Hi) as Hr. cbn [c_todo] in Hr.
  apply list.Forall_cons in Hr as [Hsize Hr]. destruct (boot_total_spec size Hsize) as [Ht Hal].
  set (l' := Claimer _ true None todo limit).
  assert (HW : all_waiting (<[i := l']> ls) = all_waiting ls - 1).
  { unfold all_waiting. rewrite (zsum_map_insert _ ls i _ l' Hi). unfold waiting. cbn [c_todo l' length]. lia. }
  assert (Hnew : forall j lj b, ls !! j = Some lj -> b ∈ c_blocks lj ->
    b.1 + b.2 <= g_bootstrap_heap + o).
  { intros j lj b Hj Hb. destruct (bo_in _ _ HI j lj b Hj Hb) as (_ & _ & H). cbn [fst ext] in H. by rewrite <- Ho in H. }
  pose proof (bo_ok _ _ HI) as (Hb0 & Hend & Hmap & Hoff & Hmod). pose proof (bo_start _ _ HI). cbn [fst snd ext mem] in *.
  pose proof (bo_limit _ _ HI).
  split; cbn [fst snd ext mem set_bootstrap_offset g_bootstrap_offset]; rewrite ?HW.
  - unfold boot_ok. cbn. split_and!; [done|done|done|unfold SIZEOF_BOOTSTRAP_HEADER, boot_request in *; lia| |].
    + unfold AO_BOOTSTRAP_HEAP_SIZE in *. lia.
    + rewrite Z.add_mod, Hal, Ho by done. by rewrite Z.add_0_r, Z.mod_mod, Hmod.
  - unfold SIZEOF_BOOTSTRAP_HEADER, boot_request in *. lia.
  - intros j lj b Hj Hb. at_insert Hj.
    + cbn [c_blocks] in Hb. apply elem_of_cons in Hb as [->|Hb].
      * cbn [fst snd]. unfold boot_request in *. lia.
      * destruct (bo_in _ _ HI i _ b Hi Hb) as (? & ? & ?). cbn [fst ext] in *.
        unfold boot_request, SIZEOF_BOOTSTRAP_HEADER in *. lia.
    + destruct (bo_in _ _ HI j lj b Hj Hb) as (? & ? & ?). cbn [fst ext] in *.
      unfold boot_request, SIZEOF_BOOTSTRAP_HEADER in *. lia.
  - apply (boot_claim_apart _ _ i _ l' _ HI Hi eq_refl). intros j lj b Hj Hb. pose proof (Hnew j lj b Hj Hb).
    unfold SIZEOF_BOOTSTRAP_HEADER. cbn [fst]. lia.
  - intros j lj b Hj Hb. at_insert Hj; [|by eapply (bo_header _ _ HI)]. by apply (bo_header _ _ HI i _ b Hi).
  - intros j lj Hj. at_insert Hj; [done|]. by eapply (bo_requests _ _ HI).
  - lia.
  - intros j lj Hj. at_insert Hj; [unfold waiting; cbn [c_todo c_turns]; lia|]. pose proof (bo_turns _ _ HI j lj Hj). lia.
  - intros j lj o' Hj Hs. at_insert Hj. destruct (bo_seen _ _ HI j lj o' Hj Hs) as [Hold Hlost]. cbn [fst ext] in Hold, Hlost.
    pose proof (bo_turns _ _ HI j lj Hj). unfold boot_request, SIZEOF_BOOTSTRAP_HEADER in *. lia.
  - intros Hf. pose proof (bo_fits _ _ HI Hf) as Hold. cbn [fst ext] in Hold. unfold all_needed in *.
    rewrite (zsum_map_insert _ ls i _ l' Hi). cbn [c_todo l'].
    change (needed (size :: todo)) with (boot_total size + needed todo). lia.
  - intros j lj sizes Hj Hs. at_insert Hj; [|by eapply (bo_served _ _ HI)].
    pose proof (bo_served _ _ HI i _ sizes Hi Hs) as Hold. cbn [c_blocks c_todo map rev snd] in *.
    by rewrite <- app_assoc.
Qed.

(** The header of the newest block is written. *)
Lemma boot_settle m e g y ls i b bs todo turns :
  boot_inv (St m e (g, y)) ls -> ls !! i = Some (Claimer (b :: bs) true None todo turns) ->
  mapped m (b.1 - SIZEOF_BOOTSTRAP_HEADER) 8 /\
  boot_inv (St (write m (b.1 - SIZEOF_BOOTSTRAP_HEADER) (le_encode 8 b.2)) e (g, y))
    (<[i := Claimer (b :: bs) false None todo turns]> ls).
Proof.
  intros HI Hi. pose proof (bo_ok _ _ HI) as (Hb0 & Hend & Hmap & Hoff & Hmod). pose proof (bo_start _ _ HI).
  destruct (bo_in _ _ HI i _ b Hi) as (Hlow & Hsize & Hhigh); [by left|]. cbn [fst snd ext mem] in *.
  pose proof (bo_apart _ _ HI i) as Hapart.
  assert (HW : forall l', waiting l' = Z.of_nat (length todo) -> all_waiting (<[i := l']> ls) = all_waiting ls).
  { intros l' Hl'. unfold all_waiting. rewrite (zsum_map_insert _ ls i _ l' Hi), Hl'. unfold waiting. cbn [c_todo]. lia. }
  split; [unfold AO_BOOTSTRAP_HEAP_SIZE, SIZEOF_BOOTSTRAP_HEADER in *; eapply mapped_sub; [exact Hmap|lia..]|].
  assert (Hframe : forall j lj b' k, ls !! j = Some lj -> c_blocks lj !! k = Some b' -> (i, 0%nat) <> (j, k) ->
    holds m (b'.1 - SIZEOF_BOOTSTRAP_HEADER) (le_encode 8 b'.2) ->
    holds (write m (b.1 - SIZEOF_BOOTSTRAP_HEADER) (le_encode 8 b.2)) (b'.1 - SIZEOF_BOOTSTRAP_HEADER) (le_encode 8 b'.2)).
  { intros j lj b' k Hj Hk Hne Hh. apply holds_write_other; [|done]. rewrite !length_le_encode.
    assert (0 <= b'.2) by (apply (bo_in _ _ HI j lj b' Hj); by eapply list_elem_of_lookup_2).
    destruct (Hapart j _ lj 0%nat k b b' Hi Hj eq_refl Hk Hne); unfold SIZEOF_BOOTSTRAP_HEADER in *; lia. }
  split; cbn [fst snd ext mem]; rewrite ?HW by done.
  - unfold boot_ok. cbn. split_and!; [done..| |lia|lia|done]. by apply mapped_write.
  - done.
  - intros j lj b' Hj Hin. at_insert Hj; [by apply (bo_in _ _ HI i _ b' Hi)|by eapply (bo_in _ _ HI)].
  - intros c d lc ld k k' x x' Hc Hd. at_insert Hc; at_insert Hd.
    + by apply (bo_apart _ _ HI i i _ _ k k' x x' Hi Hi).
    + by apply (bo_apart _ _ HI i d _ _ k k' x x' Hi Hd).
    + by apply (bo_apart _ _ HI c i _ _ k k' x x' Hc Hi).
    + by apply (bo_apart _ _ HI c d _ _ k k' x x' Hc Hd).
  - intros j lj b' Hj Hin. at_insert Hj; cbn in Hin.
    + apply elem_of_cons in Hin as [->|Hin]; [apply holds_write|].
      pose proof (bo_header _ _ HI i _ b' Hi Hin) as Hh. apply list_elem_of_lookup_1 in Hin as [k Hk].
      by apply (Hframe i _ b' (S k) Hi Hk).
    + pose proof (bo_header _ _ HI j lj b' Hj Hin) as Hh.
      assert (Hin' : b' ∈ c_blocks lj).
      { unfold settled in Hin. destruct (c_pending lj); [|done]. destruct (c_blocks lj); [done|by right]. }
      apply list_elem_of_lookup_1 in Hin' as [k Hk]. apply (Hframe j lj b' k Hj Hk); [congruence|done].
  - intros j lj Hj. at_insert Hj; [by apply (bo_requests _ _ HI i _ Hi)|by eapply (bo_requests _ _ HI)].
  - apply HI.
  - intros j lj Hj. at_insert Hj; [by apply (bo_turns _ _ HI i _ Hi)|by eapply (bo_turns _ _ HI)].
  - intros j lj o Hj Hs. at_insert Hj. by apply (bo_seen _ _ HI j lj).
  - intros Hf. unfold all_needed. rewrite (zsum_map_insert _ ls i _ _ Hi). cbn [c_todo].
    pose proof (bo_fits _ _ HI Hf). unfold all_needed in *. cbn [fst ext] in *. lia.
  - intros j lj sizes Hj Hs. at_insert Hj; [by apply (bo_served _ _ HI i _ sizes Hi)|by eapply (bo_served _ _ HI)].
Qed.

End Invariant.

(** ** The programs keep it *)

(** How often a compare-and-swap fails for no reason. *)
Definition failures (spurious : list bool) : Z := zsum (map Z.b2z spurious).

Lemma failures_nonneg spurious : 0 <= failures spurious.
Proof. induction spurious as [|b sp IH]; [done|]. change (0 <= Z.b2z b + failures sp). destruct b; cbn; lia. Qed.

Section Clients.
Context {Y : Type} `{!Platform Y}.
Context (start limit : Z) (asked : list (list Z)) (fits : Prop).

Abbreviation inv := (boot_inv (Y := Y) start limit asked fits).
Definition boot_safe {A} (Q : A -> claimer -> Prop) : prog (globals * Y) A -> claimer -> Prop :=
  safe inv (fun _ => False) (fun _ => False) Q.

(** What a thread knows when the loop is over. *)
Definition claimed (bs : list (Z * Z)) (size : Z) (todo : list Z) (r : option Z) (l : claimer) : Prop :=
  match r with
  | Some o => 0 < g_bootstrap_heap + o + SIZEOF_BOOTSTRAP_HEADER /\
      l = Claimer ((g_bootstrap_heap + o + SIZEOF_BOOTSTRAP_HEADER, size) :: bs) true None todo limit
  | None => l = Claimer bs false None todo limit
  end.

Lemma cas_safe fuel spurious bs size todo turns o :
  0 <= o -> boot_total size <= AO_BOOTSTRAP_HEAP_SIZE - o -> boot_request size ->
  (forall sp turns', turns' + failures sp < turns + failures spurious ->
     boot_safe (claimed bs size todo) (cas_loop fuel sp (boot_total size)) (Claimer bs false None (size :: todo) turns')) ->
  boot_safe (claimed bs size todo)
    (atom* ok := (if default false (head spurious) then ret false else cas_offset o (u64 (o + boot_total size))) in
     if ok then Done (Some o) else cas_loop fuel (tail spurious) (boot_total size))
    (Claimer bs false (Some o) (size :: todo) turns).
Proof.
  intros Ho Hfit Hsize Hrec [m e [g y]] ls i Hi HI. destruct (boot_total_spec size Hsize) as [Ht _].
  unfold AO_BOOTSTRAP_HEAP_SIZE, SIZEOF_BOOTSTRAP_HEADER in Hfit, Ht. unfold boot_request in Hsize.
  assert (Hlost : forall sp turns', turns' + failures sp < turns + failures spurious ->
    all_waiting ls - waiting (Claimer bs false (Some o) (size :: todo) turns) <= turns' ->
    exists l', inv (St m e (g, y)) (<[i := l']> ls) /\
      boot_safe (claimed bs size todo) (cas_loop fuel sp (boot_total size)) l').
  { intros sp turns' Hlt Hle. eexists. split; [|by apply (Hrec sp turns')].
    eapply boot_look; [exact HI|exact Hi|..]; try done; by left. }
  pose proof (bo_turns _ _ _ _ _ _ HI i _ Hi) as Hturns. cbn [c_turns] in Hturns.
  pose proof (others_nonneg _ _ _ _ _ _ _ _ HI Hi).
  assert (Hcas : forall sp, failures sp <= failures spurious ->
    match cas_offset o (u64 (o + boot_total size)) (St m e (g, y)) with
    | Ret (ok, s') => exists l', inv s' (<[i := l']> ls) /\
        boot_safe (claimed bs size todo) (if ok then Done (Some o) else cas_loop fuel sp (boot_total size)) l'
    | _ => False
    end).
  { intros sp Hsp. unfold cas_offset, get_globals, mod_globals, bind, ret. cbn [fst snd ext mem errno].
    destruct (Z.eqb_spec (g_bootstrap_offset g) o) as [Heq|Hne].
    - rewrite u64_small by (unfold SIZE_MAX; lia). eexists. split; [by eapply boot_claim|].
      split; [|done]. pose proof (bo_ok _ _ _ _ _ _ HI) as [Hb _]. unfold SIZEOF_BOOTSTRAP_HEADER. lia.
    - destruct (bo_seen _ _ _ _ _ _ HI i _ o Hi eq_refl) as [_ [?|Hlt]]; [done|]. cbn [c_turns] in Hlt.
      apply (Hlost sp (turns - 1)); lia. }
  destruct spurious as [|[] sp]; cbn [head default from_option id tail].
  - specialize (Hcas [] ltac:(done)). by destruct (cas_offset _ _ _) as [[]| | |].
  - apply (Hlost sp turns); [|done]. change (failures (true :: sp)) with (1 + failures sp). lia.
  - specialize (Hcas sp ltac:(done)). by destruct (cas_offset _ _ _) as [[]| | |].
Qed.

Lemma cas_loop_safe fuel spurious bs size todo turns :
  boot_request size -> turns + failures spurious < Z.of_nat fuel ->
  boot_safe (claimed bs size todo) (cas_loop fuel spurious (boot_total size)) (Claimer bs false None (size :: todo) turns).
Proof.
  intros Hsize. revert spurious turns. induction fuel as [|fuel IH]; intros spurious turns Hf [m e [g y]] ls i Hi HI.
  { pose proof (others_nonneg _ _ _ _ _ _ _ _ HI Hi). pose proof (bo_turns _ _ _ _ _ _ HI i _ Hi) as Ht.
    pose proof (failures_nonneg spurious). cbn [c_turns] in Ht. lia. }
  pose proof (bo_turns _ _ _ _ _ _ HI i _ Hi) as Hturns. cbn [c_turns] in Hturns.
  destruct (bo_ok _ _ _ _ _ _ HI) as (_ & _ & _ & Hoff & _). pose proof (bo_start _ _ _ _ _ _ HI) as Hst.
  pose proof (fun Hfits => fits_here _ _ _ _ _ _ _ _ _ _ HI Hi eq_refl Hfits) as Hfull. cbn [fst snd ext] in *.
  destruct (boot_total_spec size Hsize) as [Ht _]. unfold boot_request in Hsize.
  unfold load_offset, get_globals, bind, ret. cbn [fst snd ext mem errno].
  exists (Claimer bs false (Some (g_bootstrap_offset g)) (size :: todo) turns). split.
  { eapply boot_look; [exact HI|exact Hi|..]; try done; [by left|]. intros o [= <-]. cbn [fst ext]. lia. }
  unfold AO_BOOTSTRAP_HEAP_SIZE, SIZEOF_BOOTSTRAP_HEADER, SIZE_MAX in *. rewrite (u64_small (_ - _)) by (unfold SIZE_MAX; lia).
  destruct (Z.ltb_spec (64 * 1024) (g_bootstrap_offset g)); [lia|]. cbn [orb].
  destruct (Z.ltb_spec (64 * 1024 - g_bootstrap_offset g) (boot_total size)) as [Hlt|Hge].
  - intros s' ls' j Hj HI'. unfold set_errno. exists (Claimer bs false None todo limit). split; [|done].
    pose proof (bo_limit _ _ _ _ _ _ HI'). pose proof (others_nonneg _ _ _ _ _ _ _ _ HI' Hj).
    eapply boot_look; [exact HI'|exact Hj|..]; try done.
    + right. split; [intros Hfits; specialize (Hfull Hfits); lia|by exists size].
    + unfold waiting in *. cbn [c_todo c_turns length] in *. lia.
  - apply cas_safe; [lia|unfold AO_BOOTSTRAP_HEAP_SIZE; lia|done|]. intros sp turns' Hlt. apply IH. lia.
Qed.

(** A request is answered by a block, or refused. *)
Definition answered (bs : list (Z * Z)) (size : Z) (todo : list Z) (p : Z) (l : claimer) : Prop :=
  if p =? 0 then l = Claimer bs false None todo limit else l = Claimer ((p, size) :: bs) false None todo limit.

Lemma bootstrap_alloc_safe fuel spurious bs size todo :
  boot_request size -> limit + failures spurious < Z.of_nat fuel ->
  boot_safe (answered bs size todo) (bootstrap_alloc_prog fuel spurious size) (Claimer bs false None (size :: todo) limit).
Proof.
  intros Hsize Hf. unfold bootstrap_alloc_prog. eapply safe_pbind; [by apply cas_loop_safe|].
  intros [o|] l; [|intros ->; done]. intros [Hpos ->] [m e [g y]] ls i Hi HI.
  destruct (boot_settle _ _ _ _ _ _ _ _ _ _ _ _ _ _ HI Hi) as [Hmap HI']. cbn [fst snd] in Hmap, HI'.
  replace (g_bootstrap_heap + o + SIZEOF_BOOTSTRAP_HEADER - SIZEOF_BOOTSTRAP_HEADER)
    with (g_bootstrap_heap + o) in Hmap, HI' by lia.
  pose proof (wp_store_u64 (fun _ => False) (g_bootstrap_heap + o) size
    (fun _ s' => s' = St (write m (g_bootstrap_heap + o) (le_encode 8 size)) e (g, y)) (St m e (g, y)) Hmap eq_refl) as Hw.
  unfold wp in Hw. destruct (store_u64 _ _ _) as [[[] s']| | |]; [|done..].
  cbn beta in Hw. subst s'.
  eexists. split; [exact HI'|]. unfold answered. cbn. destruct (Z.eqb_spec (g_bootstrap_heap + o + SIZEOF_BOOTSTRAP_HEADER) 0); [lia|done].
Qed.

Definition boot_done (got : list (Z * Z)) (l : claimer) : Prop := l = Claimer got false None [] limit.

Lemma boot_client_safe fuel rs got :
  Forall (fun r => boot_request r.1 /\ limit + failures r.2 < Z.of_nat fuel) rs ->
  boot_safe boot_done (boot_client fuel rs got) (Claimer got false None (map fst rs) limit).
Proof.
  intros H. revert got. induction H as [|[size sp] rs [Hs Hf] _ IH]; intros got; [done|]. cbn [boot_client map fst snd] in *.
  eapply safe_pbind; [by apply bootstrap_alloc_safe|]. intros p l Hp. unfold answered in Hp.
  destruct (p =? 0); subst l; apply IH.
Qed.

End Clients.

(** ** Threads *)

Section Props.
Context {Y : Type} `{!Platform Y}.
Context (fuel : nat) (rss : list (list (Z * list bool))) (s : st (globals * Y)).

Definition boot_clients : list (prog (globals * Y) (list (Z * Z))) := map (fun rs => boot_client fuel rs []) rss.

(** The requests of all threads, and the bytes they need. *)
Definition all_requests : Z := zsum (map (fun rs => Z.of_nat (length rs)) rss).
Definition all_fit : Prop :=
  g_bootstrap_offset (fst (ext s)) + zsum (map (fun rs => needed (map fst rs)) rss) <= AO_BOOTSTRAP_HEAP_SIZE.

(** Sizes that [size_t] can hold with their header, and a turn of the loop for every
    request and every spurious failure. *)
Record boot_start : Prop := {
  bs_ok : boot_ok s;
  bs_requests : Forall (Forall (fun r => boot_request r.1 /\ all_requests + failures r.2 < Z.of_nat fuel)) rss
}.

(** What the threads hold when they are done. *)
Record boot_end (gots : list (list (Z * Z))) (s' : st (globals * Y)) : Prop := {
  be_ok : boot_ok s';
  be_in i got b : gots !! i = Some got -> b ∈ got ->
    g_bootstrap_heap + g_bootstrap_offset (fst (ext s)) + SIZEOF_BOOTSTRAP_HEADER <= b.1 /\
    b.1 + b.2 <= g_bootstrap_heap + g_bootstrap_offset (fst (ext s'));
  be_apart i j got got' k k' b b' : gots !! i = Some got -> gots !! j = Some got' ->
    got !! k = Some b -> got' !! k' = Some b' -> (i, k) <> (j, k') -> blocks_apart b b';
  be_header i got b : gots !! i = Some got -> b ∈ got ->
    holds (mem s') (b.1 - SIZEOF_BOOTSTRAP_HEADER) (le_encode 8 b.2);
  be_served i got rs : gots !! i = Some got -> rss !! i = Some rs ->
    sublist (rev (map snd got)) (map fst rs) /\ (all_fit -> rev (map snd got) = map fst rs)
}.

Abbreviation offset0 := (g_bootstrap_offset (fst (ext s))).
Abbreviation binv := (boot_inv offset0 all_requests (map (map fst) rss) all_fit).
Abbreviation bpool := (pool_safe binv (fun _ => False) (fun _ => False) (boot_done all_requests)).

Lemma boot_clients_safe : boot_start -> bpool boot_clients s.
Proof.
  intros [Hok Hr]. exists (map (fun rs => Claimer [] false None (map fst rs) all_requests) rss).
  assert (Hat : forall i l, map (fun rs => Claimer [] false None (map fst rs) all_requests) rss !! i = Some l ->
    exists rs, rss !! i = Some rs /\ l = Claimer [] false None (map fst rs) all_requests).
  { intros i l Hl. apply list_lookup_fmap_Some in Hl as (rs & ? & ?). by exists rs. }
  assert (HW : all_waiting (map (fun rs => Claimer [] false None (map fst rs) all_requests) rss) = all_requests).
  { unfold all_waiting, all_requests. f_equal. rewrite <- list_fmap_compose. apply list_fmap_ext.
    intros i rs _. unfold waiting. cbn. by rewrite length_map. }
  split; [|unfold boot_clients; clear Hat HW; revert Hr].
  - split; rewrite ?HW; try done.
    + destruct Hok as (_ & _ & _ & ? & _). lia.
    + intros i l b Hl Hb. destruct (Hat i l Hl) as (rs & _ & ->). by apply not_elem_of_nil in Hb.
    + intros i j l l' k k' b b' Hl _ Hb. by destruct (Hat i l Hl) as (rs & _ & ->).
    + intros i l b Hl Hb. destruct (Hat i l Hl) as (rs & _ & ->). by apply not_elem_of_nil in Hb.
    + intros i l Hl. destruct (Hat i l Hl) as (rs & Hrs & ->). apply (Forall_lookup_1 _ _ _ _ Hr) in Hrs.
      apply Forall_map. revert Hrs. apply Forall_impl. by intros ? [].
    + intros i l Hl. destruct (Hat i l Hl) as (rs & _ & ->). unfold waiting. cbn [c_turns c_todo]. lia.
    + intros i l o Hl Ho. by destruct (Hat i l Hl) as (rs & _ & ->).
    + unfold all_fit, all_needed. by rewrite <- list_fmap_compose.
    + intros i l sizes Hl Hs. destruct (Hat i l Hl) as (rs & Hrs & ->).
      rewrite list_lookup_fmap, Hrs in Hs. by injection Hs as <-.
  - intros Hr. apply Forall2_fmap_2, Forall_Forall2_diag. revert Hr. apply Forall_impl. intros rs Hrs.
    by apply boot_client_safe.
Qed.

Lemma boot_clients_end gots s' : bpool (map Done gots) s' -> boot_end gots s'.
Proof.
  intros (ls & HI & HF).
  assert (Hat : forall i got, gots !! i = Some got -> ls !! i = Some (Claimer got false None [] all_requests)).
  { intros i got Hi. assert (Hd : map (@Done (globals * Y) (list (Z * Z))) gots !! i = Some (Done got))
      by (rewrite list_lookup_fmap; by rewrite Hi).
    by destruct (Forall2_lookup_l _ _ _ _ _ HF Hd) as (l & Hl & ->). }
  split.
  - apply HI.
  - intros i got b Hi Hb. by destruct (bo_in _ _ _ _ _ _ HI i _ b (Hat i got Hi) Hb) as (? & _ & ?).
  - intros i j got got' k k' b b' Hi Hj. exact (bo_apart _ _ _ _ _ _ HI _ _ _ _ _ _ _ _ (Hat i got Hi) (Hat j got' Hj)).
  - intros i got b Hi Hb. by apply (bo_header _ _ _ _ _ _ HI i _ b (Hat i got Hi)).
  - intros i got rs Hi Hrs. pose proof (bo_served _ _ _ _ _ _ HI i _ (map fst rs) (Hat i got Hi)) as H.
    cbn [c_blocks c_todo] in H. rewrite app_nil_r in H. apply H. rewrite list_lookup_fmap. by rewrite Hrs.
Qed.

(** C13: threads that allocate from the bootstrap heap at the same time all get their
    answers under every fair schedule: the compare-and-swap loop loses a turn only when
    another thread claims a block or for one of the spurious failures.  The blocks lie in
    the array after the blocks of the start, any two are apart with their headers, whoever
    got them; each header holds the size; a thread gets blocks of the sizes it asked for,
    in that order, and none is refused when all fit. *)
Theorem bootstrap_threads_end sched :
  boot_start -> fair (length rss) sched ->
  exists n, wp (fun _ => False) (run (slice sched 0 n) boot_clients)
    (fun ps s' => exists gots, ps = map Done gots /\ boot_end gots s') s.
Proof.
  intros H HF. destruct (run_ends binv (fun _ => False) (fun _ => False) (boot_done all_requests)
    (fun _ _ _ Hh => Hh) sched 0 boot_clients s) as [n Hn].
  - by apply boot_clients_safe.
  - unfold boot_clients. by rewrite length_map.
  - exists n. eapply wp_mono; [exact Hn|]. intros ps s' [Hd HP]. destruct (all_done_results ps Hd) as [gots ->].
    exists gots. split; [done|]. by apply boot_clients_end.
Qed.

End Props.

(** ** Two threads *)

Definition two_requests : list (list (Z * list bool)) := [[(24, [true]); (100, [])]; [(8, [false; true])]].

Lemma two_requests_start : boot_start 5 two_requests simple_start.
Proof.
  split; [apply simple_boot_ok|]. repeat constructor; unfold boot_request, SIZE_MAX, SIZEOF_BOOTSTRAP_HEADER; cbn; lia.
Qed.

Definition boot_result (p : prog (globals * arena) (list (Z * Z))) : option (list (Z * Z)) :=
  match p with Done got => Some got | Atom _ _ => None end.

(** Both threads read the offset; the second claims first, so the first loses a turn
    (after a spurious failure) and gets a later block. *)
Example two_requests_run :
  match run ([0; 0; 0; 1; 1; 1] ++ replicate 8 0)%nat (boot_clients 5 two_requests) simple_start with
  | Ret (ps, s') =>
      map boot_result ps = [Some [(4096 + 64 + 96 + 48, 100); (4096 + 64 + 48, 24)]; Some [(4096 + 48, 8)]] /\
      g_bootstrap_offset (fst (ext s')) = 64 + 96 + 160
  | _ => False
  end.
Proof. vm_compute. by split_and!. Qed.

Lemma bootstrap_threads_end_witness :
  exists n, wp (fun _ => False) (run (slice round_robin 0 n) (boot_clients 5 two_requests))
    (fun ps s' => exists gots, ps = map Done gots /\ boot_end two_requests simple_start gots s') simple_start.
Proof. exact (bootstrap_threads_end 5 two_requests simple_start round_robin two_requests_start round_robin_fair). Defined.
