(* ===== verification/Strings.v ===== *)
(** * String duplication and CPU sets (src/string_overrides.c, src/sched_overrides.c)

    [strdup], [strndup], [wcsdup] and [__sched_cpualloc] against the allocator
    interface. *)
From S2P Require Import Prelude CMem CCmd CLib Alloc SimpleHeap Registry MockState Bootstrap MockAllocator MockSpec MockRun SimplePlatform.

Section Definitions.
Context {X : Type} `{!Allocator X}.

Definition strdup (s : Z) : C X Z :=
  let* len := strlen s in
  let* dup := al_malloc (u64 (len + 1)) in
  if dup =? 0 then ret 0 else memcpy dup s (u64 (len + 1)).

Definition strndup (s n : Z) : C X Z :=
  let* len := strnlen s n in
  let* dup := al_malloc (u64 (len + 1)) in
  if dup =? 0 then ret 0
  else
    do* memcpy dup s len in
    do* store_byte (dup + len) 0 in
    ret dup.

Definition wcsdup (s : Z) : C X Z :=
  let* len := wcslen s in
  let* dup := al_malloc (u64 (u64 (len + 1) * WCHAR_SIZE)) in
  if dup =? 0 then ret 0 else wmemcpy dup s (u64 (len + 1)).

(** [sizeof(unsigned long)] is 8. *)
Definition ao_cpu_alloc_size (count : Z) : Z :=
  u64 (8 * u64 (count / u64 (8 * 8) +
                u64 (u64 (count `mod` u64 (8 * 8) + u64 (8 * 8)) - 1) / u64 (8 * 8))).

Definition __sched_cpualloc (count : Z) : C X Z := al_malloc (ao_cpu_alloc_size count).

End Definitions.

(** ** The duplicate of an object *)

(** [p] is a new block of [n] bytes in what was free, whose contents are [bs];
    everything that was mapped is as before, and the block is the only new one. *)
Definition new_block {X} `{!Allocator X} `{!AllocatorLaws X} (s : st X) (n : Z) (bs : list Z)
    (p : Z) (s' : st X) : Prop :=
  good_block p n /\ al_live (ext s') = <[p := n]> (al_live (ext s)) /\
  al_live (ext s) !! p = None /\ (forall x, p <= x < p + n -> mem s !! x = None) /\
  holds (mem s') p bs /\
  forall a b, mem s !! a = Some b -> mem s' !! a = Some b.

(** The outcome of a function that returns a copy: null with [ENOMEM] and nothing
    changed, or the copy. *)
Definition dup_post {X} `{!Allocator X} `{!AllocatorLaws X} (s : st X) (n : Z) (bs : list Z)
    (p : Z) (s' : st X) : Prop :=
  al_inv (ext s') (mem s') /\
  ((p = 0 /\ alloc_failed al_live s s') \/ (p <> 0 /\ new_block s n bs p s')).

Section Specs.
Context {X : Type} `{!Allocator X} `{!AllocatorLaws X}.

(** Allocate, then fill by commands that write [bs] in the block: shared by all
    the functions that return a copy. *)
Lemma wp_alloc_fill n bs s (k : Z -> C X Z) :
  al_inv (ext s) (mem s) -> 0 <= n <= SIZE_MAX -> Z.of_nat (length bs) = n ->
  (forall p s1, al_inv (ext s1) (mem s1) -> p <> 0 ->
     allocated (mem s) (al_live (ext s)) p n (mem s1) (al_live (ext s1)) ->
     wp al_exits (k p) (fun q s' => q = p /\ ext s' = ext s1 /\ same_dom (mem s1) (mem s') /\
       same_outside p n (mem s1) (mem s') /\ holds (mem s') p bs) s1) ->
  wp al_exits (let* p := al_malloc n in if p =? 0 then ret 0 else k p) (dup_post s n bs) s.
Proof.
  intros I Hn Hl Hk. apply wp_bind. eapply wp_mono; [by apply al_malloc_ok|].
  intros p s1 [I1 [[-> F]|[Hp A]]].
  { apply wp_ret. split; [done|]. by left. }
  destruct (Z.eqb_spec p 0); [done|]. eapply wp_mono; [by apply Hk|].
  intros q s' (-> & Hx & Hd & Ho & Hb). split; [rewrite Hx; by eapply al_inv_dom|].
  right. split; [done|]. split_and!; try done.
  - apply A.
  - rewrite Hx. apply A.
  - apply A.
  - intros x Hx'. apply (alloc_fresh _ _ _ _ _ _ A). lia.
  - intros a b Hab. rewrite Ho.
    + by eapply allocated_keeps.
    + intros Ha. by rewrite (alloc_fresh _ _ _ _ _ _ A) in Hab by lia.
Qed.

(** Filling the new block by one copy. *)
Lemma wp_copy_into p n m live s1 src bs :
  allocated m live p n (mem s1) (al_live (ext s1)) ->
  holds m src bs -> Z.of_nat (length bs) = n ->
  wp al_exits (memcpy p src n) (fun q s' => q = p /\ ext s' = ext s1 /\
    same_dom (mem s1) (mem s') /\ same_outside p n (mem s1) (mem s') /\ holds (mem s') p bs) s1.
Proof.
  intros A Hb Hl. pose proof (alloc_mapped _ _ _ _ _ _ A) as Hm.
  eapply wp_memcpy; [by eapply allocated_holds|done|done| |].
  - destruct (decide (n = 0)); [by right; right|].
    destruct (allocated_apart _ _ _ _ _ _ src n A); [|lia|lia..].
    rewrite <- Hl. by apply holds_mapped.
  - cbn. split_and!; [done|done| | |apply holds_write].
    + apply same_dom_write. by rewrite Hl.
    + rewrite <- Hl. apply same_outside_write.
Qed.

Lemma strdup_wp a cs s :
  al_inv (ext s) (mem s) -> cstring (mem s) a cs -> Z.of_nat (length cs) < SIZE_MAX ->
  wp al_exits (strdup a) (dup_post s (Z.of_nat (length cs) + 1) (cs ++ [0])) s.
Proof.
  intros I Hs Hl. unfold strdup. eapply wp_bind, wp_strlen; [done|].
  rewrite u64_small by lia.
  assert (Hlen : Z.of_nat (length (cs ++ [0])) = Z.of_nat (length cs) + 1)
    by (rewrite length_app; cbn [length]; lia).
  apply wp_alloc_fill; [done|lia|done|]. intros p s1 _ _ A.
  eapply wp_copy_into; [done|apply Hs|done].
Qed.

Lemma strndup_wp a n cs s :
  al_inv (ext s) (mem s) -> 0 <= n <= SIZE_MAX ->
  holds (mem s) a (take (Z.to_nat n) (cs ++ [0])) -> Forall (fun c => c <> 0) cs ->
  Z.of_nat (length cs) < SIZE_MAX ->
  wp al_exits (strndup a n)
    (dup_post s (Z.min n (Z.of_nat (length cs)) + 1) (take (Z.to_nat n) cs ++ [0])) s.
Proof.
  intros I Hn Hs HF Hl. unfold strndup. eapply wp_bind, wp_strnlen; [lia|done|done|].
  rewrite u64_small by lia. set (len := Z.min n _).
  assert (Hlen : Z.of_nat (length (take (Z.to_nat n) cs)) = len) by (rewrite length_take; lia).
  apply wp_alloc_fill; [done|lia|rewrite length_app; cbn [length]; lia|].
  intros p s1 _ Hp A.
  assert (Hsrc : holds (mem s) a (take (Z.to_nat n) cs)).
  { replace (take (Z.to_nat n) cs) with (take (Z.to_nat len) (take (Z.to_nat n) (cs ++ [0]))).
    - by apply holds_take.
    - rewrite take_take. rewrite take_app_le by lia. unfold len.
      destruct (Z.min_spec n (Z.of_nat (length cs))) as [[? ->]|[? ->]].
      + f_equal. lia.
      + rewrite !take_ge by lia. done. }
  pose proof (alloc_mapped _ _ _ _ _ _ A) as Hm.
  apply wp_bind. eapply wp_memcpy; [by eapply allocated_holds|done| | |].
  - eapply mapped_sub; [exact Hm|lia..].
  - destruct (decide (len = 0)); [by right; right|].
    destruct (allocated_apart _ _ _ _ _ _ a len A); [|lia|lia..].
    rewrite <- Hlen. by apply holds_mapped.
  - set (m2 := write (mem s1) p _).
    assert (Hd : same_dom (mem s1) m2).
    { apply same_dom_write. rewrite Hlen. eapply mapped_sub; [exact Hm|lia..]. }
    apply wp_bind, wp_store_byte; [apply (Hd (p + len)), Hm; lia|].
    apply wp_ret. cbn. split_and!; [done|done| | |].
    + etransitivity; [exact Hd|]. apply same_dom_write. rewrite <- Hd.
      eapply mapped_sub; [exact Hm|cbn; lia..].
    + intros x Hx. rewrite lookup_write_out by (cbn; lia).
      apply lookup_write_out. lia.
    + apply holds_app. split; [|rewrite Hlen; apply holds_write].
      apply holds_write_other; [cbn; lia|]. apply holds_write.
Qed.

Lemma wcsdup_wp a ws s :
  al_inv (ext s) (mem s) -> wstring (mem s) a ws ->
  WCHAR_SIZE * (Z.of_nat (length ws) + 1) <= SIZE_MAX ->
  wp al_exits (wcsdup a)
    (dup_post s (WCHAR_SIZE * (Z.of_nat (length ws) + 1)) (wbytes (ws ++ [0]))) s.
Proof.
  intros I Hs Hl. unfold wcsdup. eapply wp_bind, wp_wcslen; [done|].
  pose proof (length_wbytes (ws ++ [0])) as Hlen. rewrite length_app in Hlen. cbn [length] in Hlen.
  unfold WCHAR_SIZE in *. rewrite !u64_small by (rewrite ?u64_small; lia).
  rewrite (Z.mul_comm _ 4). apply wp_alloc_fill; [done|lia|lia|]. intros p s1 _ _ A.
  eapply wp_copy_into; [done|apply Hs|unfold WCHAR_SIZE; lia].
Qed.

Lemma cpu_alloc_size_exact count :
  0 <= count <= SIZE_MAX -> ao_cpu_alloc_size count = 8 * ((count + 63) / 64).
Proof.
  intros H. unfold ao_cpu_alloc_size. change (u64 (8 * 8)) with 64.
  pose proof (Z.mod_pos_bound count 64).
  assert (Hq : 0 <= count / 64 <= SIZE_MAX / 64)
    by (split; [apply Z.div_pos; lia|apply Z.div_le_mono; lia]).
  change (SIZE_MAX / 64) with (2 ^ 58 - 1) in Hq.
  rewrite (u64_small (count mod 64 + 64)) by zlia.
  rewrite (u64_small (count mod 64 + 64 - 1)) by zlia.
  assert (Hr : 0 <= (count mod 64 + 64 - 1) / 64 <= 1) by (Z.div_mod_to_equations; lia).
  rewrite (u64_small (count / 64 + _)) by zlia. rewrite u64_small by zlia.
  f_equal. Z.div_mod_to_equations. lia.
Qed.

End Specs.

(** ** Properties *)

Section Props.
Context {X : Type} `{!Allocator X} `{!AllocatorLaws X}.

(** C17: [strdup] returns null with nothing changed, or a new block of exactly the
    string's length plus one that holds the string and its terminator; the source
    and every other object keep their contents.  [wcsdup] does the same for wide
    strings, four bytes a character. *)
Theorem strdup_copies (s : st X) :
  al_inv (ext s) (mem s) ->
  (forall a cs, cstring (mem s) a cs -> Z.of_nat (length cs) < SIZE_MAX ->
     wp al_exits (strdup a) (dup_post s (Z.of_nat (length cs) + 1) (cs ++ [0])) s) /\
  (forall a ws, wstring (mem s) a ws -> WCHAR_SIZE * (Z.of_nat (length ws) + 1) <= SIZE_MAX ->
     wp al_exits (wcsdup a)
       (dup_post s (WCHAR_SIZE * (Z.of_nat (length ws) + 1)) (wbytes (ws ++ [0]))) s).
Proof. intros I. split; intros a cs Hs Hl; [by apply strdup_wp|by apply wcsdup_wp]. Qed.

(** C18: [strndup] reads at most [n] bytes (the source needs no terminator within
    them) and returns the first [n] characters of the string, terminated, in a
    block of exactly that size. *)
Theorem strndup_copies a n cs (s : st X) :
  al_inv (ext s) (mem s) -> 0 <= n <= SIZE_MAX ->
  holds (mem s) a (take (Z.to_nat n) (cs ++ [0])) -> Forall (fun c => c <> 0) cs ->
  Z.of_nat (length cs) < SIZE_MAX ->
  wp al_exits (strndup a n)
    (dup_post s (Z.min n (Z.of_nat (length cs)) + 1) (take (Z.to_nat n) cs ++ [0])) s.
Proof. apply strndup_wp. Qed.

(** C19: [__sched_cpualloc] allocates the least number of whole 64-bit words that
    hold [count] bits, for every [count] (no intermediate sum wraps around). *)
Theorem sched_cpualloc_words count (s : st X) :
  al_inv (ext s) (mem s) -> 0 <= count <= SIZE_MAX ->
  let words := (count + 63) / 64 in
  (count <= 64 * words < count + 64) /\
  wp al_exits (__sched_cpualloc count) (fun p s' => al_inv (ext s') (mem s') /\
    malloc_post al_live (8 * words) s p s') s.
Proof.
  intros I H words. assert (Hw : count <= 64 * words < count + 64)
    by (unfold words; Z.div_mod_to_equations; lia).
  split; [done|]. unfold __sched_cpualloc. rewrite cpu_alloc_size_exact by done. fold words.
  apply al_malloc_ok; [done|]. zlia.
Qed.

End Props.

(** C20: in front of the mock allocator, [strdup] followed by [free] is balanced:
    the set of tracked blocks is what it was, the invariant holds, and the source
    still holds the string. *)
Theorem strdup_free_balanced {Y} `{!Platform Y} `{!Allocator Y} `{!AllocatorLaws Y}
    `{!PlatformLaws Y} a cs (s : st (globals * Y)) :
  mock_inv (ext s) (mem s) -> cstring (mem s) a cs -> Z.of_nat (length cs) < SIZE_MAX ->
  wp (al_exits (X := globals * Y)) (let* p := strdup a in free p)
    (fun _ s' => mock_inv (ext s') (mem s') /\ tracked (fst (ext s')) = tracked (fst (ext s)) /\
       holds (mem s') a (cs ++ [0])) s.
Proof.
  intros I Hs Hl. apply wp_bind. eapply wp_mono; [by apply strdup_wp|].
  intros p s1 (I1 & [(-> & Hm & Hlv & _)|(Hp & G & Hlv & Hnew & Hfresh & _ & Hkeep)]).
  { apply wp_ret. cbn in Hlv. split_and!; [done|done|]. rewrite Hm. apply Hs. }
  assert (Hp1 : tracked (fst (ext s1)) !! p = Some (Z.of_nat (length cs) + 1)).
  { cbn in Hlv. rewrite Hlv. apply lookup_insert_eq. }
  eapply wp_mono; [exact (al_free_ok (AllocatorLaws := mock_laws) p _ s1 I1 Hp1)|].
  cbn [al_live mock_laws] in *. intros _ s2 [I2 F]. split; [done|]. split.
  - rewrite (freed_live _ _ _ _ _ _ F). cbn in *. by rewrite Hlv, delete_insert_id.
  - destruct Hs as [Hs _]. intros i b Hi. rewrite (freed_frame _ _ _ _ _ _ F); [by apply Hkeep, Hs|].
    intros Hx. specialize (Hs i b Hi). by rewrite Hfresh in Hs.
Qed.

(** ** Witnesses *)

Lemma simple_string : cstring (mem (simple_busy 0)) simple_block [104; 101; 108; 108; 111; 32; 121; 111; 117].
Proof. split; [apply holds_write|]. repeat constructor; discriminate. Qed.

Lemma strndup_copies_witness :
  wp (al_exits (X := globals * arena)) (strndup simple_block 5)
    (dup_post (simple_busy 0) 6 [104; 101; 108; 108; 111; 0]) (simple_busy 0).
Proof.
  apply (strndup_copies simple_block 5 [104; 101; 108; 108; 111; 32; 121; 111; 117]);
    [apply busy_inv|unfold SIZE_MAX; lia| |apply simple_string|cbn; unfold SIZE_MAX; lia].
  apply holds_take, simple_string.
Defined.

(** The wide string of one character [U+4F60]. *)
Definition wide_memory : gmap Z Z := write busy_memory simple_heap_base (wbytes [20320; 0]).

Definition simple_wide : st (globals * arena) := St wide_memory 0 (busy_globals 0, busy_arena).

Lemma simple_wide_inv : mock_inv (busy_globals 0, busy_arena) wide_memory.
Proof.
  unfold wide_memory. apply heap_write_inv; [apply busy_pair_inv|reflexivity|].
  vm_compute. discriminate.
Qed.

Lemma wide_beside_string : cstring wide_memory simple_block [104; 101; 108; 108; 111; 32; 121; 111; 117].
Proof.
  split; [|apply simple_string]. apply holds_write_other; [|apply simple_string]. right. vm_compute. discriminate.
Qed.

Lemma strdup_copies_witness :
  wp (al_exits (X := globals * arena)) (strdup simple_block)
    (dup_post simple_wide 10 [104; 101; 108; 108; 111; 32; 121; 111; 117; 0]) simple_wide /\
  wp (al_exits (X := globals * arena)) (wcsdup simple_heap_base) (dup_post simple_wide 8 (wbytes [20320; 0])) simple_wide.
Proof.
  destruct (strdup_copies simple_wide) as [H1 H2]; [exact simple_wide_inv|]. split.
  - apply (H1 simple_block [104; 101; 108; 108; 111; 32; 121; 111; 117]);
      [exact wide_beside_string|cbn; unfold SIZE_MAX; lia].
  - apply (H2 simple_heap_base [20320]); [|vm_compute; discriminate].
    split; [apply holds_write|]. repeat constructor.
Defined.

Lemma sched_cpualloc_words_witness :
  let words := (65 + 63) / 64 in
  (65 <= 64 * words < 65 + 64) /\
  wp (al_exits (X := globals * arena)) (__sched_cpualloc 65) (fun p s' => al_inv (ext s') (mem s') /\
    malloc_post al_live (8 * words) (simple_busy 0) p s') (simple_busy 0).
Proof. apply sched_cpualloc_words; [apply busy_inv|unfold SIZE_MAX; lia]. Defined.

Lemma strdup_free_balanced_witness :
  wp (al_exits (X := globals * arena)) (let* p := strdup simple_block in free p)
    (fun _ s' => mock_inv (ext s') (mem s') /\
       tracked (fst (ext s')) = tracked (fst (ext (simple_busy 0))) /\
       holds (mem s') simple_block [104; 101; 108; 108; 111; 32; 121; 111; 117; 0]) (simple_busy 0).
Proof.
  apply (strdup_free_balanced simple_block [104; 101; 108; 108; 111; 32; 121; 111; 117]);
    [apply busy_inv|apply simple_string|cbn; unfold SIZE_MAX; lia].
Defined.
