(* ===== verification/Helpers.v ===== *)
(** * Helpers (src/helpers.c)

    [ao_strchrnul] and [ao_randname]; the clock and the thread id are parameters. *)
From Stdlib Require Import Strings.Ascii Strings.String.
From S2P Require Import Prelude CMem CCmd CLib.

(** The real-time clock, as seconds and nanoseconds, and the thread id. *)
Class ClockWorld (X : Type) := {
  clock_gettime : C X (Z * Z);
  gettid : C X Z
}.

Definition char_codes (s : string) : list Z :=
  map (fun c => Z.of_nat (nat_of_ascii c)) (list_ascii_of_string s).

Definition alphabet : list Z :=
  Eval vm_compute in char_codes "ABCDEFGHIJKLMNOPQRSTUVWXYZabcdefghijklmnopqrstuvwxyz0123456789".

Fixpoint strchrnul_loop (fuel : nat) (m : gmap Z Z) (a target : Z) : option Z :=
  match fuel with
  | O => None
  | S fuel' =>
      match m !! a with
      | None => None
      | Some c => if negb (c =? 0) && negb (c =? target) then strchrnul_loop fuel' m (a + 1) target
                  else Some a
      end
  end.

Section Definitions.
Context {X : Type} `{!ClockWorld X}.

(** The conversion of [c] to [unsigned char]. *)
Definition ao_strchrnul (s c : Z) : C X Z :=
  reads (fun m => strchrnul_loop (S (size m)) m s (c `mod` 256)).

Definition next_value (value i : Z) : Z :=
  Z.lxor (Z.lxor (Z.shiftr value 5) (u64 (Z.shiftl value 11))) (u64 (i * 97 + 13)).

(** The [n] turns of the loop from [i]. *)
Fixpoint randname_loop (n : nat) (i : Z) (template_buf value : Z) : C X unit :=
  match n with
  | O => ret tt
  | S n' =>
      match alphabet !! Z.to_nat (value `mod` Z.of_nat (length alphabet)) with
      | None => undef
      | Some c =>
          do* store_byte (template_buf + i) c in
          randname_loop n' (i + 1) template_buf (next_value value i)
      end
  end.

Definition ao_randname (template_buf : Z) : C X unit :=
  let* ' (sec, nsec) := clock_gettime in
  let* tid := gettid in
  let value := Z.lxor (Z.lxor (u64 sec) (u64 nsec)) (u64 (u64 tid * 65537)) in
  randname_loop 6 0 template_buf value.

End Definitions.

Section Specs.
Context {X : Type} `{!ClockWorld X}.

(** Where the search stops: at the first [c], or at the terminator. *)
Fixpoint stop_index (target : Z) (cs : list Z) : Z :=
  match cs with
  | [] => 0
  | c :: cs' => if c =? target then 0 else 1 + stop_index target cs'
  end.

Lemma strchrnul_loop_spec m a cs target fuel :
  cstring m a cs -> (length cs < fuel)%nat ->
  strchrnul_loop fuel m a target = Some (a + stop_index target cs).
Proof.
  intros [H HF]. revert a fuel H. induction HF as [|c cs Hc _ IH]; intros a fuel H Hf;
    (destruct fuel as [|fuel]; [cbn in Hf; lia|]); cbn [strchrnul_loop stop_index app] in *;
    apply holds_cons in H as [Hm H]; rewrite Hm.
  - cbn. f_equal. lia.
  - destruct (Z.eqb_spec c 0); [done|]. destruct (Z.eqb_spec c target); cbn [negb andb].
    + f_equal. lia.
    + rewrite IH; [f_equal; lia|done|cbn in Hf; lia].
Qed.

Lemma wp_strchrnul E a c cs (Q : Z -> st X -> Prop) s :
  cstring (mem s) a cs -> Q (a + stop_index (c `mod` 256) cs) s -> wp E (ao_strchrnul a c) Q s.
Proof.
  intros H HQ. eapply wp_reads; [|exact HQ]. apply strchrnul_loop_spec; [done|].
  pose proof (scan_fuel _ _ _ (proj1 H)) as Hf. rewrite length_app in Hf. cbn in Hf. lia.
Qed.

Lemma stop_index_bounds target cs : 0 <= stop_index target cs <= Z.of_nat (length cs).
Proof. induction cs as [|c cs IH]; cbn [stop_index length]; [lia|]. case_cmp; lia. Qed.

(** The alphabet is never left. *)
Lemma alphabet_lookup value :
  exists c, alphabet !! Z.to_nat (value `mod` Z.of_nat (length alphabet)) = Some c.
Proof.
  apply lookup_lt_is_Some_2. change (Z.of_nat (length alphabet)) with 62.
  change (length alphabet) with 62%nat. pose proof (Z.mod_pos_bound value 62). lia.
Qed.

Lemma randname_loop_wp E n i t value (s : st X) :
  mapped (mem s) (t + i) (Z.of_nat n) ->
  wp E (randname_loop n i t value) (fun _ s' => exists cs, length cs = n /\
    Forall (fun c => c ∈ alphabet) cs /\
    s' = St (write (mem s) (t + i) cs) (errno s) (ext s)) s.
Proof.
  revert i value s. induction n as [|n IH]; intros i value s Hm; cbn [randname_loop].
  { apply wp_ret. exists []. rewrite write_nil. by destruct s. }
  destruct (alphabet_lookup value) as [c Hc]. rewrite Hc. apply wp_bind, wp_store_byte; [apply Hm; lia|].
  eapply wp_mono; [apply IH; cbn [mem]|].
  { apply mapped_write. intros x Hx. apply Hm. lia. }
  intros _ s' (cs & Hl & HF & ->). cbn [mem errno ext]. exists (c :: cs).
  split_and!; [cbn; by rewrite Hl|constructor; [by eapply list_elem_of_lookup_2|done]|].
  change (c :: cs) with ([c] ++ cs). rewrite write_app. cbn [length]. do 2 f_equal. lia.
Qed.

(** A clock and a thread id that can be read without any effect but on [errno]. *)
Record quiet_clock : Prop := {
  qc_clock s : wp no_exit clock_gettime (fun _ s' => mem s' = mem s /\ ext s' = ext s) s;
  qc_tid s : wp no_exit gettid (fun _ s' => mem s' = mem s /\ ext s' = ext s) s
}.

Lemma alphabet_nonzero : Forall (fun c => c <> 0) alphabet.
Proof. apply (bool_decide_eq_true _). vm_compute. reflexivity. Qed.

Lemma randname_wp E t (s : st X) :
  quiet_clock -> mapped (mem s) t 6 ->
  wp E (ao_randname t) (fun _ s' => exists cs, length cs = 6%nat /\ Forall (fun c => c ∈ alphabet) cs /\
    mem s' = write (mem s) t cs /\ ext s' = ext s) s.
Proof.
  intros [Hc Ht] Hm. apply wp_bind. eapply wp_mono; [eapply (wp_exits no_exit); [apply Hc|done]|].
  intros [sec nsec] s1 [Hm1 Hx1]. apply wp_bind. eapply wp_mono; [eapply (wp_exits no_exit); [apply Ht|done]|].
  intros tid s2 [Hm2 Hx2]. eapply wp_mono; [apply randname_loop_wp; rewrite Z.add_0_r, Hm2, Hm1; exact Hm|].
  intros ? s' (cs & Hl & HF & ->). exists cs. cbn [mem ext]. rewrite Z.add_0_r.
  split_and!; [done|done|by rewrite Hm2, Hm1|by rewrite Hx2].
Qed.

End Specs.

(** ** Properties *)

(** C39: [ao_randname] replaces exactly the six bytes at its argument by letters and
    digits, whatever the clock and the thread id are: no index leaves the alphabet
    and no other byte changes. *)
Theorem randname_writes_six {X} `{!ClockWorld X} E t sec nsec tid (s s1 s2 : st X) :
  clock_gettime s = Ret ((sec, nsec), s1) -> gettid s1 = Ret (tid, s2) -> mapped (mem s2) t 6 ->
  wp E (ao_randname t) (fun _ s' => exists cs, length cs = 6%nat /\
    Forall (fun c => c ∈ alphabet) cs /\ s' = St (write (mem s2) t cs) (errno s2) (ext s2)) s.
Proof.
  intros H1 H2 Hm. unfold wp, ao_randname. rewrite (bind_ret _ _ _ _ _ H1).
  rewrite (bind_ret _ _ _ _ _ H2).
  pose proof (randname_loop_wp E 6 0 t
    (Z.lxor (Z.lxor (u64 sec) (u64 nsec)) (u64 (u64 tid * 65537))) s2) as H.
  rewrite Z.add_0_r in H. by apply H.
Qed.

(** ** Witness *)

#[local] Instance simple_clock : ClockWorld unit := {
  clock_gettime := ret (1700000000, 123456789);
  gettid := ret 4242
}.

Definition template_start : st unit := St (write ∅ 64 (replicate 6 88)) 0 tt.

Lemma randname_writes_six_witness :
  wp no_exit (ao_randname 64) (fun _ s' => exists cs, length cs = 6%nat /\
    Forall (fun c => c ∈ alphabet) cs /\
    s' = St (write (mem template_start) 64 cs) 0 tt) template_start.
Proof.
  apply (randname_writes_six no_exit 64 1700000000 123456789 4242 template_start template_start template_start);
    [reflexivity|reflexivity|].
  exact (holds_mapped _ _ _ (holds_write ∅ 64 (replicate 6 88))).
Defined.
