(* ===== verification/Stdio.v ===== *)
(** * Formatted output to a new string (src/stdio_overrides.c)

    [vasprintf] and [asprintf] over the C library's [vsnprintf], a parameter: what a
    call of it prints is a hypothesis of the theorems ([prints]). *)
From S2P Require Import Prelude CMem CCmd CLib Alloc SimpleHeap.

(** [vsnprintf], given the destination, its size, the format and the arguments. *)
Class PrintfWorld (X : Type) := { vsnprintf : Z -> Z -> Z -> list Z -> C X Z }.

Section Definitions.
Context {X : Type} `{!Allocator X} `{!PrintfWorld X}.

Definition vasprintf (s fmt : Z) (ap : list Z) : C X Z :=
  let* len := vsnprintf 0 0 fmt ap in
  if len <? 0 then ret (-1)
  else
    let* p := al_malloc (u64 (u64 len + 1)) in
    do* store_u64 s p in
    let* p := load_u64 s in
    if p =? 0 then ret (-1)
    else
      let* p := load_u64 s in
      vsnprintf p (u64 (u64 len + 1)) fmt ap.

Definition asprintf (s fmt : Z) (args : list Z) : C X Z := vasprintf s fmt args.

End Definitions.

Section Specs.
Context {X : Type} `{!Allocator X} `{!AllocatorLaws X} `{!PrintfWorld X}.

(** With the objects [m0] in memory, printing [fmt] with [ap] gives [text]: nothing
    is written without room, and the text with its terminator where there is. *)
Record prints (m0 : gmap Z Z) (fmt : Z) (ap text : list Z) : Prop := {
  pr_length s : m0 ⊆ mem s ->
    wp no_exit (vsnprintf 0 0 fmt ap) (fun r s' => r = Z.of_nat (length text) /\ s' = s) s;
  pr_text p n s : m0 ⊆ mem s -> Z.of_nat (length text) < n -> mapped (mem s) p n ->
    (forall x, p <= x < p + n -> m0 !! x = None) ->
    wp no_exit (vsnprintf p n fmt ap) (fun r s' => r = Z.of_nat (length text) /\
      s' = St (write (mem s) p (text ++ [0])) (errno s) (ext s)) s
}.

(** [vsnprintf] fails: an encoding error. *)
Definition print_fails (m0 : gmap Z Z) (fmt : Z) (ap : list Z) : Prop :=
  forall s, m0 ⊆ mem s -> wp no_exit (vsnprintf 0 0 fmt ap) (fun r s' => r < 0 /\
    mem s' = mem s /\ ext s' = ext s) s.

(** The string in a new block, or null for want of memory; nothing else changed. *)
Definition asprintf_post (slot : Z) (text : list Z) (s : st X) (r : Z) (s' : st X) : Prop :=
  al_inv (ext s') (mem s') /\
  (forall x b, mem s !! x = Some b -> ~ (slot <= x < slot + 8) -> mem s' !! x = Some b) /\
  ((r = -1 /\ errno s' = ENOMEM /\ holds (mem s') slot (le_encode 8 0) /\
    al_live (ext s') = al_live (ext s)) \/
   (r = Z.of_nat (length text) /\ exists p, p <> 0 /\ al_live (ext s) !! p = None /\
    al_live (ext s') = <[p := Z.of_nat (length text) + 1]> (al_live (ext s)) /\
    holds (mem s') slot (le_encode 8 p) /\ holds (mem s') p (text ++ [0]))).

Lemma subseteq_write (m0 m : gmap Z Z) a bs :
  m0 ⊆ m -> (forall x, a <= x < a + Z.of_nat (length bs) -> m0 !! x = None) -> m0 ⊆ write m a bs.
Proof.
  intros Hs Ha. apply map_subseteq_spec. intros x b Hx. rewrite lookup_write_out.
  - by eapply lookup_weaken.
  - intros Hin. by rewrite Ha in Hx.
Qed.

Lemma vasprintf_wp m0 slot fmt ap text (s : st X) :
  al_inv (ext s) (mem s) -> m0 ⊆ mem s -> prints m0 fmt ap text ->
  mapped (mem s) slot 8 -> (forall x, slot <= x < slot + 8 -> m0 !! x = None) ->
  Z.of_nat (length text) < 2 ^ 31 ->
  wp al_exits (vasprintf slot fmt ap) (asprintf_post slot text s) s.
Proof.
  intros I Hm0 P Hslot Hout Hlen. unfold vasprintf. set (n := Z.of_nat (length text)) in *.
  apply wp_bind. eapply wp_mono; [eapply (wp_exits no_exit); [by apply (pr_length _ _ _ _ P)|done]|].
  intros r s0 [-> ->]. fold n. destruct (Z.ltb_spec n 0); [lia|].
  rewrite (u64_small n) by zlia. rewrite (u64_small (n + 1)) by zlia.
  apply wp_bind. eapply wp_mono; [apply al_malloc_ok; [done|zlia]|].
  intros p s1 (I1 & [[-> (Hm1 & Hl1 & He1)]|[Hp A]]).
  - apply wp_bind, wp_store_u64; [by rewrite Hm1|]. cbn [mem errno ext].
    apply wp_bind. eapply wp_load_u64; [apply holds_write|done|]. apply wp_ret.
    split_and!; cbn [mem errno ext].
    + eapply al_inv_dom; [apply same_dom_write|exact I1]. rewrite length_le_encode, Hm1. exact Hslot.
    + intros x b Hx Hn. rewrite lookup_write_out by (by rewrite length_le_encode). by rewrite Hm1.
    + left. split_and!; [done|done|apply holds_write|done].
  - pose proof (alloc_good _ _ _ _ _ _ A) as (Gp & _ & _ & Ge).
    assert (Hslot1 : mapped (mem s1) slot 8) by (by eapply allocated_keeps_mapped).
    pose proof (allocated_apart _ _ _ _ _ _ _ _ A Hslot eq_refl) as Hap.
    apply wp_bind, wp_store_u64; [done|]. cbn [mem errno ext].
    apply wp_bind. eapply wp_load_u64; [apply holds_write|lia|]. destruct (Z.eqb_spec p 0); [done|].
    apply wp_bind. eapply wp_load_u64; [apply holds_write|lia|].
    set (m2 := write (mem s1) slot (le_encode 8 p)).
    assert (D2 : same_dom (mem s1) m2) by (apply same_dom_write; by rewrite length_le_encode).
    assert (Hp2 : mapped m2 p (n + 1)) by (rewrite <- D2; apply A).
    eapply wp_mono.
    { eapply (wp_exits no_exit); [|done]. apply (pr_text _ _ _ _ P p (n + 1) (St m2 (errno s1) (ext s1)));
        cbn [mem]; [|lia|done|].
      - apply subseteq_write; [|intros x; rewrite length_le_encode; apply Hout].
        apply map_subseteq_spec. intros x b Hx. eapply allocated_keeps; [exact A|].
        by eapply lookup_weaken.
      - intros x Hx. apply eq_None_not_Some. intros [b Hb].
        pose proof (lookup_weaken _ _ _ _ Hb Hm0) as Hb'.
        rewrite (alloc_fresh _ _ _ _ _ _ A) in Hb'; [done|lia]. }
    intros r s3 [-> ->]. cbn [mem errno ext].
    assert (Hl : Z.of_nat (length (text ++ [0])) = n + 1) by (rewrite length_app; cbn; lia).
    split_and!; cbn [mem errno ext].
    + eapply al_inv_dom; [apply same_dom_write; by rewrite Hl|]. by eapply al_inv_dom.
    + intros x b Hx Hn. rewrite lookup_write_out.
      * unfold m2. rewrite lookup_write_out by (by rewrite length_le_encode). by eapply allocated_keeps.
      * intros Hin. rewrite (alloc_fresh _ _ _ _ _ _ A) in Hx; [done|lia].
    + right. split; [done|]. exists p. split_and!; [done|apply A|apply A| |apply holds_write].
      apply holds_write_other; [rewrite length_le_encode; lia|apply holds_write].
Qed.

End Specs.

(** ** Properties *)

(** C38: [asprintf] prints the whole text, however long, into a new block of exactly
    its size and stores the block's address in the caller's variable; it stores
    null and returns -1 when there is no memory, and when the text cannot be
    printed it returns -1 and touches nothing. *)
Theorem asprintf_prints {X} `{!Allocator X} `{!AllocatorLaws X} `{!PrintfWorld X}
    m0 slot fmt args (s : st X) :
  al_inv (ext s) (mem s) -> m0 ⊆ mem s -> mapped (mem s) slot 8 ->
  (forall x, slot <= x < slot + 8 -> m0 !! x = None) ->
  (forall text, prints m0 fmt args text -> Z.of_nat (length text) < 2 ^ 31 ->
     wp al_exits (asprintf slot fmt args) (asprintf_post slot text s) s) /\
  (print_fails m0 fmt args ->
     wp no_exit (asprintf slot fmt args) (fun r s' => r = -1 /\ mem s' = mem s /\ ext s' = ext s) s).
Proof.
  intros I Hm Hslot Hout. split.
  - intros text P Hl. by eapply vasprintf_wp.
  - intros F. apply wp_bind. eapply wp_mono; [by apply F|]. intros r s' (Hr & Hm' & Hx).
    destruct (Z.ltb_spec r 0); [|lia]. by apply wp_ret.
Qed.

(** ** Witness: a [vsnprintf] that prints [ok], whatever the format *)

#[export] Instance simple_printf_world : PrintfWorld arena := {
  vsnprintf p n _ _ := if n =? 0 then ret 2 else do* store p [111; 107; 0] in ret 2
}.

Definition printf_memory : gmap Z Z := write ∅ 4096 (replicate 8 255).
Definition printf_start : st arena := St printf_memory 0 (empty_arena (2 ^ 20) (2 ^ 21)).

Lemma printf_start_inv : al_inv (ext printf_start) (mem printf_start).
Proof.
  apply empty_arena_inv; [done|done|done|]. intros x [Hx _].
  cbn [mem printf_start]. unfold printf_memory. rewrite lookup_write_out; [apply lookup_empty|].
  rewrite length_replicate. lia.
Qed.

Lemma simple_prints : prints (X := arena) ∅ 0 [] [111; 107].
Proof.
  split.
  - intros s _. by apply wp_ret.
  - intros p n s _ Hn Hm _. cbn in Hn |- *. destruct (Z.eqb_spec n 0); [lia|].
    apply wp_bind, wp_store; [eapply mapped_sub; [exact Hm|lia|cbn; lia]|]. by apply wp_ret.
Qed.

Lemma asprintf_prints_witness :
  wp al_exits (asprintf 4096 0 []) (asprintf_post 4096 [111; 107] printf_start) printf_start.
Proof.
  apply (asprintf_prints ∅ 4096 0 [] printf_start printf_start_inv (map_empty_subseteq _)).
  - eapply mapped_sub; [apply holds_mapped, holds_write|lia|rewrite length_replicate; lia].
  - intros x _. apply lookup_empty.
  - exact simple_prints.
  - reflexivity.
Defined.
