(* ===== verification/Line.v ===== *)
(** * Line input (src/line_overrides.c)

    [getdelim] and [getline] against the allocator interface and a stream.  The
    stream is the one [FILE] of the call: the bytes it still delivers, whether
    they are followed by a read error or by the end of file, its two sticky
    indicators and the depth of its lock. *)
From S2P Require Import Prelude CMem CCmd Alloc SimpleHeap.

(** ** Streams (the standard library's) *)

Record file := File {
  f_data : list Z;
  f_fails : bool;
  f_error : bool;
  f_eof : bool;
  f_locked : Z
}.

Section Streams.
Context {X : Type}.
Definition get_file : C (file * X) file := fun s => Ret (fst (ext s), s).
Definition put_file (f : file) : C (file * X) unit := fun s =>
  Ret (tt, St (mem s) (errno s) (f, snd (ext s))).

Definition flockfile : C (file * X) unit :=
  let* f := get_file in
  put_file (File (f_data f) (f_fails f) (f_error f) (f_eof f) (f_locked f + 1)).
Definition funlockfile : C (file * X) unit :=
  let* f := get_file in
  put_file (File (f_data f) (f_fails f) (f_error f) (f_eof f) (f_locked f - 1)).

Definition getc_unlocked : C (file * X) Z :=
  let* f := get_file in
  match f_data f with
  | c :: rest => do* put_file (File rest (f_fails f) (f_error f) (f_eof f) (f_locked f)) in ret c
  | [] =>
      do* put_file (if f_fails f then File [] true true (f_eof f) (f_locked f)
                    else File [] false (f_error f) true (f_locked f)) in
      ret EOF
  end.

Definition ferror : C (file * X) bool := let* f := get_file in ret (f_error f).
End Streams.

(** ** The program *)

Section Definitions.
Context {X : Type} `{!Allocator X}.
#[local] Existing Instance lift_allocator.

Definition ao_grow_line_buffer (buffer capacity length : Z) : C (file * X) Z :=
  if SIZE_MAX - 2 <? length then do* set_errno ENOMEM in ret (-1)
  else
    let min_capacity := u64 (length + 2) in
    let new_capacity :=
      if min_capacity <? SIZE_MAX / 4 then u64 (min_capacity + min_capacity / 2)
      else min_capacity in
    let* old := load_u64 buffer in
    let* new_buffer := al_realloc old new_capacity in
    if new_buffer =? 0 then
      let* old := load_u64 buffer in
      let* new_buffer := al_realloc old min_capacity in
      if new_buffer =? 0 then do* set_errno ENOMEM in ret (-1)
      else
        do* store_u64 buffer new_buffer in
        do* store_u64 capacity min_capacity in
        ret 0
    else
      do* store_u64 buffer new_buffer in
      do* store_u64 capacity new_capacity in
      ret 0.

(** After the loop. *)
Definition getdelim_finish (s length : Z) : C (file * X) Z :=
  let* buf := load_u64 s in
  do* store_byte (buf + length) 0 in
  do* funlockfile in
  ret (s64 length).

(** One turn reads a character, so the characters left plus one bound the turns. *)
Fixpoint getdelim_loop (fuel : nat) (s n delim length : Z) : C (file * X) Z :=
  match fuel with
  | O => diverge
  | S fuel' =>
      let* capacity := load_u64 n in
      let* grown := (if capacity <=? u64 (length + 1) then ao_grow_line_buffer s n length
                     else ret 0) in
      if negb (grown =? 0) then do* funlockfile in ret (-1)
      else
        let* c := getc_unlocked in
        if c =? EOF then
          let* failed := (if length =? 0 then ret true else ferror) in
          if failed then do* funlockfile in ret (-1)
          else getdelim_finish s length
        else
          let* buf := load_u64 s in
          do* store_byte (buf + length) (c `mod` 256) in
          if c =? delim then getdelim_finish s (length + 1)
          else getdelim_loop fuel' s n delim (length + 1)
  end.

Definition getdelim (s n delim : Z) : C (file * X) Z :=
  if (s =? 0) || (n =? 0) then do* set_errno EINVAL in ret (-1)
  else
    let* buf := load_u64 s in
    do* (if buf =? 0 then store_u64 n 0 else ret tt) in
    do* flockfile in
    let* f := get_file in
    getdelim_loop (S (length (f_data f))) s n delim 0.

(** [__getdelim] *)
Definition __getdelim (s n delim : Z) : C (file * X) Z := getdelim s n delim.

Definition getline (s n : Z) : C (file * X) Z := getdelim s n 10.

End Definitions.

(** ** Specification *)

(** The next line: up to and including the first [delim], or all there is. *)
Fixpoint next_line (delim : Z) (data : list Z) : list Z * list Z :=
  match data with
  | [] => ([], [])
  | c :: rest =>
      if c =? delim then ([c], rest)
      else let '(l, r) := next_line delim rest in (c :: l, r)
  end.

Lemma next_line_app delim data :
  (next_line delim data).1 ++ (next_line delim data).2 = data.
Proof.
  induction data as [|c rest IH]; cbn; [done|]. destruct (c =? delim); [done|].
  destruct (next_line delim rest); cbn in *. by rewrite IH.
Qed.

Lemma next_line_no_delim delim data :
  delim ∉ data -> next_line delim data = (data, []).
Proof.
  induction data as [|c rest IH]; cbn; [done|]. rewrite not_elem_of_cons. intros [Hc Hr].
  destruct (Z.eqb_spec c delim); [congruence|]. by rewrite IH.
Qed.

Lemma next_line_prefix delim acc data :
  delim ∉ acc ->
  next_line delim (acc ++ data) = (acc ++ (next_line delim data).1, (next_line delim data).2).
Proof.
  induction acc as [|c acc IH]; cbn; [by destruct (next_line delim data)|].
  rewrite not_elem_of_cons. intros [Hc Ha].
  destruct (Z.eqb_spec c delim); [congruence|]. by rewrite IH.
Qed.

Section Specs.
Context {X : Type} `{!Allocator X} `{!AllocatorLaws X}.
#[local] Existing Instance lift_allocator.
#[local] Existing Instance lift_allocator_laws.

(** The caller's two variables, [*s] at [s] and [*n] at [n]. *)
Context (s n : Z) (Hsn : s + 8 <= n \/ n + 8 <= s).

Definition in_slots (x : Z) : Prop := s <= x < s + 8 \/ n <= x < n + 8.

(** The buffer the caller passes: null (size 0), or a live block [p0] of [sz0]
    bytes that holds neither variable.  [m0] and [live0] are the memory and the
    live blocks at the call. *)
Context (p0 sz0 : Z) (m0 live0 : gmap Z Z).

Definition in_buffer0 (x : Z) : Prop := p0 <= x < p0 + sz0.

(** A buffer the function may have put there: null, or a live block of at least
    [cap] bytes, in what was free or the caller's buffer at the call. *)
Definition buffer_ok (p cap : Z) (m live : gmap Z Z) : Prop :=
  (p = 0 /\ cap = 0 /\ p0 = 0 /\ sz0 = 0 /\ live = live0) \/
  (exists sz, live !! p = Some sz /\ 0 <= cap <= sz /\ good_block p sz /\ mapped m p sz /\
     (forall x, p <= x < p + sz -> ~ in_slots x) /\
     (forall x, p <= x < p + sz -> m0 !! x = None \/ in_buffer0 x) /\
     delete p live = delete p0 live0).

(** Nothing else the caller had changed. *)
Definition frame0 (m : gmap Z Z) : Prop :=
  forall x b, m0 !! x = Some b -> ~ in_slots x -> ~ in_buffer0 x -> m !! x = Some b.

Record line_inv (acc rest : list Z) (p cap : Z) (f : file) (st : st (file * X)) : Prop := {
  li_inv : al_inv (ext st) (mem st);
  li_file : fst (ext st) = File rest (f_fails f) (f_error f) (f_eof f) (f_locked f);
  li_s : holds (mem st) s (le_encode 8 p);
  li_n : holds (mem st) n (le_encode 8 cap);
  li_cap : 0 <= p <= SIZE_MAX /\ 0 <= cap <= SIZE_MAX;
  li_buf : buffer_ok p cap (mem st) (al_live (ext st));
  li_acc : holds (mem st) p acc;
  li_len : Z.of_nat (length acc) <= cap;
  li_frame : frame0 (mem st)
}.
(** Between the reallocation and the stores to [*s] and [*n]. *)
Record line_mid (acc rest : list Z) (q k : Z) (f : file) (st : st (file * X)) : Prop := {
  lm_inv : al_inv (ext st) (mem st);
  lm_file : fst (ext st) = File rest (f_fails f) (f_error f) (f_eof f) (f_locked f);
  lm_s : mapped (mem st) s 8;
  lm_n : mapped (mem st) n 8;
  lm_q : 0 < q /\ 0 <= k <= SIZE_MAX;
  lm_buf : buffer_ok q k (mem st) (al_live (ext st));
  lm_acc : holds (mem st) q acc;
  lm_frame : frame0 (mem st)
}.

Lemma slots_mapped acc rest p cap f st :
  line_inv acc rest p cap f st -> forall x, in_slots x -> is_Some (mem st !! x).
Proof.
  intros L x [Hx|Hx].
  - apply (holds_mapped _ _ _ (li_s _ _ _ _ _ _ L)). by rewrite length_le_encode.
  - apply (holds_mapped _ _ _ (li_n _ _ _ _ _ _ L)). by rewrite length_le_encode.
Qed.

(** An address that is free now was free, or the caller's buffer, at the call. *)
Lemma free_now_free0 acc rest p cap f st x :
  line_inv acc rest p cap f st -> mem st !! x = None -> m0 !! x = None \/ in_buffer0 x.
Proof.
  intros L Hx. destruct (m0 !! x) as [b|] eqn:Hb; [|by left]. right.
  destruct (decide (p0 <= x < p0 + sz0)) as [|Hn]; [done|exfalso].
  destruct (decide (s <= x < s + 8 \/ n <= x < n + 8)) as [Hs|Hs].
  - destruct (slots_mapped _ _ _ _ _ _ L x Hs). congruence.
  - rewrite (li_frame _ _ _ _ _ _ L x b) in Hx; done.
Qed.

Lemma wp_slots E acc rest q k f st :
  line_mid acc rest q k f st -> Z.of_nat (length acc) <= k ->
  wp E (do* store_u64 s q in do* store_u64 n k in ret 0)
    (fun r st' => r = 0 /\ line_inv acc rest q k f st') st.
Proof.
  intros M Hlen. destruct (lm_q _ _ _ _ _ _ M) as [Hq Hk].
  destruct (lm_buf _ _ _ _ _ _ M) as [(-> & _)|(sz & Hl & Hcap & G & Hm & Hsl & Hfr & Hdel)]; [lia|].
  apply wp_bind, wp_store_u64; [apply M|]. set (m1 := write (mem st) s (le_encode 8 q)).
  assert (D1 : same_dom (mem st) m1) by (apply same_dom_write; apply M).
  apply wp_bind, wp_store_u64; [cbn; rewrite <- D1; apply M|]. cbn [mem errno ext].
  set (m2 := write m1 n (le_encode 8 k)).
  assert (D2 : same_dom (mem st) m2).
  { etransitivity; [exact D1|]. apply same_dom_write. rewrite <- D1. apply M. }
  assert (O : forall x, ~ in_slots x -> m2 !! x = mem st !! x).
  { intros x Hx. unfold in_slots in Hx. unfold m2, m1.
    rewrite !lookup_write_out by (rewrite length_le_encode; lia). done. }
  apply wp_ret. split; [done|]. split; cbn [mem errno ext].
  - eapply al_inv_dom; [exact D2|apply M].
  - apply M.
  - apply holds_write_other; [rewrite !length_le_encode; lia|apply holds_write].
  - apply holds_write.
  - destruct G. lia.
  - right. exists sz. split_and!; try done; try lia. by rewrite <- D2.
  - intros i b Hi. rewrite O; [by apply M|]. apply Hsl.
    apply lookup_lt_Some in Hi. lia.
  - done.
  - intros x b Hx Hns Hnb. rewrite O by done. by apply M.
Qed.

Lemma wp_line_realloc acc rest p cap f st k :
  line_inv acc rest p cap f st -> Z.of_nat (length acc) + 2 <= k <= SIZE_MAX ->
  wp al_exits (al_realloc p k)
    (fun q st' => (q = 0 /\ line_inv acc rest p cap f st' /\ errno st' = ENOMEM) \/
       (q <> 0 /\ line_mid acc rest q k f st')) st.
Proof.
  intros L Hk. pose proof (slots_mapped _ _ _ _ _ _ L) as Hslots.
  pose proof (fun x => free_now_free0 _ _ _ _ _ _ x L) as Hfree0.
  assert (Hfail : forall st', al_inv (ext st') (mem st') -> fst (ext st') = fst (ext st) ->
    alloc_failed al_live st st' -> line_inv acc rest p cap f st').
  { intros st' I' Hx (Hm & Hl & _). destruct L. rewrite Hm in *.
    split; try rewrite Hm; try done; [congruence|by rewrite Hl]. }
  destruct (li_buf _ _ _ _ _ _ L) as [(-> & -> & Hp0 & Hsz0 & Hlive)|
    (sz & Hl & Hcap & G & Hpm & Hsl & Hfr & Hdel)].
  - apply wp_lift. eapply wp_mono; [apply (al_realloc_null k (St _ _ _)); [apply L|lia]|].
    intros q [m e x] (I' & [[-> F]|[Hq A]]); [left|right]; (split; [done|]).
    { split; [by apply Hfail|apply F]. }
    cbn [mem errno ext] in *. pose proof (alloc_good _ _ _ _ _ _ A) as G.
    assert (acc = []) as -> by (pose proof (li_len _ _ _ _ _ _ L); destruct acc; cbn in *; [done|lia]).
    split; cbn [mem errno ext fst snd]; [done|apply L| | |destruct G; lia| |apply holds_nil|].
    + eapply allocated_keeps_mapped; [exact A|]. intros y Hy. apply Hslots. by left.
    + eapply allocated_keeps_mapped; [exact A|]. intros y Hy. apply Hslots. by right.
    + right. exists k. cbn [al_live lift_allocator_laws snd]. rewrite (alloc_live _ _ _ _ _ _ A). split_and!; [|lia|lia|done|apply A| | |].
      * apply lookup_insert_eq.
      * intros y Hy Hs. destruct (Hslots y Hs) as [b Hb].
        by rewrite (alloc_fresh _ _ _ _ _ _ A) in Hb by lia.
      * intros y Hy. apply Hfree0. apply (alloc_fresh _ _ _ _ _ _ A). lia.
      * rewrite delete_insert_eq, delete_id by apply A. cbn in Hlive. rewrite Hlive, Hp0.
        symmetry. apply delete_id, eq_None_not_Some. rewrite <- Hlive. intros [j Hj].
        destruct (al_live_block _ _ _ _ (li_inv _ _ _ _ _ _ L) Hj) as [[? _] _]. lia.
    + intros y b Hy Hns Hnb. eapply allocated_keeps; [exact A|]. by apply L.
  - destruct G as (Gp & G16 & Gsz & Gend).
    apply wp_lift. eapply wp_mono;
      [apply (al_realloc_ok p sz k (St _ _ _)); [apply L|exact Hl|lia]|].
    intros q [m e x] (I' & [(-> & _ & F)|[(_ & -> & _)|[Hq R]]]); [left|lia|right].
    { split; [done|]. split; [by apply Hfail|apply F]. }
    split; [done|]. cbn [mem errno ext] in *. pose proof (realloc_good _ _ _ _ _ _ _ _ R) as G.
    pose proof (realloc_fresh _ _ _ _ _ _ _ _ R) as Hqf.
    assert (Hkeep : forall y, is_Some (mem st !! y) -> ~ (p <= y < p + sz) -> m !! y = mem st !! y).
    { intros y [b Hb] Hy. apply (realloc_frame _ _ _ _ _ _ _ _ R); [|done].
      intros Hyq. destruct (Hqf y); [lia|congruence|done]. }
    assert (Hslot_out : forall y, in_slots y -> ~ (p <= y < p + sz)).
    { intros y Hs Hy. by apply (Hsl y). }
    assert (Hslotm : forall y, in_slots y -> is_Some (m !! y)).
    { intros y Hs. rewrite Hkeep; auto. }
    split; cbn [mem errno ext fst snd]; [done|apply L| | |destruct G; lia| | |].
    + intros y Hy. apply Hslotm. by left.
    + intros y Hy. apply Hslotm. by right.
    + right. exists k. cbn [al_live lift_allocator_laws snd]. rewrite (realloc_live _ _ _ _ _ _ _ _ R). split_and!; [|lia|lia|done|apply R| | |].
      * apply lookup_insert_eq.
      * intros y Hy Hs. destruct (Hqf y) as [Hn|]; [lia| |by apply (Hslot_out y)].
        destruct (Hslots y Hs) as [b Hb]. cbn in Hn. congruence.
      * intros y Hy. destruct (Hqf y) as [Hn|]; [lia|by apply Hfree0|by apply Hfr].
      * rewrite delete_insert_eq. rewrite <- Hdel.
        destruct (realloc_new _ _ _ _ _ _ _ _ R) as [->|Hqn]; [apply delete_delete_eq|].
        apply delete_id. rewrite lookup_delete. by case_decide.
    + intros i b Hi. pose proof (lookup_lt_Some _ _ _ Hi) as Hil.
      pose proof (li_len _ _ _ _ _ _ L).
      rewrite (realloc_copy _ _ _ _ _ _ _ _ R) by lia. by apply L.
    + intros y b Hy Hns Hnb. rewrite Hkeep; [by apply L|exists b; by apply L|].
      intros Hyp. destruct (Hfr y Hyp); [congruence|done].
Qed.

Lemma wp_load_slot_s E acc rest p cap f st Q :
  line_inv acc rest p cap f st -> Q p st -> wp E (load_u64 s) Q st.
Proof. intros L HQ. eapply wp_load_u64; [apply L|apply L|done]. Qed.

Lemma wp_load_slot_n E acc rest p cap f st Q :
  line_inv acc rest p cap f st -> Q cap st -> wp E (load_u64 n) Q st.
Proof. intros L HQ. eapply wp_load_u64; [apply L|apply L|done]. Qed.

Lemma line_inv_errno acc rest p cap f m e e' x :
  line_inv acc rest p cap f (St m e x) -> line_inv acc rest p cap f (St m e' x).
Proof. by intros []. Qed.

(** The buffer grows beyond [length acc + 1], or nothing changes. *)
Lemma wp_grow acc rest p cap f st :
  line_inv acc rest p cap f st -> Z.of_nat (length acc) < 2 ^ 62 ->
  wp al_exits (ao_grow_line_buffer s n (Z.of_nat (length acc)))
    (fun r st' =>
      (r = 0 /\ exists q k, line_inv acc rest q k f st' /\ Z.of_nat (length acc) + 1 < k) \/
      (r = -1 /\ errno st' = ENOMEM /\ line_inv acc rest p cap f st')) st.
Proof.
  intros L Hacc. unfold ao_grow_line_buffer. set (len := Z.of_nat (length acc)) in *.
  destruct (Z.ltb_spec (SIZE_MAX - 2) len); [zlia|].
  rewrite (u64_small (len + 2)) by zlia.
  set (k := if len + 2 <? SIZE_MAX / 4 then _ else _).
  assert (Hk : len + 2 <= k <= SIZE_MAX).
  { unfold k. change (SIZE_MAX / 4) with (2 ^ 62 - 1). case_cmp; [|zlia].
    assert (0 <= (len + 2) / 2 <= len + 2) by (Z.div_mod_to_equations; lia).
    rewrite u64_small by zlia. zlia. }
  assert (Hfin : forall q j st', line_mid acc rest q j f st' -> len + 2 <= j ->
    wp al_exits (do* store_u64 s q in do* store_u64 n j in ret 0)
      (fun r st' =>
        (r = 0 /\ exists q k, line_inv acc rest q k f st' /\ len + 1 < k) \/
        (r = -1 /\ errno st' = ENOMEM /\ line_inv acc rest p cap f st')) st').
  { intros q j st' M Hj. eapply wp_mono; [apply wp_slots; [exact M|lia]|].
    intros r st2 [-> L2]. left. split; [done|]. exists q, j. split; [done|lia]. }
  apply wp_bind, (wp_load_slot_s _ _ _ _ _ _ _ _ L). apply wp_bind.
  eapply wp_mono; [by apply wp_line_realloc|].
  intros q st1 [(-> & L1 & _)|[Hq M]].
  2: { destruct (Z.eqb_spec q 0); [done|]. apply Hfin; [done|lia]. }
  rewrite Z.eqb_refl. apply wp_bind, (wp_load_slot_s _ _ _ _ _ _ _ _ L1). apply wp_bind.
  eapply wp_mono; [apply wp_line_realloc; [done|zlia]|].
  intros q st2 [(-> & L2 & _)|[Hq M]].
  2: { destruct (Z.eqb_spec q 0); [done|]. apply Hfin; [done|lia]. }
  rewrite Z.eqb_refl. apply wp_bind, wp_set_errno, wp_ret. right. split_and!; [done|done|].
  destruct st2. by eapply line_inv_errno.
Qed.

(** ** The result *)

(** What is true of [*s] and [*n] after every call, successful or not. *)
Definition caller_ok (st' : st (file * X)) : Prop :=
  al_inv (ext st') (mem st') /\ frame0 (mem st') /\
  exists p cap, holds (mem st') s (le_encode 8 p) /\ holds (mem st') n (le_encode 8 cap) /\
    buffer_ok p cap (mem st') (al_live (ext st')).

Definition getdelim_post (delim : Z) (f : file) (r : Z) (st' : st (file * X)) : Prop :=
  let '(line, rest) := next_line delim (f_data f) in
  caller_ok st' /\ f_locked (fst (ext st')) = f_locked f /\
  ((r = Z.of_nat (length line) /\ line <> [] /\ f_data (fst (ext st')) = rest /\
    exists p cap, holds (mem st') s (le_encode 8 p) /\ holds (mem st') n (le_encode 8 cap) /\
      Z.of_nat (length line) < cap /\ buffer_ok p cap (mem st') (al_live (ext st')) /\
      holds (mem st') p (line ++ [0])) \/
   (r = -1 /\
    (errno st' = ENOMEM \/
     (f_data f = [] /\ f_data (fst (ext st')) = []) \/
     ((delim ∉ f_data f) /\ (f_fails f = true \/ f_error f = true))))).

Lemma line_inv_caller acc rest p cap f st' :
  line_inv acc rest p cap f st' -> caller_ok st'.
Proof. intros L. split; [apply L|]. split; [apply L|]. exists p, cap. split_and!; apply L. Qed.

Lemma wp_put_file E fl (Q : unit -> st (file * X) -> Prop) st0 :
  Q tt (St (mem st0) (errno st0) (fl, snd (ext st0))) -> wp E (put_file fl) Q st0.
Proof. done. Qed.

Lemma wp_get_file E (Q : file -> st (file * X) -> Prop) st0 :
  Q (fst (ext st0)) st0 -> wp E get_file Q st0.
Proof. done. Qed.

(** The file component changes freely. *)
Lemma line_inv_file acc rest rest' p cap f f' fl m e fx x :
  line_inv acc rest p cap f (St m e (fx, x)) ->
  fl = File rest' (f_fails f') (f_error f') (f_eof f') (f_locked f') ->
  line_inv acc rest' p cap f' (St m e (fl, x)).
Proof. intros [] ->. by split. Qed.

(** One more character. *)
Lemma wp_put_char E acc rest p cap f st c Q :
  line_inv acc rest p cap f st -> Z.of_nat (length acc) < cap ->
  (forall st', line_inv (acc ++ [c]) rest p cap f st' -> Q tt st') ->
  wp E (store_byte (p + Z.of_nat (length acc)) c) Q st.
Proof.
  intros L Hlen HQ.
  destruct (li_buf _ _ _ _ _ _ L) as [(_ & -> & _)|(sz & Hl & Hcap & G & Hm & Hsl & Hfr & Hdel)]; [lia|].
  set (a := p + Z.of_nat (length acc)).
  assert (Ha : mapped (mem st) a 1) by (eapply mapped_sub; [exact Hm|lia..]).
  apply wp_store_byte; [apply Ha; lia|]. apply HQ.
  assert (D : same_dom (mem st) (write (mem st) a [c])) by (by apply same_dom_write).
  assert (Hna : forall x, in_slots x -> x <> a).
  { intros x Hx ->. apply (Hsl a); [unfold a; lia|done]. }
  assert (Hslot : forall b v, in_slots b -> in_slots (b + 7) -> holds (mem st) b (le_encode 8 v) ->
    (forall y, b <= y < b + 8 -> in_slots y) -> holds (write (mem st) a [c]) b (le_encode 8 v)).
  { intros b v _ _ Hb Hall. apply holds_write_other; [|done]. rewrite length_le_encode. cbn [length].
    destruct (decide (b <= a < b + 8)) as [Hin|]; [by destruct (Hna a (Hall a Hin))|lia]. }
  destruct L. split; cbn [mem errno ext]; try done.
  - by eapply al_inv_dom.
  - apply Hslot; [left; lia|left; lia|done|]. intros y Hy. by left.
  - apply Hslot; [right; lia|right; lia|done|]. intros y Hy. by right.
  - right. exists sz. split_and!; try done; try lia. by rewrite <- D.
  - apply holds_app. split; [|apply holds_write].
    apply holds_write_other; [cbn; lia|done].
  - rewrite length_app. cbn [length]. lia.
  - intros x b Hx Hns Hnb. rewrite lookup_write_out; [by apply li_frame0|].
    cbn [length]. intros Hxa. destruct (Hfr a); [unfold a; lia| |].
    + replace x with a in Hx by lia. congruence.
    + replace x with a in Hnb by lia. done.
Qed.

Lemma wp_finish E acc rest p cap f st0 delim f0 :
  line_inv acc rest p cap f st0 -> Z.of_nat (length acc) < cap -> acc <> [] ->
  Z.of_nat (length acc) < 2 ^ 62 ->
  next_line delim (f_data f0) = (acc, rest) -> f_locked f = f_locked f0 + 1 ->
  wp E (getdelim_finish s (Z.of_nat (length acc))) (getdelim_post delim f0) st0.
Proof.
  intros L Hlen Hne Hb Hline Hlock. unfold getdelim_finish.
  apply wp_bind, (wp_load_slot_s _ _ _ _ _ _ _ _ L).
  apply wp_bind, (wp_put_char _ _ _ _ _ _ _ _ _ L Hlen). intros [m e [fx x]] L1.
  apply wp_bind, wp_bind, wp_get_file, wp_put_file, wp_ret. cbn [fst snd ext mem errno].
  pose proof (li_file _ _ _ _ _ _ L1) as Hfx. cbn in Hfx.
  assert (L2 : line_inv (acc ++ [0]) rest p cap
    (File [] (f_fails f) (f_error f) (f_eof f) (f_locked f - 1))
    (St m e (File (f_data fx) (f_fails fx) (f_error fx) (f_eof fx) (f_locked fx - 1), x))).
  { eapply line_inv_file; [exact L1|]. by rewrite Hfx. }
  unfold getdelim_post. rewrite Hline. split; [by eapply line_inv_caller|]. split; [cbn; subst; cbn; lia|].
  left. rewrite s64_small by zlia. split_and!; [done|done|by subst|].
  exists p, cap. split_and!; [apply L2|apply L2|done|apply L2|apply L2].
Qed.

(** The test at the head of each turn. *)
Lemma wp_ensure_room acc rest p cap f st0 :
  line_inv acc rest p cap f st0 -> Z.of_nat (length acc) < 2 ^ 62 ->
  wp al_exits (let* capacity := load_u64 n in
      if capacity <=? u64 (Z.of_nat (length acc) + 1)
      then ao_grow_line_buffer s n (Z.of_nat (length acc)) else ret 0)
    (fun r st' =>
      (r = 0 /\ exists q k, line_inv acc rest q k f st' /\ Z.of_nat (length acc) + 1 < k) \/
      (r = -1 /\ errno st' = ENOMEM /\ line_inv acc rest p cap f st')) st0.
Proof.
  intros L Hb. apply wp_bind, (wp_load_slot_n _ _ _ _ _ _ _ _ L). rewrite u64_small by zlia.
  destruct (Z.leb_spec cap (Z.of_nat (length acc) + 1)); [by apply wp_grow|].
  apply wp_ret. left. split; [done|]. by exists p, cap.
Qed.

Lemma wp_unlock_fail E acc rest p cap f delim f0 m e fx x :
  line_inv acc rest p cap f (St m e (fx, x)) -> f_locked fx = f_locked f0 + 1 ->
  (e = ENOMEM \/ (f_data f0 = [] /\ f_data fx = []) \/
   ((delim ∉ f_data f0) /\ (f_fails f0 = true \/ f_error f0 = true))) ->
  wp E (do* funlockfile in ret (-1)) (getdelim_post delim f0) (St m e (fx, x)).
Proof.
  intros L Hlock Hcause. apply wp_bind, wp_bind, wp_get_file, wp_put_file, wp_ret.
  cbn [fst snd ext mem errno]. unfold getdelim_post. destruct (next_line delim (f_data f0)) as [l r].
  pose proof (li_file _ _ _ _ _ _ L) as Hfx. cbn in Hfx.
  assert (L2 : line_inv acc rest p cap
    (File [] (f_fails f) (f_error f) (f_eof f) (f_locked f - 1))
    (St m e (File (f_data fx) (f_fails fx) (f_error fx) (f_eof fx) (f_locked fx - 1), x))).
  { eapply line_inv_file; [exact L|]. by rewrite Hfx. }
  split; [by eapply line_inv_caller|]. split; [cbn; lia|]. by right.
Qed.

Lemma wp_getdelim_loop fuel acc rest p cap f st0 f0 delim :
  line_inv acc rest p cap f st0 ->
  f_fails f = f_fails f0 -> f_error f = f_error f0 -> f_locked f = f_locked f0 + 1 ->
  f_data f0 = acc ++ rest -> delim ∉ acc -> Forall (fun c => 0 <= c < 256) rest ->
  Z.of_nat (length (f_data f0)) < 2 ^ 62 -> (length rest < fuel)%nat ->
  wp al_exits (getdelim_loop fuel s n delim (Z.of_nat (length acc))) (getdelim_post delim f0) st0.
Proof.
  revert acc rest p cap f st0. induction fuel as [|fuel IH];
    intros acc rest p cap f st0 L Hfails Herr Hlock Hdata Hacc Hbytes Hb Hfuel; [lia|].
  assert (Hlen : Z.of_nat (length acc) < 2 ^ 62).
  { rewrite Hdata, length_app in Hb. lia. }
  cbn [getdelim_loop].
  assert (Hassoc : forall A B D (m1 : C (file * X) A) (k1 : A -> C (file * X) B)
    (k2 : B -> C (file * X) D) Q st1,
    wp al_exits (bind (bind m1 k1) k2) Q st1 -> wp al_exits (bind m1 (fun a => bind (k1 a) k2)) Q st1).
  { intros. unfold wp, bind in *. by destruct (m1 st1) as [[]| | |]. }
  apply Hassoc, wp_bind. eapply wp_mono; [by apply wp_ensure_room|].
  intros r st1 [(-> & q & k & L1 & Hk)|(-> & He & L1)]; cbn [Z.eqb negb].
  2: { destruct st1 as [m e [fx x]]. cbn in He. pose proof (li_file _ _ _ _ _ _ L1) as Hfx. cbn in Hfx.
       eapply wp_unlock_fail; [exact L1|subst; cbn; lia|by left]. }
  destruct st1 as [m e [fx x]]. pose proof (li_file _ _ _ _ _ _ L1) as Hfx. cbn in Hfx. subst fx.
  apply wp_bind, wp_bind, wp_get_file. cbn [fst ext f_data f_fails f_error f_eof f_locked].
  destruct rest as [|c rest].
  - apply wp_bind, wp_put_file, wp_ret. cbn [fst snd ext mem errno].
    rewrite Z.eqb_refl. rewrite app_nil_r in Hdata.
    set (fx := if f_fails f then _ else _).
    assert (Hfx : f_locked fx = f_locked f0 + 1 /\ f_data fx = []) by (unfold fx; destruct (f_fails f); done).
    assert (L2 : line_inv acc [] q k fx (St m e (fx, x))).
    { eapply line_inv_file; [exact L1|]. destruct Hfx as [_ <-]. by destruct fx. }
    assert (Hemp : Z.of_nat (length acc) = 0 <-> acc = []) by (destruct acc; cbn; [done|split; [lia|done]]).
    destruct (Z.eqb_spec (Z.of_nat (length acc)) 0) as [Hz|Hz].
    { apply wp_bind, wp_ret. eapply wp_unlock_fail; [exact L2|apply Hfx|]. right; left.
      split; [|apply Hfx]. rewrite Hdata. by apply Hemp. }
    apply wp_bind, wp_bind, wp_get_file, wp_ret. cbn [fst ext].
    destruct (f_error fx) eqn:Hfe.
    { eapply wp_unlock_fail; [exact L2|apply Hfx|]. right; right. rewrite Hdata. split; [done|].
      unfold fx in Hfe. rewrite <- Hfails, <- Herr. destruct (f_fails f); [by left|by right]. }
    eapply wp_finish; [exact L2|lia|tauto|done| |apply Hfx].
    rewrite Hdata. by apply next_line_no_delim.
  - apply wp_bind, wp_put_file, wp_ret. cbn [fst snd ext mem errno].
    apply Forall_cons_1 in Hbytes as [Hc Hbytes].
    destruct (Z.eqb_spec c EOF) as [->|_]; [unfold EOF in Hc; lia|].
    assert (L2 : line_inv acc rest q k f
      (St m e (File rest (f_fails f) (f_error f) (f_eof f) (f_locked f), x))).
    { eapply line_inv_file; [exact L1|reflexivity]. }
    apply wp_bind, (wp_load_slot_s _ _ _ _ _ _ _ _ L2). rewrite Z.mod_small by done.
    apply wp_bind, (wp_put_char _ _ _ _ _ _ _ _ _ L2); [lia|]. intros st2 L3.
    assert (Hl : Z.of_nat (length acc) + 1 = Z.of_nat (length (acc ++ [c])))
      by (rewrite length_app; cbn [length]; lia).
    assert (Hdata' : f_data f0 = (acc ++ [c]) ++ rest) by (by rewrite <- app_assoc).
    destruct (Z.eqb_spec c delim) as [->|Hd]; rewrite Hl.
    + eapply wp_finish; [exact L3|lia|by destruct acc| | |done].
      * rewrite Hdata', length_app in Hb. lia.
      * rewrite Hdata, next_line_prefix by done. cbn. by rewrite Z.eqb_refl.
    + eapply IH; [exact L3|done..| |done|done|cbn in Hfuel; lia].
      rewrite not_elem_of_app. split; [done|]. intros ->%list_elem_of_singleton. done.
Qed.

(** What the caller guarantees. *)
Record caller_state (st0 : st (file * X)) : Prop := {
  cs_inv : al_inv (ext st0) (mem st0);
  cs_m0 : m0 = mem st0;
  cs_live0 : live0 = al_live (ext st0);
  cs_s : holds (mem st0) s (le_encode 8 p0) /\ 0 <= p0 <= SIZE_MAX /\ 0 < s;
  cs_n : 0 < n /\ exists cap, holds (mem st0) n (le_encode 8 cap) /\ 0 <= cap <= SIZE_MAX /\
    (p0 <> 0 -> cap <= sz0);
  cs_null : p0 = 0 -> sz0 = 0;
  cs_live : p0 <> 0 -> al_live (ext st0) !! p0 = Some sz0;
  cs_apart : forall x, in_buffer0 x -> ~ in_slots x;
  cs_bytes : Forall (fun c => 0 <= c < 256) (f_data (fst (ext st0)));
  cs_short : Z.of_nat (length (f_data (fst (ext st0)))) < 2 ^ 62
}.

(** The state at the head of the loop. *)
Lemma wp_getdelim_start st0 :
  caller_state st0 ->
  wp al_exits (let* buf := load_u64 s in do* (if buf =? 0 then store_u64 n 0 else ret tt) in
    flockfile)
    (fun _ st' => exists cap, let f := fst (ext st0) in
       line_inv [] (f_data f) p0 cap
         (File (f_data f) (f_fails f) (f_error f) (f_eof f) (f_locked f + 1)) st') st0.
Proof.
  intros [I Hm Hlv (Hs & Hp0 & Hs0) (Hn0 & cap & Hn & Hcap & Hcapsz) Hnull Hlive Hap _ _].
  destruct st0 as [m e [f x]]. cbn [mem errno ext fst] in *.
  assert (Hfr : frame0 m) by (intros y b; rewrite Hm; done).
  eapply wp_bind, wp_load_u64; [exact Hs|done|]. apply wp_bind.
  destruct (Z.eqb_spec p0 0) as [Hz|Hz].
  - apply wp_store_u64.
    { intros y Hy. apply (holds_mapped _ _ _ Hn). rewrite length_le_encode. lia. }
    apply wp_bind, wp_get_file, wp_put_file. cbn [mem errno ext fst snd]. exists 0.
    assert (D : same_dom m (write m n (le_encode 8 0))).
    { apply same_dom_write. intros y Hy. apply (holds_mapped _ _ _ Hn). done. }
    split; cbn [mem errno ext fst snd]; try done.
    + by eapply al_inv_dom.
    + apply holds_write_other; [rewrite !length_le_encode; lia|done].
    + apply holds_write.
    + left. rewrite Hlv. split_and!; auto.
    + intros y b Hy Hns Hnb. rewrite lookup_write_out; [by apply Hfr|]. rewrite length_le_encode.
      unfold in_slots in Hns. lia.
  - apply wp_ret, wp_bind, wp_get_file, wp_put_file. cbn [mem errno ext fst snd]. exists cap.
    specialize (Hlive Hz). destruct (al_live_block _ _ _ _ I Hlive) as [G Hmap].
    split; cbn [mem errno ext fst snd]; try done.
    + right. exists sz0. split_and!; try done; try lia; auto. by rewrite Hlv.
    + cbn. lia.
Qed.

Lemma getdelim_wp delim st0 :
  caller_state st0 ->
  wp al_exits (getdelim s n delim) (getdelim_post delim (fst (ext st0))) st0.
Proof.
  intros Cs. unfold getdelim. pose proof (cs_s _ Cs) as (_ & _ & Hs). pose proof (cs_n _ Cs) as [Hn _].
  destruct (Z.eqb_spec s 0); [lia|]. destruct (Z.eqb_spec n 0); [lia|]. cbn [orb].
  pose proof (wp_getdelim_start _ Cs) as W.
  assert (Hassoc : forall A B (m1 : C (file * X) A) (k1 : A -> C (file * X) unit)
    (m2 : C (file * X) unit) (k3 : C (file * X) B) Q,
    wp al_exits (bind m1 (fun a => bind (k1 a) (fun _ => m2))) (fun _ => wp al_exits k3 Q) st0 ->
    wp al_exits (bind m1 (fun a => bind (k1 a) (fun _ => bind m2 (fun _ => k3)))) Q st0).
  { intros A B m1 k1 m2 k3 Q. unfold wp, bind. destruct (m1 st0) as [[a st1]| | |]; try done.
    destruct (k1 a st1) as [[? st2]| | |]; try done. by destruct (m2 st2) as [[]| | |]. }
  apply Hassoc. eapply wp_mono; [exact W|]. intros _ st1 [cap L].
  apply wp_bind, wp_get_file. pose proof (li_file _ _ _ _ _ _ L) as Hf. cbn in Hf. rewrite Hf.
  cbn [f_data]. eapply (wp_getdelim_loop _ []); [exact L|done..| |apply Cs|apply Cs|lia].
  apply not_elem_of_nil.
Qed.

End Specs.

(** ** Properties *)

Section Props.
Context {X : Type} `{!Allocator X} `{!AllocatorLaws X}.
#[local] Existing Instance lift_allocator.
#[local] Existing Instance lift_allocator_laws.

(** C21: [getdelim], from any buffer the caller may own (none, or a live block
    however small), reads exactly the next line: on success [*s] is a live block
    with room for it that holds the line and a terminator, [*n] does not exceed
    the block, the result is its length and the stream is at the next line.  It
    returns -1 only when memory runs out, at the end of the file, or when a read
    error cuts the line short.  It always terminates, leaves the stream's lock
    balanced, and changes no other object of the caller.  A null [s] or [n] is refused
    with [EINVAL] before anything is touched, the stream included. *)
Theorem getdelim_reads_line (s n p0 sz0 delim : Z) (st0 : st (file * X)) :
  s + 8 <= n \/ n + 8 <= s ->
  caller_state s n p0 sz0 (mem st0) (al_live (ext st0)) st0 ->
  wp al_exits (getdelim s n delim)
    (fun r st' => getdelim_post s n p0 sz0 (mem st0) (al_live (ext st0)) delim (fst (ext st0)) r st')
    st0 /\
  forall a, getdelim a 0 delim st0 = Ret (-1, St (mem st0) EINVAL (ext st0)) /\
    getdelim 0 a delim st0 = Ret (-1, St (mem st0) EINVAL (ext st0)).
Proof.
  intros Hsn Cs. split; [by apply getdelim_wp|]. intros a. split; [|done].
  unfold getdelim. by rewrite Z.eqb_refl, orb_true_r.
Qed.

End Props.

(** ** Witnesses *)

(** The caller's two variables at 64 and 72, a block of sixteen bytes at 1024 of
    which it declares four, and a stream of two lines. *)
Definition line_slots : gmap Z Z := write (write ∅ 64 (le_encode 8 1024)) 72 (le_encode 8 4).
Definition line_memory : gmap Z Z := write line_slots 1024 (replicate 16 0).
Definition line_arena : arena := Arena 1040 4096 {[ 1024 := 16 ]}.
Definition line_file : file := File [97; 98; 99; 100; 101; 102; 10; 103] false false false 0.
Definition line_state : st (file * arena) := St line_memory 0 (line_file, line_arena).

Lemma line_heap : heap_inv line_arena line_memory.
Proof.
  split; cbn [line_arena brk limit blocks].
  - done.
  - intros x Hx. unfold line_memory, line_slots. rewrite !lookup_write_out
      by (rewrite ?length_le_encode, ?length_replicate; lia).
    apply lookup_empty.
  - intros p n [<- <-]%lookup_singleton_Some. split_and!; try done.
    apply (holds_mapped line_memory 1024 (replicate 16 0)), holds_write.
  - intros p n q k [<- <-]%lookup_singleton_Some [<- <-]%lookup_singleton_Some. done.
Qed.

#[local] Existing Instance lift_allocator.
#[local] Existing Instance lift_allocator_laws.

Lemma line_caller :
  caller_state 64 72 1024 16 (mem line_state) (al_live (ext line_state)) line_state.
Proof.
  assert (Hs : holds line_memory 64 (le_encode 8 1024)).
  { apply holds_write_other; [rewrite ?length_replicate, !length_le_encode; lia|]. apply holds_write_other; [rewrite ?length_replicate, !length_le_encode; lia|]. apply holds_write. }
  assert (Hn : holds line_memory 72 (le_encode 8 4)).
  { apply holds_write_other; [rewrite ?length_replicate, !length_le_encode; lia|]. apply holds_write. }
  split; cbn [line_state mem ext fst].
  - apply line_heap.
  - reflexivity.
  - reflexivity.
  - split_and!; [exact Hs|lia|zlia|lia].
  - split; [lia|]. exists 4. split_and!; [exact Hn|lia|zlia|lia].
  - lia.
  - intros _. apply lookup_singleton_eq.
  - unfold in_buffer0, in_slots. lia.
  - repeat constructor; lia.
  - cbn. lia.
Qed.

Lemma getdelim_reads_line_witness :
  wp (al_exits (X := file * arena)) (getdelim 64 72 10)
    (fun r st' => getdelim_post 64 72 1024 16 (mem line_state) (al_live (ext line_state)) 10
       (fst (ext line_state)) r st') line_state /\
  forall a, getdelim a 0 10 line_state = Ret (-1, St (mem line_state) EINVAL (ext line_state)) /\
    getdelim 0 a 10 line_state = Ret (-1, St (mem line_state) EINVAL (ext line_state)).
Proof. exact (getdelim_reads_line 64 72 1024 16 10 line_state ltac:(lia) line_caller). Defined.

(** The line of seven characters does not fit the four bytes declared: the buffer
    is grown once. *)
Example getdelim_example :
  match getdelim 64 72 10 line_state with
  | Ret (r, st') => r = 7 /\ f_data (fst (ext st')) = [103] /\
      load_bytes (mem st') (le_decode (default [] (load_bytes (mem st') 64 8))) 8 =
        Some [97; 98; 99; 100; 101; 102; 10; 0]
  | _ => False
  end.
Proof. vm_compute. auto. Qed.
