(* ===== verification/ScanFormat.v ===== *)
(** * Scanf formats (src/scanf_overrides.c)

    The parsers that find the [%m] conversions of a format.  A [const char *] (or
    [const wchar_t *]) into the format is the list of the characters from there
    to the end, the terminating zero included; reading past it is [None].  A
    [va_list] is the list of the pointers that are left in it.  The narrow and
    the wide parsers are the same text on two character types: one definition
    each, used at both. *)
From S2P Require Import Prelude CMem CCmd CLib.

(** ** Data *)

Definition AO_SIZE_DEF : Z := 0.
Definition AO_SIZE_L : Z := 1.

Inductive ao_rehome_mode :=
| AO_REHOME_CHAR_STRING
| AO_REHOME_WIDE_STRING
| AO_REHOME_CHAR_COUNT
| AO_REHOME_WIDE_COUNT
| AO_REHOME_UNSUPPORTED_WIDE_CHAR_COUNT.

#[export] Instance rehome_mode_eq_dec : EqDecision ao_rehome_mode.
Proof. solve_decision. Defined.

Record ao_scanf_record := ScanfRecord {
  slot : Z;
  ordinal : Z;
  mode : ao_rehome_mode;
  width : Z
}.

(** Characters of the formats, by their codes. *)
Definition ch_percent : Z := 37.
Definition ch_dollar : Z := 36.
Definition ch_star : Z := 42.
Definition ch_caret : Z := 94.
Definition ch_lbracket : Z := 91.
Definition ch_rbracket : Z := 93.
Definition ch_m : Z := 109.
Definition ch_l : Z := 108.
Definition ch_h : Z := 104.
Definition ch_j : Z := 106.
Definition ch_z : Z := 122.
Definition ch_t : Z := 116.
Definition ch_L : Z := 76.
Definition ch_s : Z := 115.
Definition ch_c : Z := 99.
Definition ch_n : Z := 110.

(** ** Cursors *)

Definition ao_is_digit_char (c : Z) : bool := (48 <=? c) && (c <=? 57).
Definition ao_is_digit_wchar (c : Z) : bool := (48 <=? c) && (c <=? 57).
Definition is_digit (K : char_kind) : Z -> bool :=
  match K with Narrow => ao_is_digit_char | Wide => ao_is_digit_wchar end.

(** The value of the digits, saturated; the cursor after them. *)
Fixpoint parse_width (K : char_kind) (p : list Z) (w : Z) : option (Z * list Z) :=
  match p with
  | [] => None
  | c :: p' =>
      if is_digit K c
      then parse_width K p'
             (if (SIZE_MAX - 9) / 10 <? w then SIZE_MAX else u64 (w * 10 + (c - 48)))
      else Some (w, p)
  end.
Definition ao_parse_width_char (p : list Z) : option (Z * list Z) := parse_width Narrow p 0.
Definition ao_parse_width_wchar (p : list Z) : option (Z * list Z) := parse_width Wide p 0.

Fixpoint position_digits (K : char_kind) (p : list Z) (value : Z) : option (Z * list Z) :=
  match p with
  | [] => None
  | c :: p' =>
      if is_digit K c then position_digits K p' (u32 (value * 10 + (c - 48)))
      else Some (value, p)
  end.

(** The result, [*position] and [*cursor]. *)
Definition parse_position (K : char_kind) (p : list Z) (position : Z) :
    option (bool * Z * list Z) :=
  match p with
  | [] => None
  | c :: _ =>
      if negb (is_digit K c) then Some (false, position, p)
      else
        match position_digits K p 0 with
        | Some (value, c' :: q) =>
            if negb (c' =? ch_dollar) then Some (false, position, p)
            else Some (negb (value =? 0), value, q)
        | _ => None
        end
  end.
Definition ao_parse_position_char := parse_position Narrow.
Definition ao_parse_position_wchar := parse_position Wide.

Definition va_arg (ap : list Z) : option (Z * list Z) :=
  match ap with a :: ap' => Some (a, ap') | [] => None end.

(** The [n]th pointer from where [ap] is. *)
Fixpoint skip_args (k : nat) (ap : list Z) : option (list Z) :=
  match k with
  | O => Some ap
  | S k' => match va_arg ap with Some (_, ap') => skip_args k' ap' | None => None end
  end.
Definition ao_arg_n (ap : list Z) (n : Z) : option Z :=
  match skip_args (Z.to_nat (n - 1)) ap with
  | Some ap' => fst <$> va_arg ap'
  | None => None
  end.

(** To the closing bracket of a set, or to the end of the format. *)
Fixpoint skip_set_body (p : list Z) : option (list Z) :=
  match p with
  | [] => None
  | c :: p' => if (c =? 0) then Some p else if c =? ch_rbracket then Some p' else skip_set_body p'
  end.
Definition skip_one (ch : Z) (p : list Z) : option (list Z) :=
  match p with [] => None | c :: p' => Some (if c =? ch then p' else p) end.
Definition skip_scanset (p : list Z) : option (list Z) :=
  match skip_one ch_caret p with
  | Some p => match skip_one ch_rbracket p with Some p => skip_set_body p | None => None end
  | None => None
  end.
Definition ao_skip_scanset_char := skip_scanset.
Definition ao_skip_scanset_wchar := skip_scanset.

(** ** One conversion, after its percent sign *)

Record conversion := Conversion {
  cv_suppressed : bool;
  cv_dest : Z;
  cv_width : Z;
  cv_alloc : bool;
  cv_size : Z;
  cv_spec : Z
}.

(** The assignment suppression, or the position and the pointer. *)
Definition parse_target (K : char_kind) (p ap : list Z) : option (bool * Z * list Z * list Z) :=
  match p with
  | [] => None
  | c :: p' =>
      if c =? ch_star then Some (true, 0, p', ap)
      else
        match parse_position K p 0 with
        | Some (true, position, q) =>
            match ao_arg_n ap position with Some dest => Some (false, dest, q, ap) | None => None end
        | Some (false, _, q) =>
            match va_arg ap with Some (dest, ap') => Some (false, dest, q, ap') | None => None end
        | None => None
        end
  end.

Definition parse_opt_width (K : char_kind) (p : list Z) : option (Z * list Z) :=
  match p with
  | [] => None
  | c :: _ => if is_digit K c then parse_width K p 0 else Some (0, p)
  end.

Definition parse_alloc (p : list Z) : option (bool * list Z) :=
  match p with
  | [] => None
  | c :: p' => Some (if c =? ch_m then (true, p') else (false, p))
  end.

Definition parse_size (p : list Z) : option (Z * list Z) :=
  match p with
  | [] => None
  | c :: p' =>
      if c =? ch_l then
        match p' with
        | [] => None
        | c' :: p'' => Some (if negb (c' =? ch_l) then (AO_SIZE_L, p') else (AO_SIZE_DEF, p''))
        end
      else if (c =? ch_h) || (c =? ch_j) || (c =? ch_z) || (c =? ch_t) || (c =? ch_L) then
        if c =? ch_h then
          match p' with
          | [] => None
          | c' :: p'' => Some (AO_SIZE_DEF, if c' =? ch_h then p'' else p')
          end
        else Some (AO_SIZE_DEF, p')
      else Some (AO_SIZE_DEF, p)
  end.

(** [%C] and [%S] are [%lc] and [%ls]. *)
Definition parse_spec (size c : Z) : Z * Z :=
  if Z.land c 47 =? 3 then (Z.lor c 32, AO_SIZE_L) else (c, size).

(** [Some None]: the format ends inside the conversion. *)
Definition parse_conversion (K : char_kind) (p ap : list Z) :
    option (option (conversion * list Z) * list Z) :=
  match parse_target K p ap with
  | Some (suppressed, dest, p, ap) =>
      match parse_opt_width K p with
      | Some (width, p) =>
          match parse_alloc p with
          | Some (alloc, p) =>
              match parse_size p with
              | Some (size, c :: p) =>
                  if c =? 0 then Some (None, ap)
                  else
                    let '(spec, size) := parse_spec size c in
                    Some (Some (Conversion suppressed dest width alloc size spec, p), ap)
              | _ => None
              end
          | None => None
          end
      | None => None
      end
  | None => None
  end.

(** ** The record of a conversion *)

Definition ao_narrow_mode (size spec : Z) : ao_rehome_mode :=
  if spec =? ch_c then if size =? AO_SIZE_L then AO_REHOME_WIDE_COUNT else AO_REHOME_CHAR_COUNT
  else if size =? AO_SIZE_L then AO_REHOME_WIDE_STRING else AO_REHOME_CHAR_STRING.

Definition ao_wide_mode (size spec : Z) : ao_rehome_mode :=
  if spec =? ch_c
  then if size =? AO_SIZE_L then AO_REHOME_WIDE_COUNT else AO_REHOME_UNSUPPORTED_WIDE_CHAR_COUNT
  else if size =? AO_SIZE_L then AO_REHOME_WIDE_STRING else AO_REHOME_CHAR_STRING.

Definition record_mode (K : char_kind) : Z -> Z -> ao_rehome_mode :=
  match K with Narrow => ao_narrow_mode | Wide => ao_wide_mode end.

(** Whether the conversion allocates, and the width it is recorded with. *)
Definition is_m_conversion (v : conversion) : bool :=
  cv_alloc v && negb (cv_suppressed v) &&
  ((cv_spec v =? ch_s) || (cv_spec v =? ch_c) || (cv_spec v =? ch_lbracket)).
Definition effective_width (v : conversion) : Z :=
  if (cv_spec v =? ch_c) && (cv_width v =? 0) then 1 else cv_width v.
Definition counts (v : conversion) : bool := negb (cv_suppressed v) && negb (cv_spec v =? ch_n).
