(* ===== verification/ScanGrammar.v ===== *)
(** * The grammar of scanf formats, and what a format asks to be recorded

    An abstract syntax of formats with its printer, and the list of records a
    format calls for, by recursion on the syntax.  The theorems show that the
    character-level parsers of [ScanFormat] compute it on every printed format. *)
From S2P Require Import Prelude CMem CCmd CLib ScanFormat.

(** ** Syntax *)

Inductive length_modifier := LenNone | Len_hh | Len_h | Len_l | Len_ll | Len_j | Len_z | Len_t | Len_L.

Definition length_chars (n : length_modifier) : list Z :=
  match n with
  | LenNone => [] | Len_hh => [ch_h; ch_h] | Len_h => [ch_h] | Len_l => [ch_l]
  | Len_ll => [ch_l; ch_l] | Len_j => [ch_j] | Len_z => [ch_z] | Len_t => [ch_t] | Len_L => [ch_L]
  end.

Inductive target := Suppressed | Positional (digits : list Z) | NextArg.

(** The directive [%], target, width, [m], length, conversion; [d_set] is the text
    of a scanset after its bracket, without the closing bracket. *)
Record directive := Directive {
  d_target : target;
  d_width : list Z;
  d_alloc : bool;
  d_length : length_modifier;
  d_spec : Z;
  d_set : list Z
}.

Inductive item := Literal (c : Z) | Percent | Directed (d : directive).

Definition target_chars (t : target) : list Z :=
  match t with Suppressed => [ch_star] | Positional ds => ds ++ [ch_dollar] | NextArg => [] end.

(** What follows the length modifier, from the conversion character on. *)
Definition spec_chars (d : directive) : list Z :=
  d_spec d :: (if d_spec d =? ch_lbracket then d_set d ++ [ch_rbracket] else []).

Definition directive_chars (d : directive) : list Z :=
  target_chars (d_target d) ++ d_width d ++ (if d_alloc d then [ch_m] else []) ++
  length_chars (d_length d) ++ spec_chars d.

Definition item_chars (i : item) : list Z :=
  match i with
  | Literal c => [c]
  | Percent => [ch_percent; ch_percent]
  | Directed d => ch_percent :: directive_chars d
  end.

(** The characters of a format, with the terminator. *)
Definition print_format (its : list item) : list Z := concat (map item_chars its) ++ [0].

(** ** Well-formedness *)

Definition digit (c : Z) : Prop := 48 <= c <= 57.

(** The value the digits denote. *)
Definition decimal (ds : list Z) : Z := fold_left (fun a c => a * 10 + (c - 48)) ds 0.

(** Conversion characters: printable, not a digit, and none of the characters a
    directive may have before its conversion. *)
Definition spec_ok (c : Z) : Prop :=
  33 <= c <= 126 /\ ~ digit c /\
  c ∉ [ch_percent; ch_star; ch_dollar; ch_m; ch_l; ch_h; ch_j; ch_z; ch_t; ch_L].

(** A scanset: an optional caret, an optional bracket, and no bracket after. *)
Definition set_ok (set : list Z) : Prop :=
  exists caret bracket body,
    set = (if caret : bool then [ch_caret] else []) ++ (if bracket : bool then [ch_rbracket] else []) ++ body /\
    Forall (fun c => c <> 0 /\ c <> ch_rbracket) body /\
    (caret = false -> bracket = false -> head body <> Some ch_caret) /\
    (bracket = false -> body <> []).

Definition target_ok (t : target) : Prop :=
  match t with
  | Positional ds => ds <> [] /\ Forall digit ds /\ 0 < decimal ds < 2 ^ 32
  | _ => True
  end.

Definition directive_ok (d : directive) : Prop :=
  target_ok (d_target d) /\ Forall digit (d_width d) /\ spec_ok (d_spec d) /\
  (d_spec d = ch_lbracket -> set_ok (d_set d)).

Definition item_ok (i : item) : Prop :=
  match i with
  | Literal c => c <> 0 /\ c <> ch_percent
  | Percent => True
  | Directed d => directive_ok d
  end.

(** ** Meaning *)

(** The largest width the parser represents; larger ones saturate. *)
Definition MAX_WIDTH : Z := (SIZE_MAX - 9) / 10 * 10 + 9.
Definition saturate (n : Z) : Z := if n <=? MAX_WIDTH then n else SIZE_MAX.

(** [%C] stands for [%lc] and [%S] for [%ls]. *)
Definition spec_letter (c : Z) : Z := if c =? 67 then ch_c else if c =? 83 then ch_s else c.
Definition is_long (d : directive) : bool :=
  (d_spec d =? 67) || (d_spec d =? 83) ||
  match d_length d with Len_l => true | _ => false end.

(** The pointer of a directive and the arguments left. *)
Definition directive_arg (d : directive) (ap : list Z) : option (Z * list Z) :=
  match d_target d with
  | Suppressed => Some (0, ap)
  | Positional ds => (fun dest => (dest, ap)) <$> ap !! Z.to_nat (decimal ds - 1)
  | NextArg => match ap with dest :: ap' => Some (dest, ap') | [] => None end
  end.

Definition is_suppressed (d : directive) : bool :=
  match d_target d with Suppressed => true | _ => false end.

(** The kind of the object an [m] directive yields. *)
Definition directive_mode (K : char_kind) (d : directive) : ao_rehome_mode :=
  match spec_letter (d_spec d) =? ch_c, is_long d, K with
  | true, true, _ => AO_REHOME_WIDE_COUNT
  | true, false, Narrow => AO_REHOME_CHAR_COUNT
  | true, false, Wide => AO_REHOME_UNSUPPORTED_WIDE_CHAR_COUNT
  | false, true, _ => AO_REHOME_WIDE_STRING
  | false, false, _ => AO_REHOME_CHAR_STRING
  end.

(** The record of the directive whose number among the assignments is [ordinal]. *)
Definition directive_record (K : char_kind) (d : directive) (dest ordinal : Z) :
    option ao_scanf_record :=
  let c := spec_letter (d_spec d) in
  if d_alloc d && negb (is_suppressed d) && ((c =? ch_s) || (c =? ch_c) || (c =? ch_lbracket)) &&
     negb (dest =? 0)
  then
    let w := saturate (decimal (d_width d)) in
    Some (ScanfRecord dest ordinal (directive_mode K d) (if (c =? ch_c) && (w =? 0) then 1 else w))
  else None.

(** The assignments are numbered from 1: all directives but the suppressed ones
    and [%n]. *)
Definition assigns (d : directive) : bool :=
  negb (is_suppressed d) && negb (spec_letter (d_spec d) =? ch_n).

(** The records of a format; [None] when the arguments run out. *)
Fixpoint format_records (K : char_kind) (its : list item) (ap : list Z) (assigned : Z) :
    option (list ao_scanf_record) :=
  match its with
  | [] => Some []
  | Directed d :: its' =>
      match directive_arg d ap with
      | None => None
      | Some (dest, ap') =>
          app (option_list (directive_record K d dest (assigned + 1))) <$>
            format_records K its' ap' (if assigns d then assigned + 1 else assigned)
      end
  | _ :: its' => format_records K its' ap assigned
  end.

(** ** Digits *)

Lemma is_digit_spec K c : is_digit K c = true <-> digit c.
Proof. unfold digit. destruct K; cbn; unfold ao_is_digit_char, ao_is_digit_wchar; lia. Qed.

Lemma is_digit_false K c : is_digit K c = false <-> ~ digit c.
Proof. rewrite <- (is_digit_spec K). by destruct (is_digit K c). Qed.

Lemma fold_decimal_nonneg ds w :
  Forall digit ds -> 0 <= w -> 0 <= fold_left (fun a c => a * 10 + (c - 48)) ds w.
Proof.
  intros H. revert w. induction H as [|c ds Hc _ IH]; intros w Hw; cbn; [done|].
  apply IH. unfold digit in Hc. lia.
Qed.

Lemma decimal_nonneg ds : Forall digit ds -> 0 <= decimal ds.
Proof. intros H. by apply fold_decimal_nonneg. Qed.

Lemma saturate_step x c :
  0 <= x -> digit c ->
  (if (SIZE_MAX - 9) / 10 <? saturate x then SIZE_MAX else u64 (saturate x * 10 + (c - 48)))
  = saturate (x * 10 + (c - 48)).
Proof.
  unfold digit, saturate, MAX_WIDTH. intros Hx Hc.
  change ((SIZE_MAX - 9) / 10) with 1844674407370955160.
  destruct (Z.leb_spec x (1844674407370955160 * 10 + 9)) as [Hm|Hm].
  - destruct (Z.ltb_spec 1844674407370955160 x).
    + destruct (Z.leb_spec (x * 10 + (c - 48)) (1844674407370955160 * 10 + 9)); [lia|done].
    + destruct (Z.leb_spec (x * 10 + (c - 48)) (1844674407370955160 * 10 + 9)); [|lia].
      apply u64_small. zlia.
  - destruct (Z.ltb_spec 1844674407370955160 SIZE_MAX); [|zlia].
    destruct (Z.leb_spec (x * 10 + (c - 48)) (1844674407370955160 * 10 + 9)); [lia|done].
Qed.

Lemma parse_width_fold K ds c p x :
  Forall digit ds -> ~ digit c -> 0 <= x ->
  parse_width K (ds ++ c :: p) (saturate x) =
    Some (saturate (fold_left (fun a c => a * 10 + (c - 48)) ds x), c :: p).
Proof.
  intros H Hc. revert x. induction H as [|d ds Hd _ IH]; intros x Hx; cbn.
  - by rewrite (proj2 (is_digit_false K c) Hc).
  - rewrite (proj2 (is_digit_spec K d) Hd), saturate_step by done. apply IH.
    unfold digit in Hd. lia.
Qed.

Lemma parse_width_digits K ds c p :
  Forall digit ds -> ~ digit c ->
  parse_width K (ds ++ c :: p) 0 = Some (saturate (decimal ds), c :: p).
Proof. intros H Hc. by apply (parse_width_fold K ds c p 0). Qed.

Lemma position_digits_fold K ds c p x :
  Forall digit ds -> ~ digit c ->
  position_digits K (ds ++ c :: p) (u32 x) =
    Some (u32 (fold_left (fun a c => a * 10 + (c - 48)) ds x), c :: p).
Proof.
  intros H Hc. revert x. induction H as [|d ds Hd _ IH]; intros x; cbn.
  - by rewrite (proj2 (is_digit_false K c) Hc).
  - rewrite (proj2 (is_digit_spec K d) Hd), <- IH. f_equal. unfold u32.
    rewrite <- Z.add_mod_idemp_l, Z.mul_mod_idemp_l, Z.add_mod_idemp_l by lia. done.
Qed.

Lemma position_digits_decimal K ds c p :
  Forall digit ds -> ~ digit c ->
  position_digits K (ds ++ c :: p) 0 = Some (u32 (decimal ds), c :: p).
Proof. intros H Hc. by apply (position_digits_fold K ds c p 0). Qed.

(** ** The parsers on printed text *)

Lemma skip_args_drop k ap : (k <= length ap)%nat -> skip_args k ap = Some (drop k ap).
Proof.
  revert ap. induction k as [|k IH]; intros ap Hk; [done|].
  destruct ap as [|a ap]; cbn in Hk |- *; [lia|]. apply IH. lia.
Qed.

Lemma skip_args_short k ap : (length ap < k)%nat -> skip_args k ap = None.
Proof.
  revert ap. induction k as [|k IH]; intros ap Hk; [lia|].
  destruct ap as [|a ap]; cbn in Hk |- *; [done|]. apply IH. lia.
Qed.

Lemma arg_n_lookup ap n : ao_arg_n ap n = ap !! Z.to_nat (n - 1).
Proof.
  unfold ao_arg_n. set (k := Z.to_nat (n - 1)).
  destruct (decide (k <= length ap)%nat) as [Hk|Hk].
  - rewrite skip_args_drop by done. rewrite <- (Nat.add_0_r k) at 2. rewrite <- lookup_drop.
    by destruct (drop k ap).
  - rewrite skip_args_short by lia. symmetry. apply lookup_ge_None. lia.
Qed.

(** What may follow the width. *)
Definition stops (c : Z) : Prop := ~ digit c /\ c <> ch_dollar /\ c <> ch_star.

Lemma stops_not_digit c : stops c -> ~ digit c.
Proof. by intros []. Qed.

Lemma digit_not_star c : digit c -> (c =? ch_star) = false.
Proof. unfold digit, ch_star. lia. Qed.

Lemma parse_position_none K ds c q pos :
  Forall digit ds -> stops c ->
  parse_position K (ds ++ c :: q) pos = Some (false, pos, ds ++ c :: q).
Proof.
  intros H [Hc [Hd _]]. unfold parse_position. destruct H as [|d ds Hd' H]; cbn [app].
  - by rewrite (proj2 (is_digit_false K c) Hc).
  - rewrite (proj2 (is_digit_spec K d) Hd'). cbn [negb].
    rewrite app_comm_cons, position_digits_decimal by (done || by constructor).
    by rewrite (proj2 (Z.eqb_neq _ _) Hd).
Qed.

Lemma parse_position_some K ds q pos :
  ds <> [] -> Forall digit ds ->
  parse_position K (ds ++ ch_dollar :: q) pos =
    Some (negb (u32 (decimal ds) =? 0), u32 (decimal ds), q).
Proof.
  intros Hne H. unfold parse_position. destruct H as [|d ds Hd H]; cbn [app]; [done|].
  rewrite (proj2 (is_digit_spec K d) Hd). cbn [negb].
  rewrite app_comm_cons, position_digits_decimal; [done|by constructor|].
  unfold digit, ch_dollar. lia.
Qed.

Lemma parse_target_printed K t ds c q ap dest ap' d :
  target_ok t -> Forall digit ds -> stops c ->
  d_target d = t -> directive_arg d ap = Some (dest, ap') ->
  parse_target K (target_chars t ++ ds ++ c :: q) ap =
    Some (is_suppressed d, dest, ds ++ c :: q, ap').
Proof.
  intros Ht H Hc Hd. unfold directive_arg, is_suppressed. rewrite Hd.
  destruct t as [|pds|]; cbn [target_chars app].
  - intros [= <- <-]. done.
  - destruct Ht as (Hne & Hp & Hv). intros (x & Hx & [= -> ->])%fmap_Some.
    rewrite <- app_assoc. cbn [app]. unfold parse_target.
    destruct pds as [|pd pds]; [done|]. cbn [app].
    rewrite (digit_not_star pd) by (by inversion Hp). rewrite app_comm_cons.
    rewrite parse_position_some by done.
    assert (Hu : u32 (decimal (pd :: pds)) = decimal (pd :: pds)) by (apply Z.mod_small; lia).
    rewrite Hu.
    destruct (Z.eqb_spec (decimal (pd :: pds)) 0); [lia|]. cbn [negb].
    by rewrite arg_n_lookup, Hx.
  - intros Harg. destruct ap as [|a ap]; [done|]. injection Harg as -> ->.
    assert (Hhd : exists x l, ds ++ c :: q = x :: l /\ (x =? ch_star) = false).
    { destruct H as [|x ds Hx _]; cbn; [|eexists _, _; split; [done|by apply digit_not_star]].
      eexists _, _; split; [done|]. by apply Z.eqb_neq, Hc. }
    pose proof (parse_position_none K ds c q 0 H Hc) as Hpos.
    destruct Hhd as (x & l & Hl & Hx). rewrite Hl in *. unfold parse_target. by rewrite Hx, Hpos.
Qed.

Lemma parse_opt_width_printed K ds c q :
  Forall digit ds -> ~ digit c ->
  parse_opt_width K (ds ++ c :: q) = Some (saturate (decimal ds), c :: q).
Proof.
  intros H Hc. unfold parse_opt_width. destruct H as [|d ds Hd H]; cbn [app].
  - by rewrite (proj2 (is_digit_false K c) Hc).
  - rewrite (proj2 (is_digit_spec K d) Hd), app_comm_cons.
    apply parse_width_digits; [by constructor|done].
Qed.

(** The characters a conversion character is not. *)
Lemma spec_ok_neq c x :
  spec_ok c -> x ∈ [ch_percent; ch_star; ch_dollar; ch_m; ch_l; ch_h; ch_j; ch_z; ch_t; ch_L] ->
  (c =? x) = false.
Proof. intros (_ & _ & Hc) Hx. apply Z.eqb_neq. by intros ->. Qed.

Ltac spec_neq H := rewrite !(spec_ok_neq _ _ H) by set_solver.

Definition length_size (n : length_modifier) : Z :=
  match n with Len_l => AO_SIZE_L | _ => AO_SIZE_DEF end.

Lemma parse_size_printed n c q :
  spec_ok c -> parse_size (length_chars n ++ c :: q) = Some (length_size n, c :: q).
Proof.
  intros Hc. destruct n; cbn [length_chars app parse_size]; try reflexivity;
    try (rewrite (spec_ok_neq c ch_l Hc) by set_solver; cbn);
    try (rewrite (spec_ok_neq c ch_h Hc) by set_solver; cbn); try reflexivity.
  by rewrite (spec_ok_neq c ch_j Hc), (spec_ok_neq c ch_z Hc), (spec_ok_neq c ch_t Hc),
    (spec_ok_neq c ch_L Hc) by set_solver.
Qed.

Lemma parse_spec_letter size c :
  spec_ok c ->
  parse_spec size c = (spec_letter c, if (c =? 67) || (c =? 83) then AO_SIZE_L else size).
Proof.
  intros (Hc & _ & _).
  assert (H : forallb (fun c => eqb (Z.land c 47 =? 3) ((c =? 67) || (c =? 83))) (seqZ 33 94) = true)
    by (vm_compute; reflexivity).
  rewrite forallb_forall in H. specialize (H c). rewrite eqb_true_iff in H.
  unfold parse_spec. rewrite H by (apply list_elem_of_In, elem_of_seqZ; lia).
  unfold spec_letter. destruct (Z.eqb_spec c 67) as [->|]; [done|].
  by destruct (Z.eqb_spec c 83) as [->|].
Qed.

(** ** Scansets *)

Lemma skip_set_body_printed body q :
  Forall (fun c => c <> 0 /\ c <> ch_rbracket) body ->
  skip_set_body (body ++ ch_rbracket :: q) = Some q.
Proof.
  induction 1 as [|c body [H0 Hb] _ IH]; cbn; [done|].
  destruct (Z.eqb_spec c 0); [done|]. by destruct (Z.eqb_spec c ch_rbracket).
Qed.

Lemma skip_one_other ch p c : c <> ch -> skip_one ch (c :: p) = Some (c :: p).
Proof. intros H. cbn. by destruct (Z.eqb_spec c ch). Qed.

Lemma skip_scanset_printed set q :
  set_ok set -> skip_scanset (set ++ ch_rbracket :: q) = Some q.
Proof.
  intros (caret & bracket & body & -> & H & Hhd & Hne). unfold skip_scanset.
  rewrite <- !app_assoc.
  assert (Hc : skip_one ch_caret ((if caret then [ch_caret] else []) ++
      (if bracket then [ch_rbracket] else []) ++ body ++ ch_rbracket :: q) =
    Some ((if bracket then [ch_rbracket] else []) ++ body ++ ch_rbracket :: q)).
  { destruct caret; [done|]. cbn [app]. destruct bracket; [done|]. cbn [app].
    destruct body as [|c body]; [by destruct (Hne eq_refl)|]. apply skip_one_other.
    intros ->. by apply Hhd. }
  rewrite Hc. assert (Hb : skip_one ch_rbracket
      ((if bracket then [ch_rbracket] else []) ++ body ++ ch_rbracket :: q) =
    Some (body ++ ch_rbracket :: q)).
  { destruct bracket; [done|]. cbn [app]. destruct body as [|c body]; [by destruct (Hne eq_refl)|].
    apply skip_one_other. by inversion H as [|? ? []]. }
  rewrite Hb. by apply skip_set_body_printed.
Qed.

(** ** A whole directive *)

Definition directive_conversion (d : directive) (dest : Z) : conversion :=
  Conversion (is_suppressed d) dest (saturate (decimal (d_width d))) (d_alloc d)
    (if is_long d then AO_SIZE_L else AO_SIZE_DEF) (spec_letter (d_spec d)).

Lemma spec_stops c : spec_ok c -> stops c.
Proof.
  intros H. pose proof (spec_ok_neq c ch_dollar H) as H1. pose proof (spec_ok_neq c ch_star H) as H2.
  rewrite Z.eqb_neq in H1, H2. split_and!; [apply H|apply H1; set_solver|apply H2; set_solver].
Qed.

(** The first character after the width. *)
Lemma after_width_stops d q :
  spec_ok (d_spec d) ->
  exists c l, (if d_alloc d then [ch_m] else []) ++ length_chars (d_length d) ++ d_spec d :: q = c :: l
    /\ stops c.
Proof.
  intros H. pose proof (spec_stops _ H) as Hs. unfold stops, digit, ch_dollar, ch_star in *.
  destruct (d_alloc d), (d_length d); cbn; eexists _, _; (split; [done|]); try exact Hs;
    unfold ch_m, ch_h, ch_l, ch_j, ch_z, ch_t, ch_L; lia.
Qed.

Lemma parse_conversion_printed K d q ap dest ap' :
  directive_ok d -> directive_arg d ap = Some (dest, ap') ->
  parse_conversion K (directive_chars d ++ q) ap =
    Some (Some (directive_conversion d dest,
                (if d_spec d =? ch_lbracket then d_set d ++ ch_rbracket :: q else q)), ap').
Proof.
  intros (Ht & Hw & Hs & Hset) Harg. unfold directive_chars, parse_conversion.
  rewrite <- !app_assoc. set (tail := (if d_spec d =? ch_lbracket then _ else q)).
  assert (Hspec : spec_chars d ++ q = d_spec d :: tail).
  { unfold spec_chars, tail. destruct (d_spec d =? ch_lbracket); cbn; [|done].
    by rewrite <- app_assoc. }
  rewrite Hspec. destruct (after_width_stops d tail Hs) as (c & l & Hl & Hc). rewrite Hl.
  rewrite (parse_target_printed K _ _ _ _ ap dest ap' d) by done.
  rewrite parse_opt_width_printed by (done || by apply stops_not_digit).
  rewrite <- Hl. 
  assert (Ha : parse_alloc ((if d_alloc d then [ch_m] else []) ++ length_chars (d_length d) ++
      d_spec d :: tail) = Some (d_alloc d, length_chars (d_length d) ++ d_spec d :: tail)).
  { destruct (d_alloc d); [done|]. destruct (d_length d); try reflexivity. cbn.
    by rewrite (spec_ok_neq (d_spec d) ch_m Hs) by set_solver. }
  rewrite Ha, parse_size_printed by done.
  assert (H0 : (d_spec d =? 0) = false) by (apply Z.eqb_neq; destruct Hs; lia).
  rewrite H0, parse_spec_letter by done. unfold directive_conversion, is_long, length_size.
  by destruct (d_spec d =? 67), (d_spec d =? 83), (d_length d).
Qed.

Lemma directive_record_conversion K d dest ord :
  directive_record K d dest ord =
    let v := directive_conversion d dest in
    if is_m_conversion v && negb (dest =? 0)
    then Some (ScanfRecord dest ord (record_mode K (cv_size v) (cv_spec v)) (effective_width v))
    else None.
Proof.
  unfold directive_record, is_m_conversion, effective_width, directive_conversion. cbn.
  destruct (_ && negb (dest =? 0)); [|done]. f_equal. f_equal.
  unfold directive_mode, record_mode, ao_narrow_mode, ao_wide_mode.
  by destruct K, (is_long d), (spec_letter (d_spec d) =? ch_c).
Qed.

Lemma assigns_counts d dest : counts (directive_conversion d dest) = assigns d.
Proof. done. Qed.

Lemma directive_first d q :
  directive_ok d -> exists x l, directive_chars d ++ q = x :: l /\ (x =? ch_percent) = false.
Proof.
  intros (Ht & Hw & Hs & _). unfold directive_chars. rewrite <- !app_assoc.
  assert (Hdig : forall c, digit c -> (c =? ch_percent) = false)
    by (unfold digit, ch_percent; lia).
  destruct (d_target d) as [|pds|]; cbn [target_chars app].
  - by eexists _, _.
  - destruct Ht as (Hne & Hp & _). destruct Hp as [|c pds Hc Hp]; [done|]. cbn.
    eexists _, _. split; [done|auto].
  - destruct Hw as [|c w Hc _]; cbn; [|eexists _, _; split; [done|auto]].
    pose proof (spec_ok_neq (d_spec d) ch_percent Hs ltac:(set_solver)) as Hsp.
    unfold spec_chars. destruct (d_alloc d), (d_length d); cbn; by eexists _, _.
Qed.

Lemma spec_set_skipped d q :
  directive_ok d ->
  let p := if d_spec d =? ch_lbracket then d_set d ++ ch_rbracket :: q else q in
  (if spec_letter (d_spec d) =? ch_lbracket then skip_scanset p else Some p) = Some q.
Proof.
  intros (_ & _ & _ & Hset) p. subst p.
  assert (H : (spec_letter (d_spec d) =? ch_lbracket) = (d_spec d =? ch_lbracket)).
  { unfold spec_letter. destruct (Z.eqb_spec (d_spec d) 67) as [->|]; [done|].
    by destruct (Z.eqb_spec (d_spec d) 83) as [->|]. }
  rewrite H. destruct (Z.eqb_spec (d_spec d) ch_lbracket); [|done].
  by apply skip_scanset_printed, Hset.
Qed.
