(* ===== verification/Scanf.v ===== *)
(** * The scanf family (src/scanf_overrides.c)

    The wrappers let the C library scan and then move the [%m] results that the
    preloaded allocator does not own into blocks of that allocator.  The C
    library's scanners, the dynamic linker and the bridge of the preloaded
    allocator are parameters ([ScanfWorld]). *)
From S2P Require Import Prelude CMem CCmd CLib Alloc ScanFormat.

(** ** State *)

(** The static variables; a function pointer is an address, 0 for null. *)
Record scanf_globals := ScanfGlobals {
  g_ao_scanf_once : bool;
  g_real_vfscanf : Z;
  g_real_isoc99_vfscanf : Z;
  g_real_vsscanf : Z;
  g_real_isoc99_vsscanf : Z;
  g_real_vfwscanf : Z;
  g_real_isoc99_vfwscanf : Z;
  g_real_vswscanf : Z;
  g_real_isoc99_vswscanf : Z;
  g_bridge_owns : Z;
  g_bridge_libc_free : Z;
  g_bridge_libc_realloc : Z;
  g_bridge_ready : bool
}.

Definition initial_scanf_globals : scanf_globals :=
  ScanfGlobals false 0 0 0 0 0 0 0 0 0 0 0 false.

(** What the file links against: [dlsym] with [RTLD_NEXT] and [RTLD_DEFAULT], the
    scanner behind a function pointer (given the stream or the input string, the
    format and the arguments), [stdin], and the bridge functions. *)
Class ScanfWorld (X : Type) := {
  dlsym_next : string -> C X Z;
  dlsym_default : string -> C X Z;
  libc_scan : Z -> Z -> Z -> list Z -> C X Z;
  stdin : Z;
  bridge_owns : Z -> C X Z;
  bridge_libc_free : Z -> C X unit
}.

(** The local variable [plan]. *)
Record ao_scanf_plan := ScanfPlan { records : Z; count : Z; capacity : Z }.

(** [struct ao_scanf_record] in memory. *)
Definition SIZEOF_RECORD : Z := 24.
Definition mode_code (d : ao_rehome_mode) : Z :=
  match d with
  | AO_REHOME_CHAR_STRING => 0
  | AO_REHOME_WIDE_STRING => 1
  | AO_REHOME_CHAR_COUNT => 2
  | AO_REHOME_WIDE_COUNT => 3
  | AO_REHOME_UNSUPPORTED_WIDE_CHAR_COUNT => 4
  end.
Definition mode_of_code (z : Z) : option ao_rehome_mode :=
  if z =? 0 then Some AO_REHOME_CHAR_STRING
  else if z =? 1 then Some AO_REHOME_WIDE_STRING
  else if z =? 2 then Some AO_REHOME_CHAR_COUNT
  else if z =? 3 then Some AO_REHOME_WIDE_COUNT
  else if z =? 4 then Some AO_REHOME_UNSUPPORTED_WIDE_CHAR_COUNT
  else None.
Definition record_bytes (r : ao_scanf_record) : list Z :=
  le_encode 8 (slot r) ++ le_encode 4 (ordinal r) ++ le_encode 4 (mode_code (mode r)) ++
  le_encode 8 (width r).

Definition lift_opt {X A} (o : option A) : C X A :=
  match o with Some a => ret a | None => undef end.

(** The format as the list of its characters and its terminator. *)
Fixpoint format_loop (K : char_kind) (fuel : nat) (m : gmap Z Z) (a : Z) : option (list Z) :=
  match fuel with
  | O => None
  | S fuel' =>
      match load_bytes m a (char_size K) with
      | None => None
      | Some bs =>
          let c := le_decode bs in
          if c =? 0 then Some [c] else (cons c) <$> format_loop K fuel' m (a + char_size K)
      end
  end.
Definition read_format {X} (K : char_kind) (a : Z) : C X (list Z) := fun s =>
  match format_loop K (S (size (mem s))) (mem s) a with Some l => Ret (l, s) | None => Undef end.

Section Definitions.
Context {X : Type} `{!Allocator X} `{!ScanfWorld X}.
Abbreviation W := (scanf_globals * X)%type.
#[local] Existing Instance lift_allocator.

Definition get_scanf : C W scanf_globals := fun s => Ret (fst (ext s), s).
Definition put_scanf (g : scanf_globals) : C W unit := fun s =>
  Ret (tt, St (mem s) (errno s) (g, snd (ext s))).

(** ** Resolution *)

Definition ao_resolve_function (name : string) : C W Z := lift (dlsym_next name).
Definition ao_resolve_default_symbol (name : string) : C W Z := lift (dlsym_default name).

Definition or_else (p q : Z) : Z := if p =? 0 then q else p.

Definition ao_resolve_scanf_symbols : C W unit :=
  let* vf := ao_resolve_function "vfscanf" in
  let* ivf := ao_resolve_function "__isoc99_vfscanf" in
  let* vs := ao_resolve_function "vsscanf" in
  let* ivs := ao_resolve_function "__isoc99_vsscanf" in
  let* vfw := ao_resolve_function "vfwscanf" in
  let* ivfw := ao_resolve_function "__isoc99_vfwscanf" in
  let* vsw := ao_resolve_function "vswscanf" in
  let* ivsw := ao_resolve_function "__isoc99_vswscanf" in
  let* owns := ao_resolve_default_symbol "ao_alloc_bridge_owns" in
  let* lfree := ao_resolve_default_symbol "ao_alloc_bridge_libc_free" in
  let* lrealloc := ao_resolve_default_symbol "ao_alloc_bridge_libc_realloc" in
  let* g := get_scanf in
  put_scanf (ScanfGlobals (g_ao_scanf_once g) vf (or_else ivf vf) vs (or_else ivs vs)
    vfw (or_else ivfw vfw) vsw (or_else ivsw vsw) owns lfree lrealloc
    (negb (owns =? 0) && negb (lfree =? 0) && negb (lrealloc =? 0))).

Definition set_scanf_once (g : scanf_globals) : scanf_globals :=
  ScanfGlobals true (g_real_vfscanf g) (g_real_isoc99_vfscanf g) (g_real_vsscanf g)
    (g_real_isoc99_vsscanf g) (g_real_vfwscanf g) (g_real_isoc99_vfwscanf g) (g_real_vswscanf g)
    (g_real_isoc99_vswscanf g) (g_bridge_owns g) (g_bridge_libc_free g) (g_bridge_libc_realloc g)
    (g_bridge_ready g).

Definition ao_ensure_scanf_symbols : C W unit :=
  let* g := get_scanf in
  if g_ao_scanf_once g then ret tt
  else
    do* ao_resolve_scanf_symbols in
    let* g := get_scanf in put_scanf (set_scanf_once g).

(** ** The plan *)

Definition ao_scanf_plan_reset (plan : ao_scanf_plan) : C W ao_scanf_plan :=
  do* al_free (records plan) in ret (ScanfPlan 0 0 0).

(** The result and the plan. *)
Definition ao_scanf_plan_push (plan : ao_scanf_plan) (record : ao_scanf_record) :
    C W (Z * ao_scanf_plan) :=
  let* ' (ok, plan) :=
    (if count plan =? capacity plan then
       let new_capacity := if capacity plan =? 0 then 8 else u64 (capacity plan * 2) in
       let* records' := al_realloc (records plan) (u64 (new_capacity * SIZEOF_RECORD)) in
       if records' =? 0 then ret (false, plan)
       else ret (true, ScanfPlan records' (count plan) new_capacity)
     else ret (true, plan)) in
  if negb ok then ret (-1, plan)
  else
    do* store (records plan + SIZEOF_RECORD * count plan) (record_bytes record) in
    ret (0, ScanfPlan (records plan) (u64 (count plan + 1)) (capacity plan)).

Definition record_m_conversion (K : char_kind) (plan : ao_scanf_plan)
    (dest ordinal size spec width : Z) : C W (Z * ao_scanf_plan) :=
  if dest =? 0 then ret (0, plan)
  else ao_scanf_plan_push plan (ScanfRecord dest ordinal (record_mode K size spec) width).
Definition ao_record_narrow_m_conversion := record_m_conversion Narrow.
Definition ao_record_wide_m_conversion := record_m_conversion Wide.

(** Every turn consumes a character: one more than the length of the format is
    enough fuel. *)
Fixpoint parse_loop (K : char_kind) (fuel : nat) (p ap : list Z) (ordinal : Z)
    (plan : ao_scanf_plan) : C W (Z * ao_scanf_plan) :=
  match fuel with
  | O => diverge
  | S fuel' =>
      match p with
      | [] => undef
      | c :: p =>
          if c =? 0 then ret (0, plan)
          else if negb (c =? ch_percent) then parse_loop K fuel' p ap ordinal plan
          else
            match p with
            | [] => undef
            | c :: q =>
                if c =? ch_percent then parse_loop K fuel' q ap ordinal plan
                else
                  let* ' (conv, ap) := lift_opt (parse_conversion K p ap) in
                  match conv with
                  | None => ret (0, plan)
                  | Some (v, p) =>
                      let* ' (r, plan) :=
                        (if is_m_conversion v
                         then record_m_conversion K plan (cv_dest v) (u32 (ordinal + 1)) (cv_size v)
                                (cv_spec v) (effective_width v)
                         else ret (0, plan)) in
                      if negb (r =? 0) then ret (-1, plan)
                      else
                        let* p := lift_opt (if cv_spec v =? ch_lbracket then skip_scanset p
                                            else Some p) in
                        parse_loop K fuel' p ap
                          (if counts v then u32 (ordinal + 1) else ordinal) plan
                  end
            end
      end
  end.

Definition parse_format (K : char_kind) (format : Z) (ap : list Z) (plan : ao_scanf_plan) :
    C W (Z * ao_scanf_plan) :=
  let* p := read_format K format in
  parse_loop K (S (length p)) p ap 0 plan.
Definition ao_parse_scanf_format := parse_format Narrow.
Definition ao_parse_wscanf_format := parse_format Wide.

(** ** Rehoming *)

Definition ao_load_pointer_slot (slot : Z) : C W Z := load_u64 slot.
Definition ao_store_pointer_slot (slot value : Z) : C W unit := store_u64 slot value.

Definition ao_clone_char_string (source : Z) : C W Z :=
  let* n := strlen source in
  let len := u64 (n + 1) in
  let* copy := al_malloc len in
  if copy =? 0 then ret 0 else do* memcpy copy source len in ret copy.

Definition ao_clone_wide_string (source : Z) : C W Z :=
  let* n := wcslen source in
  let len := u64 (u64 (n + 1) * WCHAR_SIZE) in
  let* copy := al_malloc len in
  if copy =? 0 then ret 0 else do* memcpy copy source len in ret copy.

Definition ao_clone_bytes (source len : Z) : C W Z :=
  let* copy := al_malloc len in
  if copy =? 0 then ret 0
  else if negb (len =? 0) then do* memcpy copy source len in ret copy
  else ret copy.

(** A call through a bridge pointer. *)
Definition call_owns (p : Z) : C W Z :=
  let* g := get_scanf in if g_bridge_owns g =? 0 then undef else lift (bridge_owns p).
Definition call_libc_free (p : Z) : C W unit :=
  let* g := get_scanf in if g_bridge_libc_free g =? 0 then undef else lift (bridge_libc_free p).

Definition clone_record (record : ao_scanf_record) (original : Z) : C W Z :=
  match mode record with
  | AO_REHOME_CHAR_STRING => ao_clone_char_string original
  | AO_REHOME_WIDE_STRING => ao_clone_wide_string original
  | AO_REHOME_CHAR_COUNT => ao_clone_bytes original (width record)
  | AO_REHOME_WIDE_COUNT => ao_clone_bytes original (u64 (width record * WCHAR_SIZE))
  | AO_REHOME_UNSUPPORTED_WIDE_CHAR_COUNT => ret 0
  end.

Definition ao_rehome_scanf_record (record : ao_scanf_record) : C W unit :=
  let* original := ao_load_pointer_slot (slot record) in
  let* g := get_scanf in
  if (original =? 0) || negb (g_bridge_ready g) then ret tt
  else
    let* owned := call_owns original in
    if negb (owned =? 0) then ret tt
    else
      let* replacement := clone_record record original in
      if replacement =? 0 then ret tt
      else
        do* ao_store_pointer_slot (slot record) replacement in
        call_libc_free original.

(** The record at [a]. *)
Definition load_record (a : Z) : C W ao_scanf_record :=
  let* slot := load a 8 in
  let* ord := load (a + 8) 4 in
  let* mode := load (a + 12) 4 in
  let* width := load (a + 16) 8 in
  let* mode := lift_opt (mode_of_code (le_decode mode)) in
  ret (ScanfRecord (le_decode slot) (le_decode ord) mode (le_decode width)).

(** [n] records from the [i]th on. *)
Fixpoint rehome_loop (n : nat) (i : Z) (plan : ao_scanf_plan) (matches : Z) : C W unit :=
  match n with
  | O => ret tt
  | S n' =>
      let* record := load_record (records plan + SIZEOF_RECORD * i) in
      if matches <? s32 (ordinal record) then ret tt
      else do* ao_rehome_scanf_record record in rehome_loop n' (i + 1) plan matches
  end.
Definition ao_rehome_scanf_plan (plan : ao_scanf_plan) (matches : Z) : C W unit :=
  rehome_loop (Z.to_nat (count plan)) 0 plan matches.

(** ** The wrappers *)

Definition wrap_common (K : char_kind) (real_fn source format : Z) (ap : list Z) : C W Z :=
  do* ao_ensure_scanf_symbols in
  if real_fn =? 0 then do* set_errno ENOSYS in ret EOF
  else
    let* ' (r, plan) := parse_format K format ap (ScanfPlan 0 0 0) in
    let parse_ok := r =? 0 in
    let* ret_value := lift (libc_scan real_fn source format ap) in
    let* g := get_scanf in
    do* (if parse_ok && g_bridge_ready g && (0 <? ret_value)
         then ao_rehome_scanf_plan plan ret_value else ret tt) in
    do* ao_scanf_plan_reset plan in
    ret ret_value.

Definition ao_wrap_vfscanf_common := wrap_common Narrow.
Definition ao_wrap_vsscanf_common := wrap_common Narrow.
Definition ao_wrap_vfwscanf_common := wrap_common Wide.
Definition ao_wrap_vswscanf_common := wrap_common Wide.

(** The argument [real_fn] is read before the call. *)
Definition ao_plain_vfscanf (stream format : Z) (ap : list Z) : C W Z :=
  let* g := get_scanf in ao_wrap_vfscanf_common (g_real_vfscanf g) stream format ap.
Definition __isoc99_vfscanf (stream format : Z) (ap : list Z) : C W Z :=
  let* g := get_scanf in ao_wrap_vfscanf_common (g_real_isoc99_vfscanf g) stream format ap.
Definition ao_plain_vscanf (format : Z) (ap : list Z) : C W Z :=
  let* g := get_scanf in ao_wrap_vfscanf_common (g_real_vfscanf g) stdin format ap.
Definition __isoc99_vscanf (format : Z) (ap : list Z) : C W Z :=
  let* g := get_scanf in ao_wrap_vfscanf_common (g_real_isoc99_vfscanf g) stdin format ap.
Definition ao_plain_fscanf (stream format : Z) (args : list Z) : C W Z :=
  let* g := get_scanf in ao_wrap_vfscanf_common (g_real_vfscanf g) stream format args.
Definition __isoc99_fscanf (stream format : Z) (args : list Z) : C W Z :=
  let* g := get_scanf in ao_wrap_vfscanf_common (g_real_isoc99_vfscanf g) stream format args.
Definition ao_plain_scanf (format : Z) (args : list Z) : C W Z :=
  let* g := get_scanf in ao_wrap_vfscanf_common (g_real_vfscanf g) stdin format args.
Definition __isoc99_scanf (format : Z) (args : list Z) : C W Z :=
  let* g := get_scanf in ao_wrap_vfscanf_common (g_real_isoc99_vfscanf g) stdin format args.

Definition ao_plain_vsscanf (input format : Z) (ap : list Z) : C W Z :=
  let* g := get_scanf in ao_wrap_vsscanf_common (g_real_vsscanf g) input format ap.
Definition __isoc99_vsscanf (input format : Z) (ap : list Z) : C W Z :=
  let* g := get_scanf in ao_wrap_vsscanf_common (g_real_isoc99_vsscanf g) input format ap.
Definition ao_plain_sscanf (input format : Z) (args : list Z) : C W Z :=
  let* g := get_scanf in ao_wrap_vsscanf_common (g_real_vsscanf g) input format args.
Definition __isoc99_sscanf (input format : Z) (args : list Z) : C W Z :=
  let* g := get_scanf in ao_wrap_vsscanf_common (g_real_isoc99_vsscanf g) input format args.

Definition ao_plain_vfwscanf (stream format : Z) (ap : list Z) : C W Z :=
  let* g := get_scanf in ao_wrap_vfwscanf_common (g_real_vfwscanf g) stream format ap.
Definition __isoc99_vfwscanf (stream format : Z) (ap : list Z) : C W Z :=
  let* g := get_scanf in ao_wrap_vfwscanf_common (g_real_isoc99_vfwscanf g) stream format ap.
Definition ao_plain_vwscanf (format : Z) (ap : list Z) : C W Z :=
  let* g := get_scanf in ao_wrap_vfwscanf_common (g_real_vfwscanf g) stdin format ap.
Definition __isoc99_vwscanf (format : Z) (ap : list Z) : C W Z :=
  let* g := get_scanf in ao_wrap_vfwscanf_common (g_real_isoc99_vfwscanf g) stdin format ap.
Definition ao_plain_fwscanf (stream format : Z) (args : list Z) : C W Z :=
  let* g := get_scanf in ao_wrap_vfwscanf_common (g_real_vfwscanf g) stream format args.
Definition __isoc99_fwscanf (stream format : Z) (args : list Z) : C W Z :=
  let* g := get_scanf in ao_wrap_vfwscanf_common (g_real_isoc99_vfwscanf g) stream format args.
Definition ao_plain_wscanf (format : Z) (args : list Z) : C W Z :=
  let* g := get_scanf in ao_wrap_vfwscanf_common (g_real_vfwscanf g) stdin format args.
Definition __isoc99_wscanf (format : Z) (args : list Z) : C W Z :=
  let* g := get_scanf in ao_wrap_vfwscanf_common (g_real_isoc99_vfwscanf g) stdin format args.

Definition ao_plain_vswscanf (input format : Z) (ap : list Z) : C W Z :=
  let* g := get_scanf in ao_wrap_vswscanf_common (g_real_vswscanf g) input format ap.
Definition __isoc99_vswscanf (input format : Z) (ap : list Z) : C W Z :=
  let* g := get_scanf in ao_wrap_vswscanf_common (g_real_isoc99_vswscanf g) input format ap.
Definition ao_plain_swscanf (input format : Z) (args : list Z) : C W Z :=
  let* g := get_scanf in ao_wrap_vswscanf_common (g_real_vswscanf g) input format args.
Definition __isoc99_swscanf (input format : Z) (args : list Z) : C W Z :=
  let* g := get_scanf in ao_wrap_vswscanf_common (g_real_isoc99_vswscanf g) input format args.

End Definitions.
