(* ===== verification/ScanPlan.v ===== *)
(** * The plan of a scanf call

    The growable array of records: its representation in memory, its push and its
    reset, and the format parser, which fills it with the records the grammar
    calls for. *)
From S2P Require Import Prelude CMem CCmd CLib Alloc ScanFormat ScanGrammar Scanf.

Definition records_bytes (rs : list ao_scanf_record) : list Z := concat (map record_bytes rs).

Lemma length_record_bytes r : Z.of_nat (length (record_bytes r)) = SIZEOF_RECORD.
Proof. unfold record_bytes. rewrite !length_app, !length_le_encode. done. Qed.

Lemma length_records_bytes rs :
  Z.of_nat (length (records_bytes rs)) = SIZEOF_RECORD * Z.of_nat (length rs).
Proof.
  induction rs as [|r rs IH]; [done|]. unfold records_bytes in *. cbn [map concat length].
  rewrite length_app, Nat2Z.inj_add, length_record_bytes, IH. lia.
Qed.

Lemma records_bytes_snoc rs r : records_bytes (rs ++ [r]) = records_bytes rs ++ record_bytes r.
Proof. unfold records_bytes. rewrite map_app, concat_app. cbn. by rewrite app_nil_r. Qed.

(** ** Formats in memory *)

Definition char_ok (K : char_kind) (c : Z) : Prop :=
  0 < c < match K with Narrow => 2 ^ 8 | Wide => 2 ^ 32 end.

Lemma decode_char K c : 0 <= c < 2 ^ 32 -> le_decode (char_bytes K c) = c.
Proof.
  intros Hc. destruct K; cbn [char_bytes].
  - unfold le_decode. lia.
  - rewrite le_decode_encode. by apply Z.mod_small.
Qed.

Lemma format_loop_spec K m a cs fuel :
  holds m a (chars_bytes K (cs ++ [0])) -> Forall (char_ok K) cs -> (length cs < fuel)%nat ->
  format_loop K fuel m a = Some (cs ++ [0]).
Proof.
  intros H HF. revert a fuel H. induction HF as [|c cs Hc _ IH]; intros a fuel H Hfuel;
    (destruct fuel as [|fuel]; [cbn in Hfuel; lia|]); cbn [format_loop app] in *;
    unfold chars_bytes in H; cbn [map concat] in H; apply holds_app in H as [H1 H2];
    apply load_bytes_holds in H1; rewrite length_char_bytes in H1; rewrite H1.
  - by rewrite decode_char by lia.
  - unfold char_ok in Hc. rewrite decode_char by (destruct K; lia).
    destruct (Z.eqb_spec c 0); [lia|]. rewrite length_char_bytes in H2.
    rewrite IH; [done|done|cbn in Hfuel; lia].
Qed.

Lemma wp_read_format {X} E K a cs Q (s : st X) :
  holds (mem s) a (chars_bytes K (cs ++ [0])) -> Forall (char_ok K) cs -> Q (cs ++ [0]) s ->
  wp E (read_format K a) Q s.
Proof.
  intros H HF HQ. unfold wp, read_format. rewrite (format_loop_spec K _ _ cs); [done..|].
  pose proof (scan_fuel _ _ _ H) as Hf. pose proof (length_le_chars_bytes K (cs ++ [0])) as Hl.
  rewrite length_app in Hl. cbn in Hl. lia.
Qed.

Section Plan.
Context {X : Type} `{!Allocator X} `{!AllocatorLaws X} `{!ScanfWorld X}.
#[local] Existing Instance lift_allocator.
#[local] Existing Instance lift_allocator_laws.

(** The caller's memory and live blocks, and the static variables. *)
Context (m0 live0 : gmap Z Z) (g0 : scanf_globals).

(** [plan] holds the records [rs]; nothing else changed. *)
Record plan_state (plan : ao_scanf_plan) (rs : list ao_scanf_record)
    (st : st (scanf_globals * X)) : Prop := {
  ps_inv : al_inv (ext st) (mem st);
  ps_globals : fst (ext st) = g0;
  ps_keep x b : m0 !! x = Some b -> mem st !! x = Some b;
  ps_count : count plan = Z.of_nat (length rs);
  ps_capacity : count plan <= capacity plan <= 8 + 2 * count plan;
  ps_block :
    (plan = ScanfPlan 0 0 0 /\ al_live (ext st) = live0) \/
    (records plan <> 0 /\ 0 < capacity plan /\ live0 !! records plan = None /\
     al_live (ext st) = <[records plan := SIZEOF_RECORD * capacity plan]> live0 /\
     (forall x, records plan <= x < records plan + SIZEOF_RECORD * capacity plan ->
        m0 !! x = None) /\
     holds (mem st) (records plan) (records_bytes rs))
}.

Lemma plan_start (st : st (scanf_globals * X)) :
  al_inv (ext st) (mem st) -> fst (ext st) = g0 -> mem st = m0 -> al_live (ext st) = live0 ->
  plan_state (ScanfPlan 0 0 0) [] st.
Proof. intros I Hg Hm Hl. split; [done|done|by rewrite Hm|done|cbn; lia|by left]. Qed.

Lemma plan_errno plan rs m e e' x :
  plan_state plan rs (St m e x) -> plan_state plan rs (St m e' x).
Proof. by intros []. Qed.

(** The plan with room for one more record. *)
Definition room (plan : ao_scanf_plan) : Prop := count plan < capacity plan.

Lemma wp_plan_grow plan rs st :
  plan_state plan rs st -> Z.of_nat (length rs) < 2 ^ 57 -> count plan = capacity plan ->
  let k := if capacity plan =? 0 then 8 else u64 (capacity plan * 2) in
  wp al_exits (al_realloc (records plan) (u64 (k * SIZEOF_RECORD)))
    (fun p st' => (p = 0 /\ errno st' = ENOMEM /\ plan_state plan rs st') \/
       (p <> 0 /\ plan_state (ScanfPlan p (count plan) k) rs st' /\ count plan < k)) st.
Proof.
  intros P Hlen Hfull k. pose proof (ps_count _ _ _ P) as Hcount.
  assert (Hk : k = (if capacity plan =? 0 then 8 else 2 * capacity plan) /\ count plan < k /\
    k <= 8 + 2 * count plan /\ 0 < k * SIZEOF_RECORD <= SIZE_MAX).
  { unfold k, SIZEOF_RECORD. destruct (Z.eqb_spec (capacity plan) 0); [zlia|].
    rewrite u64_small by zlia. zlia. }
  clearbody k. destruct Hk as (Hkdef & Hck & Hcap & Hsz). rewrite u64_small by lia.
  assert (Hfail : forall st', al_inv (ext st') (mem st') -> fst (ext st') = fst (ext st) ->
    alloc_failed al_live st st' -> plan_state plan rs st').
  { intros st' I' Hx (Hm & Hl & _). destruct P.
    split; [done|congruence|by rewrite Hm|done|done|by rewrite Hl, Hm]. }
  destruct (ps_block _ _ _ P) as [(-> & Hl)|(Hp & Hc & Hnew & Hl & Hfr & Hr)].
  - cbn [records count capacity] in *. assert (rs = []) as -> by (destruct rs; cbn in Hcount; [done|lia]).
    apply wp_lift. eapply wp_mono; [apply (al_realloc_null (k * SIZEOF_RECORD) (St _ _ _)); [apply P|lia]|].
    intros p [m e x] (I' & [[-> F]|[Hp A]]); [left|right]; (split; [done|]).
    { split; [apply F|]. by apply Hfail. }
    cbn [mem errno ext fst snd] in *. pose proof (alloc_good _ _ _ _ _ _ A) as G.
    split; [|cbn; lia]. split; cbn [mem errno ext fst snd records count capacity]; try done.
    + apply P.
    + intros y b Hy. eapply allocated_keeps; [exact A|]. by apply (ps_keep _ _ _ P).
    + lia.
    + right. rewrite (Z.mul_comm SIZEOF_RECORD k). split_and!; [done|lia| | | |apply holds_nil].
      * rewrite <- Hl. apply A.
      * cbn in Hl |- *. rewrite <- Hl. apply A.
      * intros y Hy. apply eq_None_not_Some. intros [b Hb]. apply (ps_keep _ _ _ P) in Hb.
        rewrite (alloc_fresh _ _ _ _ _ _ A) in Hb; [done|lia].
  - destruct (Z.eqb_spec (capacity plan) 0); [lia|].
    assert (Hlive : al_live (ext st) !! records plan = Some (SIZEOF_RECORD * capacity plan))
      by (rewrite Hl; apply lookup_insert_eq).
    apply wp_lift. eapply wp_mono; [apply (al_realloc_ok (records plan) (SIZEOF_RECORD * capacity plan) (k * SIZEOF_RECORD) (St _ _ _)); [apply P|exact Hlive|lia]|].
    intros q [m e x] (I' & [(-> & _ & F)|[(_ & Hz & _)|[Hq R]]]); [left|lia|right].
    { split; [done|]. split; [apply F|]. by apply Hfail. }
    cbn [mem errno ext fst snd] in *. split; [done|]. split; [|lia].
    assert (Hout : forall y b, m0 !! y = Some b ->
      ~ (records plan <= y < records plan + SIZEOF_RECORD * capacity plan)).
    { intros y b Hy Hin. by rewrite Hfr in Hy. }
    split; cbn [mem errno ext fst snd records count capacity]; try done.
    + apply P.
    + intros y b Hy. pose proof (Hout y b Hy) as Ho. apply (ps_keep _ _ _ P) in Hy.
      rewrite (realloc_frame _ _ _ _ _ _ _ _ R); [done| |done].
      intros Hyq. destruct (realloc_fresh _ _ _ _ _ _ _ _ R y) as [Hn|]; [lia| |done]. congruence.
    + lia.
    + right. rewrite (Z.mul_comm SIZEOF_RECORD k). split_and!; [done|lia| | | |].
      * destruct (realloc_new _ _ _ _ _ _ _ _ R) as [->|Hn]; [done|].
        cbn in Hl. rewrite Hl, lookup_insert_None in Hn. apply Hn.
      * cbn in Hl |- *. rewrite (realloc_live _ _ _ _ _ _ _ _ R), Hl. by rewrite delete_insert_id.
      * intros y Hy. apply eq_None_not_Some. intros [b Hb]. pose proof (Hout y b Hb) as Ho.
        destruct (realloc_fresh _ _ _ _ _ _ _ _ R y) as [Hn|]; [lia| |done].
        apply (ps_keep _ _ _ P) in Hb. congruence.
      * intros i b Hi. pose proof (lookup_lt_Some _ _ _ Hi) as Hil.
        pose proof (length_records_bytes rs) as Hrl.
        rewrite (realloc_copy _ _ _ _ _ _ _ _ R); [by apply Hr|].
        unfold SIZEOF_RECORD in *. lia.
Qed.

Lemma wp_plan_store plan rs st r :
  plan_state plan rs st -> room plan -> Z.of_nat (length rs) < 2 ^ 57 ->
  wp al_exits (do* store (records plan + SIZEOF_RECORD * count plan) (record_bytes r) in
               ret (0, ScanfPlan (records plan) (u64 (count plan + 1)) (capacity plan)))
    (fun o st' => fst o = 0 /\ plan_state (snd o) (rs ++ [r]) st') st.
Proof.
  intros P Hroom Hlen. unfold room in Hroom. pose proof (ps_count _ _ _ P) as Hcount.
  pose proof (ps_capacity _ _ _ P) as Hcap.
  destruct (ps_block _ _ _ P) as [(-> & _)|(Hp & Hc & Hnew & Hl & Hfr & Hr)]; [cbn in Hroom; lia|].
  assert (Hlive : al_live (ext st) !! records plan = Some (SIZEOF_RECORD * capacity plan))
    by (rewrite Hl; apply lookup_insert_eq).
  destruct (al_live_block _ _ _ _ (ps_inv _ _ _ P) Hlive) as [G Hm].
  set (a := records plan + SIZEOF_RECORD * count plan).
  assert (Ha : mapped (mem st) a (Z.of_nat (length (record_bytes r)))).
  { rewrite length_record_bytes. eapply mapped_sub; [exact Hm|unfold a, SIZEOF_RECORD; lia..]. }
  apply wp_bind, wp_store; [done|]. apply wp_ret. cbn [fst snd]. split; [done|].
  rewrite u64_small by zlia.
  split; cbn [mem errno ext fst snd records count capacity].
  - eapply al_inv_dom; [by apply same_dom_write|apply P].
  - apply P.
  - intros y b Hy. rewrite lookup_write_out; [by apply (ps_keep _ _ _ P)|].
    rewrite length_record_bytes. intros Hin. rewrite Hfr in Hy; [done|].
    unfold a, SIZEOF_RECORD in *. lia.
  - rewrite length_app. cbn. lia.
  - lia.
  - right. split_and!; try done. rewrite records_bytes_snoc. apply holds_app.
    pose proof (length_records_bytes rs) as Hrl. split.
    + apply holds_write_other; [|done]. left. unfold a. lia.
    + rewrite Hrl, <- Hcount. apply holds_write.
Qed.

(** What a push, or several, may leave: the new plan, or an earlier one and
    [ENOMEM]. *)
Definition pushed (rs new : list ao_scanf_record) (o : Z * ao_scanf_plan)
    (st' : st (scanf_globals * X)) : Prop :=
  (fst o = 0 /\ plan_state (snd o) (rs ++ new) st') \/
  (fst o = -1 /\ errno st' = ENOMEM /\
   exists some, some `prefix_of` new /\ plan_state (snd o) (rs ++ some) st').

Lemma push_wp plan rs st r :
  plan_state plan rs st -> Z.of_nat (length rs) < 2 ^ 57 ->
  wp al_exits (ao_scanf_plan_push plan r) (pushed rs [r]) st.
Proof.
  intros P Hlen. unfold ao_scanf_plan_push. apply wp_bind.
  destruct (Z.eqb_spec (count plan) (capacity plan)) as [Hfull|Hroom].
  - apply wp_bind. eapply wp_mono; [by eapply wp_plan_grow|]. cbn beta.
    intros p st' [(-> & He & P')|(Hp & P' & Hroom)].
    + apply wp_ret. cbn [negb]. apply wp_ret. right. split_and!; [done|done|].
      exists []. split; [apply prefix_nil|]. by rewrite app_nil_r.
    + destruct (Z.eqb_spec p 0); [done|]. apply wp_ret. cbn [negb].
      eapply wp_mono; [by eapply wp_plan_store|]. intros o st2 ?. by left.
  - apply wp_ret. cbn [negb]. eapply wp_mono; [eapply wp_plan_store; [exact P| |done]|].
    + unfold room. pose proof (ps_capacity _ _ _ P). lia.
    + intros o st2 ?. by left.
Qed.

Lemma reset_wp plan rs st :
  plan_state plan rs st ->
  wp al_exits (ao_scanf_plan_reset plan) (fun plan' st' =>
    plan' = ScanfPlan 0 0 0 /\ al_inv (ext st') (mem st') /\ fst (ext st') = g0 /\
    al_live (ext st') = live0 /\ forall x b, m0 !! x = Some b -> mem st' !! x = Some b) st.
Proof.
  intros P. unfold ao_scanf_plan_reset. apply wp_bind.
  destruct (ps_block _ _ _ P) as [(-> & Hl)|(Hp & Hc & Hnew & Hl & Hfr & Hr)].
  - cbn [records]. apply wp_lift. eapply wp_mono; [apply (al_free_null (St _ _ _)), P|].
    intros _ [m e x] (I' & Hm & Hlive). apply wp_ret. cbn [mem errno ext fst snd] in *.
    split_and!; [done|done|apply P|by rewrite <- Hl|]. rewrite Hm. apply P.
  - assert (Hlive : al_live (ext st) !! records plan = Some (SIZEOF_RECORD * capacity plan))
      by (rewrite Hl; apply lookup_insert_eq).
    apply wp_lift. eapply wp_mono; [apply (al_free_ok (records plan) (SIZEOF_RECORD * capacity plan) (St _ _ _)); [apply P|exact Hlive]|].
    intros _ [m e x] (I' & F). apply wp_ret. cbn [mem errno ext fst snd] in *.
    split_and!; [done|done|apply P| |].
    + pose proof (freed_live _ _ _ _ _ _ F) as Hf. cbn in Hl, Hf |- *.
      by rewrite Hf, Hl, delete_insert_id.
    + intros y b Hy. rewrite (freed_frame _ _ _ _ _ _ F); [by apply (ps_keep _ _ _ P)|].
      intros Hin. by rewrite Hfr in Hy.
Qed.

(** ** The parser fills the plan *)

(** Continue with a longer list of records already there. *)
Lemma pushed_app rs new1 new2 o st' : pushed (rs ++ new1) new2 o st' -> pushed rs (new1 ++ new2) o st'.
Proof.
  intros [(H0 & P)|(H0 & He & some & Hs & P)]; [left|right]; rewrite <- app_assoc in P; [done|].
  split_and!; [done..|]. exists (new1 ++ some). split; [by apply prefix_app|done].
Qed.

Lemma record_m_wp K plan rs st v ord :
  plan_state plan rs st -> Z.of_nat (length rs) < 2 ^ 57 ->
  wp al_exits
    (if is_m_conversion v
     then record_m_conversion K plan (cv_dest v) ord (cv_size v) (cv_spec v) (effective_width v)
     else ret (0, plan))
    (pushed rs (option_list
       (if is_m_conversion v && negb (cv_dest v =? 0)
        then Some (ScanfRecord (cv_dest v) ord (record_mode K (cv_size v) (cv_spec v))
                     (effective_width v)) else None))) st.
Proof.
  intros P Hlen. destruct (is_m_conversion v); cbn [andb].
  2: { apply wp_ret. left. cbn. by rewrite app_nil_r. }
  unfold record_m_conversion. destruct (cv_dest v =? 0); cbn [negb].
  { apply wp_ret. left. cbn. by rewrite app_nil_r. }
  by apply push_wp.
Qed.

Lemma item_chars_nonempty i : (1 <= length (item_chars i))%nat.
Proof. destruct i; cbn; lia. Qed.

Lemma parse_loop_wp K fuel its ap n plan rs new st :
  plan_state plan rs st -> Forall item_ok its -> format_records K its ap n = Some new ->
  0 <= n -> n + Z.of_nat (length its) < 2 ^ 32 ->
  Z.of_nat (length rs) + Z.of_nat (length its) < 2 ^ 57 ->
  (length (print_format its) <= fuel)%nat ->
  wp al_exits (parse_loop K fuel (print_format its) ap n plan) (pushed rs new) st.
Proof.
  intros P Hits. revert fuel ap n plan rs new st P.
  induction Hits as [|i its Hi Hits IH]; intros fuel ap n plan rs new st P Hnew Hn Hord Hlen Hfuel;
    (destruct fuel as [|fuel]; [unfold print_format in Hfuel; rewrite length_app in Hfuel;
      cbn in Hfuel; lia|]); cbn [parse_loop].
  { injection Hnew as <-. cbn. apply wp_ret. left. by rewrite app_nil_r. }
  assert (Hprint : print_format (i :: its) = item_chars i ++ print_format its).
  { unfold print_format. cbn. by rewrite app_assoc. }
  rewrite Hprint in Hfuel |- *. rewrite length_app in Hfuel.
  cbn [length] in Hord, Hlen. pose proof (item_chars_nonempty i) as Hil.
  destruct i as [c| |d]; cbn [item_chars app] in *.
  - destruct Hi as [H0 Hp]. destruct (Z.eqb_spec c 0); [done|].
    destruct (Z.eqb_spec c ch_percent); [done|]. cbn [negb].
    eapply IH; [done|done|lia..].
  - change (ch_percent =? 0) with false. change (ch_percent =? ch_percent) with true. cbn [negb].
    eapply IH; [done|done|lia..].
  - cbn [format_records] in Hnew.
    destruct (directive_arg d ap) as [[dest ap']|] eqn:Harg; [|done].
    apply fmap_Some in Hnew as (new' & Hnew' & ->).
    change (ch_percent =? 0) with false. change (ch_percent =? ch_percent) with true. cbn [negb].
    pose proof (parse_conversion_printed K d (print_format its) ap dest ap' Hi Harg) as Hconv.
    assert (Hhd : exists x l, directive_chars d ++ print_format its = x :: l /\ (x =? ch_percent) = false).
    { by apply directive_first. }
    destruct Hhd as (x & l & Hl & Hx). rewrite Hl in Hconv |- *. rewrite Hx, Hconv.
    apply wp_bind, wp_ret. cbn [lift_opt].
    rewrite (u32_small (n + 1)) by lia.
    apply wp_bind. eapply wp_mono.
    { eapply (record_m_wp K plan rs st (directive_conversion d dest) (n + 1)); [done|lia]. }
    pose proof (directive_record_conversion K d dest (n + 1)) as Hrec. cbn zeta in Hrec.
    cbn [directive_conversion cv_dest] in Hrec |- *.
    fold (directive_conversion d dest) in Hrec |- *. rewrite <- Hrec.
    intros [r plan'] st1 [(H0 & P1)|(H0 & He & some & Hs & P1)]; cbn [fst snd] in *; subst r.
    2: { cbn. apply wp_ret. right. split_and!; [done|done|]. exists some. split; [|done].
         by apply prefix_app_r. }
    cbn [Z.eqb negb]. apply wp_bind.
    assert (Hset : (if spec_letter (d_spec d) =? ch_lbracket
       then skip_scanset (if d_spec d =? ch_lbracket then d_set d ++ ch_rbracket :: print_format its
                          else print_format its)
       else Some (if d_spec d =? ch_lbracket then d_set d ++ ch_rbracket :: print_format its
                  else print_format its)) = Some (print_format its)).
    { by apply spec_set_skipped. }
    cbn [cv_spec directive_conversion]. rewrite Hset. apply wp_ret.
    rewrite assigns_counts.
    eapply wp_mono; [eapply IH; [exact P1| | | | |]|].
    + exact Hnew'.
    + destruct (assigns d); lia.
    + destruct (assigns d); lia.
    + rewrite length_app. assert (length (option_list (directive_record K d dest (n + 1))) <= 1)%nat
        by (destruct (directive_record K d dest (n + 1)); cbn; lia). lia.
    + lia.
    + intros o st2 Ho. by apply pushed_app in Ho.
Qed.

Lemma parse_format_wp K format its ap new st :
  plan_state (ScanfPlan 0 0 0) [] st ->
  holds (mem st) format (chars_bytes K (print_format its)) ->
  Forall (char_ok K) (concat (map item_chars its)) ->
  Forall item_ok its -> format_records K its ap 0 = Some new ->
  Z.of_nat (length its) < 2 ^ 32 ->
  wp al_exits (parse_format K format ap (ScanfPlan 0 0 0)) (pushed [] new) st.
Proof.
  intros P Hm Hc Hi Hnew Hlen. unfold parse_format. apply wp_bind.
  eapply wp_read_format; [exact Hm|done|].
  eapply parse_loop_wp; [done|done|done|lia|lia|cbn; lia|]. unfold print_format. lia.
Qed.

End Plan.
