(* ===== verification/ScanTotal.v ===== *)
(** * The format parser terminates

    On every string of characters, a format or not: each parser consumes what it
    returns, and the fuel of the loop, the length of the text, is enough. *)
From S2P Require Import Prelude CMem CCmd Alloc ScanFormat Scanf ScanPlan.

(** ** The parsers return a rest of their text *)

Lemma parse_width_le K p w o q : parse_width K p w = Some (o, q) -> (length q <= length p)%nat.
Proof.
  revert w. induction p as [|c p IH]; intros w; cbn; [done|]. destruct (is_digit K c).
  - intros H%IH. lia.
  - intros [= <- <-]. cbn. lia.
Qed.

Lemma position_digits_le K p v o q :
  position_digits K p v = Some (o, q) -> (length q <= length p)%nat.
Proof.
  revert v. induction p as [|c p IH]; intros v; cbn; [done|]. destruct (is_digit K c).
  - intros H%IH. lia.
  - intros [= <- <-]. cbn. lia.
Qed.

Lemma parse_position_le K p pos b o q :
  parse_position K p pos = Some (b, o, q) -> (length q <= length p)%nat.
Proof.
  unfold parse_position. destruct p as [|c p]; [done|]. destruct (is_digit K c); cbn [negb].
  2: { by intros [= _ _ <-]. }
  destruct (position_digits K (c :: p) 0) as [[v [|d r]]|] eqn:E; [done| |done].
  apply position_digits_le in E. cbn [length] in *.
  destruct (d =? ch_dollar); cbn [negb]; intros [= _ _ <-]; cbn [length]; lia.
Qed.

Lemma parse_target_le K p ap b o q r :
  parse_target K p ap = Some (b, o, q, r) -> (length q <= length p)%nat.
Proof.
  unfold parse_target. destruct p as [|c p]; [done|].
  destruct (c =? ch_star). { intros [= _ _ <- _]. cbn. lia. }
  destruct (parse_position K (c :: p) 0) as [[[[] pos] q']|] eqn:E; [| |done];
    apply parse_position_le in E.
  - destruct (ao_arg_n ap pos); [|done]. by intros [= _ _ <- _].
  - destruct (va_arg ap) as [[]|]; [|done]. by intros [= _ _ <- _].
Qed.

Lemma parse_opt_width_le K p o q : parse_opt_width K p = Some (o, q) -> (length q <= length p)%nat.
Proof.
  unfold parse_opt_width. destruct p as [|c p]; [done|]. destruct (is_digit K c).
  - apply parse_width_le.
  - by intros [= _ <-].
Qed.

Lemma parse_alloc_le p o q : parse_alloc p = Some (o, q) -> (length q <= length p)%nat.
Proof. destruct p as [|c p]; [done|]. cbn. destruct (c =? ch_m); intros [= _ <-]; cbn; lia. Qed.

Lemma parse_size_le p o q : parse_size p = Some (o, q) -> (length q <= length p)%nat.
Proof.
  unfold parse_size. destruct p as [|c [|d p]]; [done| |]; destruct (c =? ch_l).
  - done.
  - destruct (_ || _); [destruct (c =? ch_h)|]; try done; intros [= _ <-]; cbn; lia.
  - destruct (d =? ch_l); cbn [negb]; intros [= _ <-]; cbn; lia.
  - destruct (_ || _); [destruct (c =? ch_h); [destruct (d =? ch_h)|]|]; intros [= _ <-]; cbn; lia.
Qed.

(** A conversion has at least its letter. *)
Lemma parse_conversion_lt K p ap v q ap' :
  parse_conversion K p ap = Some (Some (v, q), ap') -> (length q < length p)%nat.
Proof.
  unfold parse_conversion.
  destruct (parse_target K p ap) as [[[[? ?] p1] ?]|] eqn:E1; [|done]. apply parse_target_le in E1.
  destruct (parse_opt_width K p1) as [[? p2]|] eqn:E2; [|done]. apply parse_opt_width_le in E2.
  destruct (parse_alloc p2) as [[? p3]|] eqn:E3; [|done]. apply parse_alloc_le in E3.
  destruct (parse_size p3) as [[size [|c p4]]|] eqn:E4; [done| |done]. apply parse_size_le in E4.
  cbn [length] in E4. destruct (c =? 0); [done|]. destruct (parse_spec size c).
  intros [= _ <- _]. lia.
Qed.

Lemma skip_set_body_le p q : skip_set_body p = Some q -> (length q <= length p)%nat.
Proof.
  induction p as [|c p IH]; cbn; [done|]. destruct (c =? 0); [by intros [= <-]|].
  destruct (c =? ch_rbracket); [intros [= <-]; lia|]. intros H%IH. lia.
Qed.

Lemma skip_one_le ch p q : skip_one ch p = Some q -> (length q <= length p)%nat.
Proof. destruct p as [|c p]; [done|]. cbn. destruct (c =? ch); intros [= <-]; cbn; lia. Qed.

Lemma skip_scanset_le p q : skip_scanset p = Some q -> (length q <= length p)%nat.
Proof.
  unfold skip_scanset. destruct (skip_one ch_caret p) as [p1|] eqn:E1; [|done].
  destruct (skip_one ch_rbracket p1) as [p2|] eqn:E2; [|done].
  apply skip_one_le in E1. apply skip_one_le in E2. intros H%skip_set_body_le. lia.
Qed.

(** ** The loop *)

Section Total.
Context {X : Type} `{!Allocator X} `{!AllocatorLaws X} `{!ScanfWorld X}.
#[local] Existing Instance lift_allocator.
#[local] Existing Instance lift_allocator_laws.

(** A command that ends: it may return, exit or be undefined. *)
Definition ends {W A} (m : C W A) (s : st W) : Prop := m s <> Diverge.

Lemma ends_bind {W A B} (m : C W A) (k : A -> C W B) s :
  ends m s -> (forall a s', m s = Ret (a, s') -> ends (k a) s') -> ends (bind m k) s.
Proof. unfold ends, bind. destruct (m s) as [[a s']|c| |]; auto. Qed.

Lemma wp_ends {W A} E (m : C W A) Q s : wp E m Q s -> ends m s.
Proof. unfold ends, wp. by destruct (m s) as [[a s']|c| |]. Qed.

Lemma parse_loop_ends K m0 live0 g0 fuel p ap n plan rs (st : st (scanf_globals * X)) :
  plan_state m0 live0 g0 plan rs st -> Z.of_nat (length rs) + Z.of_nat fuel < 2 ^ 57 ->
  (length p < fuel)%nat -> ends (parse_loop K fuel p ap n plan) st.
Proof.
  revert p ap n plan rs st. induction fuel as [|fuel IH]; intros p ap n plan rs st P Hsz Hf; [lia|].
  destruct p as [|c p]; [done|]. cbn [length] in Hf. cbn [parse_loop].
  destruct (c =? 0); [done|]. destruct (c =? ch_percent); cbn [negb].
  2: { eapply IH; [exact P|lia|lia]. }
  destruct p as [|d p]; [done|]. cbn [length] in Hf. destruct (d =? ch_percent).
  { eapply IH; [exact P|lia|lia]. }
  destruct (parse_conversion K (d :: p) ap) as [[[[v q]|] ap']|] eqn:E; [|done..].
  apply parse_conversion_lt in E. cbn [length] in E.
  apply ends_bind; [done|]. intros [cv ap''] s1 [= <- <- <-].
  pose proof (record_m_wp m0 live0 g0 K plan rs st v (u32 (n + 1)) P ltac:(lia)) as Hpush.
  apply ends_bind; [by eapply wp_ends|]. intros [r plan'] s1 Hr.
  unfold wp in Hpush. rewrite Hr in Hpush.
  destruct (Z.eqb_spec r 0) as [->|Hr0]; cbn [negb]; [|done].
  destruct Hpush as [(_ & P1)|(? & _)]; [|done]. cbn [snd] in P1.
  apply ends_bind; [by destruct (if cv_spec v =? ch_lbracket then skip_scanset q else Some q)|].
  intros q' s2 Hq.
  assert (Hle : (length q' <= length q)%nat /\ s2 = s1).
  { destruct (cv_spec v =? ch_lbracket); [destruct (skip_scanset q) eqn:Es; [|done]|];
      injection Hq as <- <-; [apply skip_scanset_le in Es|]; done. }
  destruct Hle as [Hle ->]. eapply IH; [exact P1| |lia].
  rewrite length_app. match goal with |- context [option_list ?o] => destruct o end; cbn; lia.
Qed.

(** The whole parse of a format whose characters are [p]. *)
Lemma parse_format_ends K format ap p (st : st (scanf_globals * X)) :
  al_inv (ext st) (mem st) -> read_format K format st = Ret (p, st) ->
  Z.of_nat (length p) < 2 ^ 56 -> ends (parse_format K format ap (ScanfPlan 0 0 0)) st.
Proof.
  intros I Hr Hlen. unfold parse_format. apply ends_bind; [unfold ends; by rewrite Hr|].
  intros p' st' H. rewrite Hr in H. injection H as <- <-.
  eapply (parse_loop_ends K (mem st) (al_live (ext st)) (fst (ext st))).
  - by apply plan_start.
  - cbn. lia.
  - lia.
Qed.

End Total.
