(* ===== verification/ScanRehome.v ===== *)
(** * Rehoming the results of a scan

    What the bridge of the preloaded allocator promises ([BridgeLaws]), and that a
    [%m] result of the C library's allocator is replaced by a copy in a block the
    preloaded allocator owns, one record or a whole plan at a time. *)
From S2P Require Import Prelude CMem CCmd CLib Alloc Strings ScanFormat ScanGrammar Scanf ScanPlan.

(** The blocks of the C library that the preloaded allocator does not own. *)
Class BridgeLaws (X : Type) `{!Allocator X} `{!AllocatorLaws X} `{!ScanfWorld X} := {
  br_foreign : X -> gmap Z Z;
  br_block x m p n : al_inv x m -> br_foreign x !! p = Some n ->
    good_block p n /\ mapped m p n /\ al_live x !! p = None;
  br_apart x m p n q k : al_inv x m -> br_foreign x !! p = Some n -> al_live x !! q = Some k ->
    p + n <= q \/ q + k <= p;
  br_disjoint x m p n q k : al_inv x m -> br_foreign x !! p = Some n -> br_foreign x !! q = Some k ->
    p <> q -> p + n <= q \/ q + k <= p;
  br_malloc n s : al_inv (ext s) (mem s) -> 0 <= n <= SIZE_MAX ->
    wp al_exits (al_malloc n) (fun _ s' => br_foreign (ext s') = br_foreign (ext s)) s;
  br_owns_foreign p n s : al_inv (ext s) (mem s) -> br_foreign (ext s) !! p = Some n ->
    wp no_exit (bridge_owns p) (fun r s' => r = 0 /\ s' = s) s;
  br_owns_live p n s : al_inv (ext s) (mem s) -> al_live (ext s) !! p = Some n ->
    wp no_exit (bridge_owns p) (fun r s' => r <> 0 /\ s' = s) s;
  br_free p n s : al_inv (ext s) (mem s) -> br_foreign (ext s) !! p = Some n ->
    wp al_exits (bridge_libc_free p) (fun _ s' => al_inv (ext s') (mem s') /\
      al_live (ext s') = al_live (ext s) /\
      freed (mem s) (br_foreign (ext s)) p n (mem s') (br_foreign (ext s'))) s;
  br_release p n s : al_inv (ext s) (mem s) -> al_live (ext s) !! p = Some n ->
    wp al_exits (al_free p) (fun _ s' => br_foreign (ext s') = br_foreign (ext s)) s;
  br_release_null s : al_inv (ext s) (mem s) ->
    wp al_exits (al_free 0) (fun _ s' => br_foreign (ext s') = br_foreign (ext s)) s
}.

(** The object a record of mode [d] and width [w] finds at [p]: its bytes. *)
Definition scanned (d : ao_rehome_mode) (w : Z) (m : gmap Z Z) (p : Z) (bs : list Z) : Prop :=
  match d with
  | AO_REHOME_CHAR_STRING => exists cs, bs = cs ++ [0] /\ cstring m p cs
  | AO_REHOME_WIDE_STRING => exists ws, bs = wbytes (ws ++ [0]) /\ wstring m p ws
  | AO_REHOME_CHAR_COUNT => Z.of_nat (length bs) = w /\ holds m p bs
  | AO_REHOME_WIDE_COUNT => Z.of_nat (length bs) = w * WCHAR_SIZE /\ holds m p bs
  | AO_REHOME_UNSUPPORTED_WIDE_CHAR_COUNT => True
  end.

Lemma scanned_holds d w m p bs :
  scanned d w m p bs -> d <> AO_REHOME_UNSUPPORTED_WIDE_CHAR_COUNT -> holds m p bs.
Proof.
  destruct d; cbn; [intros (cs & -> & [H _])|intros (ws & -> & [H _])|intros [_ H]|intros [_ H]|];
    by intros.
Qed.

(** The object survives when its bytes do. *)
Lemma scanned_kept d w m m' p bs n :
  scanned d w m p bs -> Z.of_nat (length bs) <= n ->
  (forall x b, p <= x < p + n -> m !! x = Some b -> m' !! x = Some b) ->
  scanned d w m' p bs.
Proof.
  intros H Hn Hk.
  assert (Hh : holds m p bs -> holds m' p bs).
  { intros Hb i b Hi. pose proof (lookup_lt_Some _ _ _ Hi). apply Hk; [lia|by apply Hb]. }
  destruct d; cbn in H |- *.
  - destruct H as (cs & -> & [H1 H2]). exists cs. by split; [|split; [apply Hh|]].
  - destruct H as (ws & -> & [H1 H2]). exists ws. by split; [|split; [apply Hh|]].
  - destruct H. auto.
  - destruct H. auto.
  - done.
Qed.

Definition apart (a n b k : Z) : Prop := a + n <= b \/ b + k <= a.

Section Rehome.
Context {X : Type} `{!Allocator X} `{!AllocatorLaws X} `{!ScanfWorld X} `{!BridgeLaws X}.
#[local] Existing Instance lift_allocator.
#[local] Existing Instance lift_allocator_laws.
Abbreviation state := (st (scanf_globals * X)).

Definition foreign (st : state) : gmap Z Z := br_foreign (snd (ext st)).

Lemma foreign_block (st : state) p n :
  al_inv (ext st) (mem st) -> foreign st !! p = Some n ->
  good_block p n /\ mapped (mem st) p n /\ al_live (ext st) !! p = None.
Proof. exact (br_block (snd (ext st)) (mem st) p n). Qed.

(** ** Copies *)

(** The static variables and the foreign blocks stay. *)
Definition same_rest (st st' : state) : Prop :=
  fst (ext st') = fst (ext st) /\ foreign st' = foreign st.

Lemma wp_clone n bs (st : state) (k : Z -> C (scanf_globals * X) Z) :
  al_inv (ext st) (mem st) -> 0 <= n <= SIZE_MAX -> Z.of_nat (length bs) = n ->
  (forall p s1, allocated (mem st) (al_live (ext st)) p n (mem s1) (al_live (ext s1)) ->
     wp al_exits (k p) (fun q s' => q = p /\ ext s' = ext s1 /\ mem s' = write (mem s1) p bs) s1) ->
  wp al_exits (let* p := al_malloc n in if p =? 0 then ret 0 else k p)
    (fun p s' => dup_post st n bs p s' /\ same_rest st s') st.
Proof.
  intros I Hn Hl Hk. apply wp_bind, wp_lift.
  eapply wp_mono.
  { apply wp_and; [apply (al_malloc_ok n (St _ _ _)); [exact I|done]|].
    apply (br_malloc n (St _ _ _)); [exact I|done]. }
  intros p [m e x] ((I' & Hpost) & Hf). cbn [mem errno ext] in *.
  destruct Hpost as [[-> (Hm & Hlive & He)]|[Hp A]].
  { apply wp_ret. split; [|done]. split; [done|]. left. split; [done|]. by split_and!. }
  destruct (Z.eqb_spec p 0); [done|]. eapply wp_mono; [by apply Hk|].
  cbn [mem errno ext fst snd] in *. intros q s' (-> & Hx & Hm).
  pose proof (alloc_mapped _ _ _ _ _ _ A) as Hmap.
  assert (Hb : mapped m p (Z.of_nat (length bs))) by (by rewrite Hl).
  split.
  2: { split; [by rewrite Hx|]. unfold foreign. by rewrite Hx. }
  split; [rewrite Hx, Hm; eapply al_inv_dom; [by apply same_dom_write|done]|].
  right. split; [done|]. split_and!.
  - apply A.
  - rewrite Hx. apply A.
  - apply A.
  - intros y Hy. apply (alloc_fresh _ _ _ _ _ _ A). lia.
  - rewrite Hm. apply holds_write.
  - intros y b Hy. rewrite Hm, lookup_write_out; [by eapply allocated_keeps|].
    rewrite Hl. intros Hin. by rewrite (alloc_fresh _ _ _ _ _ _ A) in Hy by lia.
Qed.

(** The one copy all three clones make. *)
Lemma wp_clone_copy src bs n m live p (s1 : state) :
  holds m src bs -> Z.of_nat (length bs) = n ->
  allocated m live p n (mem s1) (al_live (ext s1)) ->
  wp al_exits (do* memcpy p src n in ret p)
    (fun q s' => q = p /\ ext s' = ext s1 /\ mem s' = write (mem s1) p bs) s1.
Proof.
  intros Hb Hl A. pose proof (alloc_mapped _ _ _ _ _ _ A) as Hm. apply wp_bind.
  eapply wp_memcpy; [by eapply allocated_holds|done|done| |].
  - destruct (decide (n = 0)); [by right; right|].
    destruct (allocated_apart _ _ _ _ _ _ src n A); [|lia|lia..].
    rewrite <- Hl. by apply holds_mapped.
  - by apply wp_ret.
Qed.

Lemma clone_wp r original bs (st : state) :
  al_inv (ext st) (mem st) -> Z.of_nat (length bs) <= SIZE_MAX ->
  scanned (mode r) (width r) (mem st) original bs ->
  mode r <> AO_REHOME_UNSUPPORTED_WIDE_CHAR_COUNT ->
  wp al_exits (clone_record r original)
    (fun p s' => dup_post st (Z.of_nat (length bs)) bs p s' /\ same_rest st s') st.
Proof.
  intros I Hsz Hs Hmode. pose proof (scanned_holds _ _ _ _ _ Hs Hmode) as Hb.
  set (n := Z.of_nat (length bs)) in *. assert (Hn : 0 <= n <= SIZE_MAX) by lia.
  unfold clone_record. destruct (mode r); cbn in Hs; try done.
  - destruct Hs as (cs & -> & Hcs). unfold ao_clone_char_string.
    apply wp_bind. eapply wp_strlen; [exact Hcs|].
    assert (Hlen : u64 (Z.of_nat (length cs) + 1) = n).
    { unfold n in *. rewrite length_app in *. cbn [length] in *. rewrite u64_small by lia. lia. }
    rewrite Hlen. apply wp_clone; [done..|]. intros p s1 A. by eapply wp_clone_copy.
  - destruct Hs as (ws & -> & Hws). unfold ao_clone_wide_string.
    apply wp_bind. eapply wp_wcslen; [exact Hws|].
    assert (Hlen : u64 (u64 (Z.of_nat (length ws) + 1) * WCHAR_SIZE) = n).
    { unfold n in *. rewrite length_wbytes, length_app in *. cbn [length] in *.
      unfold WCHAR_SIZE in *. rewrite !u64_small by (rewrite ?u64_small; lia). lia. }
    rewrite Hlen. apply wp_clone; [done..|]. intros p s1 A. by eapply wp_clone_copy.
  - destruct Hs as [Hw _]. rewrite <- Hw. fold n. unfold ao_clone_bytes.
    apply wp_clone; [done..|]. intros p s1 A.
    destruct (Z.eqb_spec n 0) as [Hz|Hz]; cbn [negb]; [|by eapply wp_clone_copy].
    apply wp_ret. split_and!; [done|done|]. destruct bs; [|cbn in n; lia].
    unfold write. cbn. by rewrite (left_id_L ∅ (∪)).
  - destruct Hs as [Hw _]. rewrite <- Hw, u64_small by done. fold n. unfold ao_clone_bytes.
    apply wp_clone; [done..|]. intros p s1 A.
    destruct (Z.eqb_spec n 0) as [Hz|Hz]; cbn [negb]; [|by eapply wp_clone_copy].
    apply wp_ret. split_and!; [done|done|]. destruct bs; [|cbn in n; lia].
    unfold write. cbn. by rewrite (left_id_L ∅ (∪)).
Qed.

(** ** One record *)

(** The bridge is there. *)
Definition bridge_there (g : scanf_globals) : Prop :=
  g_bridge_ready g = true /\ g_bridge_owns g <> 0 /\ g_bridge_libc_free g <> 0.

(** The slot of [r] points to [original]: null, a block of the preloaded
    allocator, or a foreign block that holds the scanned object [bs]. *)
Record slot_ok (r : ao_scanf_record) (original : Z) (bs : list Z) (st : state) : Prop := {
  so_slot : holds (mem st) (slot r) (le_encode 8 original);
  so_range : 0 <= original <= SIZE_MAX;
  so_object : original = 0 \/ is_Some (al_live (ext st) !! original) \/
    exists n, foreign st !! original = Some n /\ Z.of_nat (length bs) <= n /\
      apart (slot r) 8 original n /\ scanned (mode r) (width r) (mem st) original bs
}.

(** The slot now points to the copy [q], and the original is gone. *)
Record moved (r : ao_scanf_record) (original : Z) (bs : list Z) (st : state) (q n : Z) (st' : state) :
    Prop := {
  mv_foreign : foreign st !! original = Some n;
  mv_block : good_block q (Z.of_nat (length bs));
  mv_new : al_live (ext st) !! q = None;
  mv_fresh x : q <= x < q + Z.of_nat (length bs) -> mem st !! x = None;
  mv_live : al_live (ext st') = <[q := Z.of_nat (length bs)]> (al_live (ext st));
  mv_gone : foreign st' = delete original (foreign st);
  mv_slot : holds (mem st') (slot r) (le_encode 8 q);
  mv_copy : holds (mem st') q bs;
  mv_frame x b : mem st !! x = Some b -> ~ (slot r <= x < slot r + 8) ->
    ~ (original <= x < original + n) -> mem st' !! x = Some b
}.

(** Nothing changed. *)
Definition stayed (st st' : state) : Prop :=
  mem st' = mem st /\ al_live (ext st') = al_live (ext st) /\ foreign st' = foreign st.

(** A supported foreign result stays only for want of memory. *)
Definition rehomed (r : ao_scanf_record) (original : Z) (bs : list Z) (st st' : state) : Prop :=
  al_inv (ext st') (mem st') /\ fst (ext st') = fst (ext st) /\
  ((stayed st st' /\
    (is_Some (foreign st !! original) -> original <> 0 ->
     mode r = AO_REHOME_UNSUPPORTED_WIDE_CHAR_COUNT \/ errno st' = ENOMEM)) \/
   exists q n, moved r original bs st q n st').

Lemma wp_get_scanf E (Q : scanf_globals -> state -> Prop) st :
  Q (fst (ext st)) st -> wp E get_scanf Q st.
Proof. done. Qed.

Lemma rehome_move_wp r original bs n q (st s1 : state) :
  al_inv (ext s1) (mem s1) -> bridge_there (fst (ext s1)) ->
  slot_ok r original bs st -> foreign st !! original = Some n -> apart (slot r) 8 original n ->
  q <> 0 -> new_block st (Z.of_nat (length bs)) bs q s1 -> same_rest st s1 ->
  al_inv (ext st) (mem st) ->
  wp al_exits (do* ao_store_pointer_slot (slot r) q in call_libc_free original)
    (fun _ st' => rehomed r original bs st st') s1.
Proof.
  intros I1 (Hready & Howns & Hfree) S Hf Hap Hq (G & Hlive & Hnew & Hfresh & Hcopy & Hkeep) [Hg Hfor] I.
  destruct (foreign_block st _ _ I Hf) as (Go & Hom & Hol).
  assert (Hslot1 : mapped (mem s1) (slot r) 8).
  { intros x Hx. destruct (holds_mapped _ _ _ (so_slot _ _ _ _ S) x) as [b Hb];
      [by rewrite length_le_encode|]. exists b. by apply Hkeep. }
  assert (Hslotm : mapped (mem st) (slot r) 8).
  { intros x Hx. apply (holds_mapped _ _ _ (so_slot _ _ _ _ S)). by rewrite length_le_encode. }
  assert (Hqs : forall x, q <= x < q + Z.of_nat (length bs) -> ~ (slot r <= x < slot r + 8)).
  { intros x Hx Hs. destruct (Hslotm x Hs) as [b Hb]. by rewrite Hfresh in Hb. }
  assert (Hqo : forall x, q <= x < q + Z.of_nat (length bs) -> ~ (original <= x < original + n)).
  { intros x Hx Hs. destruct (Hom x Hs) as [b Hb]. by rewrite Hfresh in Hb. }
  apply wp_bind, wp_store_u64; [done|].
  apply wp_bind, wp_get_scanf. cbn [fst snd ext mem errno].
  destruct (Z.eqb_spec (g_bridge_libc_free (fst (ext s1))) 0); [done|].
  apply wp_lift. cbn [fst snd ext mem errno].
  set (m2 := write (mem s1) (slot r) (le_encode 8 q)).
  assert (I2 : al_inv (snd (ext s1)) m2).
  { apply (al_inv_dom (snd (ext s1)) (mem s1) m2); [by apply same_dom_write|exact I1]. }
  assert (Hf1 : br_foreign (snd (ext s1)) !! original = Some n) by (rewrite <- Hf; f_equal; apply Hfor).
  eapply wp_mono; [apply (br_free original n (St m2 _ _)); [exact I2|exact Hf1]|].
  cbn [fst snd ext mem errno]. intros _ [m3 e3 x3] (I3 & Hl3 & F). cbn [fst snd ext mem errno] in *.
  split; [done|]. split; [done|]. right. exists q, n.
  assert (Hm3 : forall x b, mem s1 !! x = Some b -> ~ (slot r <= x < slot r + 8) ->
    ~ (original <= x < original + n) -> m3 !! x = Some b).
  { intros x b Hx H1 H2. rewrite (freed_frame _ _ _ _ _ _ F) by done.
    unfold m2. rewrite lookup_write_out; [done|]. by rewrite length_le_encode. }
  split; cbn [fst snd ext mem errno]; try done.
  - rewrite <- Hlive. exact Hl3.
  - unfold foreign. cbn [ext snd]. rewrite (freed_live _ _ _ _ _ _ F). f_equal. apply Hfor.
  - eapply holds_outside; [apply (freed_frame _ _ _ _ _ _ F)| |apply holds_write].
    rewrite length_le_encode. unfold apart in Hap. lia.
  - intros i b Hi. pose proof (lookup_lt_Some _ _ _ Hi) as Hil.
    apply Hm3; [by apply Hcopy|apply Hqs; lia|apply Hqo; lia].
  - intros x b Hx H1 H2. apply Hm3; [by apply Hkeep|done|done].
Qed.

Lemma stayed_refl (st st' : state) : ext st' = ext st -> mem st' = mem st -> stayed st st'.
Proof. intros Hx Hm. unfold stayed, foreign. by rewrite Hx, Hm. Qed.

Lemma rehome_record_wp r original bs (st : state) :
  al_inv (ext st) (mem st) -> bridge_there (fst (ext st)) -> slot_ok r original bs st ->
  wp al_exits (ao_rehome_scanf_record r) (fun _ st' => rehomed r original bs st st') st.
Proof.
  intros I B S. pose proof B as (Hready & Howns & _). unfold ao_rehome_scanf_record.
  apply wp_bind. eapply wp_load_u64; [apply S|apply S|].
  apply wp_bind, wp_get_scanf. rewrite Hready. cbn [negb]. rewrite orb_false_r.
  assert (Hstay : wp al_exits (ret (X := scanf_globals * X) tt)
    (fun _ st' => stayed st st' /\ al_inv (ext st') (mem st') /\ fst (ext st') = fst (ext st)) st)
    by (apply wp_ret; by split; [apply stayed_refl|]).
  destruct (Z.eqb_spec original 0) as [Hz|Hz].
  { apply wp_ret. split; [done|]. split; [done|]. left. split; [by apply stayed_refl|done]. }
  apply wp_bind. unfold call_owns. apply wp_bind, wp_get_scanf.
  destruct (Z.eqb_spec (g_bridge_owns (fst (ext st))) 0); [done|]. apply wp_lift.
  destruct (so_object _ _ _ _ S) as [|[[k Hk]|(k & Hk & Hlen & Hap & Hs)]]; [done| |].
  - eapply wp_mono; [eapply wp_exits; [apply (br_owns_live original k (St _ _ _)); [exact I|exact Hk]|done]|].
    intros o s' [Ho ->]. destruct (Z.eqb_spec o 0); [done|]. cbn [negb].
    apply wp_ret. cbn [fst snd ext mem errno]. split; [exact I|]. split; [done|]. left.
    split; [apply stayed_refl; [by destruct (ext st)|done]|].
    intros [k' Hn] _. destruct (foreign_block st _ _ I Hn) as (_ & _ & Hno). cbn in Hk, Hno. congruence.
  - eapply wp_mono; [eapply wp_exits; [apply (br_owns_foreign original k (St _ _ _)); [exact I|exact Hk]|done]|].
    intros o s' [-> ->]. cbn [Z.eqb negb fst snd ext mem errno].
    replace (St (mem st) (errno st) ((ext st).1, (ext st).2)) with st by (by destruct st as [? ? []]).
    destruct (foreign_block st _ _ I Hk) as (Go & _ & _).
    apply wp_bind. destruct (decide (mode r = AO_REHOME_UNSUPPORTED_WIDE_CHAR_COUNT)) as [Hun|Hun].
    { unfold clone_record. rewrite Hun. apply wp_ret. cbn [Z.eqb]. apply wp_ret.
      split; [done|]. split; [done|]. left. split; [by apply stayed_refl|by left]. }
    eapply wp_mono; [apply (clone_wp r original bs); [done|destruct Go as (? & ? & ? & ?); lia|exact Hs|done]|].
    intros q s1 [[I1 [[-> (Hm & Hl & He)]|[Hq N]]] [Hg Hfor]].
    { cbn [Z.eqb]. apply wp_ret. split; [done|]. split; [done|]. left.
      split; [by split_and!|by right]. }
    destruct (Z.eqb_spec q 0); [done|]. eapply rehome_move_wp; try done. by rewrite Hg.
Qed.

(** ** A whole plan *)

(** A record with the pointer its slot holds after the scan, and the object there. *)
Record result := Result { rs_record : ao_scanf_record; rs_original : Z; rs_bytes : list Z }.

Definition rs_slot (t : result) : Z := slot (rs_record t).

(** The slots and the objects of two results are apart. *)
Record results_apart (st : state) (t u : result) : Prop := {
  ra_slots : apart (rs_slot t) 8 (rs_slot u) 8;
  ra_objects n : foreign st !! rs_original t = Some n -> rs_original t <> rs_original u;
  ra_clear n : foreign st !! rs_original u = Some n -> apart (rs_slot t) 8 (rs_original u) n
}.

Record results_ok (ts : list result) (st : state) : Prop := {
  ro_ok t : t ∈ ts -> slot_ok (rs_record t) (rs_original t) (rs_bytes t) st;
  ro_apart i j t u : ts !! i = Some t -> ts !! j = Some u -> i <> j -> results_apart st t u
}.

(** What became of a result: in place, or copied to a block the preloaded
    allocator owns (not [avoid], clear of the slots to do) with the original
    gone. *)
Definition result_done (avoid : Z) (todo : list result) (t : result) (st : state) : Prop :=
  holds (mem st) (rs_slot t) (le_encode 8 (rs_original t)) \/
  exists q, q <> 0 /\ q <> avoid /\ holds (mem st) (rs_slot t) (le_encode 8 q) /\
    al_live (ext st) !! q = Some (Z.of_nat (length (rs_bytes t))) /\
    holds (mem st) q (rs_bytes t) /\ foreign st !! rs_original t = None /\
    forall u, u ∈ todo -> rs_bytes t <> [] -> apart q (Z.of_nat (length (rs_bytes t))) (rs_slot u) 8.

(** While [todo] remains, what is known of a result that is done. *)
Record done_ok (avoid : Z) (todo : list result) (t : result) (st : state) : Prop := {
  do_done : result_done avoid todo t st;
  do_slot u : u ∈ todo -> apart (rs_slot t) 8 (rs_slot u) 8;
  do_clear u n : u ∈ todo -> foreign st !! rs_original u = Some n ->
    apart (rs_slot t) 8 (rs_original u) n
}.

Lemma holds_frame (m m' : gmap Z Z) a bs k b l c :
  holds m a bs -> Z.of_nat (length bs) <= k -> apart a k b l -> forall o n, apart a k o n ->
  (forall x v, m !! x = Some v -> ~ (b <= x < b + l) -> ~ (o <= x < o + n) -> m' !! x = Some v) ->
  c = m' -> holds c a bs.
Proof.
  intros H Hk Ha o n Ho Hf -> i v Hi. pose proof (lookup_lt_Some _ _ _ Hi).
  unfold apart in *. apply Hf; [by apply H|lia|lia].
Qed.

Lemma apart_sym a n b k : apart a n b k -> apart b k a n.
Proof. unfold apart. lia. Qed.

(** A result that is still to do, after another one was moved. *)
Lemma slot_ok_moved t u (st st1 : state) q n :
  al_inv (ext st) (mem st) ->
  slot_ok (rs_record u) (rs_original u) (rs_bytes u) st ->
  results_apart st t u -> results_apart st u t ->
  moved (rs_record t) (rs_original t) (rs_bytes t) st q n st1 ->
  slot_ok (rs_record u) (rs_original u) (rs_bytes u) st1.
Proof.
  intros I S Atu Aut M. pose proof (mv_frame _ _ _ _ _ _ _ M) as Hfr.
  pose proof (ra_slots _ _ _ Aut) as Hss.
  pose proof (ra_clear _ _ _ Aut n (mv_foreign _ _ _ _ _ _ _ M)) as Hso.
  split.
  - eapply holds_frame; [apply S| |exact Hss|exact Hso|exact Hfr|done].
    by rewrite length_le_encode.
  - apply S.
  - destruct (so_object _ _ _ _ S) as [|[[k Hk]|(k & Hk & Hlen & Hap & Hs)]]; [by left| |].
    + right; left. rewrite (mv_live _ _ _ _ _ _ _ M). rewrite lookup_insert_is_Some'. eauto.
    + right; right. exists k. split_and!; [|done|done|].
      * rewrite (mv_gone _ _ _ _ _ _ _ M), lookup_delete_ne; [done|].
        apply (ra_objects _ _ _ Atu n), M.
      * eapply scanned_kept; [exact Hs|exact Hlen|]. intros x b Hx Hb. apply Hfr; [done| |].
        -- pose proof (ra_clear _ _ _ Atu k Hk) as Hc. unfold apart, rs_slot in Hc. lia.
        -- destruct (br_disjoint (snd (ext st)) (mem st) _ _ _ _ I (mv_foreign _ _ _ _ _ _ _ M) Hk);
             [apply (ra_objects _ _ _ Atu n), M|lia|lia].
Qed.

Lemma results_apart_sub (st st1 : state) t u :
  results_apart st t u ->
  (forall o n, foreign st1 !! o = Some n -> foreign st !! o = Some n) -> results_apart st1 t u.
Proof. intros [] H. split; eauto. Qed.

(** The slot of a result that is done, after another one was moved. *)
Lemma done_slot_kept avoid t u todo (st st1 : state) q n v :
  done_ok avoid (u :: todo) t st -> moved (rs_record u) (rs_original u) (rs_bytes u) st q n st1 ->
  holds (mem st) (rs_slot t) (le_encode 8 v) -> holds (mem st1) (rs_slot t) (le_encode 8 v).
Proof.
  intros D M H. eapply (holds_frame _ _ _ _ 8); [exact H| | | |apply (mv_frame _ _ _ _ _ _ _ M)|done].
  - by rewrite length_le_encode.
  - by apply (do_slot _ _ _ _ D); left.
  - apply (do_clear _ _ _ _ D); [by left|apply M].
Qed.

(** A result that is done, after another one was moved. *)
Lemma done_moved avoid t u todo (st st1 : state) q n :
  al_inv (ext st) (mem st) -> done_ok avoid (u :: todo) t st ->
  moved (rs_record u) (rs_original u) (rs_bytes u) st q n st1 ->
  (forall v, v ∈ u :: todo -> mapped (mem st) (rs_slot v) 8) ->
  done_ok avoid todo t st1.
Proof.
  intros I D M Hmap. pose proof (mv_frame _ _ _ _ _ _ _ M) as Hfr.
  pose proof (mv_foreign _ _ _ _ _ _ _ M) as Hfor.
  pose proof (do_slot _ _ _ _ D u ltac:(by left)) as Hss.
  pose proof (do_clear _ _ _ _ D u n ltac:(by left) Hfor) as Hso.
  assert (Hsub : forall o k, foreign st1 !! o = Some k -> foreign st !! o = Some k).
  { intros o k. rewrite (mv_gone _ _ _ _ _ _ _ M). by intros [_ ?]%lookup_delete_Some. }
  split.
  - destruct (do_done _ _ _ _ D) as [H|(p & Hp & Hav & Hs & Hl & Hb & Hg & Hpu)]; [left|right].
    + by eapply done_slot_kept.
    + exists p. split_and!; [done|done|by eapply done_slot_kept| | | |].
      * rewrite (mv_live _ _ _ _ _ _ _ M), lookup_insert_ne; [done|].
        intros ->. by rewrite (mv_new _ _ _ _ _ _ _ M) in Hl.
      * destruct (rs_bytes t) as [|b0 bs0] eqn:Hbs; [apply holds_nil|]. rewrite <- Hbs in *.
        eapply (holds_frame _ _ _ _ (Z.of_nat (length (rs_bytes t))));
          [exact Hb|done|apply Hpu; [by left|by rewrite Hbs]| |exact Hfr|done].
        apply apart_sym. exact (br_apart (snd (ext st)) (mem st) _ _ _ _ I Hfor Hl).
      * apply eq_None_not_Some. intros [k Hk]. apply Hsub in Hk. congruence.
      * intros v Hv. apply Hpu. by right.
  - intros v Hv. apply (do_slot _ _ _ _ D). by right.
  - intros v k Hv Hk. apply (do_clear _ _ _ _ D); [by right|auto].
Qed.

(** The result that was just processed. *)
Lemma done_now avoid k0 t todo (st st1 : state) :
  al_inv (ext st) (mem st) ->
  slot_ok (rs_record t) (rs_original t) (rs_bytes t) st ->
  al_live (ext st) !! avoid = Some k0 ->
  (forall u, u ∈ todo -> results_apart st t u /\ mapped (mem st) (rs_slot u) 8) ->
  rehomed (rs_record t) (rs_original t) (rs_bytes t) st st1 -> done_ok avoid todo t st1.
Proof.
  intros I S Hav Hap (I1 & _ & [[(Hm & Hl & Hf) _]|(q & n & M)]).
  - split.
    + left. rewrite Hm. apply S.
    + intros u Hu. apply (Hap u Hu).
    + intros u k Hu. rewrite Hf. apply (Hap u Hu).
  - split.
    + right. exists q. destruct (mv_block _ _ _ _ _ _ _ M) as (Hq & _).
      split_and!; [lia| |apply M| |apply M| |].
      * intros ->. by rewrite (mv_new _ _ _ _ _ _ _ M) in Hav.
      * rewrite (mv_live _ _ _ _ _ _ _ M). apply lookup_insert_eq.
      * rewrite (mv_gone _ _ _ _ _ _ _ M). apply lookup_delete_eq.
      * intros u Hu Hne. destruct (Hap u Hu) as [_ Hmap]. set (len := Z.of_nat _).
        assert (Hlen : 0 < len) by (unfold len; destruct (rs_bytes t); cbn; [done|lia]).
        destruct (decide (q + len <= rs_slot u \/ rs_slot u + 8 <= q)) as [|Hn]; [done|exfalso].
        destruct (Hmap (Z.max q (rs_slot u))) as [b Hb]; [lia|].
        rewrite (mv_fresh _ _ _ _ _ _ _ M) in Hb; [done|]. fold len. lia.
    + intros u Hu. apply (Hap u Hu).
    + intros u k Hu. rewrite (mv_gone _ _ _ _ _ _ _ M). intros [_ Hk]%lookup_delete_Some.
      by apply (Hap u Hu).
Qed.

(** What the loop keeps: the plan in memory with all its records (those of the results
    done, of the results to do and [more]), and no block but the plan, those that were
    there ([live0]) and those the slots of the results point to. *)
Record loop_inv (live0 : gmap Z Z) (g : scanf_globals) (plan : ao_scanf_plan) (size : Z)
    (more : list ao_scanf_record) (done todo : list result) (st : state) : Prop := {
  lp_inv : al_inv (ext st) (mem st);
  lp_globals : fst (ext st) = g;
  lp_bridge : bridge_there g;
  lp_live : al_live (ext st) !! records plan = Some size;
  lp_size : SIZEOF_RECORD * (Z.of_nat (length (done ++ todo)) + Z.of_nat (length more)) <= size;
  lp_records : holds (mem st) (records plan) (records_bytes (map rs_record (done ++ todo) ++ more));
  lp_clear t : t ∈ done ++ todo -> apart (rs_slot t) 8 (records plan) size;
  lp_todo : results_ok todo st;
  lp_done t : t ∈ done -> done_ok (records plan) todo t st;
  lp_kept p n : live0 !! p = Some n -> al_live (ext st) !! p = Some n;
  lp_owned p n : al_live (ext st) !! p = Some n ->
    p = records plan \/ live0 !! p = Some n \/
    exists t, t ∈ done /\ holds (mem st) (rs_slot t) (le_encode 8 p)
}.

Lemma slot_mapped r o bs (st : state) : slot_ok r o bs st -> mapped (mem st) (slot r) 8.
Proof.
  intros S x Hx. apply (holds_mapped _ _ _ (so_slot _ _ _ _ S)). by rewrite length_le_encode.
Qed.

Lemma results_ok_head t ts st :
  results_ok (t :: ts) st ->
  slot_ok (rs_record t) (rs_original t) (rs_bytes t) st /\
  (forall u, u ∈ ts -> results_apart st t u /\ results_apart st u t /\ mapped (mem st) (rs_slot u) 8) /\
  results_ok ts st.
Proof.
  intros [Hok Hap]. split; [apply Hok; by left|]. split.
  - intros u Hu. pose proof Hu as [j Hj]%list_elem_of_lookup. split_and!.
    + by apply (Hap 0%nat (S j)).
    + by apply (Hap (S j) 0%nat).
    + eapply slot_mapped, Hok. by right.
  - split; [intros u Hu; apply Hok; by right|].
    intros i j u v Hi Hj Hij. apply (Hap (S i) (S j)); [done|done|lia].
Qed.

Lemma loop_step live0 g plan size more done t todo (st st1 : state) :
  loop_inv live0 g plan size more done (t :: todo) st ->
  rehomed (rs_record t) (rs_original t) (rs_bytes t) st st1 ->
  loop_inv live0 g plan size more (done ++ [t]) todo st1.
Proof.
  intros L R. pose proof R as (I1 & Hg & Hcase).
  destruct (results_ok_head _ _ _ (lp_todo _ _ _ _ _ _ _ _ L)) as (S & Hap & Hts).
  pose proof (lp_inv _ _ _ _ _ _ _ _ L) as I.
  assert (Hnow : done_ok (records plan) todo t st1).
  { eapply done_now; [exact I|exact S|apply L| |exact R]. intros u Hu. by destruct (Hap u Hu) as (? & _ & ?). }
  assert (Happ : (done ++ [t]) ++ todo = done ++ t :: todo) by (by rewrite <- app_assoc).
  destruct Hcase as [[(Hm & Hl & Hf) _]|(q & n & M)].
  - split; [exact I1|rewrite Hg; apply L|apply L|rewrite Hl; apply L|rewrite Happ; apply L
           |rewrite Hm, Happ; apply L|rewrite Happ; apply L| | | |].
    + destruct Hts as [Hok Hpair]. split.
      * intros u Hu. destruct (Hok u Hu) as [S1 S2 S3].
        split; rewrite ?Hm, ?Hl, ?Hf; done.
      * intros i j u v Hi Hj Hij. eapply results_apart_sub; [by eapply Hpair|]. by rewrite Hf.
    + intros u [Hu|Hu%list_elem_of_singleton]%elem_of_app; [|by subst].
      pose proof (lp_done _ _ _ _ _ _ _ _ L u Hu) as [D1 D2 D3]. split.
      * unfold result_done in *. rewrite Hm, Hl, Hf. destruct D1 as [|(p & ? & ? & ? & ? & ? & ? & Hp)]; [by left|].
        right. exists p. split_and!; try done. intros v Hv. apply Hp. by right.
      * intros v Hv. apply D2. by right.
      * intros v k Hv. rewrite Hf. apply D3. by right.
    + rewrite Hl. apply L.
    + intros p k. rewrite Hl, Hm. intros Hp.
      destruct (lp_owned _ _ _ _ _ _ _ _ L p k Hp) as [|[|(u & Hu & ?)]]; [by left|by right; left|].
      right; right. exists u. split; [|done]. apply elem_of_app. by left.
  - assert (Hsub : forall o k, foreign st1 !! o = Some k -> foreign st !! o = Some k).
    { intros o k. rewrite (mv_gone _ _ _ _ _ _ _ M). by intros [_ ?]%lookup_delete_Some. }
    split; rewrite ?Happ; [exact I1|rewrite Hg; apply L|apply L| |apply L| |apply L| | | |].
    + rewrite (mv_live _ _ _ _ _ _ _ M), lookup_insert_ne; [apply L|].
      intros Hq. pose proof (lp_live _ _ _ _ _ _ _ _ L) as Hp. rewrite <- Hq in Hp.
      by rewrite (mv_new _ _ _ _ _ _ _ M) in Hp.
    + eapply (holds_frame _ _ _ _ size); [apply L| | | |apply (mv_frame _ _ _ _ _ _ _ M)|done].
      * rewrite length_records_bytes, length_app, length_map, Nat2Z.inj_add. apply L.
      * apply apart_sym, (lp_clear _ _ _ _ _ _ _ _ L), elem_of_app. right. by left.
      * apply apart_sym. exact (br_apart (snd (ext st)) (mem st) _ _ _ _ I
          (mv_foreign _ _ _ _ _ _ _ M) (lp_live _ _ _ _ _ _ _ _ L)).
    + destruct Hts as [Hok Hpair]. split.
      * intros u Hu. destruct (Hap u Hu) as (? & ? & _). eapply slot_ok_moved; eauto.
      * intros i j u v Hi Hj Hij. eapply results_apart_sub; [by eapply Hpair|done].
    + intros u [Hu|Hu%list_elem_of_singleton]%elem_of_app; [|by subst].
      eapply done_moved; [exact I|by apply (lp_done _ _ _ _ _ _ _ _ L)|exact M|].
      intros v [->|Hv]%elem_of_cons; [by eapply slot_mapped|]. by apply (Hap v Hv).
    + intros p k Hp. rewrite (mv_live _ _ _ _ _ _ _ M), lookup_insert_ne.
      * by apply (lp_kept _ _ _ _ _ _ _ _ L).
      * intros ->. apply (lp_kept _ _ _ _ _ _ _ _ L) in Hp. by rewrite (mv_new _ _ _ _ _ _ _ M) in Hp.
    + intros p k. rewrite (mv_live _ _ _ _ _ _ _ M), lookup_insert_Some. intros [[<- _]|[_ Hp]].
      { right; right. exists t. split; [|apply M]. apply elem_of_app. right. by left. }
      destruct (lp_owned _ _ _ _ _ _ _ _ L p k Hp) as [|[|(u & Hu & Hs)]]; [by left|by right; left|].
      right; right. exists u. split; [apply elem_of_app; by left|].
      eapply done_slot_kept; [by apply (lp_done _ _ _ _ _ _ _ _ L)|exact M|exact Hs].
Qed.

(** ** The loop *)

Definition record_ok (r : ao_scanf_record) : Prop :=
  0 <= slot r <= SIZE_MAX /\ 0 <= ordinal r < 2 ^ 31 /\ 0 <= width r <= SIZE_MAX.

Lemma wp_load_record E a r (Q : ao_scanf_record -> state -> Prop) st :
  holds (mem st) a (record_bytes r) -> record_ok r -> Q r st -> wp E (load_record a) Q st.
Proof.
  intros H (Hs & Ho & Hw) HQ. unfold record_bytes in H.
  apply holds_app in H as [H1 H]. apply holds_app in H as [H2 H].
  apply holds_app in H as [H3 H4]. rewrite !length_le_encode in *.
  unfold load_record.
  apply wp_bind. eapply wp_load; [exact H1|done|].
  apply wp_bind. eapply wp_load; [exact H2|done|].
  apply wp_bind. eapply wp_load; [by replace (a + 12) with (a + Z.of_nat 8 + Z.of_nat 4) by lia|done|].
  apply wp_bind. eapply wp_load;
    [by replace (a + 16) with (a + Z.of_nat 8 + Z.of_nat 4 + Z.of_nat 4) by lia|done|].
  rewrite !le_decode_encode.
  assert (Hm : mode_of_code (mode_code (mode r) mod 256 ^ Z.of_nat 4) = Some (mode r))
    by (by destruct (mode r)).
  rewrite Hm. apply wp_bind, wp_ret, wp_ret.
  rewrite !Z.mod_small by (unfold SIZE_MAX in *; lia). by destruct r.
Qed.

(** The records the scanner reports as done, given how many assignments it counted. *)
Fixpoint counted (matches : Z) (rs : list ao_scanf_record) : list ao_scanf_record :=
  match rs with
  | [] => []
  | r :: rs' => if matches <? ordinal r then [] else r :: counted matches rs'
  end.

(** The rest begins after what was counted. *)
Lemma counted_split matches rs :
  exists more, rs = counted matches rs ++ more /\ counted matches more = [] /\
    Forall (fun r => ordinal r <= matches) (counted matches rs).
Proof.
  induction rs as [|r rs (more & IH & Hm & Ho)]; [by exists []|]. cbn.
  destruct (Z.ltb_spec matches (ordinal r)) as [H|H].
  - exists (r :: rs). split_and!; [done| |done]. cbn. by destruct (Z.ltb_spec matches (ordinal r)); [|lia].
  - exists more. split_and!; [by rewrite IH at 1|done|by constructor].
Qed.

(** One after the other. *)
Inductive rehome_chain : list result -> state -> state -> Prop :=
| chain_nil st : rehome_chain [] st st
| chain_cons t ts st st1 st2 :
    rehomed (rs_record t) (rs_original t) (rs_bytes t) st st1 ->
    rehome_chain ts st1 st2 -> rehome_chain (t :: ts) st st2.

Lemma wp_load_plan E live0 g plan size more done todo rs1 r rs2 (Q : ao_scanf_record -> state -> Prop) st :
  loop_inv live0 g plan size more done todo st ->
  map rs_record (done ++ todo) ++ more = rs1 ++ r :: rs2 -> record_ok r -> Q r st ->
  wp E (load_record (records plan + SIZEOF_RECORD * Z.of_nat (length rs1))) Q st.
Proof.
  intros L Hrs Hr HQ. eapply (wp_load_record _ _ r); [|done|done].
  pose proof (lp_records _ _ _ _ _ _ _ _ L) as H. rewrite Hrs in H. unfold records_bytes in H.
  rewrite map_app, concat_app in H. apply holds_app in H as [_ H].
  change (concat (map record_bytes rs1)) with (records_bytes rs1) in H.
  rewrite length_records_bytes in H. cbn in H. by apply holds_app in H as [H _].
Qed.

Lemma rehome_loop_wp live0 g plan size matches more todo done st :
  loop_inv live0 g plan size more done todo st ->
  Forall (fun t => record_ok (rs_record t) /\ ordinal (rs_record t) <= matches) todo ->
  Forall record_ok more -> counted matches more = [] ->
  wp al_exits (rehome_loop (length todo + length more) (Z.of_nat (length done)) plan matches)
    (fun _ st' => rehome_chain todo st st' /\ loop_inv live0 g plan size more (done ++ todo) [] st') st.
Proof.
  intros L HR Hmore Hcount. revert done st L. induction HR as [|t todo [Ht Hle] HR IH]; intros done st L.
  { rewrite app_nil_r. cbn [length Nat.add]. destruct more as [|r more]; cbn [rehome_loop length].
    { apply wp_ret. by split; [constructor|]. }
    apply Forall_cons_1 in Hmore as [Hr Hmore]. cbn [counted] in Hcount. apply wp_bind.
    rewrite <- (length_map rs_record done). eapply wp_load_plan; [exact L|by rewrite app_nil_r|exact Hr|].
    destruct Hr as (_ & Ho & _). rewrite s32_small by lia.
    destruct (matches <? ordinal r); [|done]. apply wp_ret. by split; [constructor|]. }
  cbn [rehome_loop length Nat.add]. apply wp_bind. rewrite <- (length_map rs_record done).
  eapply wp_load_plan; [exact L|by rewrite map_app, <- app_assoc|exact Ht|].
  destruct Ht as (Hs & Ho & Hw). rewrite s32_small by lia.
  destruct (Z.ltb_spec matches (ordinal (rs_record t))); [lia|].
  destruct (results_ok_head _ _ _ (lp_todo _ _ _ _ _ _ _ _ L)) as (S & _).
  apply wp_bind. eapply wp_mono.
  { apply (rehome_record_wp _ (rs_original t) (rs_bytes t) _ (lp_inv _ _ _ _ _ _ _ _ L)); [|exact S].
    rewrite (lp_globals _ _ _ _ _ _ _ _ L). apply L. }
  intros [] st1 R. pose proof (loop_step _ _ _ _ _ _ _ _ _ _ L R) as L1.
  specialize (IH (done ++ [t]) st1 L1). rewrite length_app in IH. cbn [length] in IH. rewrite length_map.
  replace (Z.of_nat (length done + 1)) with (Z.of_nat (length done) + 1) in IH by lia.
  eapply wp_mono; [exact IH|]. intros _ st2 (Hc & L2). rewrite <- app_assoc in L2.
  split; [by econstructor|exact L2].
Qed.

Lemma rehome_plan_wp live0 g plan size matches more ts st :
  loop_inv live0 g plan size more [] ts st -> count plan = Z.of_nat (length ts + length more) ->
  Forall (fun t => record_ok (rs_record t) /\ ordinal (rs_record t) <= matches) ts ->
  Forall record_ok more -> counted matches more = [] ->
  wp al_exits (ao_rehome_scanf_plan plan matches)
    (fun _ st' => rehome_chain ts st st' /\ loop_inv live0 g plan size more ts [] st') st.
Proof.
  intros L Hc HR Hm Hn. unfold ao_rehome_scanf_plan. rewrite Hc, Nat2Z.id.
  by apply (rehome_loop_wp live0 g plan size matches more ts []).
Qed.

End Rehome.
