(* ===== verification/ScanWrap.v ===== *)
(** * The scanf wrappers, end to end

    What the wrappers assume of the C library's scanner ([scan_contract]) and
    what they give: the scanner's result, the results rehomed, and no block left
    but the caller's, those the scanner got and those the results point to. *)
From S2P Require Import Prelude CMem CCmd CLib Alloc Strings ScanFormat ScanGrammar Scanf ScanPlan ScanRehome.

Section Wrap.
Context {X : Type} `{!Allocator X} `{!AllocatorLaws X} `{!ScanfWorld X} `{!BridgeLaws X}.
#[local] Existing Instance lift_allocator.
#[local] Existing Instance lift_allocator_laws.
Abbreviation state := (st (scanf_globals * X)).

(** A result at the end of the call: where the scanner left it, or copied. *)
Definition rehomed_result (t : result) (st : state) : Prop :=
  holds (mem st) (rs_slot t) (le_encode 8 (rs_original t)) \/
  exists q, q <> 0 /\ holds (mem st) (rs_slot t) (le_encode 8 q) /\
    al_live (ext st) !! q = Some (Z.of_nat (length (rs_bytes t))) /\
    holds (mem st) q (rs_bytes t) /\ foreign st !! rs_original t = None.

(** What the scanner does, run after the plan was made ([st1]; [st0] is the call).  It
    returns an [r] of [R].  It keeps the blocks of the preloaded allocator and may add
    some, since it may get the memory of a result from the preloaded [malloc].  It does
    not touch memory that was not there at the call (the plan).  The conversions it
    counts, and only those, have results: the caller's pointer is null, or leads to a
    block of the preloaded allocator, or to a block of the C library with the converted
    text (as many characters as the width says for a counted conversion); the caller's
    pointers for them are distinct variables.  Nothing is known of the pointers of the
    conversions it does not count. *)
Record scanned_state (R : Z -> Prop) (g : scanf_globals) (new : list ao_scanf_record)
    (st0 st1 : state) (r : Z) (ts : list result) (st2 : state) : Prop := {
  sc_result : R r;
  sc_inv : al_inv (ext st2) (mem st2);
  sc_globals : fst (ext st2) = g;
  sc_live p n : al_live (ext st1) !! p = Some n -> al_live (ext st2) !! p = Some n;
  sc_plan x b : mem st0 !! x = None -> mem st1 !! x = Some b -> mem st2 !! x = Some b;
  sc_records : map rs_record ts = counted r new;
  sc_results : results_ok ts st2;
  sc_slots t : t ∈ ts -> mapped (mem st0) (rs_slot t) 8
}.

Definition scan_contract (R : Z -> Prop) (g : scanf_globals) (new : list ao_scanf_record)
    (st0 : state) (scan : C (scanf_globals * X) Z) : Prop :=
  forall st1, al_inv (ext st1) (mem st1) -> fst (ext st1) = g ->
    (forall x b, mem st0 !! x = Some b -> mem st1 !! x = Some b) ->
    (forall p n, al_live (ext st0) !! p = Some n -> al_live (ext st1) !! p = Some n) ->
    wp al_exits scan (fun r st2 => exists ts, scanned_state R g new st0 st1 r ts st2) st1.

(** The blocks of the preloaded allocator after the scan but for the plan: those of the
    call and those the scanner got. *)
Definition block_stays (st0 st1 st2 : state) (p n : Z) : Prop :=
  al_live (ext st2) !! p = Some n /\
  (al_live (ext st0) !! p = Some n \/ al_live (ext st1) !! p = None).

(** What the wrapper leaves of the results [ts], given the state [st3] after the
    rehoming: the blocks of the call and of the scanner, the results moved, and nothing
    else; the caller's memory as the rehoming left it. *)
Record wrap_done (g : scanf_globals) (ts : list result) (st0 st1 st2 st3 st' : state) : Prop := {
  wd_inv : al_inv (ext st') (mem st');
  wd_globals : fst (ext st') = g;
  wd_kept p n : block_stays st0 st1 st2 p n -> al_live (ext st') !! p = Some n;
  wd_foreign : foreign st' = foreign st3;
  wd_frame x b : is_Some (mem st0 !! x) -> mem st3 !! x = Some b -> mem st' !! x = Some b;
  wd_results t : t ∈ ts -> rehomed_result t st';
  wd_owned p n : al_live (ext st') !! p = Some n -> block_stays st0 st1 st2 p n \/
    exists t, t ∈ ts /\ holds (mem st') (rs_slot t) (le_encode 8 p)
}.

(** The whole call: parse, scan, rehome the results the scanner reports (unless
    the plan could not be made), give the plan back. *)
Definition wrap_post K format ap (R : Z -> Prop) (g : scanf_globals) (new : list ao_scanf_record)
    (st0 : state) (r : Z) (st' : state) : Prop :=
  exists o plan st1 ts st2 st3,
    parse_format K format ap (ScanfPlan 0 0 0) st0 = Ret ((o, plan), st1) /\
    scanned_state R g new st0 st1 r ts st2 /\
    ((o = 0 /\ rehome_chain ts st2 st3) \/
     (o = -1 /\ errno st1 = ENOMEM /\ st3 = st2)) /\
    wrap_done g ts st0 st1 st2 st3 st'.

(** ** Giving the plan back *)

(** The plan's block is freed: results elsewhere are not touched. *)
Lemma wp_free_plan plan size (st : state) :
  al_inv (ext st) (mem st) -> al_live (ext st) !! records plan = Some size ->
  wp al_exits (ao_scanf_plan_reset plan) (fun _ st' =>
    al_inv (ext st') (mem st') /\ fst (ext st') = fst (ext st) /\ foreign st' = foreign st /\
    freed (mem st) (al_live (ext st)) (records plan) size (mem st') (al_live (ext st'))) st.
Proof.
  intros I Hl. unfold ao_scanf_plan_reset. apply wp_bind, wp_lift.
  eapply wp_mono.
  { apply wp_and; [apply (al_free_ok (X:=X) (records plan) size (St (mem st) (errno st) (snd (ext st)))); [exact I|exact Hl]|].
    apply (br_release (X:=X) (records plan) size (St (mem st) (errno st) (snd (ext st)))); [exact I|exact Hl]. }
  intros _ [m e x] [[I' F] Hf]. by apply wp_ret.
Qed.

Lemma wp_free_no_plan (st : state) :
  al_inv (ext st) (mem st) ->
  wp al_exits (ao_scanf_plan_reset (ScanfPlan 0 0 0)) (fun _ st' =>
    al_inv (ext st') (mem st') /\ fst (ext st') = fst (ext st) /\ mem st' = mem st /\
    al_live (ext st') = al_live (ext st) /\ foreign st' = foreign st) st.
Proof.
  intros I. unfold ao_scanf_plan_reset. apply wp_bind, wp_lift. cbn [records].
  eapply wp_mono.
  { apply wp_and; [apply (al_free_null (X:=X) (St (mem st) (errno st) (snd (ext st)))); exact I|].
    apply (br_release_null (X:=X) (St (mem st) (errno st) (snd (ext st)))); exact I. }
  intros _ [m e x] [(I' & Hm & Hl) Hf]. by apply wp_ret.
Qed.

Lemma holds_freed (st st' : state) p size live' a bs :
  freed (mem st) (al_live (ext st)) p size (mem st') live' ->
  holds (mem st) a bs -> bs = [] \/ apart a (Z.of_nat (length bs)) p size -> holds (mem st') a bs.
Proof.
  intros F H [->|Ha]; [apply holds_nil|]. eapply holds_outside; [apply F| |exact H].
  unfold apart in Ha. lia.
Qed.

(** ** Between the parser and the end *)
Section Call.
Context (R : Z -> Prop) (g : scanf_globals) (new recs : list ao_scanf_record).
Context (plan : ao_scanf_plan) (st0 st1 st2 : state) (r : Z) (ts : list result).
Context (P : plan_state (mem st0) (al_live (ext st0)) g plan recs st1).
Context (B : bridge_there g) (S : scanned_state R g new st0 st1 r ts st2).

Abbreviation plan_size := (SIZEOF_RECORD * capacity plan).
Abbreviation others := (delete (records plan) (al_live (ext st2))).

(** The plan's block after the scan, out of the caller's sight. *)
Lemma plan_there :
  records plan <> 0 ->
  al_live (ext st1) = <[records plan := plan_size]> (al_live (ext st0)) /\
  al_live (ext st0) !! records plan = None /\ al_live (ext st2) !! records plan = Some plan_size /\
  (forall x, records plan <= x < records plan + plan_size -> mem st0 !! x = None) /\
  holds (mem st2) (records plan) (records_bytes recs) /\ 0 < plan_size.
Proof.
  intros Hp0. destruct (ps_block _ _ _ _ _ _ P) as [(-> & _)|(_ & Hc & Hnew & Hl & Hfr & Hr)]; [done|].
  pose proof (ps_capacity _ _ _ _ _ _ P). pose proof (ps_count _ _ _ _ _ _ P).
  assert (Hfresh : forall x, records plan <= x < records plan + plan_size -> mem st0 !! x = None).
  { intros x Hx. apply Hfr. unfold SIZEOF_RECORD in *. lia. }
  split_and!; [done|done| |exact Hfresh| |unfold SIZEOF_RECORD; lia].
  - apply (sc_live _ _ _ _ _ _ _ _ S). rewrite Hl. apply lookup_insert_eq.
  - intros i b Hi. apply (sc_plan _ _ _ _ _ _ _ _ S); [|by apply Hr]. apply Hfresh.
    pose proof (lookup_lt_Some _ _ _ Hi) as Hil. pose proof (length_records_bytes recs).
    unfold SIZEOF_RECORD in *. lia.
Qed.

(** The other blocks after the scan. *)
Lemma others_stay p n :
  records plan <> 0 -> others !! p = Some n <-> block_stays st0 st1 st2 p n.
Proof.
  intros Hp0. destruct (plan_there Hp0) as (Hl1 & Hl0 & _). unfold block_stays.
  rewrite lookup_delete_Some. split.
  - intros [Hne Hp]. split; [done|]. rewrite Hl1, lookup_insert_ne by done.
    destruct (al_live (ext st0) !! p) as [k|] eqn:Hk; [left|by right]. rewrite <- Hp. symmetry.
    apply (sc_live _ _ _ _ _ _ _ _ S). by rewrite Hl1, lookup_insert_ne.
  - intros [Hp Ho]. split; [|done]. intros <-. rewrite Hl1, lookup_insert_eq in Ho.
    destruct Ho as [Ho|Ho]; [congruence|done].
Qed.

(** Without a plan. *)
Lemma all_stay p n :
  records plan = 0 -> al_live (ext st2) !! p = Some n <-> block_stays st0 st1 st2 p n.
Proof.
  intros Hp0. destruct (ps_block _ _ _ _ _ _ P) as [(_ & Hl)|(? & _)]; [|done]. unfold block_stays.
  split; [|by intros []]. intros Hp. split; [done|]. rewrite Hl.
  destruct (al_live (ext st0) !! p) as [k|] eqn:Hk; [left|by right]. rewrite <- Hp. symmetry.
  apply (sc_live _ _ _ _ _ _ _ _ S). by rewrite Hl.
Qed.

Lemma slots_clear t : records plan <> 0 -> t ∈ ts -> apart (rs_slot t) 8 (records plan) plan_size.
Proof.
  intros Hp0 Ht. destruct (plan_there Hp0) as (_ & _ & _ & Hfr & _ & Hpos). unfold apart.
  destruct (decide (rs_slot t + 8 <= records plan \/ records plan + plan_size <= rs_slot t)) as [|Hn]; [done|exfalso].
  destruct (sc_slots _ _ _ _ _ _ _ _ S t Ht (Z.max (rs_slot t) (records plan))) as [b Hb]; [lia|].
  rewrite Hfr in Hb; [done|lia].
Qed.

(** The caller's memory when the plan's block is freed. *)
Lemma freed_caller m live live' m' x b :
  records plan <> 0 -> freed m live (records plan) plan_size m' live' ->
  is_Some (mem st0 !! x) -> m !! x = Some b -> m' !! x = Some b.
Proof.
  intros Hp0 F [b0 Hx] Hb. destruct (plan_there Hp0) as (_ & _ & _ & Hfr & _).
  rewrite (freed_frame _ _ _ _ _ _ F); [done|]. intros Hin. by rewrite Hfr in Hx.
Qed.

(** The start of the loop, after the scan. *)
Lemma scan_loop_start more :
  records plan <> 0 -> recs = new -> new = counted r new ++ more ->
  loop_inv others g plan plan_size more [] ts st2.
Proof.
  intros Hp0 Hrecs Hsplit. destruct (plan_there Hp0) as (_ & _ & Hl2 & _ & Hb & _).
  pose proof (ps_capacity _ _ _ _ _ _ P). pose proof (ps_count _ _ _ _ _ _ P) as Hc.
  assert (Hts : map rs_record ts ++ more = recs) by (by rewrite (sc_records _ _ _ _ _ _ _ _ S), Hrecs).
  split; cbn [app]; [apply S|apply S|done|done| | | |apply S| | |].
  - rewrite <- Hts in Hc. rewrite length_app, length_map in Hc. unfold SIZEOF_RECORD. lia.
  - by rewrite Hts.
  - intros t Ht. by apply slots_clear.
  - by intros t Ht%elem_of_nil.
  - intros p n. by intros [_ ?]%lookup_delete_Some.
  - intros p n Hp. destruct (decide (p = records plan)) as [|Hne]; [by left|right; left].
    by apply lookup_delete_Some.
Qed.

(** The end of the wrapper, once the loop is over. *)
Lemma wp_reset_done more (st : state) :
  records plan <> 0 -> loop_inv others g plan plan_size more ts [] st ->
  wp al_exits (ao_scanf_plan_reset plan) (fun _ st' => wrap_done g ts st0 st1 st2 st st') st.
Proof.
  intros Hp0 L. pose proof (lp_inv _ _ _ _ _ _ _ _ L) as I.
  pose proof (lp_live _ _ _ _ _ _ _ _ L) as Hl.
  eapply wp_mono; [by apply wp_free_plan|]. intros _ st' (I' & Hg & Hf & F).
  assert (Hlive : al_live (ext st') = delete (records plan) (al_live (ext st))) by apply F.
  assert (Hslot : forall t v, t ∈ ts -> holds (mem st) (rs_slot t) (le_encode 8 v) ->
    holds (mem st') (rs_slot t) (le_encode 8 v)).
  { intros t v Ht H. eapply holds_freed; [exact F|exact H|]. right. rewrite length_le_encode.
    by apply slots_clear. }
  split; [done|rewrite Hg; apply L| |done| | |].
  - intros p n Hp%(others_stay p n Hp0). rewrite Hlive.
    pose proof Hp as [Hne _]%lookup_delete_Some. rewrite lookup_delete_ne by done.
    by apply (lp_kept _ _ _ _ _ _ _ _ L).
  - intros x b. by apply (freed_caller _ _ _ _ _ _ Hp0 F).
  - intros t Ht.
    destruct (do_done _ _ _ _ (lp_done _ _ _ _ _ _ _ _ L t Ht))
      as [H|(q & Hq & Hav & Hs & Hlq & Hb & Hgone & _)]; [left; by apply Hslot|right].
    exists q. split_and!; [done|by apply Hslot| | |by rewrite Hf].
    + rewrite Hlive, lookup_delete_ne; done.
    + eapply holds_freed; [exact F|exact Hb|]. right.
      exact (al_live_disjoint (snd (ext st)) (mem st) q _ (records plan) plan_size I Hlq Hl Hav).
  - intros p n. rewrite Hlive. intros [Hne Hp]%lookup_delete_Some.
    destruct (lp_owned _ _ _ _ _ _ _ _ L p n Hp) as [->|[Hp2|(t & Ht & Hs)]]; [done| |].
    + left. by apply others_stay.
    + right. exists t. auto.
Qed.

(** The plan given back with nothing rehomed. *)
Lemma wp_reset_only :
  wp al_exits (ao_scanf_plan_reset plan) (fun _ st' => wrap_done g ts st0 st1 st2 st2 st') st2.
Proof.
  pose proof (sc_inv _ _ _ _ _ _ _ _ S) as I.
  assert (Hend : forall st', al_inv (ext st') (mem st') -> fst (ext st') = fst (ext st2) ->
    (forall p n, al_live (ext st') !! p = Some n <-> block_stays st0 st1 st2 p n) -> foreign st' = foreign st2 ->
    (forall x b, is_Some (mem st0 !! x) -> mem st2 !! x = Some b -> mem st' !! x = Some b) ->
    wrap_done g ts st0 st1 st2 st2 st').
  { intros st' I' Hg Hl Hf Hs. split; try done.
    - rewrite Hg. apply S.
    - intros p n. by rewrite Hl.
    - intros t Ht. left. intros i b Hi. pose proof (lookup_lt_Some _ _ _ Hi) as Hil.
      rewrite length_le_encode in Hil. apply Hs; [apply (sc_slots _ _ _ _ _ _ _ _ S t Ht); lia|].
      by apply (so_slot _ _ _ _ (ro_ok _ _ (sc_results _ _ _ _ _ _ _ _ S) t Ht)).
    - intros p n. rewrite Hl. by left. }
  destruct (decide (records plan = 0)) as [H0|H0].
  - destruct (ps_block _ _ _ _ _ _ P) as [(Hplan & _)|(? & _)]; [|done]. rewrite Hplan.
    eapply wp_mono; [by apply wp_free_no_plan|]. intros _ st' (I' & Hg & Hm & Hl' & Hf).
    apply Hend; [done|done| |done|by rewrite Hm]. intros p n. rewrite Hl'. by apply all_stay.
  - destruct (plan_there H0) as (_ & _ & Hl2 & _).
    eapply wp_mono; [by apply wp_free_plan|]. intros _ st' (I' & Hg & Hf & F).
    apply Hend; [done|done| |done|].
    + intros p n. rewrite (freed_live _ _ _ _ _ _ F). by apply others_stay.
    + intros x b. by apply (freed_caller _ _ _ _ _ _ H0 F).
Qed.

(** The whole plan rehomed, then given back. *)
Lemma wp_rehome_reset :
  recs = new -> Forall record_ok new ->
  wp al_exits (do* ao_rehome_scanf_plan plan r in ao_scanf_plan_reset plan)
    (fun _ st' => exists st3, rehome_chain ts st2 st3 /\ wrap_done g ts st0 st1 st2 st3 st') st2.
Proof.
  intros Hnew HR. pose proof (sc_records _ _ _ _ _ _ _ _ S) as Hts.
  destruct (counted_split r new) as (more & Hsplit & Hmore & Hord).
  assert (Hlen : length recs = (length ts + length more)%nat)
    by (rewrite Hnew, Hsplit, length_app, <- Hts; by rewrite length_map).
  pose proof (ps_count _ _ _ _ _ _ P) as Hc. apply wp_bind.
  destruct (decide (records plan = 0)) as [H0|H0].
  - destruct (ps_block _ _ _ _ _ _ P) as [(Hplan & _)|(? & _)]; [|done].
    assert (Hc0 : count plan = 0) by (by rewrite Hplan).
    assert (Hnil : ts = []) by (apply nil_length_inv; lia).
    unfold ao_rehome_scanf_plan. rewrite Hc0. apply wp_ret.
    eapply wp_mono; [exact wp_reset_only|]. intros ? st' D.
    exists st2. split; [rewrite Hnil; constructor|done].
  - rewrite Hsplit, Forall_app, <- Hts in HR. destruct HR as [HR1 HR2]. rewrite <- Hts in Hord.
    eapply wp_mono.
    { apply (rehome_plan_wp _ _ _ _ _ _ _ _ (scan_loop_start more H0 Hnew Hsplit)); [by rewrite Hc, Hlen| |done|done].
      apply Forall_and; [by apply (Forall_map rs_record record_ok)|by apply (Forall_map rs_record (fun c => ordinal c <= r))]. }
    intros _ st3 (Hch & L3). eapply wp_mono; [by eapply wp_reset_done|].
    intros ? st' D. by exists st3.
Qed.

End Call.

(** ** The call *)

Lemma counted_none r rs : r <= 0 -> Forall (fun c => 1 <= ordinal c) rs -> counted r rs = [].
Proof.
  intros Hr H. destruct H as [|c rs Hc _]; [done|]. cbn.
  destruct (Z.ltb_spec r (ordinal c)); [done|lia].
Qed.

Lemma width_bounds w : 0 <= w -> 0 <= saturate w <= SIZE_MAX.
Proof.
  unfold saturate, MAX_WIDTH. change ((SIZE_MAX - 9) / 10) with 1844674407370955160.
  intros Hw. case_cmp; zlia.
Qed.

Lemma format_records_ok K its ap n new :
  Forall item_ok its -> Forall (fun a => 0 <= a <= SIZE_MAX) ap ->
  format_records K its ap n = Some new -> 0 <= n -> n + Z.of_nat (length its) < 2 ^ 31 ->
  Forall (fun r => record_ok r /\ 1 <= ordinal r) new.
Proof.
  intros Hits. revert ap n new. induction Hits as [|i its Hi Hits IH]; intros ap n new Hap Hnew Hn Hlen.
  { by injection Hnew as <-. }
  cbn [length] in Hlen. destruct i as [c| |d]; cbn [format_records] in Hnew.
  1,2: eapply IH; [exact Hap|exact Hnew|lia..].
  destruct (directive_arg d ap) as [[dest ap']|] eqn:Harg; [|done].
  apply fmap_Some in Hnew as (new' & Hnew' & ->).
  assert (Hd : 0 <= dest <= SIZE_MAX /\ Forall (fun a => 0 <= a <= SIZE_MAX) ap').
  { unfold directive_arg in Harg. destruct (d_target d).
    - injection Harg as <- <-. split; [zlia|done].
    - apply fmap_Some in Harg as (x & Hx & [= -> ->]). split; [|done].
      by eapply (Forall_lookup_1 _ _ _ _ Hap Hx).
    - destruct ap; [done|]. injection Harg as -> ->. by apply Forall_cons_1 in Hap. }
  destruct Hd as [Hd Hap']. apply Forall_app. split.
  - destruct Hi as (_ & Hw & _). pose proof (width_bounds _ (decimal_nonneg _ Hw)).
    unfold directive_record. cbn zeta. match goal with |- context [if ?b then Some _ else None] => destruct b end; [|constructor].
    set (w := saturate _) in *.
    assert (Hwid : 0 <= (if (spec_letter (d_spec d) =? ch_c) && (w =? 0) then 1 else w) <= SIZE_MAX)
      by (match goal with |- context [if ?b then 1 else w] => destruct b end; zlia).
    constructor; [|constructor]. unfold record_ok. cbn [slot ordinal width]. lia.
  - eapply IH; [exact Hap'|exact Hnew'|destruct (assigns d); lia..].
Qed.

Lemma wp_bind_assoc {A B D} E (m : C (scanf_globals * X) A) (k : A -> C (scanf_globals * X) B)
    (h : B -> C (scanf_globals * X) D) Q st :
  wp E (bind (bind m k) h) Q st -> wp E (bind m (fun a => bind (k a) h)) Q st.
Proof. unfold wp, bind. by destruct (m st) as [[a s']|c| |]. Qed.

Lemma wrap_wp K R real_fn source format its ap new g st0 :
  al_inv (ext st0) (mem st0) -> fst (ext st0) = g -> g_ao_scanf_once g = true ->
  bridge_there g -> real_fn <> 0 ->
  holds (mem st0) format (chars_bytes K (print_format its)) ->
  Forall (char_ok K) (concat (map item_chars its)) -> Forall item_ok its ->
  Z.of_nat (length its) < 2 ^ 31 -> Forall (fun a => 0 <= a <= SIZE_MAX) ap ->
  format_records K its ap 0 = Some new ->
  scan_contract R g new st0 (lift (libc_scan real_fn source format ap)) ->
  wp al_exits (wrap_common K real_fn source format ap) (wrap_post K format ap R g new st0) st0.
Proof.
  intros I Hg Honce B Hreal Hm Hc Hits Hlen Hap Hnew Hscan. unfold wrap_common.
  apply wp_bind. unfold ao_ensure_scanf_symbols. apply wp_bind, wp_get_scanf.
  rewrite Hg, Honce. apply wp_ret. destruct (Z.eqb_spec real_fn 0); [done|].
  pose proof (format_records_ok K its ap 0 new Hits Hap Hnew ltac:(lia) ltac:(lia)) as HR.
  apply wp_bind. eapply wp_mono.
  { apply wp_eq. eapply (parse_format_wp (mem st0) (al_live (ext st0)) g); try done; [|lia].
    by apply plan_start. }
  intros [o plan] st1 [Hpush Heq]. cbn [app] in Hpush. unfold pushed in Hpush. cbn [fst snd app] in Hpush.
  assert (Hone : exists recs, plan_state (mem st0) (al_live (ext st0)) g plan recs st1 /\
    recs `prefix_of` new /\ ((o = 0 /\ recs = new) \/ (o = -1 /\ errno st1 = ENOMEM))).
  { destruct Hpush as [(-> & P)|(-> & He & recs & Hp & P)]; [exists new|exists recs]; auto. }
  destruct Hone as (recs & P & Hpre & Ho).
  apply wp_bind. eapply wp_mono.
  { apply (Hscan st1); [apply P..|]. intros p k Hp.
    destruct (ps_block _ _ _ _ _ _ P) as [(_ & ->)|(_ & _ & Hfree & -> & _)]; [done|].
    rewrite lookup_insert_ne; [done|]. congruence. }
  intros r st2 (ts & S). apply wp_bind, wp_get_scanf.
  rewrite (sc_globals _ _ _ _ _ _ _ _ S). pose proof B as (Hready & _). rewrite Hready.
  rewrite andb_true_r.
  assert (Hend : forall st3, wrap_done g ts st0 st1 st2 st2 st3 ->
    (o = 0 -> ts = []) -> wrap_post K format ap R g new st0 r st3).
  { intros st3 D Hnone. exists o, plan, st1, ts, st2, st2. split; [done|]. split; [done|].
    split; [|done]. destruct Ho as [[-> _]|[-> He]]; [left|by right].
    split; [done|]. rewrite Hnone by done. constructor. }
  assert (Hnone : r <= 0 -> ts = []).
  { intros Hr. apply (fmap_nil_inv rs_record). change (rs_record <$> ts) with (map rs_record ts).
    rewrite (sc_records _ _ _ _ _ _ _ _ S). apply counted_none; [done|].
    eapply Forall_impl; [|exact HR]. by intros ? []. }
  destruct ((o =? 0) && (0 <? r)) eqn:Hb.
  - apply andb_prop in Hb as [Hoz Hr]. apply Z.eqb_eq in Hoz as ->.
    destruct Ho as [[_ Hrecs]|[? _]]; [|done].
    apply wp_bind_assoc, wp_bind. eapply wp_mono.
    { eapply wp_rehome_reset; [exact P|done|exact S|done|].
      eapply Forall_impl; [|exact HR]. by intros ? []. }
    intros ? st' (st3 & Hch & D). apply wp_ret. exists 0, plan, st1, ts, st2, st3.
    split_and!; [done|done|by left|done].
  - apply wp_bind, wp_ret. apply wp_bind.
    eapply wp_mono; [eapply wp_reset_only; [exact P|exact S]|].
    intros ? st3 D. apply wp_ret. apply Hend; [done|]. intros ->. apply Hnone.
    cbn in Hb. lia.
Qed.

End Wrap.
