(* ===== verification/MockBridge.v ===== *)
(** * The mock allocator as the preloaded allocator of the scanf wrappers

    The bridge functions of the mock allocator satisfy [BridgeLaws]: the foreign
    blocks are the blocks of the C library the registry does not track. *)
From S2P Require Import Prelude CMem CCmd CLib Alloc Registry MockState Bootstrap MockAllocator MockSpec.
#[local] Set Warnings "-clear-no-such-hyp".
From S2P Require Import ScanFormat Scanf ScanRehome.

(** What remains of the world: the dynamic linker as the override library sees it,
    and the C library's scanners. *)
Class LibcScan (X : Type) := {
  lx_dlsym_next : string -> C X Z;
  lx_dlsym_default : string -> C X Z;
  lx_scan : Z -> Z -> Z -> list Z -> C X Z;
  lx_stdin : Z
}.

Section Bridge.
Context {Y : Type} `{!Platform Y} `{!Allocator Y} `{!LibcScan (globals * Y)}.

#[export] Instance mock_scanf_world : ScanfWorld (globals * Y) := {
  dlsym_next := lx_dlsym_next;
  dlsym_default := lx_dlsym_default;
  libc_scan := lx_scan;
  stdin := lx_stdin;
  bridge_owns p := let* owned := ao_alloc_bridge_owns p in ret (Z.b2z owned);
  bridge_libc_free := ao_alloc_bridge_libc_free
}.

Context `{!AllocatorLaws Y} `{!PlatformLaws Y}.

Definition mock_foreign (x : globals * Y) : gmap Z Z := al_live (snd x) ∖ tracked (fst x).

Lemma mock_foreign_lookup x p n :
  mock_foreign x !! p = Some n <-> al_live (snd x) !! p = Some n /\ tracked (fst x) !! p = None.
Proof. apply lookup_difference_Some. Qed.

Lemma foreign_both (l t : gmap Z Z) p n :
  l !! p = None -> <[p := n]> l ∖ <[p := n]> t = l ∖ t.
Proof.
  intros Hl. apply map_eq. intros q. apply option_eq. intros k.
  rewrite !lookup_difference_Some, lookup_insert_Some, lookup_insert_None.
  destruct (decide (p = q)) as [->|]; [|naive_solver]. rewrite Hl. naive_solver.
Qed.

#[export] Program Instance mock_bridge_laws : BridgeLaws (globals * Y) := {
  br_foreign := mock_foreign
}.
Next Obligation.
  intros [g y] m p n I [Hl Ht]%mock_foreign_lookup.
  destruct (al_live_block y m p n (mi_libc _ _ I) Hl) as [G Hm]. done.
Qed.
Next Obligation.
  intros [g y] m p n q k I [Hl Ht]%mock_foreign_lookup Hq.
  pose proof (tracked_libc g y m I q k Hq) as Hql.
  apply (al_live_disjoint y m p n q k (mi_libc _ _ I) Hl Hql).
  intros ->. cbn in *. congruence.
Qed.
Next Obligation.
  intros [g y] m p n q k I [Hl Ht]%mock_foreign_lookup [Hl' Ht']%mock_foreign_lookup Hne.
  by apply (al_live_disjoint y m p n q k (mi_libc _ _ I)).
Qed.
Next Obligation.
  intros n [m e [g y]] I Hn. cbn [ext mem] in *.
  eapply wp_mono.
  { apply wp_and; [apply malloc_wp; [by right|exact I|by left|done]|].
    apply malloc_live_wp; [by right|exact I|by left|done]. }
  intros p [m' e' [g' y']] [[I' H] Hlive]. cbn [ext fst snd mem errno] in *.
  unfold mock_foreign. cbn [fst snd].
  destruct Hlive as [[-> ->]|(Hp & Hnew & ->)]; destruct H as [(? & _ & _ & ->)|(? & t & -> & _ & A)];
    try done.
  - by rewrite (proj1 (quiet_same _ _ (failed_quiet g))).
  - rewrite (proj1 (quiet_same _ _ (success_quiet 0 n _))), (alloc_live _ _ _ _ _ _ A).
    by apply foreign_both.
Qed.
Next Obligation.
  intros p n [m e [g y]] I [Hl Ht]%mock_foreign_lookup. cbn [ext mem fst snd] in *.
  destruct (al_live_block y m p n (mi_libc _ _ I) Hl) as [(? & Hal & ?) _].
  apply wp_bind. eapply wp_mono; [by apply (is_tracked_wp _ g y m e p I)|].
  intros b s' [-> ->]. apply wp_ret. split; [|done]. rewrite bool_decide_eq_false_2; [done|].
  rewrite Ht. by intros [].
Qed.
Next Obligation.
  intros p n [m e [g y]] I Hl. cbn [ext mem fst snd] in *.
  destruct (tracked_good g y m I p n Hl) as ((? & Hal & ?) & _).
  apply wp_bind. eapply wp_mono; [by apply (is_tracked_wp _ g y m e p I)|].
  intros b s' [-> ->]. apply wp_ret. split; [|done].
  by rewrite bool_decide_eq_true_2 by (by exists n).
Qed.
Next Obligation.
  intros p n [m e [g y]] I [Hl Ht]%mock_foreign_lookup. cbn [ext mem fst snd] in *.
  eapply wp_mono; [apply (bridge_free_wp _ g y m e p n); [by right|exact I|exact Hl|exact Ht]|].
  intros _ [m' e' [g' y']] (I' & Hg & F). cbn [ext mem fst snd] in *. subst g'.
  split; [done|]. split; [done|].
  assert (Hf : mock_foreign (g, y') = delete p (mock_foreign (g, y))).
  { unfold mock_foreign. cbn [fst snd]. rewrite (freed_live _ _ _ _ _ _ F).
    apply map_eq. intros q. apply option_eq. intros k.
    rewrite lookup_delete_Some, !lookup_difference_Some, lookup_delete_Some. naive_solver. }
  rewrite Hf. by destruct F; split.
Qed.
Next Obligation.
  intros p n [m e [g y]] I Hp. cbn [ext mem fst snd] in *.
  eapply wp_mono.
  { apply wp_and; [apply (free_wp _ (fun c H => or_intror H) g y m I p n Hp)|].
    apply (free_live_wp _ (fun c H => or_intror H) g y m I p n Hp). }
  intros _ [m' e' [g' y']] [(I' & t & Hg & F) Hlive]. cbn [ext mem fst snd] in *.
  unfold mock_foreign. cbn [fst snd]. rewrite Hlive, (freed_live _ _ _ _ _ _ F).
  apply map_eq. intros q. apply option_eq. intros k.
  rewrite !lookup_difference_Some, lookup_delete_Some, lookup_delete_None.
  destruct (decide (p = q)) as [->|]; naive_solver.
Qed.
Next Obligation. by intros [m e [g y]] I. Qed.

(** The C library changes, and its blocks and the memory do not. *)
Lemma mock_inv_same g y m y' :
  mock_inv (g, y) m -> al_inv y' m -> al_live y' = al_live y -> mock_inv (g, y') m.
Proof.
  intros I I' Hl. destruct I; split; cbn [fst snd] in *; try done.
  - by rewrite Hl.
  - intros q k. rewrite Hl. eauto.
Qed.

(** A block the C library allocates for itself, behind the mock allocator. *)
Lemma mock_inv_behind g y m p n y' m' :
  mock_inv (g, y) m -> al_inv y' m' -> allocated m (al_live y) p n m' (al_live y') ->
  mock_inv (g, y') m' /\ mock_foreign (g, y') !! p = Some n.
Proof.
  intros I I' A. pose proof (alloc_live _ _ _ _ _ _ A) as Hl.
  pose proof (allocated_apart_heap _ _ _ _ _ _ (mi_heap _ _ I) A) as Ha.
  assert (Hnew : tracked g !! p = None).
  { pose proof (mi_sub _ _ I) as Hsub. cbn in Hsub.
    apply (lookup_weaken_None _ _ _ (alloc_new _ _ _ _ _ _ A) Hsub). }
  split; [|apply mock_foreign_lookup; split; [|done]; cbn; rewrite Hl; apply lookup_insert_eq].
  destruct I; split; cbn [fst snd] in *; try done.
  - by eapply allocated_keeps_mapped.
  - rewrite Hl. etrans; [exact mi_sub|]. apply insert_subseteq, A.
  - intros q k. rewrite Hl, lookup_insert_Some. intros [[<- <-]|[_ Hq]]; eauto.
Qed.

End Bridge.
