(* ===== verification/Memstream.v ===== *)
(** * Memory streams (src/memstream_overrides.c)

    [open_memstream] and [open_wmemstream] hand the C library a cookie and the
    functions that write, seek and close it.  The narrow and the wide functions
    are the same text on two character types, with another limit and a conversion
    in the wide writer: the grow, seek, close and open functions are one
    definition each, used at both.  [fopencookie], [fwide] and [mbsnrtowcs] are
    parameters. *)
From S2P Require Import Prelude CMem CCmd CLib Alloc.

(** What the file calls of the C library: [fopencookie] with the functions of this
    kind (the mode is always ["w"]), [fwide], and [mbsnrtowcs] given the address of
    the destination, the source, the two bounds and the address of the state. *)
Class StreamWorld (X : Type) := {
  fopencookie : char_kind -> Z -> C X Z;
  fwide : Z -> Z -> C X Z;
  mbsnrtowcs : Z -> Z -> Z -> Z -> Z -> C X Z
}.

(** ** The cookies *)

(** The fields of [struct ao_memstream_cookie] in order, all of 64 bits; [struct
    ao_wmemstream_cookie] has the conversion state after them. *)
Record ao_memstream_cookie := MemstreamCookie {
  ck_bufp : Z; ck_sizep : Z; ck_pos : Z; ck_buf : Z; ck_len : Z; ck_space : Z
}.
Definition cookie_words (k : ao_memstream_cookie) : list Z :=
  [ck_bufp k; ck_sizep k; ck_pos k; ck_buf k; ck_len k; ck_space k].
Definition off_bufp : Z := 0.
Definition off_sizep : Z := 8.
Definition off_pos : Z := 16.
Definition off_buf : Z := 24.
Definition off_len : Z := 32.
Definition off_space : Z := 40.
Definition off_state : Z := 48.
Definition SIZEOF_MBSTATE : Z := 8.
Definition sizeof_cookie (K : char_kind) : Z :=
  match K with Narrow => off_state | Wide => off_state + SIZEOF_MBSTATE end.

(** The largest number of characters: [SIZE_MAX], or [max_chars]. *)
Definition max_chars (K : char_kind) : Z :=
  match K with Narrow => SIZE_MAX | Wide => SSIZE_MAX / WCHAR_SIZE end.

(** The characters a stream that has [space] takes to hold [required]. *)
Definition grown_space (space required : Z) : Z :=
  let doubled := if (SIZE_MAX - 1) / 2 <? space then SIZE_MAX else u64 (u64 (2 * space) + 1) in
  let new_space := Z.lor doubled required in
  if new_space <? required then required else new_space.

Section Definitions.
Context {X : Type} `{!Allocator X} `{!StreamWorld X}.

(** Only the wide function compares the new size with the limit. *)
Definition memstream_grow (K : char_kind) (cookie len : Z) : C X Z :=
  let* pos := load_u64 (cookie + off_pos) in
  if u64 (u64 (max_chars K - len) - 1) <? pos then do* set_errno ENOMEM in ret (-1)
  else
    let required := u64 (u64 (pos + len) + 1) in
    let* space := load_u64 (cookie + off_space) in
    if required <=? space then ret 0
    else
      let new_space := grown_space space required in
      if match K with Narrow => false | Wide => max_chars K <? new_space end
      then do* set_errno ENOMEM in ret (-1)
      else
        let* buf := load_u64 (cookie + off_buf) in
        let* new_buf := al_realloc buf (u64 (new_space * char_size K)) in
        if new_buf =? 0 then ret (-1)
        else
          do* memset (new_buf + space * char_size K) 0 (u64 (u64 (new_space - space) * char_size K)) in
          do* store_u64 (cookie + off_buf) new_buf in
          do* store_u64 (cookie + off_space) new_space in
          let* bufp := load_u64 (cookie + off_bufp) in
          do* store_u64 bufp new_buf in
          ret 0.
Definition ao_memstream_grow := memstream_grow Narrow.
Definition ao_wmemstream_grow := memstream_grow Wide.

(** The end of both writers: [n] characters were written. *)
Definition advance (cookie n : Z) : C X unit :=
  let* pos := load_u64 (cookie + off_pos) in
  let pos := u64 (pos + n) in
  do* store_u64 (cookie + off_pos) pos in
  let* len := load_u64 (cookie + off_len) in
  do* (if len <=? pos then store_u64 (cookie + off_len) pos else ret tt) in
  let* sizep := load_u64 (cookie + off_sizep) in
  store_u64 sizep pos.

Definition ao_memstream_write (cookie src len : Z) : C X Z :=
  let* r := ao_memstream_grow cookie len in
  if negb (r =? 0) then ret 0
  else
    do* (if negb (len =? 0) then
           let* buf := load_u64 (cookie + off_buf) in
           let* pos := load_u64 (cookie + off_pos) in
           do* memcpy (buf + pos) src len in ret tt
         else ret tt) in
    do* advance cookie len in
    ret (s64 len).

Definition ao_wmemstream_write (cookie src len : Z) : C X Z :=
  let* r := ao_wmemstream_grow cookie len in
  if negb (r =? 0) then ret 0
  else
    let* buf := load_u64 (cookie + off_buf) in
    let* pos := load_u64 (cookie + off_pos) in
    let* space := load_u64 (cookie + off_space) in
    let* converted :=
      mbsnrtowcs (buf + pos * WCHAR_SIZE) src len (u64 (space - pos)) (cookie + off_state) in
    if converted =? SIZE_MAX then ret 0
    else
      do* advance cookie converted in
      ret (s64 len).

(** The limit of the offsets; the sums and negations of [off_t] that overflow are
    undefined. *)
Definition max_offset (K : char_kind) : Z :=
  match K with Narrow => SSIZE_MAX | Wide => s64 (SSIZE_MAX / WCHAR_SIZE) end.
Definition off_t_op (z : Z) : C X Z :=
  if (- 2 ^ 63 <=? z) && (z <? 2 ^ 63) then ret z else undef.

Definition memstream_seek (K : char_kind) (cookie offset whence : Z) : C X Z :=
  if (whence <? 0) || (2 <? whence) then do* set_errno EINVAL in ret (-1)
  else
    let* pos := load_u64 (cookie + off_pos) in
    let* len := load_u64 (cookie + off_len) in
    let base := s64 (if whence =? 0 then 0 else if whence =? 1 then pos else len) in
    let* off := load_u64 offset in
    let off := s64 off in
    let* low := off_t_op (- base) in
    let* bad := (if off <? low then ret true
                 else let* high := off_t_op (max_offset K - base) in ret (high <? off)) in
    if bad then do* set_errno EINVAL in ret (-1)
    else
      let* target := off_t_op (base + off) in
      do* store_u64 offset target in
      do* store_u64 (cookie + off_pos) (u64 target) in
      do* match K with
          | Narrow => ret tt
          | Wide => do* memset (cookie + off_state) 0 SIZEOF_MBSTATE in ret tt
          end in
      ret 0.
Definition ao_memstream_seek := memstream_seek Narrow.
Definition ao_wmemstream_seek := memstream_seek Wide.

Definition memstream_close (cookie : Z) : C X Z := do* al_free cookie in ret 0.
Definition ao_memstream_close := memstream_close.
Definition ao_wmemstream_close := memstream_close.

Definition open_stream (K : char_kind) (bufp sizep : Z) : C X Z :=
  let* cookie := al_malloc (sizeof_cookie K) in
  if cookie =? 0 then ret 0
  else
    let* buf := al_malloc (char_size K) in
    if buf =? 0 then do* al_free cookie in ret 0
    else
      do* store_u64 (cookie + off_bufp) bufp in
      do* store_u64 (cookie + off_sizep) sizep in
      do* store_u64 (cookie + off_pos) 0 in
      do* store_u64 (cookie + off_buf) buf in
      do* store_u64 (cookie + off_len) 0 in
      do* store_u64 (cookie + off_space) 0 in
      do* match K with
          | Narrow => ret tt
          | Wide => do* memset (cookie + off_state) 0 SIZEOF_MBSTATE in ret tt
          end in
      do* store_u64 sizep 0 in
      do* store_u64 bufp buf in
      do* store buf (char_bytes K 0) in
      let* stream := fopencookie K cookie in
      if stream =? 0 then
        do* al_free buf in
        do* al_free cookie in
        ret 0
      else
        do* match K with
            | Narrow => ret tt
            | Wide => do* fwide stream 1 in ret tt
            end in
        ret stream.
Definition open_memstream := open_stream Narrow.
Definition open_wmemstream := open_stream Wide.

End Definitions.

(** ** What a memory stream promises *)

(** The characters written so far, the offset of the next write, the size last
    reported to the caller, and the conversion state of a wide stream (a narrow one
    has none). *)
Record mem_file := MemFile {
  mf_data : list Z; mf_offset : Z; mf_size : Z; mf_state : list Z
}.

Definition initial_state (K : char_kind) : list Z :=
  replicate (Z.to_nat (sizeof_cookie K - off_state)) 0.
Definition empty_file (K : char_kind) : mem_file := MemFile [] 0 0 (initial_state K).

(** A write past the end fills the gap with zeros; it leaves the state [w]. *)
Definition write_file (cs w : list Z) (f : mem_file) : mem_file :=
  let o := Z.to_nat (mf_offset f) in
  let o' := mf_offset f + Z.of_nat (length cs) in
  MemFile (splice o cs (mf_data f ++ replicate (o - length (mf_data f)) 0)) o' o' w.

(** The character at [i], if there is one, becomes a null character. *)
Definition clear_at (i : nat) (f : mem_file) : mem_file :=
  MemFile (<[i := 0]> (mf_data f)) (mf_offset f) (mf_size f) (mf_state f).

(** The base of a seek, and the seek: [None] where it is refused. *)
Definition seek_base (f : mem_file) (whence : Z) : option Z :=
  if whence =? 0 then Some 0
  else if whence =? 1 then Some (mf_offset f)
  else if whence =? 2 then Some (Z.of_nat (length (mf_data f)))
  else None.
Definition seek_file (K : char_kind) (off whence : Z) (f : mem_file) : option mem_file :=
  match seek_base f whence with
  | None => None
  | Some base =>
      if (0 <=? base + off) && (base + off <=? max_offset K)
      then Some (MemFile (mf_data f) (base + off) (mf_size f) (initial_state K))
      else None
  end.

(** ** Facts of the size computation *)

Lemma lor_ge_r a b : 0 <= a -> 0 <= b -> b <= Z.lor a b.
Proof.
  intros Ha Hb. assert (H : Z.ldiff b (Z.lor a b) = 0).
  { apply Z.bits_inj'. intros n Hn. rewrite Z.ldiff_spec, Z.lor_spec, Z.bits_0.
    by destruct (Z.testbit a n), (Z.testbit b n). }
  pose proof (Z.sub_nocarry_ldiff _ _ H) as Hs.
  assert (0 <= Z.ldiff (Z.lor a b) b) by (apply Z.ldiff_nonneg; left; by apply Z.lor_nonneg).
  lia.
Qed.

Lemma lor_lt_pow2 a b n : 0 <= a < 2 ^ n -> 0 <= b < 2 ^ n -> 0 <= n -> 0 <= Z.lor a b < 2 ^ n.
Proof.
  intros Ha Hb Hn. assert (H0 : 0 <= Z.lor a b) by (apply Z.lor_nonneg; lia). split; [done|].
  assert (H : Z.lor a b / 2 ^ n = 0).
  { rewrite <- Z.shiftr_div_pow2, Z.shiftr_lor, !Z.shiftr_div_pow2, !Z.div_small by lia. done. }
  apply Z.div_small_iff in H; [|lia]. lia.
Qed.

(** The new size holds what is required, at least doubles, and fits. *)
Lemma grown_space_spec space required :
  0 <= space <= SIZE_MAX -> 0 <= required <= SIZE_MAX ->
  required <= grown_space space required <= SIZE_MAX /\
  Z.min SIZE_MAX (2 * space) <= grown_space space required.
Proof.
  intros Hs Hr. unfold grown_space.
  set (d := if _ <? space then SIZE_MAX else _).
  assert (Hd : 0 <= d <= SIZE_MAX /\ Z.min SIZE_MAX (2 * space) <= d).
  { unfold d. change ((SIZE_MAX - 1) / 2) with (2 ^ 63 - 1).
    case_cmp; [zlia|]. rewrite (u64_small (2 * space)) by zlia. rewrite u64_small by zlia. zlia. }
  destruct (lor_lt_pow2 d required 64) as [L1 L2]; [zlia..|].
  pose proof (lor_ge_r d required ltac:(lia) ltac:(lia)).
  pose proof (lor_ge_r required d ltac:(lia) ltac:(lia)) as Hc. rewrite Z.lor_comm in Hc.
  case_cmp; zlia.
Qed.
