(* ===== verification/MemstreamSpec.v ===== *)
(** * Memory streams refine files

    The representation of a [mem_file] by a cookie, its buffer and the caller's
    two variables, and the operations of [Memstream] on it. *)
From S2P Require Import Prelude CMem CCmd CLib Alloc Memstream.

(** The clearing of the conversion state of the wide streams. *)
Lemma wp_clear_state {X} E K k (Q : unit -> st X -> Prop) s :
  mapped (mem s) (k + off_state) (sizeof_cookie K - off_state) ->
  (forall m', same_dom (mem s) m' ->
     (forall x, ~ (k + off_state <= x < k + sizeof_cookie K) -> m' !! x = mem s !! x) ->
     holds m' (k + off_state) (initial_state K) -> Q tt (St m' (errno s) (ext s))) ->
  wp E (match K with
        | Narrow => ret tt
        | Wide => do* memset (k + off_state) 0 SIZEOF_MBSTATE in ret tt
        end) Q s.
Proof.
  intros Hm HQ. destruct K.
  - apply wp_ret. destruct s as [m e x]. apply HQ; [done|done|apply holds_nil].
  - apply wp_bind, wp_memset; [done|exact Hm|]. apply wp_ret, HQ.
    + apply same_dom_write. exact Hm.
    + intros x Hx. apply lookup_write_out. rewrite length_replicate. cbn in Hx.
      unfold off_state, SIZEOF_MBSTATE in *. lia.
    + apply holds_write.
Qed.

Section Stream.
Context {X : Type} `{!Allocator X} `{!AllocatorLaws X} `{!StreamWorld X}.

(** The kind of the stream, the memory and blocks of its users, the addresses of
    the caller's two variables and of the variable the C library passes to seek. *)
Context (K : char_kind) (m0 live0 : gmap Z Z) (bufp sizep offp : Z).

Definition zeros (n : nat) : list Z := replicate n 0.
Definition block_size (space : Z) : Z := char_size K * Z.max 1 space.

(** Addresses of the users that the stream does not write. *)
Definition callers (x : Z) : Prop :=
  ~ (bufp <= x < bufp + 8) /\ ~ (sizep <= x < sizep + 8) /\ ~ (offp <= x < offp + 8).

(** The variables. *)
Record slots_ok : Prop := {
  sl_bufp : mapped m0 bufp 8;
  sl_sizep : mapped m0 sizep 8;
  sl_offp : mapped m0 offp 8;
  sl_apart : bufp + 8 <= sizep \/ sizep + 8 <= bufp;
  sl_apart_bufp : offp + 8 <= bufp \/ bufp + 8 <= offp;
  sl_apart_sizep : offp + 8 <= sizep \/ sizep + 8 <= offp;
  sl_range : 0 <= bufp <= SIZE_MAX /\ 0 <= sizep <= SIZE_MAX
}.

(** [buf], a block for [space] characters (one when [space] is 0), holds the data
    and zeros; after the data there is always a zero character. *)
Record stream_rep (k buf space : Z) (f : mem_file) (s : st X) : Prop := {
  sr_inv : al_inv (ext s) (mem s);
  sr_cookie : holds (mem s) k (words (cookie_words
    (MemstreamCookie bufp sizep (mf_offset f) buf (Z.of_nat (length (mf_data f))) space)));
  sr_state : holds (mem s) (k + off_state) (mf_state f);
  sr_state_size : off_state + Z.of_nat (length (mf_state f)) = sizeof_cookie K;
  sr_offset : 0 <= mf_offset f <= max_offset K;
  sr_len : Z.of_nat (length (mf_data f)) <= max_offset K;
  sr_space : 0 <= space /\ block_size space <= SIZE_MAX;
  sr_room : Z.of_nat (length (mf_data f)) < Z.max 1 space;
  sr_new_cookie : live0 !! k = None;
  sr_new_buf : live0 !! buf = None;
  sr_apart : k <> buf;
  sr_live : al_live (ext s) =
    <[k := sizeof_cookie K]> (<[buf := block_size space]> live0);
  sr_fresh x : k <= x < k + sizeof_cookie K \/ buf <= x < buf + block_size space ->
    m0 !! x = None;
  sr_text : holds (mem s) buf (chars_bytes K
    (mf_data f ++ zeros (Z.to_nat (Z.max 1 space) - length (mf_data f))));
  sr_bufp : holds (mem s) bufp (le_encode 8 buf);
  sr_sizep : holds (mem s) sizep (le_encode 8 (mf_size f));
  sr_offp : mapped (mem s) offp 8;
  sr_keep x b : callers x -> m0 !! x = Some b -> mem s !! x = Some b
}.

Context (S0 : slots_ok).

(** ** Geometry *)

Lemma rep_blocks k buf space f s :
  stream_rep k buf space f s ->
  al_live (ext s) !! k = Some (sizeof_cookie K) /\ al_live (ext s) !! buf = Some (block_size space) /\
  good_block k (sizeof_cookie K) /\ good_block buf (block_size space) /\
  mapped (mem s) buf (block_size space) /\
  (k + sizeof_cookie K <= buf \/ buf + block_size space <= k).
Proof.
  intros R. assert (H1 : al_live (ext s) !! k = Some (sizeof_cookie K))
    by (rewrite (sr_live _ _ _ _ _ R); apply lookup_insert_eq).
  assert (H2 : al_live (ext s) !! buf = Some (block_size space)).
  { rewrite (sr_live _ _ _ _ _ R), lookup_insert_ne by apply R. apply lookup_insert_eq. }
  destruct (al_live_block _ _ _ _ (sr_inv _ _ _ _ _ R) H1) as [G1 _].
  destruct (al_live_block _ _ _ _ (sr_inv _ _ _ _ _ R) H2) as [G2 M2].
  split_and!; try done. eapply al_live_disjoint; [apply R|done|done|apply R].
Qed.

(** A part of the caller's memory is apart from the stream's blocks. *)
Lemma fresh_apart k n a c :
  (forall x, k <= x < k + n -> m0 !! x = None) -> mapped m0 a c -> 0 < c -> 0 < n ->
  a + c <= k \/ k + n <= a.
Proof.
  intros Hf Hm Hc Hn. destruct (decide (a + c <= k \/ k + n <= a)) as [|Hx]; [done|exfalso].
  destruct (Hm (Z.max a k)) as [b Hb]; [lia|]. rewrite Hf in Hb; [done|lia].
Qed.

Lemma rep_apart k buf space f s a c :
  stream_rep k buf space f s -> mapped m0 a c -> 0 < c ->
  (a + c <= k \/ k + sizeof_cookie K <= a) /\ (a + c <= buf \/ buf + block_size space <= a).
Proof.
  intros R Hm Hc. pose proof (sr_fresh _ _ _ _ _ R) as Hf. pose proof (char_size_pos K).
  split; (eapply fresh_apart; [|exact Hm|done|]); [intros x Hx; auto| |intros x Hx; auto|].
  - by destruct K.
  - unfold block_size. nia.
Qed.

(** The variables are mapped. *)
Lemma rep_variables k buf space f s x :
  stream_rep k buf space f s -> ~ callers x -> is_Some (mem s !! x).
Proof.
  intros R Hc. unfold callers in Hc.
  pose proof (holds_mapped _ _ _ (sr_bufp _ _ _ _ _ R)) as M1.
  pose proof (holds_mapped _ _ _ (sr_sizep _ _ _ _ _ R)) as M2. rewrite length_le_encode in M1, M2.
  destruct (decide (bufp <= x < bufp + 8)) as [Hx1|Hx1]; [by apply M1|].
  destruct (decide (sizep <= x < sizep + 8)) as [Hx2|Hx2]; [by apply M2|].
  apply (sr_offp _ _ _ _ _ R). lia.
Qed.

Lemma rep_cookie_mapped k buf space f s :
  stream_rep k buf space f s -> mapped (mem s) k (sizeof_cookie K).
Proof.
  intros R. pose proof (holds_mapped _ _ _ (sr_cookie _ _ _ _ _ R)) as H1.
  pose proof (holds_mapped _ _ _ (sr_state _ _ _ _ _ R)) as H2. rewrite length_words in H1. cbn in H1.
  pose proof (sr_state_size _ _ _ _ _ R) as Hs. unfold off_state in *. intros x Hx.
  destruct (decide (x < k + 48)); [apply H1; lia|apply H2; lia].
Qed.

(** The values of the fields are words. *)
Lemma rep_ranges k buf space f s :
  stream_rep k buf space f s ->
  0 <= mf_offset f <= SSIZE_MAX /\ 0 <= buf <= SIZE_MAX /\ 0 <= space <= SIZE_MAX /\
  0 <= Z.of_nat (length (mf_data f)) <= SIZE_MAX.
Proof.
  intros R. destruct (rep_blocks _ _ _ _ _ R) as (_ & _ & _ & (? & _ & ? & ?) & _).
  pose proof (sr_offset _ _ _ _ _ R) as Ho. pose proof (sr_space _ _ _ _ _ R) as [? Hs].
  pose proof (sr_room _ _ _ _ _ R). pose proof (char_size_pos K).
  assert (max_offset K <= SSIZE_MAX) by (by destruct K; vm_compute).
  unfold block_size in *. split_and!; try lia; nia.
Qed.

Lemma rep_errno k buf space f m e e' x :
  stream_rep k buf space f (St m e x) -> stream_rep k buf space f (St m e' x).
Proof. by intros []. Qed.

(** One field. *)
Lemma wp_field E k buf space f s (i : nat) v off (Q : Z -> st X -> Prop) :
  stream_rep k buf space f s ->
  cookie_words (MemstreamCookie bufp sizep (mf_offset f) buf (Z.of_nat (length (mf_data f))) space)
    !! i = Some v ->
  off = k + 8 * Z.of_nat i -> Q v s -> wp E (load_u64 off) Q s.
Proof.
  intros R Hi -> HQ. destruct (rep_ranges _ _ _ _ _ R) as (? & ? & ? & ?).
  destruct (sl_range S0). assert (SSIZE_MAX <= SIZE_MAX) by done.
  eapply wp_load_word; [apply R|exact Hi|done| |done].
  do 6 (destruct i as [|i]; [injection Hi as <-; lia|]). done.
Qed.

(** ** Growing *)

(** After the reallocation, before the new part is cleared. *)
Record moved_buf (k buf space q n : Z) (s s1 : st X) : Prop := {
  mb_inv : al_inv (ext s1) (mem s1);
  mb_good : good_block q (char_size K * n);
  mb_live : al_live (ext s1) = <[k := sizeof_cookie K]> (<[q := char_size K * n]> live0);
  mb_new : live0 !! q = None /\ k <> q;
  mb_mapped : mapped (mem s1) q (char_size K * n);
  mb_fresh x : q <= x < q + char_size K * n -> m0 !! x = None;
  mb_copy i : 0 <= i < block_size space -> mem s1 !! (q + i) = mem s !! (buf + i);
  mb_keep x b : mem s !! x = Some b -> ~ (buf <= x < buf + block_size space) ->
    mem s1 !! x = Some b
}.

Lemma rep_failed k buf space f s s1 :
  stream_rep k buf space f s -> al_inv (ext s1) (mem s1) -> alloc_failed al_live s s1 ->
  stream_rep k buf space f s1.
Proof.
  intros R I (Hm & Hl & _). destruct R. split; rewrite ?Hm, ?Hl; try done. by rewrite Hm in I.
Qed.

Lemma wp_realloc_buf k buf space f n s :
  stream_rep k buf space f s -> Z.max 1 space <= n -> char_size K * n <= SIZE_MAX ->
  wp al_exits (al_realloc buf (char_size K * n))
    (fun q s1 => (q = 0 /\ errno s1 = ENOMEM /\ stream_rep k buf space f s1) \/
                 (q <> 0 /\ moved_buf k buf space q n s s1)) s.
Proof.
  intros R Hn Hsz. destruct (rep_blocks _ _ _ _ _ R) as (Hk & Hb & Gk & Gb & Mb & Hap).
  pose proof (char_size_pos K) as Hu.
  eapply wp_mono; [apply (al_realloc_ok buf (block_size space)); [apply R|exact Hb|nia]|].
  intros q s1 (I1 & [(-> & _ & F)|[(_ & H0 & _)|[Hq A]]]); [left|nia|right].
  { split; [done|]. split; [apply F|]. by eapply rep_failed. }
  assert (Hqold : forall x, q <= x < q + char_size K * n -> m0 !! x = None).
  { intros x Hx. destruct (realloc_fresh _ _ _ _ _ _ _ _ A x) as [Hn0|Hin]; [lia| |].
    - apply eq_None_not_Some. intros [b Hxb]. destruct (decide (callers x)) as [Hc|Hc].
      + apply (sr_keep _ _ _ _ _ R) in Hxb; [congruence|done].
      + destruct (rep_variables _ _ _ _ _ x R Hc). congruence.
    - apply (sr_fresh _ _ _ _ _ R). by right. }
  assert (Hnew : live0 !! q = None).
  { destruct (realloc_new _ _ _ _ _ _ _ _ A) as [->|Hn0]; [apply R|].
    rewrite (sr_live _ _ _ _ _ R) in Hn0. apply lookup_insert_None in Hn0 as [Hn0 _].
    by apply lookup_insert_None in Hn0 as [Hn0 _]. }
  assert (Hkq : k <> q).
  { intros ->. destruct (realloc_new _ _ _ _ _ _ _ _ A) as [He|Hn0]; [by apply (sr_apart _ _ _ _ _ R)|].
    congruence. }
  split; [done|]. split; try done; [apply A| |apply A| |].
  - rewrite (realloc_live _ _ _ _ _ _ _ _ A), (sr_live _ _ _ _ _ R).
    rewrite delete_insert_ne by (apply not_eq_sym, R). rewrite delete_insert_id by apply R.
    by apply insert_insert_ne, not_eq_sym.
  - intros i Hi. apply (realloc_copy _ _ _ _ _ _ _ _ A). unfold block_size in *. nia.
  - intros x b. by apply (reallocated_keeps _ _ _ _ _ _ _ _ _ _ A).
Qed.

Lemma text_length (data : list Z) n :
  Z.of_nat (length data) <= Z.max 1 n ->
  Z.of_nat (length (chars_bytes K (data ++ zeros (Z.to_nat (Z.max 1 n) - length data)))) =
    block_size n.
Proof.
  intros H. rewrite length_chars_bytes, length_app. unfold zeros, block_size.
  rewrite length_replicate. f_equal. lia.
Qed.

(** The text after the new part is cleared. *)
Lemma grown_text k buf space f n q s s1 :
  stream_rep k buf space f s -> moved_buf k buf space q n s s1 -> Z.max 1 space <= n ->
  holds (write (mem s1) (q + space * char_size K)
           (replicate (Z.to_nat ((n - space) * char_size K)) 0)) q
    (chars_bytes K (mf_data f ++ zeros (Z.to_nat (Z.max 1 n) - length (mf_data f)))).
Proof.
  intros R M Hn. pose proof (sr_room _ _ _ _ _ R) as Hroom. pose proof (char_size_pos K) as Hu.
  pose proof (sr_space _ _ _ _ _ R) as [Hsp _]. set (len := length (mf_data f)) in *.
  replace (Z.to_nat (Z.max 1 n) - len)%nat
    with ((Z.to_nat space - len) + Z.to_nat (n - space))%nat by lia.
  unfold zeros. rewrite replicate_add, app_assoc, chars_bytes_app.
  pose proof (length_chars_bytes K (mf_data f ++ replicate (Z.to_nat space - len) 0)) as Hl.
  rewrite length_app, length_replicate in Hl. fold len in Hl.
  apply holds_app. split.
  - apply holds_write_other; [left; nia|]. intros i b Hi.
    pose proof (lookup_lt_Some _ _ _ Hi) as Hil.
    rewrite (mb_copy _ _ _ _ _ _ _ M) by (unfold block_size; nia).
    apply (sr_text _ _ _ _ _ R). fold len.
    replace (Z.to_nat (Z.max 1 space) - len)%nat
      with ((Z.to_nat space - len) + (Z.to_nat (Z.max 1 space) - Z.to_nat space))%nat by lia.
    unfold zeros. rewrite replicate_add, app_assoc, chars_bytes_app. by apply lookup_app_l_Some.
  - rewrite chars_bytes_zeros, Hl.
    replace (len + (Z.to_nat space - len))%nat with (Z.to_nat space) by lia.
    rewrite Z2Nat.id, (Z.mul_comm (char_size K)) by lia. rewrite <- Z2Nat.inj_mul by lia.
    apply holds_write.
Qed.

(** The caller's variables and the cookie are apart from the moved buffer. *)
Lemma moved_apart k buf space f q n s s1 :
  stream_rep k buf space f s -> moved_buf k buf space q n s s1 -> 1 <= n ->
  (k + sizeof_cookie K <= q \/ q + char_size K * n <= k) /\
  (forall a, mapped m0 a 8 -> a + 8 <= q \/ q + char_size K * n <= a).
Proof.
  intros R M Hn. pose proof (char_size_pos K). split.
  - assert (H1 : al_live (ext s1) !! k = Some (sizeof_cookie K))
      by (rewrite (mb_live _ _ _ _ _ _ _ M); apply lookup_insert_eq).
    assert (H2 : al_live (ext s1) !! q = Some (char_size K * n)).
    { rewrite (mb_live _ _ _ _ _ _ _ M), lookup_insert_ne by apply M. apply lookup_insert_eq. }
    eapply al_live_disjoint; [apply M|exact H1|exact H2|apply M].
  - intros a Ha. eapply fresh_apart; [apply M|exact Ha|done|nia].
Qed.

Lemma rep_moved k buf space f q n s s1 m' e :
  stream_rep k buf space f s -> moved_buf k buf space q n s s1 -> Z.max 1 space <= n ->
  same_dom (mem s1) m' ->
  holds m' k (words (cookie_words
    (MemstreamCookie bufp sizep (mf_offset f) q (Z.of_nat (length (mf_data f))) n))) ->
  holds m' q (chars_bytes K (mf_data f ++ zeros (Z.to_nat (Z.max 1 n) - length (mf_data f)))) ->
  holds m' bufp (le_encode 8 q) ->
  (forall x, ~ (k <= x < k + 48) -> ~ (q <= x < q + char_size K * n) ->
     ~ (bufp <= x < bufp + 8) -> m' !! x = mem s1 !! x) ->
  stream_rep k q n f (St m' e (ext s1)).
Proof.
  intros R M Hn HD Hc Ht Hb Hf. pose proof (char_size_pos K).
  destruct (moved_apart _ _ _ _ _ _ _ _ R M) as (Hkq & Hq); [lia|].
  pose proof (rep_blocks _ _ _ _ _ R) as (_ & _ & _ & _ & _ & Hkb).
  assert (Hcs : 48 <= sizeof_cookie K) by (by destruct K).
  assert (Hsame : block_size n = char_size K * n) by (unfold block_size; f_equal; lia).
  destruct (rep_apart _ _ _ _ _ _ _ R (sl_sizep S0) eq_refl) as [Hzk Hzb].
  destruct (rep_apart _ _ _ _ _ _ _ R (sl_bufp S0) eq_refl) as [Hbk Hbb].
  pose proof (sr_room _ _ _ _ _ R). pose proof (sl_apart S0).
  split; cbn [mem ext errno]; try done.
  - eapply al_inv_dom; [exact HD|apply M].
  - pose proof (sr_state_size _ _ _ _ _ R) as Hss. intros i b Hi.
    pose proof (lookup_lt_Some _ _ _ Hi) as Hil. unfold off_state in *. rewrite Hf by lia.
    apply (mb_keep _ _ _ _ _ _ _ M); [by apply (sr_state _ _ _ _ _ R)|lia].
  - apply R.
  - apply R.
  - apply R.
  - rewrite Hsame. split; [lia|]. destruct (mb_good _ _ _ _ _ _ _ M) as (? & _ & ? & ?). lia.
  - lia.
  - apply R.
  - apply M.
  - apply M.
  - rewrite Hsame. apply M.
  - rewrite Hsame. intros x [Hx|Hx]; [apply (sr_fresh _ _ _ _ _ R); by left|by apply M].
  - intros i b Hi. pose proof (lookup_lt_Some _ _ _ Hi) as Hil. rewrite length_le_encode in Hil.
    pose proof (Hq sizep (sl_sizep S0)). rewrite Hf by lia.
    apply (mb_keep _ _ _ _ _ _ _ M); [by apply (sr_sizep _ _ _ _ _ R)|lia].
  - rewrite <- HD. intros x Hx. destruct (sr_offp _ _ _ _ _ R x Hx) as [b Hx'].
    destruct (rep_apart _ _ _ _ _ _ _ R (sl_offp S0) eq_refl) as [_ Hob].
    exists b. apply (mb_keep _ _ _ _ _ _ _ M); [done|lia].
  - intros x b (Hx1 & Hx2 & Hx3) Hx. rewrite Hf; [|intros Hin..|done].
    + apply (mb_keep _ _ _ _ _ _ _ M); [apply (sr_keep _ _ _ _ _ R); [by split_and!|done]|].
      intros Hin. rewrite (sr_fresh _ _ _ _ _ R) in Hx; [done|by right].
    + rewrite (sr_fresh _ _ _ _ _ R) in Hx; [done|left; lia].
    + by rewrite (mb_fresh _ _ _ _ _ _ _ M) in Hx.
Qed.

Lemma wp_install k buf space f q n s s1 :
  stream_rep k buf space f s -> moved_buf k buf space q n s s1 -> Z.max 1 space <= n ->
  wp al_exits
    (do* memset (q + space * char_size K) 0 (u64 (u64 (n - space) * char_size K)) in
     do* store_u64 (k + off_buf) q in
     do* store_u64 (k + off_space) n in
     let* bufp := load_u64 (k + off_bufp) in
     do* store_u64 bufp q in
     ret 0)
    (fun r s' => r = 0 /\ stream_rep k q n f s') s1.
Proof.
  intros R M Hn. pose proof (char_size_pos K) as Hu. pose proof (grown_text _ _ _ _ _ _ _ _ R M Hn) as Ht.
  destruct (moved_apart _ _ _ _ _ _ _ _ R M) as (Hkq & Hq); [lia|].
  pose proof (rep_blocks _ _ _ _ _ R) as (_ & _ & _ & _ & _ & Hkb).
  destruct (mb_good _ _ _ _ _ _ _ M) as (Hq0 & _ & _ & Hqn).
  pose proof (sr_space _ _ _ _ _ R) as [Hsp _].
  assert (Hcs : 48 <= sizeof_cookie K) by (by destruct K).
  pose proof (Hq bufp (sl_bufp S0)) as Hbq.
  destruct (rep_apart _ _ _ _ _ _ _ R (sl_bufp S0) eq_refl) as [Hbk Hbb].
  rewrite (u64_small (n - space)) by nia. rewrite u64_small by nia.
  assert (Hfit : space * char_size K + (n - space) * char_size K = char_size K * n) by lia.
  apply wp_bind, wp_memset; [nia|eapply mapped_sub; [apply M|nia..]|].
  change (0 `mod` 256) with 0. set (zs := replicate _ 0) in *.
  assert (Hzs : Z.of_nat (length zs) = (n - space) * char_size K)
    by (unfold zs; rewrite length_replicate; nia).
  set (m2 := write (mem s1) _ zs) in *.
  assert (D2 : same_dom (mem s1) m2).
  { apply same_dom_write. rewrite Hzs. eapply mapped_sub; [apply M|nia..]. }
  assert (F2 : forall x, ~ (q <= x < q + char_size K * n) -> m2 !! x = mem s1 !! x).
  { intros x Hx. apply lookup_write_out. rewrite Hzs. nia. }
  assert (Hc2 : holds m2 k (words (cookie_words (MemstreamCookie bufp sizep (mf_offset f) buf
    (Z.of_nat (length (mf_data f))) space)))).
  { intros i b Hi. pose proof (lookup_lt_Some _ _ _ Hi) as Hil.
    pose proof (length_words (cookie_words (MemstreamCookie bufp sizep (mf_offset f) buf
      (Z.of_nat (length (mf_data f))) space))) as Hlw. cbn [cookie_words length] in Hlw.
    rewrite F2 by lia. apply (mb_keep _ _ _ _ _ _ _ M); [by apply (sr_cookie _ _ _ _ _ R)|lia]. }
  apply wp_bind. eapply (wp_store_word _ k _ 3); [exact Hc2|cbn; lia|done|]. cbn [mem errno ext].
  intros m3 Hc3 D3 F3.
  apply wp_bind. eapply (wp_store_word _ k _ 5); [exact Hc3|cbn; lia|done|]. cbn [mem errno ext].
  intros m4 Hc4 D4 F4. unfold off_buf, off_space in F3, F4.
  apply wp_bind. eapply (wp_load_word _ k _ 0); [exact Hc4|done|done|apply S0|]. cbn [ck_bufp].
  assert (D : same_dom (mem s1) m4) by (etrans; [exact D2|etrans; [exact D3|exact D4]]).
  assert (Hbm : mapped m4 bufp 8).
  { rewrite <- D. intros x Hx. destruct (holds_mapped _ _ _ (sr_bufp _ _ _ _ _ R) x) as [b Hxb];
      [by rewrite length_le_encode|]. exists b. apply (mb_keep _ _ _ _ _ _ _ M); [done|lia]. }
  apply wp_bind, wp_store_u64; [done|]. apply wp_ret. split; [done|]. cbn [mem errno ext].
  eapply rep_moved; [exact R|exact M|done| | | | |].
  - etrans; [exact D|]. apply same_dom_write. by rewrite length_le_encode.
  - apply holds_write_other; [rewrite length_words, length_le_encode; cbn; lia|]. exact Hc4.
  - eapply holds_agree; [|exact Ht]. rewrite text_length by (pose proof (sr_room _ _ _ _ _ R); lia).
    replace (block_size n) with (char_size K * n) by (unfold block_size; f_equal; lia).
    intros x Hx. rewrite lookup_write_out by (rewrite length_le_encode; lia).
    rewrite F4, F3 by lia. done.
  - apply holds_write.
  - intros x Hx1 Hx2 Hx3. rewrite lookup_write_out by (by rewrite length_le_encode).
    rewrite F4, F3 by lia. by apply F2.
Qed.

(** The stream has room for [len] more characters and a zero, or nothing changed. *)
Definition grow_post (k buf space : Z) (f : mem_file) (len r : Z) (s' : st X) : Prop :=
  (r = -1 /\ errno s' = ENOMEM /\ stream_rep k buf space f s') \/
  (r = 0 /\ exists buf' space', stream_rep k buf' space' f s' /\ mf_offset f + len + 1 <= space').

Lemma max_bounds : max_chars K * char_size K <= SIZE_MAX /\ max_offset K <= max_chars K.
Proof. by destruct K. Qed.

Lemma grow_wp k buf space f len s :
  stream_rep k buf space f s -> 0 <= len < SSIZE_MAX / char_size K ->
  wp al_exits (memstream_grow K k len) (grow_post k buf space f len) s.
Proof.
  intros R Hlen. destruct (rep_ranges _ _ _ _ _ R) as (Ho & _ & Hsp & _).
  pose proof (sr_offset _ _ _ _ _ R) as Hoff. pose proof (sr_space _ _ _ _ _ R) as [_ Hsb].
  assert (Hl : 0 <= len < max_chars K /\ len < SSIZE_MAX).
  { destruct K; cbn in Hlen |- *; rewrite ?Z.div_1_r in Hlen; [zlia|].
    change (SSIZE_MAX / WCHAR_SIZE) with (2 ^ 61 - 1) in *. zlia. }
  assert (Hm : max_chars K <= SIZE_MAX) by (by destruct K).
  unfold memstream_grow.
  apply wp_bind. eapply (wp_field _ _ _ _ _ _ 2); [exact R|done|done|]. cbn [ck_pos].
  assert (Hpl : mf_offset f + len + 1 <= SIZE_MAX) by zlia.
  rewrite (u64_small (max_chars K - len)) by lia. rewrite (u64_small (max_chars K - len - 1)) by lia.
  destruct (Z.ltb_spec (max_chars K - len - 1) (mf_offset f)) as [Hbig|Hfit].
  { apply wp_bind, wp_set_errno, wp_ret. left. split_and!; [done|done|].
    destruct s. by eapply rep_errno. }
  rewrite (u64_small (mf_offset f + len)) by lia. rewrite (u64_small (_ + 1)) by lia.
  apply wp_bind. eapply (wp_field _ _ _ _ _ _ 5); [exact R|done|done|]. cbn [ck_space].
  destruct (Z.leb_spec (mf_offset f + len + 1) space).
  { apply wp_ret. right. split; [done|]. by exists buf, space. }
  destruct (grown_space_spec space (mf_offset f + len + 1)) as [[Hg1 Hg2] _]; [lia..|].
  set (n := grown_space _ _) in *.
  destruct (match K with Narrow => false | Wide => max_chars K <? n end) eqn:Hcap.
  { apply wp_bind, wp_set_errno, wp_ret. left. split_and!; [done|done|].
    destruct s. by eapply rep_errno. }
  assert (Hnsz : n * char_size K <= SIZE_MAX).
  { destruct K; cbn in Hcap |- *; [lia|]. apply Z.ltb_ge in Hcap.
    change (SSIZE_MAX / WCHAR_SIZE) with (2 ^ 61 - 1) in Hcap. unfold WCHAR_SIZE. zlia. }
  pose proof (char_size_pos K) as Hu.
  apply wp_bind. eapply (wp_field _ _ _ _ _ _ 3); [exact R|done|done|]. cbn [ck_buf].
  rewrite (u64_small (n * char_size K)) by nia. rewrite (Z.mul_comm n).
  apply wp_bind. eapply wp_mono; [eapply wp_realloc_buf; [exact R|lia|lia]|].
  intros q s1 [(-> & He & R1)|[Hq M]].
  { apply wp_ret. by left. }
  destruct (Z.eqb_spec q 0); [done|].
  eapply wp_mono; [eapply wp_install; [exact R|exact M|lia]|].
  intros r s' [-> R']. right. split; [done|]. by exists q, n.
Qed.

(** ** Writing *)

(** The zeros after the data absorb a gap and shrink by what is written. *)
Lemma splice_zeros (o : nat) cs data (n : nat) :
  (length data <= n)%nat -> (o + length cs <= n)%nat ->
  splice o cs (data ++ zeros (n - length data)) =
  let d := splice o cs (data ++ zeros (o - length data)) in d ++ zeros (n - length d).
Proof.
  intros Hd Ho. cbn zeta. unfold splice, zeros.
  set (d := data ++ replicate (o - length data) 0).
  assert (Hld : length d = (length data `max` o)%nat)
    by (unfold d; rewrite length_app, length_replicate; lia).
  assert (Hsplit : data ++ replicate (n - length data) 0 = d ++ replicate (n - length d) 0).
  { unfold d. rewrite <- app_assoc, <- replicate_add. do 2 f_equal.
    rewrite length_app, length_replicate. lia. }
  rewrite Hsplit, take_app_le, drop_app by lia. rewrite drop_replicate, !length_app, length_take, length_drop.
  rewrite <- !app_assoc. do 3 f_equal. f_equal. lia.
Qed.

Lemma write_file_text f cs w n :
  0 <= mf_offset f -> (length (mf_data f) <= n)%nat ->
  mf_offset f + Z.of_nat (length cs) <= Z.of_nat n ->
  splice (Z.to_nat (mf_offset f)) cs (mf_data f ++ zeros (n - length (mf_data f))) =
  mf_data (write_file cs w f) ++ zeros (n - length (mf_data (write_file cs w f))).
Proof. intros Ho Hd Hn. apply (splice_zeros (Z.to_nat (mf_offset f)) cs (mf_data f) n); lia. Qed.

Lemma length_write_file f cs w :
  0 <= mf_offset f ->
  Z.of_nat (length (mf_data (write_file cs w f))) =
    Z.max (Z.of_nat (length (mf_data f))) (mf_offset f + Z.of_nat (length cs)).
Proof.
  intros Ho. unfold write_file, splice. cbn [mf_data].
  rewrite !length_app, length_take, length_drop, !length_app, length_replicate. lia.
Qed.

(** Between the writing of the characters [cs] and the update of the cookie. *)
Record wrote (k buf space : Z) (f : mem_file) (cs w : list Z) (s s1 : st X) : Prop := {
  wr_ext : ext s1 = ext s;
  wr_dom : same_dom (mem s) (mem s1);
  wr_text : holds (mem s1) buf (chars_bytes K (mf_data (write_file cs w f) ++
    zeros (Z.to_nat (Z.max 1 space) - length (mf_data (write_file cs w f)))));
  wr_state : holds (mem s1) (k + off_state) w;
  wr_state_size : length w = length (mf_state f);
  wr_frame x : ~ (buf <= x < buf + block_size space) ->
    ~ (k + off_state <= x < k + sizeof_cookie K) -> mem s1 !! x = mem s !! x
}.

(** The cookie after the update. *)
Definition advanced (buf space : Z) (f : mem_file) (cs w : list Z) : list Z :=
  let f' := write_file cs w f in
  cookie_words (MemstreamCookie bufp sizep (mf_offset f') buf (Z.of_nat (length (mf_data f'))) space).

Lemma rep_advanced k buf space f cs w s s1 m' e :
  stream_rep k buf space f s -> wrote k buf space f cs w s s1 ->
  mf_offset f + Z.of_nat (length cs) < space ->
  mf_offset f + Z.of_nat (length cs) <= max_offset K ->
  same_dom (mem s1) m' -> holds m' k (words (advanced buf space f cs w)) ->
  holds m' sizep (le_encode 8 (mf_size (write_file cs w f))) ->
  (forall x, ~ (k <= x < k + 48) -> ~ (sizep <= x < sizep + 8) -> m' !! x = mem s1 !! x) ->
  stream_rep k buf space (write_file cs w f) (St m' e (ext s1)).
Proof.
  intros R W Hroom Hmax HD Hc Hz Hf. pose proof (rep_blocks _ _ _ _ _ R) as (_ & _ & _ & _ & _ & Hkb).
  assert (Hcs : 48 <= sizeof_cookie K) by (by destruct K).
  destruct (rep_apart _ _ _ _ _ _ _ R (sl_sizep S0) eq_refl) as [Hzk Hzb].
  destruct (rep_apart _ _ _ _ _ _ _ R (sl_bufp S0) eq_refl) as [Hbk Hbb].
  pose proof (sr_offset _ _ _ _ _ R) as Ho. pose proof (sl_apart S0) as Hslots.
  pose proof (length_write_file f cs w (proj1 Ho)) as Hlen. pose proof (sr_room _ _ _ _ _ R).
  assert (HD0 : same_dom (mem s) m') by (etrans; [apply W|done]).
  split; cbn [mem ext errno]; try apply R; try done.
  - rewrite (wr_ext _ _ _ _ _ _ _ _ W). eapply al_inv_dom; [exact HD0|apply R].
  - cbn [mf_state write_file]. eapply holds_agree; [|exact (wr_state _ _ _ _ _ _ _ _ W)].
    pose proof (wr_state_size _ _ _ _ _ _ _ _ W) as Hw. pose proof (sr_state_size _ _ _ _ _ R) as Hss.
    unfold off_state in *. intros x Hx. apply Hf; lia.
  - cbn [mf_state write_file]. rewrite (wr_state_size _ _ _ _ _ _ _ _ W). apply R.
  - cbn [mf_offset write_file]. lia.
  - pose proof (sr_len _ _ _ _ _ R). lia.
  - lia.
  - rewrite (wr_ext _ _ _ _ _ _ _ _ W). apply R.
  - eapply holds_agree; [|exact (wr_text _ _ _ _ _ _ _ _ W)].
    rewrite text_length by lia. intros x Hx. apply Hf; lia.
  - eapply holds_agree; [|exact (sr_bufp _ _ _ _ _ R)]. rewrite length_le_encode. intros x Hx.
    rewrite Hf by lia. apply (wr_frame _ _ _ _ _ _ _ _ W); unfold off_state; lia.
  - rewrite <- HD0. apply R.
  - intros x b Hx Hb. pose proof Hx as (Hx1 & Hx2 & _).
    assert (Hout : ~ (k <= x < k + sizeof_cookie K) /\ ~ (buf <= x < buf + block_size space)).
    { split; (intros Hin; rewrite (sr_fresh _ _ _ _ _ R) in Hb; [done|tauto]). }
    rewrite Hf by lia. rewrite (wr_frame _ _ _ _ _ _ _ _ W); [|tauto|unfold off_state; lia].
    by apply (sr_keep _ _ _ _ _ R).
Qed.

Lemma advance_wp k buf space f cs w s s1 :
  stream_rep k buf space f s -> wrote k buf space f cs w s s1 ->
  mf_offset f + Z.of_nat (length cs) < space ->
  mf_offset f + Z.of_nat (length cs) <= max_offset K ->
  wp al_exits (advance k (Z.of_nat (length cs)))
    (fun _ s' => stream_rep k buf space (write_file cs w f) s') s1.
Proof.
  intros R W Hroom Hmax. destruct (rep_ranges _ _ _ _ _ R) as (Ho & Hbr & Hsr & Hlr).
  pose proof (rep_blocks _ _ _ _ _ R) as (_ & _ & _ & _ & _ & Hkb).
  assert (Hcs : 48 <= sizeof_cookie K) by (by destruct K).
  destruct (rep_apart _ _ _ _ _ _ _ R (sl_sizep S0) eq_refl) as [Hzk Hzb].
  destruct (sl_range S0) as [Hr1 Hr2].
  assert (Hm : max_offset K <= SSIZE_MAX /\ SSIZE_MAX <= SIZE_MAX) by (by destruct K).
  pose proof (length_write_file f cs w ltac:(lia)) as Hlen. pose proof (sr_room _ _ _ _ _ R) as Hrm.
  assert (Hc : holds (mem s1) k (words (cookie_words (MemstreamCookie bufp sizep (mf_offset f) buf
    (Z.of_nat (length (mf_data f))) space)))).
  { eapply holds_agree; [|exact (sr_cookie _ _ _ _ _ R)]. rewrite length_words. cbn. intros x Hx.
    apply (wr_frame _ _ _ _ _ _ _ _ W); unfold off_state; lia. }
  unfold advance. apply wp_bind. eapply (wp_load_word _ k _ 2); [exact Hc|done|done|cbn; lia|].
  cbn [ck_pos]. rewrite u64_small by lia. set (pos := mf_offset f + _) in *.
  apply wp_bind. eapply (wp_store_word _ k _ 2); [exact Hc|cbn; lia|done|]. intros m2 Hc2 D2 F2.
  apply wp_bind. eapply (wp_load_word _ k _ 4); [exact Hc2|done|done|cbn; lia|]. cbn [ck_len].
  apply wp_bind. eapply (wp_mono _ _ (fun _ s3 => errno s3 = errno s1 /\ ext s3 = ext s1 /\
    same_dom m2 (mem s3) /\ holds (mem s3) k (words (advanced buf space f cs w)) /\
    forall x, ~ (k <= x < k + 48) -> mem s3 !! x = m2 !! x)).
  { unfold advanced. rewrite Hlen. cbn [mf_offset write_file]. fold pos.
    destruct (Z.leb_spec (Z.of_nat (length (mf_data f))) pos).
    - rewrite Z.max_r by lia. eapply (wp_store_word _ k _ 4); [exact Hc2|cbn; lia|done|].
      intros m3 Hc3 D3 F3. cbn [mem errno ext] in *. split_and!; try done.
      intros x Hx. apply F3. unfold off_len. lia.
    - rewrite Z.max_l by lia. apply wp_ret. by split_and!. }
  intros _ [m3 e3 x3] (He & Hx & D3 & Hc3 & F3). cbn [mem errno ext] in *. subst e3 x3.
  apply wp_bind. eapply (wp_load_word _ k _ 1); [exact Hc3|done|done|cbn; lia|]. cbn [ck_sizep].
  assert (D : same_dom (mem s1) m3) by (by etrans).
  assert (Hzm : mapped m3 sizep 8).
  { rewrite <- D, <- (wr_dom _ _ _ _ _ _ _ _ W). pose proof (holds_mapped _ _ _ (sr_sizep _ _ _ _ _ R)) as M.
    by rewrite length_le_encode in M. }
  apply wp_store_u64; [done|]. cbn [mem errno ext].
  eapply rep_advanced; [exact R|exact W|exact Hroom|exact Hmax| | | |].
  - etrans; [exact D|]. apply same_dom_write. by rewrite length_le_encode.
  - apply holds_write_other; [rewrite length_words, length_le_encode; cbn; lia|done].
  - apply holds_write.
  - intros x Hx1 Hx2. rewrite lookup_write_out by (by rewrite length_le_encode).
    rewrite F3 by done. apply F2. unfold off_pos. lia.
Qed.

(** ** Seeking *)

Lemma wp_off_t E z (Q : Z -> st X -> Prop) s :
  - 2 ^ 63 <= z < 2 ^ 63 -> Q z s -> wp E (off_t_op z) Q s.
Proof.
  intros H HQ. unfold off_t_op.
  destruct (Z.leb_spec (- 2 ^ 63) z); [|lia]. by destruct (Z.ltb_spec z (2 ^ 63)); [|lia].
Qed.

(** The state after the offset and the position are stored. *)
Lemma rep_sought k buf space f s off m' e :
  stream_rep k buf space f s -> 0 <= off <= max_offset K ->
  same_dom (mem s) m' ->
  holds m' k (words (cookie_words (MemstreamCookie bufp sizep off buf
    (Z.of_nat (length (mf_data f))) space))) ->
  holds m' (k + off_state) (initial_state K) ->
  (forall x, ~ (k <= x < k + sizeof_cookie K) -> ~ (offp <= x < offp + 8) -> m' !! x = mem s !! x) ->
  stream_rep k buf space (MemFile (mf_data f) off (mf_size f) (initial_state K)) (St m' e (ext s)).
Proof.
  intros R Ho HD Hc Hst Hf. pose proof (rep_blocks _ _ _ _ _ R) as (_ & _ & _ & _ & _ & Hkb).
  destruct (rep_apart _ _ _ _ _ _ _ R (sl_sizep S0) eq_refl) as [Hzk Hzb].
  destruct (rep_apart _ _ _ _ _ _ _ R (sl_bufp S0) eq_refl) as [Hbk Hbb].
  destruct (rep_apart _ _ _ _ _ _ _ R (sl_offp S0) eq_refl) as [Hok Hob].
  pose proof (sl_apart_bufp S0). pose proof (sl_apart_sizep S0). pose proof (sr_room _ _ _ _ _ R).
  split; cbn [mem ext errno mf_data mf_offset mf_size mf_state]; try apply R; try done.
  - eapply al_inv_dom; [exact HD|apply R].
  - by destruct K.
  - eapply holds_agree; [|exact (sr_text _ _ _ _ _ R)]. rewrite text_length by lia.
    intros x Hx. apply Hf; lia.
  - eapply holds_agree; [|exact (sr_bufp _ _ _ _ _ R)]. rewrite length_le_encode.
    intros x Hx. apply Hf; lia.
  - eapply holds_agree; [|exact (sr_sizep _ _ _ _ _ R)]. rewrite length_le_encode.
    intros x Hx. apply Hf; lia.
  - rewrite <- HD. apply R.
  - intros x b Hx Hb. rewrite Hf; [by apply (sr_keep _ _ _ _ _ R)| |apply Hx].
    intros Hin. rewrite (sr_fresh _ _ _ _ _ R) in Hb; [done|tauto].
Qed.

Lemma seek_store k buf space f off s :
  stream_rep k buf space f s ->
  0 <= off <= max_offset K ->
  wp no_exit
    (do* store_u64 offp off in
     do* store_u64 (k + off_pos) (u64 off) in
     do* match K with
         | Narrow => ret tt
         | Wide => do* memset (k + off_state) 0 SIZEOF_MBSTATE in ret tt
         end in
     ret 0)
    (fun r s' => r = 0 /\ stream_rep k buf space (MemFile (mf_data f) off (mf_size f) (initial_state K)) s' /\
       holds (mem s') offp (le_encode 8 off)) s.
Proof.
  intros R Ho. assert (Hmax : max_offset K <= SIZE_MAX) by (by destruct K).
  pose proof (sr_offp _ _ _ _ _ R) as Hm.
  destruct (rep_apart _ _ _ _ _ _ _ R (sl_offp S0) eq_refl) as [Hoc _].
  assert (Hcs : 48 <= sizeof_cookie K) by (by destruct K).
  apply wp_bind, wp_store_u64; [done|]. rewrite u64_small by lia. apply wp_bind.
  eapply (wp_store_word _ k _ 2); cbn [mem errno ext]; [|shelve|done|].
  { eapply holds_agree; [|exact (sr_cookie _ _ _ _ _ R)]. rewrite length_words. cbn. intros x Hx.
    apply lookup_write_out. rewrite length_le_encode. lia. }
  Unshelve. 2: { cbn. lia. }
  intros m2 Hc2 D2 F2. unfold off_pos in F2.
  assert (D : same_dom (mem s) m2).
  { etrans; [|exact D2]. apply same_dom_write. by rewrite length_le_encode. }
  assert (F : forall x, ~ (k <= x < k + sizeof_cookie K) -> ~ (offp <= x < offp + 8) ->
    m2 !! x = mem s !! x).
  { intros x Hx1 Hx2. rewrite F2 by lia. apply lookup_write_out. by rewrite length_le_encode. }
  assert (Hof : holds m2 offp (le_encode 8 off)).
  { eapply holds_agree; [|apply holds_write]. rewrite length_le_encode. intros x Hx.
    apply F2. lia. }
  apply wp_bind, wp_clear_state.
  { cbn [mem]. rewrite <- D. 
    eapply mapped_sub; [by eapply rep_cookie_mapped|unfold off_state; lia|unfold off_state; lia]. }
  cbn [mem errno ext]. intros m3 D3 F3 Hst. apply wp_ret. split; [done|]. unfold off_state in F3. split.
  - eapply rep_sought; [exact R|done| | |exact Hst|].
    + by etrans.
    + eapply holds_agree; [|exact Hc2]. rewrite length_words. cbn. intros x Hx. apply F3. lia.
    + intros x Hx1 Hx2. rewrite F3 by lia. by apply F.
  - eapply holds_agree; [|exact Hof]. rewrite length_le_encode. intros x Hx. apply F3. lia.
Qed.

(** A seek the file accepts moves the position and tells the new one; the others
    fail with [EINVAL] and change nothing. *)
Definition seek_post (k buf space : Z) (f : mem_file) (off whence : Z) (s : st X)
    (r : Z) (s' : st X) : Prop :=
  match seek_file K off whence f with
  | Some f' => r = 0 /\ stream_rep k buf space f' s' /\ holds (mem s') offp (le_encode 8 (mf_offset f'))
  | None => r = -1 /\ s' = St (mem s) EINVAL (ext s)
  end.

Lemma seek_wp k buf space f off whence s :
  stream_rep k buf space f s ->
  holds (mem s) offp (le_encode 8 off) -> - 2 ^ 63 <= off < 2 ^ 63 ->
  wp no_exit (memstream_seek K k offp whence) (seek_post k buf space f off whence s) s.
Proof.
  intros R Hoff Hr. destruct (rep_ranges _ _ _ _ _ R) as (Ho & _ & _ & Hl).
  pose proof (sr_offset _ _ _ _ _ R) as Hor. pose proof (sr_len _ _ _ _ _ R) as Hlen.
  assert (Hmax : max_offset K < 2 ^ 63 /\ 0 <= max_offset K) by (by destruct K).
  assert (Hcs : 48 <= sizeof_cookie K) by (by destruct K).
  unfold memstream_seek, seek_post, seek_file, seek_base.
  destruct ((whence <? 0) || (2 <? whence)) eqn:Hw.
  { apply orb_true_iff in Hw. destruct (Z.eqb_spec whence 0), (Z.eqb_spec whence 1), (Z.eqb_spec whence 2); try lia.
    by apply wp_bind, wp_set_errno, wp_ret. }
  apply orb_false_iff in Hw.
  apply wp_bind. eapply (wp_field _ _ _ _ _ _ 2); [exact R|done|done|]. cbn [ck_pos].
  apply wp_bind. eapply (wp_field _ _ _ _ _ _ 4); [exact R|done|done|]. cbn [ck_len].
  set (base := if whence =? 0 then 0 else if whence =? 1 then mf_offset f else Z.of_nat (length (mf_data f))).
  assert (Hbase : 0 <= base <= max_offset K) by (unfold base; repeat case_cmp; lia).
  assert (Hsb : (if whence =? 0 then Some 0 else if whence =? 1 then Some (mf_offset f)
    else if whence =? 2 then Some (Z.of_nat (length (mf_data f))) else None) = Some base).
  { unfold base. repeat case_cmp; try done; lia. }
  rewrite Hsb. rewrite s64_small by lia.
  apply wp_bind, wp_bind. eapply wp_load; [exact Hoff|done|]. apply wp_ret.
  assert (Hdec : s64 (le_decode (le_encode 8 off)) = off).
  { rewrite le_decode_encode. unfold s64. change (256 ^ Z.of_nat 8) with (2 ^ 64).
    rewrite Zplus_mod_idemp_l. apply (s64_small off Hr). }
  rewrite Hdec. apply wp_bind, wp_off_t; [lia|].
  assert (Hrefuse : (0 <=? base + off) && (base + off <=? max_offset K) = false ->
    wp no_exit (do* set_errno EINVAL in ret (-1)) (fun r s' => r = -1 /\ s' = St (mem s) EINVAL (ext s)) s).
  { intros _. by apply wp_bind, wp_set_errno, wp_ret. }
  apply wp_bind. destruct (Z.ltb_spec off (- base)) as [Hlow|Hlow].
  { apply wp_ret. destruct (Z.leb_spec 0 (base + off)); [lia|]. by apply Hrefuse. }
  apply wp_bind, wp_off_t; [lia|]. apply wp_ret.
  destruct (Z.leb_spec 0 (base + off)); [|lia]. cbn [andb] in *.
  destruct (Z.ltb_spec (max_offset K - base) off), (Z.leb_spec (base + off) (max_offset K)); try lia.
  { by apply Hrefuse. }
  apply wp_bind, wp_off_t; [lia|]. 
  eapply wp_mono; [eapply seek_store; [exact R|lia]|]. cbn [mf_offset].
  by intros r s' (-> & R' & H').
Qed.

End Stream.
