(* ===== verification/MemstreamOps.v ===== *)
(** * Opening, writing and closing memory streams

    The operations that make, fill and give up a representation of
    [MemstreamSpec]. *)
From S2P Require Import Prelude CMem CCmd CLib Alloc Memstream MemstreamSpec.

(** What the C library promises: [FILE] objects are its own. *)
Class StreamLaws (X : Type) `{!Allocator X} `{!AllocatorLaws X} `{!StreamWorld X} := {
  fopencookie_ok K k s : al_inv (ext s) (mem s) ->
    wp al_exits (fopencookie K k) (fun _ s' => al_inv (ext s') (mem s') /\ mem s' = mem s /\
      al_live (ext s') = al_live (ext s)) s;
  fwide_ok f o s : al_inv (ext s) (mem s) ->
    wp al_exits (fwide f o) (fun _ s' => al_inv (ext s') (mem s') /\ mem s' = mem s /\
      al_live (ext s') = al_live (ext s)) s
}.

(** The bytes before the first null byte, and whether there is one. *)
Fixpoint until_null (bs : list Z) : list Z * bool :=
  match bs with
  | [] => ([], false)
  | b :: bs => if b =? 0 then ([], true) else let '(pre, null) := until_null bs in (b :: pre, null)
  end.

(** The outcome of a conversion: the characters before the null character, whether
    there was one, and the state. *)
Record converted := Converted { cv_chars : list Z; cv_null : bool; cv_after : list Z }.

(** A conversion that stops at a null character, from the conversion of bytes without
    one ([conv]) and the state a null character leaves ([finish]). *)
Definition convert_until_null (conv : list Z -> list Z -> option (list Z * list Z))
    (finish : list Z -> option (list Z)) (w bs : list Z) : option converted :=
  let '(pre, null) := until_null bs in
  match conv w pre with
  | None => None
  | Some (cs, w') => if null then Converted cs true <$> finish w' else Some (Converted cs false w')
  end.

(** What is stored: the null character too. *)
Definition stored (c : converted) : list Z := cv_chars c ++ (if cv_null c then [0] else []).

(** The conversion of multibyte characters: a function of the state and the bytes,
    [None] where they are no sequence of characters. *)
Class MultibyteLaws (X : Type) `{!StreamWorld X} := {
  mb_convert : list Z -> list Z -> option (list Z * list Z);
  mb_short w bs cs w' : mb_convert w bs = Some (cs, w') ->
    (length cs <= length bs)%nat /\ length w' = length w;
  (** a null byte is a null character whatever the state, but not in the middle of a
      character; it leaves an initial state *)
  mb_finish : list Z -> option (list Z);
  mb_finish_size w w' : mb_finish w = Some w' -> length w' = length w;
  (** room for the result, and the destination apart from the source and the state: the
      conversion ends with the bytes or stores the null character and stops; the
      result counts the characters before it *)
  mbsnrtowcs_ok dst src n len ps w bs s :
    holds (mem s) src bs -> n = Z.of_nat (length bs) ->
    holds (mem s) ps w -> Z.of_nat (length w) = SIZEOF_MBSTATE -> n <= len ->
    mapped (mem s) dst (WCHAR_SIZE * len) ->
    dst + WCHAR_SIZE * len <= ps \/ ps + SIZEOF_MBSTATE <= dst ->
    dst + WCHAR_SIZE * len <= src \/ src + n <= dst \/ n = 0 ->
    wp no_exit (mbsnrtowcs dst src n len ps) (fun r s' => ext s' = ext s /\
      match convert_until_null mb_convert mb_finish w bs with
      | Some c => r = Z.of_nat (length (cv_chars c)) /\
          mem s' = write (write (mem s) dst (chars_bytes Wide (stored c))) ps (cv_after c)
      | None => r = SIZE_MAX /\ errno s' = EILSEQ /\ same_dom (mem s) (mem s') /\
          forall x, ~ (dst <= x < dst + WCHAR_SIZE * len) -> ~ (ps <= x < ps + SIZEOF_MBSTATE) ->
            mem s' !! x = mem s !! x
      end) s
}.

Definition multibyte {X} `{!StreamWorld X} `{!MultibyteLaws X} : list Z -> list Z -> option converted :=
  convert_until_null mb_convert mb_finish.

Lemma until_null_length bs pre null :
  until_null bs = (pre, null) -> (length pre + (if null then 1 else 0) <= length bs)%nat.
Proof.
  revert pre null. induction bs as [|b bs IH]; intros pre null H; cbn in H; [by injection H as <- <-|].
  destruct (b =? 0); [injection H as <- <-; cbn; lia|].
  destruct (until_null bs) as [p n]. injection H as <- <-. specialize (IH p n eq_refl). cbn. lia.
Qed.

(** Never more characters than bytes, the null character counted. *)
Lemma multibyte_short {X} `{!StreamWorld X} `{!MultibyteLaws X} w bs c :
  multibyte w bs = Some c ->
  (length (stored c) <= length bs)%nat /\ length (cv_after c) = length w.
Proof.
  unfold multibyte, convert_until_null, stored. destruct (until_null bs) as [pre null] eqn:Hpre.
  pose proof (until_null_length _ _ _ Hpre). destruct (mb_convert w pre) as [[cs w']|] eqn:Hc; [|done].
  destruct (mb_short _ _ _ _ Hc). destruct null.
  - intros (w2 & Hw & ->)%fmap_Some. cbn. rewrite length_app. cbn.
    rewrite (mb_finish_size _ _ Hw). lia.
  - intros [= <-]. cbn. rewrite length_app. cbn. lia.
Qed.

Section Open.
Context {X : Type} `{!Allocator X} `{!AllocatorLaws X} `{!StreamWorld X} `{!StreamLaws X}.
Context (K : char_kind) (bufp sizep offp : Z).

(** Nothing but the caller's two variables changed. *)
Definition only_slots (s s' : st X) : Prop :=
  al_inv (ext s') (mem s') /\ al_live (ext s') = al_live (ext s) /\
  forall x b, callers bufp sizep offp x -> mem s !! x = Some b -> mem s' !! x = Some b.

Definition open_post (s : st X) (r : Z) (s' : st X) : Prop :=
  (r = 0 /\ only_slots s s') \/
  (r <> 0 /\ exists k buf,
    stream_rep K (mem s) (al_live (ext s)) bufp sizep offp k buf 0 (empty_file K) s').

Section Fresh.
Context (s : st X) (k buf : Z) (s1 s2 : st X) (S0 : slots_ok (mem s) bufp sizep offp).
Context (A1 : allocated (mem s) (al_live (ext s)) k (sizeof_cookie K) (mem s1) (al_live (ext s1))).
Context (A2 : allocated (mem s1) (al_live (ext s1)) buf (char_size K) (mem s2) (al_live (ext s2))).
Context (I2 : al_inv (ext s2) (mem s2)).

(** The two blocks and the two variables are apart, and mapped. *)
Lemma fresh_geometry :
  mapped (mem s2) k (sizeof_cookie K) /\ mapped (mem s2) buf (char_size K) /\
  (k + sizeof_cookie K <= buf \/ buf + char_size K <= k) /\
  (forall a, mapped (mem s) a 8 -> mapped (mem s2) a 8 /\
    (a + 8 <= k \/ k + sizeof_cookie K <= a) /\ (a + 8 <= buf \/ buf + char_size K <= a)).
Proof.
  pose proof (alloc_mapped _ _ _ _ _ _ A1) as M1.
  split_and!; [by eapply allocated_keeps_mapped|apply A2| |].
  - eapply allocated_apart; [exact A2|exact M1|by destruct K].
  - intros a Ha. assert (Ha1 : mapped (mem s1) a 8) by (by eapply allocated_keeps_mapped).
    split_and!; [by eapply allocated_keeps_mapped|..];
      [eapply allocated_apart; [exact A1|exact Ha|done]|eapply allocated_apart; [exact A2|exact Ha1|done]].
Qed.

Lemma rep_opened m' e :
  same_dom (mem s2) m' ->
  holds m' k (words (cookie_words (MemstreamCookie bufp sizep 0 buf 0 0))) ->
  holds m' (k + off_state) (initial_state K) ->
  holds m' buf (char_bytes K 0) -> holds m' bufp (le_encode 8 buf) ->
  holds m' sizep (le_encode 8 0) ->
  (forall x, ~ (k <= x < k + sizeof_cookie K) -> ~ (buf <= x < buf + char_size K) ->
     callers bufp sizep offp x -> m' !! x = mem s2 !! x) ->
  stream_rep K (mem s) (al_live (ext s)) bufp sizep offp k buf 0 (empty_file K) (St m' e (ext s2)).
Proof.
  intros HD Hc Hst Ht Hb Hz Hf. destruct fresh_geometry as (Mk & Mb & _ & Hslot).
  assert (Hfr : forall x, k <= x < k + sizeof_cookie K \/ buf <= x < buf + char_size K -> mem s !! x = None).
  { intros x [Hx|Hx]; [apply (alloc_fresh _ _ _ _ _ _ A1); lia|].
    apply eq_None_not_Some. intros [b Hxb]. apply (allocated_keeps _ _ _ _ _ _ _ _ A1) in Hxb.
    rewrite (alloc_fresh _ _ _ _ _ _ A2) in Hxb; [done|lia]. }
  pose proof (alloc_new _ _ _ _ _ _ A2) as Hnew. rewrite (alloc_live _ _ _ _ _ _ A1) in Hnew.
  apply lookup_insert_None in Hnew as [Hnew Hne].
  assert (Hbs : block_size K 0 = char_size K) by (unfold block_size; lia).
  split; cbn [mem ext errno empty_file mf_offset mf_data mf_size mf_state length]; rewrite ?Hbs; try done.
  - by eapply al_inv_dom.
  - by destruct K.
  - by destruct K.
  - by destruct K.
  - split; [done|]. by destruct K.
  - apply A1.
  - rewrite (alloc_live _ _ _ _ _ _ A2), (alloc_live _ _ _ _ _ _ A1). by apply insert_insert_ne.
  - replace (chars_bytes K _) with (char_bytes K 0) by (by destruct K). done.
  - rewrite <- HD. by destruct (Hslot _ (sl_offp _ _ _ _ S0)).
  - intros x b Hx Hxb. rewrite Hf; [|intros Hin; rewrite Hfr in Hxb; [done|tauto]..|done].
    eapply allocated_keeps; [exact A2|]. by eapply allocated_keeps; [exact A1|].
Qed.

Lemma wp_fill_cookie E {A} (rest : C X A) Q :
  (forall s', stream_rep K (mem s) (al_live (ext s)) bufp sizep offp k buf 0 (empty_file K) s' ->
     wp E rest Q s') ->
  wp E
    (do* store_u64 (k + off_bufp) bufp in
     do* store_u64 (k + off_sizep) sizep in
     do* store_u64 (k + off_pos) 0 in
     do* store_u64 (k + off_buf) buf in
     do* store_u64 (k + off_len) 0 in
     do* store_u64 (k + off_space) 0 in
     do* match K with
         | Narrow => ret tt
         | Wide => do* memset (k + off_state) 0 SIZEOF_MBSTATE in ret tt
         end in
     do* store_u64 sizep 0 in
     do* store_u64 bufp buf in
     do* store buf (char_bytes K 0) in
     rest) Q s2.
Proof.
  intros HQ. destruct fresh_geometry as (Mk & Mb & Hkb & Hslot).
  destruct (Hslot _ (sl_bufp _ _ _ _ S0)) as (Mbp & Hbk & Hbb).
  destruct (Hslot _ (sl_sizep _ _ _ _ S0)) as (Mzp & Hzk & Hzb).
  pose proof (sl_apart _ _ _ _ S0) as Hbz.
  assert (Hcs : 48 <= sizeof_cookie K) by (by destruct K).
  assert (Hk : forall n, n <= 48 -> mapped (mem s2) k n) by (intros n Hn; eapply mapped_sub; [exact Mk|lia..]).
  assert (Hstep : forall i ws v off (R : unit -> st X -> Prop),
    Z.of_nat (length ws) = i -> 0 <= i < 6 -> off = k + 8 * i ->
    R tt (St (write (mem s2) k (words (ws ++ [v]))) (errno s2) (ext s2)) ->
    wp E (store_u64 off v) R (St (write (mem s2) k (words ws)) (errno s2) (ext s2))).
  { intros i ws v off R Hw Hi -> HR. eapply (wp_store_next _ k ws v); [done| |by rewrite Hw|done].
    apply Hk. lia. }
  replace s2 with (St (write (mem s2) k (words [])) (errno s2) (ext s2)) at 1.
  2: { destruct s2. unfold write, words. cbn. by rewrite (left_id_L ∅ (∪)). }
  do 6 (apply wp_bind; eapply Hstep; [done|done|reflexivity|]). cbn [app].
  set (m3 := write _ _ _).
  assert (D3 : same_dom (mem s2) m3) by (apply same_dom_write; rewrite length_words; by apply Hk).
  assert (F3 : forall x, ~ (k <= x < k + 48) -> m3 !! x = mem s2 !! x).
  { intros x Hx. apply lookup_write_out. by rewrite length_words. }
  apply wp_bind, wp_clear_state; cbn [mem errno ext].
  { rewrite <- D3. eapply mapped_sub; [exact Mk|unfold off_state; lia..]. }
  intros m4 D4 F4 Hst4. unfold off_state in F4, Hst4. rewrite D3, D4 in Mbp, Mzp, Mb.
  assert (Hc4 : holds m4 k (words [bufp; sizep; 0; buf; 0; 0])).
  { eapply holds_agree; [|apply holds_write]. rewrite length_words. cbn. intros x Hx.
    apply F4. lia. }
  apply wp_bind, wp_store_u64; cbn [mem errno ext]; [done|].
  apply wp_bind, wp_store_u64; cbn [mem errno ext].
  { by apply mapped_write. }
  apply wp_bind, wp_store; cbn [mem errno ext]; rewrite ?length_char_bytes.
  { by do 2 apply mapped_write. }
  apply HQ, rep_opened.
  - etrans; [exact D3|]. etrans; [exact D4|]. etrans; [|etrans; [|apply same_dom_write]].
    + apply (same_dom_write _ sizep (le_encode 8 0)). by rewrite length_le_encode.
    + apply same_dom_write. rewrite length_le_encode. by apply mapped_write.
    + rewrite length_char_bytes. by do 2 apply mapped_write.
  - eapply holds_agree; [|exact Hc4]. rewrite length_words. cbn. intros x Hx.
    rewrite !lookup_write_out by (rewrite ?length_le_encode, ?length_char_bytes; lia). done.
  - eapply holds_agree; [|exact Hst4]. unfold initial_state, off_state. rewrite length_replicate.
    intros x Hx. rewrite !lookup_write_out by (rewrite ?length_le_encode, ?length_char_bytes; lia). done.
  - apply holds_write.
  - eapply holds_agree; [|apply holds_write]. rewrite length_le_encode. intros x Hx.
    apply lookup_write_out. rewrite length_char_bytes. lia.
  - eapply holds_agree; [|apply holds_write]. rewrite length_le_encode. intros x Hx.
    rewrite !lookup_write_out by (rewrite ?length_le_encode, ?length_char_bytes; lia). done.
  - intros x Hx1 Hx2 (Hx3 & Hx4 & _).
    rewrite !lookup_write_out by (rewrite ?length_le_encode, ?length_char_bytes; lia).
    rewrite F4 by lia. apply F3. lia.
Qed.

End Fresh.

(** Giving a new stream up leaves nothing. *)
Lemma wp_give_up s s1 k buf :
  stream_rep K (mem s) (al_live (ext s)) bufp sizep offp k buf 0 (empty_file K) s1 ->
  wp al_exits (do* al_free buf in do* al_free k in ret 0)
    (fun r s' => r = 0 /\ only_slots s s') s1.
Proof.
  intros R. destruct (rep_blocks _ _ _ _ _ _ _ _ _ _ _ R) as (Hk & Hb & _ & _ & _ & _).
  apply wp_bind. eapply wp_mono; [apply (al_free_ok buf (block_size K 0) s1); [apply R|exact Hb]|].
  intros _ s2 [I2 F2]. pose proof (freed_live _ _ _ _ _ _ F2) as Hl2.
  assert (Hk2 : al_live (ext s2) !! k = Some (sizeof_cookie K)).
  { rewrite Hl2, lookup_delete_ne; [done|]. apply not_eq_sym, R. }
  apply wp_bind. eapply wp_mono; [apply (al_free_ok k (sizeof_cookie K) s2); [exact I2|exact Hk2]|].
  intros _ s3 [I3 F3]. apply wp_ret. split; [done|]. split; [done|]. split.
  - rewrite (freed_live _ _ _ _ _ _ F3), Hl2, (sr_live _ _ _ _ _ _ _ _ _ _ _ R).
    rewrite delete_insert_ne by (apply not_eq_sym, R).
    rewrite (delete_insert_id _ buf) by apply R. apply delete_insert_id, R.
  - intros x b Hx Hxb. pose proof (sr_fresh _ _ _ _ _ _ _ _ _ _ _ R x) as Hf.
    rewrite (freed_frame _ _ _ _ _ _ F3) by (intros Hin; rewrite Hf in Hxb; [done|tauto]).
    rewrite (freed_frame _ _ _ _ _ _ F2) by (intros Hin; rewrite Hf in Hxb; [done|tauto]).
    by apply (sr_keep _ _ _ _ _ _ _ _ _ _ _ R).
Qed.

(** A representation does not depend on what the C library keeps to itself. *)
Lemma rep_world m0 live0 k buf space f s s' :
  stream_rep K m0 live0 bufp sizep offp k buf space f s -> al_inv (ext s') (mem s') ->
  mem s' = mem s -> al_live (ext s') = al_live (ext s) ->
  stream_rep K m0 live0 bufp sizep offp k buf space f s'.
Proof. intros R I Hm Hl. destruct R. split; rewrite ?Hm, ?Hl; try done. by rewrite Hm in I. Qed.

Lemma only_slots_refl s : al_inv (ext s) (mem s) -> only_slots s s.
Proof. intros I. by split_and!. Qed.

Lemma open_wp s :
  al_inv (ext s) (mem s) -> slots_ok (mem s) bufp sizep offp ->
  wp al_exits (open_stream K bufp sizep) (open_post s) s.
Proof.
  intros I S0. assert (Hcs : 48 <= sizeof_cookie K <= 56) by (by destruct K).
  pose proof (char_size_pos K) as Hu. unfold open_stream.
  apply wp_bind. eapply wp_mono; [apply al_malloc_ok; [done|zlia]|].
  intros k s1 (I1 & [[-> (Hm1 & Hl1 & _)]|[Hk A1]]).
  { apply wp_ret. left. split; [done|]. split_and!; [done|done|]. by rewrite Hm1. }
  destruct (Z.eqb_spec k 0); [done|].
  apply wp_bind. eapply wp_mono; [apply al_malloc_ok; [done|zlia]|].
  intros buf s2 (I2 & [[-> (Hm2 & Hl2 & _)]|[Hb A2]]).
  { cbn [Z.eqb]. assert (Hk2 : al_live (ext s2) !! k = Some (sizeof_cookie K)).
    { rewrite Hl2. by eapply allocated_live. }
    apply wp_bind. eapply wp_mono; [apply (al_free_ok k (sizeof_cookie K) s2); [done|exact Hk2]|].
    intros _ s3 [I3 F3]. apply wp_ret. left. split; [done|]. split_and!; [done| |].
    - rewrite (freed_live _ _ _ _ _ _ F3), Hl2, (alloc_live _ _ _ _ _ _ A1).
      apply delete_insert_id, A1.
    - intros x b _ Hx. rewrite (freed_frame _ _ _ _ _ _ F3).
      + rewrite Hm2. by eapply allocated_keeps.
      + intros Hin. rewrite (alloc_fresh _ _ _ _ _ _ A1) in Hx; [done|lia]. }
  destruct (Z.eqb_spec buf 0); [done|].
  eapply (wp_fill_cookie s k buf s1 s2 S0 A1 A2 I2). intros s3 R3.
  apply wp_bind. eapply wp_mono; [apply fopencookie_ok, R3|].
  intros f s4 (I4 & Hm4 & Hl4). pose proof (rep_world _ _ _ _ _ _ _ _ R3 I4 Hm4 Hl4) as R4.
  destruct (Z.eqb_spec f 0) as [Hf|Hf].
  { eapply wp_mono; [by eapply wp_give_up|]. intros r s5 [-> O]. by left. }
  apply wp_bind. eapply (wp_mono _ _ (fun _ s5 =>
    stream_rep K (mem s) (al_live (ext s)) bufp sizep offp k buf 0 (empty_file K) s5)).
  - assert (HR : forall s5, al_inv (ext s5) (mem s5) /\ mem s5 = mem s4 /\
      al_live (ext s5) = al_live (ext s4) ->
      stream_rep K (mem s) (al_live (ext s)) bufp sizep offp k buf 0 (empty_file K) s5)
      by (intros s5 (? & ? & ?); by eapply rep_world).
    destruct K; [by apply wp_ret|]. apply wp_bind. eapply wp_mono; [apply fwide_ok, I4|].
    intros ? s5 H5. by apply wp_ret, HR.
  - intros ? s5 R5. apply wp_ret. right. split; [done|]. by exists k, buf.
Qed.

(** Closing leaves the caller the buffer, and only it. *)
Lemma close_wp m0 live0 k buf space f s :
  stream_rep K m0 live0 bufp sizep offp k buf space f s -> slots_ok m0 bufp sizep offp ->
  wp al_exits (memstream_close k) (fun r s' => r = 0 /\ al_inv (ext s') (mem s') /\
    al_live (ext s') = <[buf := block_size K space]> live0 /\
    holds (mem s') bufp (le_encode 8 buf) /\ holds (mem s') sizep (le_encode 8 (mf_size f)) /\
    holds (mem s') buf (chars_bytes K (mf_data f ++ [0])) /\
    forall x b, callers bufp sizep offp x -> m0 !! x = Some b -> mem s' !! x = Some b) s.
Proof.
  intros R S0. destruct (rep_blocks _ _ _ _ _ _ _ _ _ _ _ R) as (Hk & _ & _ & _ & _ & Hap).
  assert (Hcs : 48 <= sizeof_cookie K) by (by destruct K).
  destruct (rep_apart _ _ _ _ _ _ _ _ _ _ _ _ _ R (sl_sizep _ _ _ _ S0) eq_refl) as [Hzk _].
  destruct (rep_apart _ _ _ _ _ _ _ _ _ _ _ _ _ R (sl_bufp _ _ _ _ S0) eq_refl) as [Hbk _].
  pose proof (sr_room _ _ _ _ _ _ _ _ _ _ _ R) as Hroom.
  apply wp_bind. eapply wp_mono; [apply (al_free_ok k (sizeof_cookie K) s); [apply R|exact Hk]|].
  intros _ s' [I' F]. apply wp_ret. pose proof (freed_frame _ _ _ _ _ _ F) as Hf.
  split_and!; [done|done| | | | |].
  - rewrite (freed_live _ _ _ _ _ _ F), (sr_live _ _ _ _ _ _ _ _ _ _ _ R).
    apply delete_insert_id. rewrite lookup_insert_ne by (apply not_eq_sym, R). apply R.
  - eapply holds_outside; [exact Hf| |apply R]. rewrite length_le_encode. lia.
  - eapply holds_outside; [exact Hf| |apply R]. rewrite length_le_encode. lia.
  - pose proof (sr_text _ _ _ _ _ _ _ _ _ _ _ R) as Ht.
    replace (Z.to_nat (Z.max 1 space) - length (mf_data f))%nat
      with (1 + (Z.to_nat (Z.max 1 space) - length (mf_data f) - 1))%nat in Ht by lia.
    unfold zeros in Ht. rewrite replicate_add, app_assoc, chars_bytes_app in Ht.
    apply holds_app in Ht as [Ht _]. eapply holds_outside; [exact Hf| |exact Ht].
    rewrite length_chars_bytes, length_app. cbn [length replicate].
    unfold block_size in Hap. pose proof (char_size_pos K). destruct Hap; [right; left; lia|left; nia].
  - intros x b Hx Hxb. rewrite Hf; [by apply (sr_keep _ _ _ _ _ _ _ _ _ _ _ R)|].
    intros Hin. rewrite (sr_fresh _ _ _ _ _ _ _ _ _ _ _ R) in Hxb; [done|tauto].
Qed.

End Open.

(** ** Writing *)

Section Write.
Context {X : Type} `{!Allocator X} `{!AllocatorLaws X} `{!StreamWorld X}.
Context (m0 live0 : gmap Z Z) (bufp sizep offp : Z) (S0 : slots_ok m0 bufp sizep offp).

(** The characters are appended at the position, or memory ran out and nothing
    changed. *)
Definition write_post (K : char_kind) (k buf space n : Z) (f : mem_file) (cs w : list Z) (r : Z)
    (s' : st X) : Prop :=
  (r = 0 /\ errno s' = ENOMEM /\ stream_rep K m0 live0 bufp sizep offp k buf space f s') \/
  (r = n /\ exists buf' space',
     stream_rep K m0 live0 bufp sizep offp k buf' space' (write_file cs w f) s').

(** Characters of the caller, none of them in its two variables. *)
Record source (a : Z) (bs : list Z) : Prop := {
  sc_holds : holds m0 a bs;
  sc_clear x : a <= x < a + Z.of_nat (length bs) -> callers bufp sizep offp x
}.

Lemma source_now K k buf space f s a bs :
  source a bs -> stream_rep K m0 live0 bufp sizep offp k buf space f s -> holds (mem s) a bs.
Proof.
  intros [H Hc] R i b Hi. pose proof (lookup_lt_Some _ _ _ Hi).
  apply (sr_keep _ _ _ _ _ _ _ _ _ _ _ R); [apply Hc; lia|by apply H].
Qed.

(** The state once the characters [cs] are written over the buffer. *)
Lemma wrote_chars K k buf space f cs w s m' m2 e :
  stream_rep K m0 live0 bufp sizep offp k buf space f s ->
  mf_offset f + Z.of_nat (length cs) < space ->
  m' = write (mem s) (buf + char_size K * mf_offset f) (chars_bytes K cs) ->
  m2 = write m' (k + off_state) w -> length w = length (mf_state f) ->
  wrote K k buf space f cs w s (St m2 e (ext s)).
Proof.
  intros R Hroom -> -> Hw. destruct (rep_blocks _ _ _ _ _ _ _ _ _ _ _ R) as (_ & _ & _ & _ & Mb & Hkb).
  pose proof (sr_offset _ _ _ _ _ _ _ _ _ _ _ R) as [Ho _]. pose proof (char_size_pos K) as Hu.
  pose proof (sr_room _ _ _ _ _ _ _ _ _ _ _ R) as Hr.
  assert (Hlen : Z.of_nat (length (chars_bytes K cs)) = char_size K * Z.of_nat (length cs))
    by apply length_chars_bytes.
  assert (Hin : forall x, buf + char_size K * mf_offset f <= x <
    buf + char_size K * mf_offset f + Z.of_nat (length (chars_bytes K cs)) ->
    buf <= x < buf + block_size K space) by (unfold block_size; nia).
  pose proof (sr_state_size _ _ _ _ _ _ _ _ _ _ _ R) as Hss. unfold off_state in *.
  pose proof (holds_mapped _ _ _ (sr_state _ _ _ _ _ _ _ _ _ _ _ R)) as Hst. unfold off_state in Hst.
  split; cbn [mem ext]; [done| | | |exact Hw|]; unfold off_state.
  - etrans; [apply same_dom_write; intros x Hx; by apply Mb, Hin|]. apply same_dom_write.
    apply mapped_write. by rewrite Hw.
  - rewrite <- (write_file_text f cs w (Z.to_nat (Z.max 1 space))) by lia.
    assert (Hsp : (Z.to_nat (mf_offset f) + length cs <= length (mf_data f ++
      zeros (Z.to_nat (Z.max 1 space) - length (mf_data f))))%nat).
    { rewrite length_app. unfold zeros. rewrite length_replicate. lia. }
    apply holds_write_other.
    { rewrite length_chars_bytes, length_splice, length_app by done. unfold zeros.
      rewrite length_replicate. unfold block_size in Hkb. destruct Hkb; [right; lia|left; nia]. }
    rewrite <- (Z2Nat.id (mf_offset f)) at 1 by lia.
    by apply holds_splice; [apply (sr_text _ _ _ _ _ _ _ _ _ _ _ R)|].
  - apply holds_write.
  - intros x Hx1 Hx2. rewrite !lookup_write_out; [done|auto|lia].
Qed.

Lemma write_wp k buf space f src cs s :
  stream_rep Narrow m0 live0 bufp sizep offp k buf space f s -> source src cs ->
  Z.of_nat (length cs) < SSIZE_MAX -> mf_offset f + Z.of_nat (length cs) <= SSIZE_MAX ->
  wp al_exits (ao_memstream_write k src (Z.of_nat (length cs)))
    (write_post Narrow k buf space (Z.of_nat (length cs)) f cs []) s.
Proof.
  intros R Hsrc Hlen Hmax. unfold ao_memstream_write, ao_memstream_grow.
  apply wp_bind. eapply wp_mono; [eapply grow_wp; [exact S0|exact R|cbn; rewrite Z.div_1_r; lia]|].
  intros r s1 [(-> & He & R1)|(-> & buf1 & space1 & R1 & Hroom)].
  { apply wp_ret. left. by split_and!. }
  cbn [Z.eqb negb]. rewrite s64_small by zlia. apply wp_bind.
  assert (Hst : length (@nil Z) = length (mf_state f)).
  { pose proof (sr_state_size _ _ _ _ _ _ _ _ _ _ _ R). cbn in *. lia. }
  eapply (wp_mono _ _ (fun _ s2 => wrote Narrow k buf1 space1 f cs [] s1 s2)).
  - destruct (Z.eqb_spec (Z.of_nat (length cs)) 0) as [H0|H0]; cbn [negb].
    + apply wp_ret. assert (cs = []) as -> by (by apply nil_length_inv; lia).
      destruct s1 as [m e x].
      eapply (wrote_chars _ _ _ _ _ _ _ (St m e x)); [exact R1|cbn; lia|done| |done].
      by rewrite !write_nil.
    + apply wp_bind. eapply (wp_field _ _ _ _ _ _ S0 _ _ _ _ _ _ 3); [exact R1|done|done|]. cbn [ck_buf].
      apply wp_bind. eapply (wp_field _ _ _ _ _ _ S0 _ _ _ _ _ _ 2); [exact R1|done|done|]. cbn [ck_pos].
      pose proof (sr_offset _ _ _ _ _ _ _ _ _ _ _ R1) as [Ho _].
      destruct (rep_blocks _ _ _ _ _ _ _ _ _ _ _ R1) as (_ & _ & _ & _ & Mb & _).
      destruct (rep_apart _ _ _ _ _ _ _ _ _ _ _ src (Z.of_nat (length cs)) R1) as [_ Hsb];
        [apply holds_mapped, Hsrc|lia|]. unfold block_size in *. cbn [char_size] in *.
      apply wp_bind. eapply wp_memcpy; [by eapply source_now|done| |lia|].
      * eapply mapped_sub; [exact Mb|lia|lia].
      * apply wp_ret. eapply wrote_chars; [exact R1|lia|done| |done].
        rewrite write_nil, chars_bytes_narrow. cbn [char_size]. by rewrite Z.mul_1_l.
  - intros _ s2 W. apply wp_bind. eapply wp_mono; [eapply advance_wp; [exact S0|exact R1|exact W|lia|exact Hmax]|].
    intros ? s3 R3. apply wp_ret. right. split; [done|]. by exists buf1, space1.
Qed.

(** The C library may set its own variable. *)
Lemma wp_set_offp E K k buf space f s v (Q : unit -> st X -> Prop) :
  stream_rep K m0 live0 bufp sizep offp k buf space f s ->
  (forall s', stream_rep K m0 live0 bufp sizep offp k buf space f s' ->
     holds (mem s') offp (le_encode 8 v) -> Q tt s') ->
  wp E (store_u64 offp v) Q s.
Proof.
  intros R HQ. pose proof (sr_offp _ _ _ _ _ _ _ _ _ _ _ R) as Ho. apply wp_store_u64; [done|].
  destruct (rep_apart _ _ _ _ _ _ _ _ _ _ _ _ _ R (sl_offp _ _ _ _ S0) eq_refl) as [Hok Hob].
  pose proof (sl_apart_bufp _ _ _ _ S0). pose proof (sl_apart_sizep _ _ _ _ S0).
  pose proof (sr_state_size _ _ _ _ _ _ _ _ _ _ _ R) as Hss. unfold off_state in Hss.
  pose proof (sr_room _ _ _ _ _ _ _ _ _ _ _ R) as Hroom.
  assert (D : same_dom (mem s) (write (mem s) offp (le_encode 8 v)))
    by (apply same_dom_write; by rewrite length_le_encode).
  assert (Hout : forall a bs, offp + 8 <= a \/ a + Z.of_nat (length bs) <= offp ->
    holds (mem s) a bs -> holds (write (mem s) offp (le_encode 8 v)) a bs).
  { intros a bs Ha. apply holds_write_other. rewrite length_le_encode. lia. }
  apply HQ; [|apply holds_write]. split; cbn [mem ext errno]; try apply R.
  - eapply al_inv_dom; [exact D|apply R].
  - apply Hout; [rewrite length_words; cbn; lia|apply R].
  - apply Hout; [unfold off_state; lia|apply R].
  - apply Hout; [rewrite text_length by lia; lia|apply R].
  - apply Hout; [rewrite length_le_encode; lia|apply R].
  - apply Hout; [rewrite length_le_encode; lia|apply R].
  - rewrite <- D. apply R.
  - intros x b Hx Hb. rewrite lookup_write_out; [by apply (sr_keep _ _ _ _ _ _ _ _ _ _ _ R)|].
    rewrite length_le_encode. apply Hx.
Qed.

(** ** A session: writes and seeks *)

(** The C library flushes its buffer [cs], at [src], or seeks. *)
Inductive stream_op :=
| SWrite (src : Z) (cs : list Z)
| SSeek (off whence : Z).

Definition run_stream_op (k : Z) (op : stream_op) : C X Z :=
  match op with
  | SWrite src cs => ao_memstream_write k src (Z.of_nat (length cs))
  | SSeek off whence => do* store_u64 offp off in ao_memstream_seek k offp whence
  end.
Fixpoint run_stream (k : Z) (ops : list stream_op) : C X (list Z) :=
  match ops with
  | [] => ret []
  | op :: ops' =>
      let* r := run_stream_op k op in let* rs := run_stream k ops' in ret (r :: rs)
  end.

(** What a file does: it accepts a write whole, or refuses it for want of memory;
    it accepts a seek to a position it can represent. *)
Inductive file_step (f : mem_file) : stream_op -> Z -> mem_file -> Prop :=
| step_write src cs :
    file_step f (SWrite src cs) (Z.of_nat (length cs)) (write_file cs [] f)
| step_nomem src cs : file_step f (SWrite src cs) 0 f
| step_seek off whence f' :
    seek_file Narrow off whence f = Some f' -> file_step f (SSeek off whence) 0 f'
| step_refused off whence :
    seek_file Narrow off whence f = None -> file_step f (SSeek off whence) (-1) f.
Inductive file_run : mem_file -> list stream_op -> list Z -> mem_file -> Prop :=
| run_done f : file_run f [] [] f
| run_more f op r f1 ops rs f2 :
    file_step f op r f1 -> file_run f1 ops rs f2 -> file_run f (op :: ops) (r :: rs) f2.

(** The writes come from the users' memory, and no position exceeds the range of
    [off_t], whichever writes are refused. *)
Fixpoint ops_fit (f : mem_file) (ops : list stream_op) : Prop :=
  match ops with
  | [] => True
  | SWrite src cs :: ops' =>
      source src cs /\ Z.of_nat (length cs) < SSIZE_MAX /\
      mf_offset f + Z.of_nat (length cs) <= SSIZE_MAX /\
      ops_fit (write_file cs [] f) ops' /\ ops_fit f ops'
  | SSeek off whence :: ops' =>
      - 2 ^ 63 <= off < 2 ^ 63 /\ ops_fit (default f (seek_file Narrow off whence f)) ops'
  end.

Lemma run_stream_op_wp k buf space f op ops s :
  stream_rep Narrow m0 live0 bufp sizep offp k buf space f s -> ops_fit f (op :: ops) ->
  wp al_exits (run_stream_op k op) (fun r s' => exists f' buf' space',
    file_step f op r f' /\ ops_fit f' ops /\
    stream_rep Narrow m0 live0 bufp sizep offp k buf' space' f' s') s.
Proof.
  intros R H. destruct op as [src cs|off whence]; cbn [run_stream_op ops_fit] in *.
  - destruct H as (Hs & Hl & Hm & Hok & Hno). eapply wp_mono; [by eapply write_wp|].
    intros r s' [(-> & _ & R')|(-> & buf' & space' & R')].
    + exists f, buf, space. split_and!; [constructor|done|done].
    + exists (write_file cs [] f), buf', space'. split_and!; [constructor|done|done].
  - destruct H as [Hr Hfit]. apply wp_bind. eapply wp_set_offp; [exact R|]. intros s1 R1 Ho.
    eapply wp_mono; [eapply (wp_exits no_exit); [by eapply seek_wp|done]|].
    intros r s' Hp. unfold seek_post in Hp.
    destruct (seek_file Narrow off whence f) as [f'|] eqn:E; cbn [default] in Hfit.
    + destruct Hp as (-> & R' & _). exists f', buf, space. split_and!; [by constructor|done|done].
    + destruct Hp as (-> & ->). exists f, buf, space. split_and!; [by constructor|done|].
      destruct s1. by eapply rep_errno.
Qed.

Lemma run_stream_wp k buf space f ops s :
  stream_rep Narrow m0 live0 bufp sizep offp k buf space f s -> ops_fit f ops ->
  wp al_exits (run_stream k ops) (fun rs s' => exists f' buf' space',
    file_run f ops rs f' /\ stream_rep Narrow m0 live0 bufp sizep offp k buf' space' f' s') s.
Proof.
  revert f buf space s. induction ops as [|op ops IH]; intros f buf space s R H.
  { apply wp_ret. exists f, buf, space. split; [constructor|done]. }
  apply wp_bind. eapply wp_mono; [by eapply run_stream_op_wp|].
  intros r s1 (f1 & buf1 & space1 & Hst & Hfit & R1).
  apply wp_bind. eapply wp_mono; [by eapply IH|].
  intros rs s2 (f2 & buf2 & space2 & Hrun & R2). apply wp_ret.
  exists f2, buf2, space2. split; [by econstructor|done].
Qed.

(** ** Writing multibyte characters *)

Lemma splice_null i (data : list Z) n :
  (i < n)%nat -> (length data <= n)%nat ->
  splice i [0] (data ++ zeros (n - length data)) = <[i := 0]> data ++ zeros (n - length data).
Proof.
  intros Hi Hd. unfold splice, zeros. rewrite Nat.add_1_r. cbn [app].
  rewrite <- insert_take_drop by (rewrite length_app, length_replicate; lia).
  destruct (decide (i < length data)%nat); [by rewrite insert_app_l|].
  rewrite insert_app_r_alt by lia. rewrite (list_insert_ge data) by lia. f_equal.
  apply list_insert_id, lookup_replicate_2. lia.
Qed.

(** A null character over the character at [i] of the buffer. *)
Lemma rep_clear K k buf space f i s e :
  stream_rep K m0 live0 bufp sizep offp k buf space f s -> Z.of_nat i < space ->
  stream_rep K m0 live0 bufp sizep offp k buf space (clear_at i f)
    (St (write (mem s) (buf + char_size K * Z.of_nat i) (chars_bytes K [0])) e (ext s)).
Proof.
  intros R Hi. destruct (rep_blocks _ _ _ _ _ _ _ _ _ _ _ R) as (_ & _ & _ & _ & Mb & Hkb).
  pose proof (char_size_pos K) as Hu. pose proof (sr_room _ _ _ _ _ _ _ _ _ _ _ R) as Hr.
  destruct (rep_apart _ _ _ _ _ _ _ _ _ _ _ _ _ R (sl_sizep _ _ _ _ S0) eq_refl) as [_ Hzb].
  destruct (rep_apart _ _ _ _ _ _ _ _ _ _ _ _ _ R (sl_bufp _ _ _ _ S0) eq_refl) as [_ Hbb].
  assert (Hcs : 48 <= sizeof_cookie K) by (by destruct K).
  assert (Hlen : Z.of_nat (length (chars_bytes K [0])) = char_size K) by (rewrite length_chars_bytes; cbn; lia).
  pose proof (sr_state_size _ _ _ _ _ _ _ _ _ _ _ R) as Hss. unfold off_state, block_size in *.
  set (a := buf + char_size K * Z.of_nat i).
  assert (Ha : buf <= a /\ a + char_size K <= buf + char_size K * Z.max 1 space) by (unfold a; nia).
  assert (D : same_dom (mem s) (write (mem s) a (chars_bytes K [0]))).
  { apply same_dom_write. rewrite Hlen. intros x Hx. apply Mb. lia. }
  assert (Hout : forall b bs, b + Z.of_nat (length bs) <= buf \/ buf + char_size K * Z.max 1 space <= b ->
    holds (mem s) b bs -> holds (write (mem s) a (chars_bytes K [0])) b bs).
  { intros b bs Hb. apply holds_write_other. rewrite Hlen. lia. }
  split; cbn [mem ext errno clear_at mf_data mf_offset mf_size mf_state]; rewrite ?length_insert; try apply R.
  - eapply al_inv_dom; [exact D|apply R].
  - apply Hout; [rewrite length_words; cbn; lia|apply R].
  - apply Hout; [unfold off_state; lia|apply R].
  - rewrite <- splice_null by lia. apply holds_splice; [apply (sr_text _ _ _ _ _ _ _ _ _ _ _ R)|].
    rewrite length_app. unfold zeros. rewrite length_replicate. cbn. lia.
  - apply Hout; [rewrite length_le_encode; lia|apply R].
  - apply Hout; [rewrite length_le_encode; lia|apply R].
  - rewrite <- D. apply R.
  - intros x b Hx Hb. rewrite lookup_write_out; [by apply (sr_keep _ _ _ _ _ _ _ _ _ _ _ R)|].
    rewrite Hlen. intros Hin. rewrite (sr_fresh _ _ _ _ _ _ _ _ _ _ _ R) in Hb; [done|].
    unfold block_size. lia.
Qed.

Context `{!MultibyteLaws X}.

(** The file after the conversion: the characters are written; a null character that
    ends them is stored after them, but is not counted. *)
Definition wide_file (c : converted) (f : mem_file) : mem_file :=
  write_file (cv_chars c) (cv_after c)
    (if cv_null c then clear_at (Z.to_nat (mf_offset f + Z.of_nat (length (cv_chars c)))) f else f).

(** The characters the bytes stand for, up to a null character, are written and all the
    bytes are reported; or memory ran out and nothing changed; or the bytes are no
    characters, and only the text from the position on and the conversion state may
    differ. *)
Definition wwrite_post (k buf space n : Z) (f : mem_file) (bs : list Z) (r : Z) (s' : st X) : Prop :=
  (r = 0 /\ errno s' = ENOMEM /\ stream_rep Wide m0 live0 bufp sizep offp k buf space f s') \/
  match multibyte (mf_state f) bs with
  | Some c => r = n /\ exists buf' space',
      stream_rep Wide m0 live0 bufp sizep offp k buf' space' (wide_file c f) s'
  | None => r = 0 /\ errno s' = EILSEQ /\ exists buf' space' s1,
      stream_rep Wide m0 live0 bufp sizep offp k buf' space' f s1 /\
      ext s' = ext s1 /\ same_dom (mem s1) (mem s') /\
      forall x, ~ (buf' + WCHAR_SIZE * mf_offset f <= x < buf' + WCHAR_SIZE * space') ->
        ~ (k + off_state <= x < k + sizeof_cookie Wide) -> mem s' !! x = mem s1 !! x
  end.

(** The end of the writer, once the conversion has stored its characters. *)
Lemma wwrite_done k buf space f c e s :
  stream_rep Wide m0 live0 bufp sizep offp k buf space f s ->
  mf_offset f + Z.of_nat (length (stored c)) < space ->
  mf_offset f + Z.of_nat (length (stored c)) <= max_offset Wide ->
  length (cv_after c) = length (mf_state f) ->
  wp al_exits (advance k (Z.of_nat (length (cv_chars c))))
    (fun _ s' => stream_rep Wide m0 live0 bufp sizep offp k buf space (wide_file c f) s')
    (St (write (write (mem s) (buf + WCHAR_SIZE * mf_offset f) (chars_bytes Wide (stored c)))
       (k + off_state) (cv_after c)) e (ext s)).
Proof.
  intros R Hroom Hmax Hst. unfold stored, wide_file in *. rewrite length_app in Hroom, Hmax.
  pose proof (sr_offset _ _ _ _ _ _ _ _ _ _ _ R) as [Ho _].
  set (i := Z.to_nat (mf_offset f + Z.of_nat (length (cv_chars c)))).
  assert (Hend : forall f1 s1, mf_offset f1 = mf_offset f -> mf_state f1 = mf_state f -> ext s1 = ext s ->
    stream_rep Wide m0 live0 bufp sizep offp k buf space f1 s1 ->
    wp al_exits (advance k (Z.of_nat (length (cv_chars c))))
      (fun _ s' => stream_rep Wide m0 live0 bufp sizep offp k buf space (write_file (cv_chars c) (cv_after c) f1) s')
      (St (write (write (mem s1) (buf + WCHAR_SIZE * mf_offset f) (chars_bytes Wide (cv_chars c)))
        (k + off_state) (cv_after c)) e (ext s))).
  { intros f1 s1 Hof Hs1 Hx R1. eapply advance_wp; [exact S0|exact R1| |lia|lia]. rewrite <- Hx.
    eapply wrote_chars; [exact R1|lia| |reflexivity|by rewrite Hs1]. by rewrite Hof. }
  destruct (cv_null c); cbn [length] in *; [|rewrite app_nil_r; by apply (Hend f s)].
  rewrite chars_bytes_app, write_app_swap, length_chars_bytes.
  replace (buf + WCHAR_SIZE * mf_offset f + char_size Wide * Z.of_nat (length (cv_chars c)))
    with (buf + char_size Wide * Z.of_nat i) by (unfold i; cbn; unfold WCHAR_SIZE; lia).
  apply (Hend (clear_at i f) (St (write (mem s) (buf + char_size Wide * Z.of_nat i) (chars_bytes Wide [0])) e (ext s))
    eq_refl eq_refl eq_refl). apply rep_clear; [done|lia].
Qed.

Lemma wwrite_wp k buf space f src bs s :
  stream_rep Wide m0 live0 bufp sizep offp k buf space f s -> source src bs ->
  Z.of_nat (length bs) < SSIZE_MAX / WCHAR_SIZE ->
  mf_offset f + Z.of_nat (length bs) <= max_offset Wide ->
  wp al_exits (ao_wmemstream_write k src (Z.of_nat (length bs)))
    (wwrite_post k buf space (Z.of_nat (length bs)) f bs) s.
Proof.
  intros R Hsrc Hlen Hmax. unfold ao_wmemstream_write, ao_wmemstream_grow, wwrite_post.
  assert (Hbig : SSIZE_MAX / WCHAR_SIZE = 2 ^ 61 - 1) by done.
  assert (Hmo : max_offset Wide = 2 ^ 61 - 1) by done. rewrite Hbig in Hlen. rewrite Hmo in Hmax.
  apply wp_bind. eapply wp_mono; [eapply grow_wp; [exact S0|exact R|cbn; rewrite Hbig; lia]|].
  intros r s1 [(-> & He & R1)|(-> & buf1 & space1 & R1 & Hroom)].
  { apply wp_ret. left. by split_and!. }
  cbn [Z.eqb negb]. rewrite s64_small by lia.
  apply wp_bind. eapply (wp_field _ _ _ _ _ _ S0 _ _ _ _ _ _ 3); [exact R1|done|done|]. cbn [ck_buf].
  apply wp_bind. eapply (wp_field _ _ _ _ _ _ S0 _ _ _ _ _ _ 2); [exact R1|done|done|]. cbn [ck_pos].
  apply wp_bind. eapply (wp_field _ _ _ _ _ _ S0 _ _ _ _ _ _ 5); [exact R1|done|done|]. cbn [ck_space].
  pose proof (sr_offset _ _ _ _ _ _ _ _ _ _ _ R1) as [Ho _].
  destruct (rep_blocks _ _ _ _ _ _ _ _ _ _ _ R1) as (_ & _ & _ & _ & Mb & Hkb).
  pose proof (sr_space _ _ _ _ _ _ _ _ _ _ _ R1) as [_ Hsb].
  pose proof (sr_state_size _ _ _ _ _ _ _ _ _ _ _ R1) as Hss.
  unfold block_size, off_state, SIZEOF_MBSTATE in *. cbn [char_size sizeof_cookie] in *.
  unfold off_state, SIZEOF_MBSTATE, WCHAR_SIZE in *.
  rewrite u64_small by zlia.
  assert (Hdst : mapped (mem s1) (buf1 + mf_offset f * 4) (4 * (space1 - mf_offset f)))
    by (eapply mapped_sub; [exact Mb|lia|lia]).
  assert (Hsb1 : Z.of_nat (length bs) = 0 \/ src + Z.of_nat (length bs) <= buf1 \/
    buf1 + 4 * Z.max 1 space1 <= src).
  { destruct (decide (Z.of_nat (length bs) = 0)); [by left|right].
    destruct (rep_apart _ _ _ _ _ _ _ _ _ _ _ src (Z.of_nat (length bs)) R1) as [_ H];
      [apply holds_mapped, Hsrc|lia|exact H]. }
  apply wp_bind. eapply wp_mono.
  { eapply (wp_exits no_exit); [|done]. eapply (mbsnrtowcs_ok _ _ _ _ _ (mf_state f) bs s1).
    - by eapply source_now.
    - done.
    - apply (sr_state _ _ _ _ _ _ _ _ _ _ _ R1).
    - unfold SIZEOF_MBSTATE. lia.
    - lia.
    - exact Hdst.
    - unfold WCHAR_SIZE, SIZEOF_MBSTATE, off_state. lia.
    - unfold WCHAR_SIZE. lia. }
  intros r [m2 e2 x2] [Hx H]. cbn [ext mem errno] in *. subst x2.
  change (convert_until_null mb_convert mb_finish (mf_state f) bs) with (multibyte (mf_state f) bs) in H.
  destruct (multibyte (mf_state f) bs) as [c|] eqn:Hconv.
  - destruct H as [-> ->]. destruct (multibyte_short _ _ _ Hconv) as [Hcs Hw].
    assert (length (cv_chars c) <= length (stored c))%nat by (unfold stored; rewrite length_app; lia).
    destruct (Z.eqb_spec (Z.of_nat (length (cv_chars c))) SIZE_MAX); [zlia|].
    replace (mf_offset f * 4) with (WCHAR_SIZE * mf_offset f) by (unfold WCHAR_SIZE; lia).
    apply wp_bind. eapply wp_mono; [apply wwrite_done; [exact R1|lia|rewrite Hmo; lia|done]|].
    intros ? s3 R3. apply wp_ret. right. split; [done|]. by exists buf1, space1.
  - destruct H as (-> & -> & D & Hf). rewrite Z.eqb_refl. apply wp_ret. right. split_and!; [done|done|].
    exists buf1, space1, s1. split_and!; [done|done|done|].
    intros x Hx1 Hx2. apply Hf; unfold off_state, WCHAR_SIZE, SIZEOF_MBSTATE; lia.
Qed.

End Write.
