(* ===== verification/MemstreamProps.v ===== *)
(** * Properties of the memory streams

    The theorems on src/memstream_overrides.c, and their instances on the bump heap
    with a C library whose multibyte encoding is one byte a character. *)
From S2P Require Import Prelude CMem CCmd CLib Alloc SimpleHeap Memstream MemstreamSpec MemstreamOps.

Section Props.
Context {X : Type} `{!Allocator X} `{!AllocatorLaws X} `{!StreamWorld X} `{!StreamLaws X}.

(** C34: opening a stream, narrow or wide, either fails, gives back every block it
    took and changes nothing but the caller's two variables, or makes a stream
    that holds no characters at position 0, with the caller's variables set to a
    buffer that holds a null character and to 0. *)
Theorem open_stream_empty K bufp sizep offp (s : st X) :
  al_inv (ext s) (mem s) -> slots_ok (mem s) bufp sizep offp ->
  wp al_exits (open_stream K bufp sizep) (open_post K bufp sizep offp s) s.
Proof. apply open_wp. Qed.

(** C35: a narrow stream is a file in memory.  Whatever writes and seeks the C
    library makes, each returns what the file returns (a write whole or, for want
    of memory, nothing; the gap before a write past the end reads as zeros), and
    after the stream is closed the caller's variables give a block with the
    characters of the file followed by a null character, and the size of the last
    write's end; that block is the only one left, and nothing else of the caller
    changed. *)
Theorem memstream_refines_file m0 live0 bufp sizep offp k buf space f ops (s : st X) :
  slots_ok m0 bufp sizep offp ->
  stream_rep Narrow m0 live0 bufp sizep offp k buf space f s ->
  ops_fit m0 bufp sizep offp f ops ->
  wp al_exits (let* rs := run_stream offp k ops in do* ao_memstream_close k in ret rs)
    (fun rs s' => exists f' buf' n, file_run f ops rs f' /\
       al_inv (ext s') (mem s') /\ al_live (ext s') = <[buf' := n]> live0 /\
       Z.of_nat (length (mf_data f')) < n /\
       holds (mem s') bufp (le_encode 8 buf') /\ holds (mem s') sizep (le_encode 8 (mf_size f')) /\
       holds (mem s') buf' (mf_data f' ++ [0]) /\
       forall x b, callers bufp sizep offp x -> m0 !! x = Some b -> mem s' !! x = Some b) s.
Proof.
  intros S0 R H. apply wp_bind. eapply wp_mono; [by eapply run_stream_wp|].
  intros rs s1 (f' & buf' & space' & Hrun & R'). apply wp_bind.
  eapply wp_mono; [by eapply close_wp|]. intros r s2 (_ & I & Hl & Hb & Hz & Ht & Hk).
  apply wp_ret. exists f', buf', (block_size Narrow space'). rewrite chars_bytes_narrow in Ht.
  pose proof (sr_room _ _ _ _ _ _ _ _ _ _ _ R') as Hroom.
  split_and!; try done. unfold block_size. cbn [char_size]. lia.
Qed.

(** C36: the wide writer, for any bytes.  It writes, at the position, the characters the
    bytes stand for up to the first null character, and keeps the conversion state for
    the next write; it refuses bytes that are no characters without moving the position,
    and fails cleanly when memory runs out.  The conversion stops at a null character:
    that character is stored after the others but not counted (so it overwrites what was
    there, and the next write replaces it), the bytes after it are lost, and the writer
    reports all the bytes taken all the same. *)
Theorem wide_write_converts `{!MultibyteLaws X} m0 live0 bufp sizep offp k buf space f src bs (s : st X) :
  slots_ok m0 bufp sizep offp ->
  stream_rep Wide m0 live0 bufp sizep offp k buf space f s ->
  source m0 bufp sizep offp src bs ->
  Z.of_nat (length bs) < SSIZE_MAX / WCHAR_SIZE ->
  mf_offset f + Z.of_nat (length bs) <= max_offset Wide ->
  wp al_exits (ao_wmemstream_write k src (Z.of_nat (length bs)))
    (wwrite_post m0 live0 bufp sizep offp k buf space (Z.of_nat (length bs)) f bs) s.
Proof. intros S0. by apply wwrite_wp. Qed.

(** C37: a seek is accepted exactly when the base exists and the target lies
    between 0 and the largest offset; then the position is the target, which is
    stored for the C library, and a wide stream starts from the initial conversion
    state.  Otherwise it fails with [EINVAL] and changes nothing.  No computation
    on [off_t] overflows. *)
Theorem seek_exact K m0 live0 bufp sizep offp k buf space f off whence (s : st X) :
  slots_ok m0 bufp sizep offp ->
  stream_rep K m0 live0 bufp sizep offp k buf space f s ->
  holds (mem s) offp (le_encode 8 off) -> - 2 ^ 63 <= off < 2 ^ 63 ->
  wp no_exit (memstream_seek K k offp whence)
    (seek_post K m0 live0 bufp sizep offp k buf space f off whence s) s.
Proof. intros S0. by apply seek_wp. Qed.

End Props.

(** The size a buffer grows to holds what is required and at least doubles
    (so a stream of single characters reallocates a logarithmic number of times),
    or is the largest size; it never wraps around. *)
Theorem grown_space_doubles space required :
  0 <= space <= SIZE_MAX -> 0 <= required <= SIZE_MAX ->
  required <= grown_space space required <= SIZE_MAX /\
  Z.min SIZE_MAX (2 * space) <= grown_space space required.
Proof. apply grown_space_spec. Qed.

(** ** Witnesses *)

(** A character a byte; the conversion reads the source up to a null byte and writes the
    characters and the state, which stays. *)
Definition simple_mbsnrtowcs (dst src n len ps : Z) : C arena Z :=
  let* bs := load src n in
  let* w := load ps SIZEOF_MBSTATE in
  let '(pre, null) := until_null bs in
  do* store dst (chars_bytes Wide (pre ++ (if null then [0] else []))) in
  do* store ps w in
  ret (Z.of_nat (length pre)).

#[export] Instance simple_stream_world : StreamWorld arena := {
  fopencookie _ _ := ret 5;
  fwide _ _ := ret 1;
  mbsnrtowcs := simple_mbsnrtowcs
}.

#[export] Instance simple_stream_laws : StreamLaws arena.
Proof. split; intros; by apply wp_ret. Qed.

#[export] Program Instance simple_multibyte_laws : MultibyteLaws arena := {
  mb_convert w bs := Some (bs, w);
  mb_finish w := Some w
}.
Next Obligation. intros w bs cs w' [= -> ->]. done. Qed.
Next Obligation. by intros w w' [= ->]. Qed.
Next Obligation.
  intros dst src n len ps w bs s Hs -> Hp Hw Hlen Hd Hdp Hds. cbn. unfold simple_mbsnrtowcs.
  apply wp_bind. eapply wp_load; [exact Hs|done|].
  apply wp_bind. eapply wp_load; [exact Hp|done|].
  unfold convert_until_null. destruct (until_null bs) as [pre null] eqn:Hpre.
  assert (Hl : (length (pre ++ (if null then [0%Z] else [])) <= length bs)%nat)
    by (pose proof (until_null_length _ _ _ Hpre); rewrite length_app; destruct null; cbn in *; lia).
  apply wp_bind, wp_store.
  { rewrite length_chars_bytes. eapply mapped_sub; [exact Hd|lia|cbn; unfold WCHAR_SIZE in *; lia]. }
  apply wp_bind, wp_store; cbn [mem errno ext].
  { apply mapped_write. by apply holds_mapped. }
  by apply wp_ret; destruct null.
Qed.

(** The variables at 4096, 4104 and 4112, and the texts [hello] at 4120 and [hi], null,
    [yo] at 4125. *)
Definition stream_text : list Z := [104; 101; 108; 108; 111].
Definition null_text : list Z := [104; 105; 0; 121; 111].
Definition stream_memory : gmap Z Z := write ∅ 4096 (replicate 24 0 ++ stream_text ++ null_text).
Definition stream_start : st arena := St stream_memory 0 (empty_arena (2 ^ 20) (2 ^ 21)).

Lemma stream_memory_mapped a : 4096 <= a -> a + 8 <= 4120 -> mapped stream_memory a 8.
Proof.
  intros H1 H2. eapply mapped_sub; [apply holds_mapped, holds_write|lia|].
  rewrite length_app, length_replicate. cbn. lia.
Qed.

Lemma stream_slots : slots_ok stream_memory 4096 4104 4112.
Proof. split; try (by apply stream_memory_mapped); unfold SIZE_MAX; lia. Qed.

Lemma stream_start_inv : al_inv (ext stream_start) (mem stream_start).
Proof.
  apply empty_arena_inv; [done|done|done|]. intros x [Hx _].
  cbn [mem stream_start]. unfold stream_memory. rewrite lookup_write_out; [apply lookup_empty|].
  rewrite length_app, length_replicate. cbn. lia.
Qed.

Lemma stream_sources :
  source stream_memory 4096 4104 4112 4120 stream_text /\ source stream_memory 4096 4104 4112 4125 null_text.
Proof.
  assert (H : holds stream_memory 4096 (replicate 24 0 ++ stream_text ++ null_text)) by apply holds_write.
  apply holds_app in H as [_ H]. apply holds_app in H as [H1 H2].
  split; (split; [done|]); intros x Hx; unfold callers; cbn in Hx; lia.
Qed.

Lemma open_stream_empty_witness :
  wp al_exits (open_stream Wide 4096 4104) (open_post Wide 4096 4104 4112 stream_start) stream_start.
Proof. exact (open_stream_empty Wide 4096 4104 4112 stream_start stream_start_inv stream_slots). Defined.

(** The state in which a stream was opened. *)
Definition opened (K : char_kind) : st arena :=
  match open_stream K 4096 4104 stream_start with Ret (_, s) => s | _ => stream_start end.

Lemma opened_rep K :
  exists k buf, stream_rep K stream_memory ∅ 4096 4104 4112 k buf 0 (empty_file K) (opened K).
Proof.
  pose proof (open_wp K 4096 4104 4112 stream_start stream_start_inv stream_slots) as H.
  unfold wp, opened in *.
  assert (Hr : match open_stream K 4096 4104 stream_start with Ret (r, _) => r =? 5 | _ => false end = true)
    by (destruct K; vm_compute; reflexivity).
  destruct (open_stream K 4096 4104 stream_start) as [[r s]| | |]; try done.
  apply Z.eqb_eq in Hr as ->. destruct H as [[? _]|(_ & k & buf & R)]; [done|]. by exists k, buf.
Qed.

(** Writes of [hello], a seek two past the end, another write. *)
Definition stream_ops : list stream_op :=
  [SWrite 4120 stream_text; SSeek 2 2; SWrite 4120 stream_text; SSeek (-1) 0].

Lemma stream_ops_fit : ops_fit stream_memory 4096 4104 4112 (empty_file Narrow) stream_ops.
Proof.
  cbn [ops_fit stream_ops]. pose proof (proj1 stream_sources).
  repeat match goal with |- _ /\ _ => split end; try exact I; try assumption;
    vm_compute; try reflexivity; discriminate.
Qed.

Lemma memstream_refines_file_witness :
  exists k buf, stream_rep Narrow stream_memory ∅ 4096 4104 4112 k buf 0 (empty_file Narrow) (opened Narrow) /\
  wp al_exits (let* rs := run_stream 4112 k stream_ops in do* ao_memstream_close k in ret rs)
    (fun rs s' => exists f' buf' n, file_run (empty_file Narrow) stream_ops rs f' /\
       al_inv (ext s') (mem s') /\ al_live (ext s') = <[buf' := n]> ∅ /\
       Z.of_nat (length (mf_data f')) < n /\
       holds (mem s') 4096 (le_encode 8 buf') /\ holds (mem s') 4104 (le_encode 8 (mf_size f')) /\
       holds (mem s') buf' (mf_data f' ++ [0]) /\
       forall x b, callers 4096 4104 4112 x -> stream_memory !! x = Some b -> mem s' !! x = Some b)
    (opened Narrow).
Proof.
  destruct (opened_rep Narrow) as (k & buf & R). exists k, buf. split; [exact R|].
  exact (memstream_refines_file stream_memory ∅ 4096 4104 4112 k buf 0 (empty_file Narrow) stream_ops
    (opened Narrow) stream_slots R stream_ops_fit).
Defined.

(** The file after these operations, none of them refused for want of memory. *)
Example stream_ops_file :
  mf_data (write_file stream_text [] (default (empty_file Narrow)
    (seek_file Narrow 2 2 (write_file stream_text [] (empty_file Narrow))))) =
  [104; 101; 108; 108; 111; 0; 0; 104; 101; 108; 108; 111].
Proof. reflexivity. Qed.

Lemma wide_write_converts_witness :
  exists k buf, stream_rep Wide stream_memory ∅ 4096 4104 4112 k buf 0 (empty_file Wide) (opened Wide) /\
  wp al_exits (ao_wmemstream_write k 4120 5)
    (wwrite_post stream_memory ∅ 4096 4104 4112 k buf 0 5 (empty_file Wide) stream_text) (opened Wide) /\
  wp al_exits (ao_wmemstream_write k 4125 5)
    (wwrite_post stream_memory ∅ 4096 4104 4112 k buf 0 5 (empty_file Wide) null_text) (opened Wide).
Proof.
  destruct (opened_rep Wide) as (k & buf & R). exists k, buf. split; [exact R|]. split.
  - exact (wide_write_converts stream_memory ∅ 4096 4104 4112 k buf 0 (empty_file Wide) 4120 stream_text
      (opened Wide) stream_slots R (proj1 stream_sources) eq_refl ltac:(vm_compute; discriminate)).
  - exact (wide_write_converts stream_memory ∅ 4096 4104 4112 k buf 0 (empty_file Wide) 4125 null_text
      (opened Wide) stream_slots R (proj2 stream_sources) eq_refl ltac:(vm_compute; discriminate)).
Defined.

(** Five bytes are reported, two characters are kept; over [hello], the null character
    also replaces the third one. *)
Example null_text_lost :
  multibyte (X := arena) (initial_state Wide) null_text = Some (Converted [104; 105] true (initial_state Wide)) /\
  mf_data (wide_file (Converted [104; 105] true []) (empty_file Wide)) = [104; 105] /\
  mf_data (wide_file (Converted [104; 105] true []) (MemFile stream_text 0 5 [])) = [104; 105; 0; 108; 111].
Proof. by split_and!. Qed.

Lemma seek_exact_witness :
  exists k buf, stream_rep Wide stream_memory ∅ 4096 4104 4112 k buf 0 (empty_file Wide) (opened Wide) /\
  wp no_exit (memstream_seek Wide k 4112 1)
    (seek_post Wide stream_memory ∅ 4096 4104 4112 k buf 0 (empty_file Wide) 0 1 (opened Wide)) (opened Wide).
Proof.
  destruct (opened_rep Wide) as (k & buf & R). exists k, buf. split; [exact R|].
  apply (seek_exact Wide stream_memory ∅ 4096 4104 4112 k buf 0 (empty_file Wide) 0 1
    (opened Wide) stream_slots R).
  - apply load_bytes_holds. vm_compute. reflexivity.
  - split; [discriminate|reflexivity].
Defined.

Lemma grown_space_doubles_witness :
  1000 <= grown_space 3 1000 <= SIZE_MAX /\ Z.min SIZE_MAX (2 * 3) <= grown_space 3 1000.
Proof. apply (grown_space_doubles 3 1000); unfold SIZE_MAX; lia. Defined.
