(* ===== verification/SimpleScan.v ===== *)
(** * Two concrete scanners

    Scanners for [%ms], behind the mock allocator: one gets its result from the C
    library's allocator, the other from the preloaded [malloc].  Both count one
    conversion only.  With a linker that knows some of the symbols they show that the
    contract the wrappers rely on ([scan_contract]) can hold. *)
From S2P Require Import Prelude CMem CCmd CLib Alloc SimpleHeap Registry MockState Bootstrap MockAllocator MockSpec MockRun SimplePlatform.
From S2P Require Import ScanFormat ScanGrammar Scanf ScanPlan ScanRehome ScanWrap MockBridge.

Definition scan_text : list Z := [104; 105; 0].

(** The first conversion succeeds, if there is memory; the input ends before the
    second. *)
Definition scan_with (malloc : Z -> C (globals * arena) Z) (ap : list Z) : C (globals * arena) Z :=
  match ap with
  | [] => undef
  | slot :: _ =>
      let* p := malloc 3 in
      if p =? 0 then ret EOF
      else do* store p scan_text in do* store_u64 slot p in ret 1
  end.
Definition library_malloc (n : Z) : C (globals * arena) Z := lift (al_malloc n).
Definition preloaded_malloc (n : Z) : C (globals * arena) Z := MockAllocator.malloc n.

(** The linker does not know the [__isoc99] functions. *)
Definition simple_next (nm : string) : Z :=
  if bool_decide (nm = "vfscanf"%string) then 21
  else if bool_decide (nm = "vsscanf"%string) then 22
  else if bool_decide (nm = "vfwscanf"%string) then 23
  else if bool_decide (nm = "vswscanf"%string) then 24
  else 0.

Definition simple_default (nm : string) : Z :=
  if bool_decide (nm = "ao_alloc_bridge_owns"%string) then 31
  else if bool_decide (nm = "ao_alloc_bridge_libc_free"%string) then 32
  else if bool_decide (nm = "ao_alloc_bridge_libc_realloc"%string) then 33
  else 0.

#[export] Instance simple_libc_scan : LibcScan (globals * arena) := {
  lx_dlsym_next nm := ret (simple_next nm);
  lx_dlsym_default nm := ret (simple_default nm);
  lx_scan fn _ _ ap := scan_with (if fn =? 25 then preloaded_malloc else library_malloc) ap;
  lx_stdin := 7
}.

(** ** A state: the format [%ms%ms], a null pointer and a pointer to nowhere in the
    bootstrap array *)

Definition scan_format : Z := simple_heap_base.
Definition scan_slot : Z := simple_heap_base + 16.
Definition second_slot : Z := simple_heap_base + 24.
Definition scan_args : list Z := [scan_slot; second_slot].
Definition scan_items : list item :=
  [Directed (Directive NextArg [] true LenNone ch_s []); Directed (Directive NextArg [] true LenNone ch_s [])].

Definition scan_memory : gmap Z Z :=
  write (write (write simple_memory scan_format (print_format scan_items)) scan_slot (le_encode 8 0))
    second_slot (le_encode 8 12345).

Lemma scan_memory_format : holds scan_memory scan_format (print_format scan_items).
Proof.
  unfold scan_memory. apply holds_write_other; [left; vm_compute; discriminate|].
  apply holds_write_other; [left; vm_compute; discriminate|apply holds_write].
Qed.

Lemma scan_memory_slot : holds scan_memory scan_slot (le_encode 8 0).
Proof. apply holds_write_other; [left; vm_compute; discriminate|apply holds_write]. Qed.

Lemma scan_memory_inv depth :
  mock_inv (ready_globals depth, empty_arena (2 ^ 20) (2 ^ 21)) scan_memory.
Proof.
  unfold scan_memory.
  apply heap_write_inv; [apply heap_write_inv; [apply heap_write_inv; [exact (simple_ready_inv depth)|..]|..]|..];
    vm_compute; discriminate.
Qed.

#[global] Opaque scan_memory.

(** The static variables of the wrappers after the resolution. *)
Definition scan_globals : scanf_globals :=
  ScanfGlobals true 21 21 22 22 23 23 24 24 31 32 33 true.

Definition scan_start : st (scanf_globals * (globals * arena)) :=
  St scan_memory 0 (scan_globals, (ready_globals 0, empty_arena (2 ^ 20) (2 ^ 21))).

Definition scan_record : ao_scanf_record := ScanfRecord scan_slot 1 AO_REHOME_CHAR_STRING 0.
Definition scan_records : list ao_scanf_record := [scan_record; ScanfRecord second_slot 2 AO_REHOME_CHAR_STRING 0].

(** ** The contract *)

Lemma one_result t (st : st (scanf_globals * (globals * arena))) :
  slot_ok (rs_record t) (rs_original t) (rs_bytes t) st -> results_ok [t] st.
Proof.
  intros H. split.
  - by intros u ->%list_elem_of_singleton.
  - intros [|i] [|j] u v Hu Hv Hne; done.
Qed.

(** The memory of a result is there: the text and the pointer are stored. *)
Definition scan_stored (m : gmap Z Z) (p : Z) : gmap Z Z :=
  write (write m p scan_text) scan_slot (le_encode 8 p).

Section Contract.
Context (m1 : gmap Z Z) (Hkeep : forall x b, scan_memory !! x = Some b -> m1 !! x = Some b).

Lemma scan_slot_there : holds m1 scan_slot (le_encode 8 0) /\ mapped m1 scan_slot 8.
Proof.
  assert (H : holds m1 scan_slot (le_encode 8 0)) by (intros i b Hi; apply Hkeep, scan_memory_slot, Hi).
  split; [done|]. intros x Hx. apply (holds_mapped _ _ _ H). by rewrite length_le_encode.
Qed.

(** What the memory is like when a block of 3 bytes was allocated at [p]. *)
Lemma scan_stored_ok live p m2 live2 :
  allocated m1 live p 3 m2 live2 ->
  mapped m2 p 3 /\ mapped (write m2 p scan_text) scan_slot 8 /\ same_dom m2 (scan_stored m2 p) /\
  0 <= p <= SIZE_MAX /\ apart scan_slot 8 p 3 /\
  holds (scan_stored m2 p) scan_slot (le_encode 8 p) /\
  scanned AO_REHOME_CHAR_STRING 0 (scan_stored m2 p) p scan_text /\
  forall x b, scan_memory !! x = None -> m1 !! x = Some b -> scan_stored m2 p !! x = Some b.
Proof.
  intros A. destruct scan_slot_there as [_ Hslotm].
  pose proof (allocated_apart _ _ _ _ _ _ _ _ A Hslotm eq_refl) as Hap.
  assert (Hm2 : mapped (write m2 p scan_text) scan_slot 8).
  { rewrite <- same_dom_write; [by eapply allocated_keeps_mapped|apply A]. }
  pose proof (alloc_good _ _ _ _ _ _ A) as (? & _ & _ & ?). unfold scan_stored.
  split_and!; [apply A|done| |lia|lia|exact Hap|apply holds_write| |].
  - etrans; [apply (same_dom_write m2 p scan_text), (alloc_mapped _ _ _ _ _ _ A)|]. apply same_dom_write. by rewrite length_le_encode.
  - exists [104; 105]. split; [done|]. split; [|repeat constructor; discriminate].
    apply holds_write_other; [rewrite length_le_encode; cbn; lia|apply holds_write].
  - intros x b Hx Hb. rewrite !lookup_write_out; [by eapply allocated_keeps| |].
    + intros Hin. by rewrite (alloc_fresh _ _ _ _ _ _ A) in Hb by (cbn in Hin; lia).
    + rewrite length_le_encode. intros Hin. destruct (holds_mapped _ _ _ scan_memory_slot x) as [c Hc];
        [by rewrite length_le_encode|]. congruence.
Qed.

End Contract.

Definition scan_answer (r : Z) : Prop := r = 1 \/ r = EOF.

(** The memory of a result: null, a block of the preloaded allocator, or a block of
    the C library it does not own; no block of the preloaded allocator goes away. *)
Definition result_memory (p : Z) (s s' : st (globals * arena)) : Prop :=
  al_inv (ext s') (mem s') /\
  (forall q n, al_live (ext s) !! q = Some n -> al_live (ext s') !! q = Some n) /\
  ((p = 0 /\ mem s' = mem s) \/
   (p <> 0 /\ (exists live live', allocated (mem s) live p 3 (mem s') live') /\
    (is_Some (al_live (ext s') !! p) \/ mock_foreign (ext s') !! p = Some 3))).

(** A scanner that gets its memory so keeps the contract. *)
Lemma scan_with_contract malloc fn source format :
  (forall ap, libc_scan fn source format ap = scan_with malloc ap) ->
  (forall s, al_inv (ext s) (mem s) -> wp (al_exits (X := globals * arena)) (malloc 3) (fun p s' => result_memory p s s') s) ->
  scan_contract scan_answer scan_globals scan_records scan_start (lift (libc_scan fn source format scan_args)).
Proof.
  intros Hscan Hmalloc [m1 e1 [g1 x1]] I Hg Hkeep _. cbn [ext mem fst snd] in *. subst g1.
  destruct (scan_slot_there m1 Hkeep) as [Hslot Hslotm]. rewrite Hscan. apply wp_lift. unfold scan_with, scan_args.
  apply wp_bind. eapply wp_mono; [eapply wp_exits; [apply (Hmalloc (St m1 e1 x1)); exact I|done]|].
  intros p [m2 e2 x2] (I2 & Hlive & [[-> Hm]|(Hp & (live & live' & A) & Hown)]); cbn [ext mem fst snd errno] in *.
  - cbn. apply wp_ret. exists []. cbn [ext mem fst snd] in *. subst m2.
    split; cbn [ext mem fst snd]; [by right|exact I2|done|exact Hlive|by intros x b _ Hb|done| |].
    + by split; [intros t Ht%elem_of_nil|intros [] ? ? ?].
    + by intros t Ht%elem_of_nil.
  - destruct (Z.eqb_spec p 0); [done|].
    destruct (scan_stored_ok m1 Hkeep _ _ _ _ A) as (Hm & Hm2 & D & Hr & Hap & Hs & Htext & Hfr).
    apply wp_bind, wp_store; [done|]. apply wp_bind, wp_store_u64; [done|].
    apply wp_ret. exists [Result scan_record p scan_text].
    split; cbn [ext mem fst snd errno]; [by left| |done|exact Hlive|exact Hfr|done| |].
    + exact (al_inv_dom (X := globals * arena) x2 m2 (scan_stored m2 p) D I2).
    + apply one_result. split; [exact Hs|exact Hr|]. right. destruct Hown as [Ho|Ho]; [by left|right].
      exists 3. split_and!; [exact Ho|done|exact Hap|exact Htext].
    + intros t ->%list_elem_of_singleton. intros x Hx. apply (holds_mapped _ _ _ scan_memory_slot).
      by rewrite length_le_encode.
Qed.

Lemma library_malloc_ok s :
  al_inv (ext s) (mem s) -> wp (al_exits (X := globals * arena)) (library_malloc 3) (fun p s' => result_memory p s s') s.
Proof.
  destruct s as [m1 e1 [g y]]. intros I. apply wp_lift.
  eapply wp_mono; [eapply wp_exits; [apply (al_malloc_ok 3); [apply I|done]|done]|].
  intros p [m2 e2 y2] [I2 [[-> (Hm & Hl & _)]|[Hp A]]]; cbn [ext mem fst snd errno] in *.
  - subst m2. split; [exact (mock_inv_same g y m1 y2 I I2 Hl)|]. split; [done|by left].
  - destruct (mock_inv_behind g y m1 p 3 y2 m2 I I2 A) as [I' Hf]. split; [exact I'|]. split; [done|right].
    split_and!; [done|by eexists _, _|by right].
Qed.

Lemma preloaded_malloc_ok s :
  al_inv (ext s) (mem s) -> wp (al_exits (X := globals * arena)) (preloaded_malloc 3) (fun p s' => result_memory p s s') s.
Proof.
  intros I. eapply wp_mono; [apply (al_malloc_ok (X := globals * arena) 3 s I); done|].
  intros p s' [I' [[-> (Hm & Hl & _)]|[Hp A]]].
  - split; [done|]. split; [by rewrite Hl|by left].
  - split; [done|]. split.
    + intros q n Hq. rewrite (alloc_live _ _ _ _ _ _ A), lookup_insert_ne; [done|].
      intros <-. by rewrite (alloc_new _ _ _ _ _ _ A) in Hq.
    + right. split_and!; [done|by eexists _, _|left]. rewrite (alloc_live _ _ _ _ _ _ A). rewrite lookup_insert_eq. by eexists.
Qed.

(** The scanner behind 22 and the one behind 25. *)
Lemma simple_scan_contracts source format :
  scan_contract scan_answer scan_globals scan_records scan_start (lift (libc_scan 22 source format scan_args)) /\
  scan_contract scan_answer scan_globals scan_records scan_start (lift (libc_scan 25 source format scan_args)).
Proof.
  split.
  - apply (scan_with_contract library_malloc); [done|exact library_malloc_ok].
  - apply (scan_with_contract preloaded_malloc); [done|exact preloaded_malloc_ok].
Qed.
