(* ===== verification/ScanProps.v ===== *)
(** * Properties of the scanf wrappers

    The theorems on src/scanf_overrides.c, and their instances on the concrete
    world of [SimpleScan]. *)
From S2P Require Import Prelude CMem CCmd CLib Alloc Strings SimpleHeap Registry MockState Bootstrap MockAllocator MockSpec MockRun SimplePlatform.
From S2P Require Import ScanFormat ScanGrammar Scanf ScanPlan ScanTotal ScanRehome ScanWrap MockBridge SimpleScan.

(** ** The entry points *)

Section Entries.
Context {X : Type} `{!Allocator X} `{!ScanfWorld X}.

(** All of them, called with the stream or the input string [source]. *)
Definition entry_points (source format : Z) (ap : list Z) : list (C (scanf_globals * X) Z) :=
  [ao_plain_vfscanf source format ap; __isoc99_vfscanf source format ap;
   ao_plain_vscanf format ap; __isoc99_vscanf format ap;
   ao_plain_fscanf source format ap; __isoc99_fscanf source format ap;
   ao_plain_scanf format ap; __isoc99_scanf format ap;
   ao_plain_vsscanf source format ap; __isoc99_vsscanf source format ap;
   ao_plain_sscanf source format ap; __isoc99_sscanf source format ap;
   ao_plain_vfwscanf source format ap; __isoc99_vfwscanf source format ap;
   ao_plain_vwscanf format ap; __isoc99_vwscanf format ap;
   ao_plain_fwscanf source format ap; __isoc99_fwscanf source format ap;
   ao_plain_wscanf format ap; __isoc99_wscanf format ap;
   ao_plain_vswscanf source format ap; __isoc99_vswscanf source format ap;
   ao_plain_swscanf source format ap; __isoc99_swscanf source format ap].

(** What the linker finds, as two functions of the symbol's name. *)
Definition resolved_globals (next dflt : string -> Z) (once : bool) : scanf_globals :=
  let owns := dflt "ao_alloc_bridge_owns"%string in
  let lfree := dflt "ao_alloc_bridge_libc_free"%string in
  let lrealloc := dflt "ao_alloc_bridge_libc_realloc"%string in
  ScanfGlobals once
    (next "vfscanf"%string) (or_else (next "__isoc99_vfscanf"%string) (next "vfscanf"%string))
    (next "vsscanf"%string) (or_else (next "__isoc99_vsscanf"%string) (next "vsscanf"%string))
    (next "vfwscanf"%string) (or_else (next "__isoc99_vfwscanf"%string) (next "vfwscanf"%string))
    (next "vswscanf"%string) (or_else (next "__isoc99_vswscanf"%string) (next "vswscanf"%string))
    owns lfree lrealloc (negb (owns =? 0) && negb (lfree =? 0) && negb (lrealloc =? 0)).

(** A linker that finds [next] and [dflt] and keeps [Inv] of the rest of the world
    and the memory. *)
Record linker (Inv : X -> gmap Z Z -> Prop) (next dflt : string -> Z) : Prop := {
  ln_next nm s : Inv (ext s) (mem s) ->
    wp no_exit (dlsym_next nm) (fun p s' => p = next nm /\ Inv (ext s') (mem s')) s;
  ln_default nm s : Inv (ext s) (mem s) ->
    wp no_exit (dlsym_default nm) (fun p s' => p = dflt nm /\ Inv (ext s') (mem s')) s
}.

Section Resolution.
Context (Inv : X -> gmap Z Z -> Prop) (next dflt : string -> Z) (L : linker Inv next dflt).

Lemma wp_resolve_function nm (Q : Z -> st (scanf_globals * X) -> Prop) s :
  Inv (snd (ext s)) (mem s) ->
  (forall s', fst (ext s') = fst (ext s) -> Inv (snd (ext s')) (mem s') -> Q (next nm) s') ->
  wp no_exit (ao_resolve_function nm) Q s.
Proof.
  intros I HQ. apply wp_lift. eapply wp_mono; [by apply (ln_next _ _ _ L nm (St _ _ _))|].
  intros p [m e x] [-> I']. by apply HQ.
Qed.

Lemma wp_resolve_default nm (Q : Z -> st (scanf_globals * X) -> Prop) s :
  Inv (snd (ext s)) (mem s) ->
  (forall s', fst (ext s') = fst (ext s) -> Inv (snd (ext s')) (mem s') -> Q (dflt nm) s') ->
  wp no_exit (ao_resolve_default_symbol nm) Q s.
Proof.
  intros I HQ. apply wp_lift. eapply wp_mono; [by apply (ln_default _ _ _ L nm (St _ _ _))|].
  intros p [m e x] [-> I']. by apply HQ.
Qed.

Lemma resolve_scanf_wp (s : st (scanf_globals * X)) :
  Inv (snd (ext s)) (mem s) ->
  wp no_exit ao_resolve_scanf_symbols (fun _ s' =>
    fst (ext s') = resolved_globals next dflt (g_ao_scanf_once (fst (ext s))) /\
    Inv (snd (ext s')) (mem s')) s.
Proof.
  intros I. unfold ao_resolve_scanf_symbols.
  do 8 (apply wp_bind, wp_resolve_function; [done|]; intros ? ? ?).
  do 3 (apply wp_bind, wp_resolve_default; [done|]; intros ? ? ?).
  apply wp_bind, wp_get_scanf. unfold wp, put_scanf. cbn [ext mem fst snd].
  split; [|done]. unfold resolved_globals. f_equal. congruence.
Qed.

Lemma ensure_scanf_wp (s : st (scanf_globals * X)) :
  fst (ext s) = initial_scanf_globals -> Inv (snd (ext s)) (mem s) ->
  wp no_exit ao_ensure_scanf_symbols (fun _ s' =>
    fst (ext s') = resolved_globals next dflt true /\ Inv (snd (ext s')) (mem s')) s.
Proof.
  intros Hg I. unfold ao_ensure_scanf_symbols. apply wp_bind, wp_get_scanf. rewrite Hg.
  cbn [g_ao_scanf_once initial_scanf_globals]. apply wp_bind.
  eapply wp_mono; [by apply resolve_scanf_wp|]. intros _ s' [Hg' I'].
  apply wp_bind, wp_get_scanf. unfold wp, put_scanf. cbn [ext mem fst snd].
  by rewrite Hg', Hg.
Qed.

Lemma wrap_null_wp K source format ap (s : st (scanf_globals * X)) :
  fst (ext s) = initial_scanf_globals -> Inv (snd (ext s)) (mem s) ->
  wp no_exit (wrap_common K 0 source format ap) (fun r s' => r = EOF /\ errno s' = ENOSYS /\
    fst (ext s') = resolved_globals next dflt true /\ Inv (snd (ext s')) (mem s')) s.
Proof.
  intros Hg I. unfold wrap_common. apply wp_bind.
  eapply wp_mono; [by apply ensure_scanf_wp|]. intros _ s' [Hg' I'].
  apply wp_bind, wp_set_errno, wp_ret. by split_and!.
Qed.

End Resolution.
End Entries.

(** An entry point is [wrap_common] of its kind and source, with a null function. *)
Ltac head_of t := lazymatch t with ?f _ => head_of f | _ => t end.
Ltac entry_kind K src Hg :=
  solve [exists K, src;
    lazymatch goal with |- ?e = _ => let h := head_of e in unfold h end;
    unfold bind at 1, get_scanf; rewrite Hg; reflexivity].

(** ** Properties *)

Section Props.
Context {X : Type} `{!Allocator X} `{!AllocatorLaws X} `{!ScanfWorld X} `{!BridgeLaws X}.
#[local] Existing Instance lift_allocator.
#[local] Existing Instance lift_allocator_laws.

(** C22: a call through a wrapper whose symbols are resolved parses the format,
    lets the C library scan, and returns what it returned.  Each [%m] result among
    those the scanner counted is null, owned by the preloaded allocator (the scanner may
    get its memory there), moved to a block that allocator owns with the same contents
    (the original freed and the caller's pointer updated), or left alone because memory
    ran out or the conversion is a counted narrow string of a wide function; if the plan
    itself could not be made nothing moves.  The pointers of the conversions the scanner
    did not count may hold anything: they are not looked at.  Afterwards the allocator
    owns what it owned before, what the scanner got from it, and the blocks the moved
    results point to: the plan is not leaked. *)
Theorem scanf_call K R real_fn source format its ap new g (s : st (scanf_globals * X)) :
  al_inv (ext s) (mem s) -> fst (ext s) = g -> g_ao_scanf_once g = true ->
  bridge_there g -> real_fn <> 0 ->
  holds (mem s) format (chars_bytes K (print_format its)) ->
  Forall (char_ok K) (concat (map item_chars its)) -> Forall item_ok its ->
  Z.of_nat (length its) < 2 ^ 31 -> Forall (fun a => 0 <= a <= SIZE_MAX) ap ->
  format_records K its ap 0 = Some new ->
  scan_contract R g new s (lift (libc_scan real_fn source format ap)) ->
  wp al_exits (wrap_common K real_fn source format ap) (wrap_post K format ap R g new s) s.
Proof. apply wrap_wp. Qed.

(** C23: the first call of any entry point fails: every entry point passes the
    pointer to the real function before the call that resolves it, so from the
    initial state it returns [EOF] with [ENOSYS] whatever the linker finds, and
    neither the format is read nor the scanner called (both are arbitrary here);
    only the later calls see the resolved pointers. *)
Theorem first_call_fails Inv next dflt source format ap e (s : st (scanf_globals * X)) :
  linker Inv next dflt -> fst (ext s) = initial_scanf_globals -> Inv (snd (ext s)) (mem s) ->
  e ∈ entry_points source format ap ->
  wp no_exit e (fun r s' => r = EOF /\ errno s' = ENOSYS /\
    fst (ext s') = resolved_globals next dflt true /\ Inv (snd (ext s')) (mem s')) s.
Proof.
  intros L Hg I He.
  assert (HK : exists K src, e s = wrap_common K 0 src format ap s).
  { unfold entry_points in He.
    repeat (apply elem_of_cons in He as [->|He];
      [entry_kind Narrow source Hg || entry_kind Wide source Hg ||
       entry_kind Narrow stdin Hg || entry_kind Wide stdin Hg|]).
    by apply elem_of_nil in He. }
  destruct HK as (K & src & HK). unfold wp. rewrite HK. by apply (wrap_null_wp Inv next dflt L).
Qed.

(** C24: on every well-formed format the parser computes the list of records the
    grammar prescribes (destination, ordinal among the assignments, mode and
    width of each [m] conversion that has a destination), in the growing array of
    the plan; if an allocation fails it holds a prefix, [errno] is [ENOMEM] and
    the parser says so. *)
Theorem plan_is_format_records K format its ap new (s : st (scanf_globals * X)) :
  al_inv (ext s) (mem s) -> holds (mem s) format (chars_bytes K (print_format its)) ->
  Forall (char_ok K) (concat (map item_chars its)) -> Forall item_ok its ->
  Z.of_nat (length its) < 2 ^ 32 -> format_records K its ap 0 = Some new ->
  wp al_exits (parse_format K format ap (ScanfPlan 0 0 0))
    (pushed (mem s) (al_live (ext s)) (fst (ext s)) [] new) s.
Proof. intros I Hm Hc Hi Hl Hnew. by eapply parse_format_wp; [apply plan_start| |..]. Qed.

(** C25: the parser of one conversion inverts the printer of the grammar, in both
    families: target, width, [m], length and conversion letter come back with the
    pointer the target selects and the arguments left, and the cursor stops at
    the text after the letter. *)
Theorem conversion_roundtrip K d q ap dest ap' :
  directive_ok d -> directive_arg d ap = Some (dest, ap') ->
  parse_conversion K (directive_chars d ++ q) ap =
    Some (Some (Conversion (is_suppressed d) dest (saturate (decimal (d_width d))) (d_alloc d)
                  (if is_long d then AO_SIZE_L else AO_SIZE_DEF) (spec_letter (d_spec d)),
                if d_spec d =? ch_lbracket then d_set d ++ ch_rbracket :: q else q), ap').
Proof. apply parse_conversion_printed. Qed.

(** C26: a width is the number its digits denote, or [SIZE_MAX] when that does not
    fit: the multiplication never wraps around, whatever the number of digits. *)
Theorem width_saturates K ds c p :
  Forall digit ds -> ~ digit c ->
  parse_width K (ds ++ c :: p) 0 =
    Some (if decimal ds <=? MAX_WIDTH then decimal ds else SIZE_MAX, c :: p).
Proof. apply parse_width_digits. Qed.

(** C27: the parser terminates on every text, well-formed or not: its fuel is
    enough, so it returns, lets the allocator end the process, or reads past the
    text or the arguments. *)
Theorem parse_terminates K format ap p (s : st (scanf_globals * X)) :
  al_inv (ext s) (mem s) -> read_format K format s = Ret (p, s) ->
  Z.of_nat (length p) < 2 ^ 56 -> parse_format K format ap (ScanfPlan 0 0 0) s <> Diverge.
Proof. apply parse_format_ends. Qed.

(** C28: one result is rehomed: a block the preloaded allocator does not own is
    copied byte for byte to a new block it owns, the caller's slot points to the
    copy, the original is given back to the C library, and nothing else changes;
    null and owned pointers stay, and so does the result when there is no memory
    or the mode is not supported. *)
Theorem rehome_record_moves r original bs (s : st (scanf_globals * X)) :
  al_inv (ext s) (mem s) -> bridge_there (fst (ext s)) -> slot_ok r original bs s ->
  wp al_exits (ao_rehome_scanf_record r) (fun _ s' => rehomed r original bs s s') s.
Proof. apply rehome_record_wp. Qed.

(** Parsing and resetting is balanced: whether or not the plan could be
    completed, resetting it leaves the allocator with the blocks it had, and the
    caller's memory as it was. *)
Theorem plan_balanced K format its ap new (s : st (scanf_globals * X)) :
  al_inv (ext s) (mem s) -> holds (mem s) format (chars_bytes K (print_format its)) ->
  Forall (char_ok K) (concat (map item_chars its)) -> Forall item_ok its ->
  Z.of_nat (length its) < 2 ^ 32 -> format_records K its ap 0 = Some new ->
  wp al_exits
    (let* ' (_, plan) := parse_format K format ap (ScanfPlan 0 0 0) in ao_scanf_plan_reset plan)
    (fun plan s' => plan = ScanfPlan 0 0 0 /\ al_inv (ext s') (mem s') /\
       fst (ext s') = fst (ext s) /\ al_live (ext s') = al_live (ext s) /\
       forall x b, mem s !! x = Some b -> mem s' !! x = Some b) s.
Proof.
  intros I Hm Hc Hi Hl Hnew. apply wp_bind. eapply wp_mono.
  { by eapply (parse_format_wp (mem s) (al_live (ext s)) (fst (ext s))); [apply plan_start| |..]. }
  intros [o plan] s1 [(_ & P)|(_ & _ & rs & _ & P)]; by eapply reset_wp.
Qed.

End Props.

(** ** Witnesses *)

Section Witnesses.
#[local] Instance scan_allocator : Allocator (scanf_globals * (globals * arena)) := lift_allocator.
#[local] Instance scan_allocator_laws : AllocatorLaws (scanf_globals * (globals * arena)) :=
  lift_allocator_laws.

Lemma scan_items_ok : Forall item_ok scan_items.
Proof.
  assert (H : item_ok (Directed (Directive NextArg [] true LenNone ch_s []))).
  { split_and!; [exact I|constructor| |discriminate].
    unfold spec_ok, digit. cbn [d_spec]. unfold ch_s. split_and!; [discriminate..|lia|].
    by apply (bool_decide_unpack _). }
  constructor; [exact H|]. constructor; [exact H|constructor].
Qed.

Lemma scan_chars_ok : Forall (char_ok Narrow) (concat (map item_chars scan_items)).
Proof. repeat constructor. Qed.

Lemma scan_args_ok : Forall (fun a => 0 <= a <= SIZE_MAX) scan_args.
Proof. repeat constructor; vm_compute; discriminate. Qed.

Lemma scan_start_inv : al_inv (ext scan_start) (mem scan_start).
Proof. exact (scan_memory_inv 0). Qed.

Lemma scan_start_format : holds (mem scan_start) scan_format (chars_bytes Narrow (print_format scan_items)).
Proof. exact scan_memory_format. Qed.

Lemma scan_bridge_there : bridge_there scan_globals.
Proof. repeat split; discriminate. Qed.

Lemma scan_fn_found : 22 <> 0.
Proof. discriminate. Qed.

Lemma scan_fn_owning : 25 <> 0.
Proof. discriminate. Qed.

(** Both scanners count one of the two conversions. *)
Lemma scanf_call_witness :
  wp (al_exits (X := scanf_globals * (globals * arena)))
    (wrap_common Narrow 22 5 scan_format scan_args)
    (wrap_post Narrow scan_format scan_args scan_answer scan_globals scan_records scan_start) scan_start /\
  wp (al_exits (X := scanf_globals * (globals * arena)))
    (wrap_common Narrow 25 5 scan_format scan_args)
    (wrap_post Narrow scan_format scan_args scan_answer scan_globals scan_records scan_start) scan_start.
Proof.
  split.
  - exact (scanf_call Narrow scan_answer 22 5 scan_format scan_items scan_args
      scan_records scan_globals scan_start scan_start_inv eq_refl eq_refl
      scan_bridge_there scan_fn_found scan_start_format scan_chars_ok scan_items_ok eq_refl scan_args_ok eq_refl
      (proj1 (simple_scan_contracts 5 scan_format))).
  - exact (scanf_call Narrow scan_answer 25 5 scan_format scan_items scan_args
      scan_records scan_globals scan_start scan_start_inv eq_refl eq_refl
      scan_bridge_there scan_fn_owning scan_start_format scan_chars_ok scan_items_ok eq_refl scan_args_ok eq_refl
      (proj2 (simple_scan_contracts 5 scan_format))).
Defined.

(** The calls run: the first result ends in a block the registry tracks (moved, or
    allocated there by the scanner), the stale second pointer is left as it was. *)
Definition scan_outcome (fn : Z) : option (Z * bool * option Z) :=
  match wrap_common Narrow fn 5 scan_format scan_args scan_start with
  | Ret (r, s') =>
      let pointer a := le_decode <$> load_bytes (mem s') a 8 in
      Some (r, match pointer scan_slot with
               | Some p => bool_decide (tracked (fst (snd (ext s'))) !! p = Some 3)
               | None => false
               end, pointer second_slot)
  | _ => None
  end.

Example scan_outcomes : map scan_outcome [22; 25] = [Some (1, true, Some 12345); Some (1, true, Some 12345)].
Proof. vm_compute. reflexivity. Qed.

Lemma simple_linker :
  linker (X := globals * arena) (fun x m => al_inv x m) simple_next simple_default.
Proof. split; intros nm s H; by apply wp_ret. Qed.

Definition scan_unresolved : st (scanf_globals * (globals * arena)) :=
  St scan_memory 0 (initial_scanf_globals, (ready_globals 0, empty_arena (2 ^ 20) (2 ^ 21))).

Lemma first_call_fails_witness :
  wp no_exit (ao_plain_sscanf 5 scan_format scan_args) (fun r s' => r = EOF /\ errno s' = ENOSYS /\
    fst (ext s') = resolved_globals simple_next simple_default true /\
    mock_inv (snd (ext s')) (mem s')) scan_unresolved.
Proof.
  apply (first_call_fails (X := globals * arena) (fun x m => al_inv x m) simple_next simple_default
    5 scan_format scan_args _ scan_unresolved simple_linker eq_refl (scan_memory_inv 0)).
  do 10 right. left.
Defined.

Lemma plan_is_format_records_witness :
  wp (al_exits (X := scanf_globals * (globals * arena)))
    (parse_format Narrow scan_format scan_args (ScanfPlan 0 0 0))
    (pushed (mem scan_start) (al_live (ext scan_start)) scan_globals [] scan_records) scan_start.
Proof.
  exact (plan_is_format_records Narrow scan_format scan_items scan_args scan_records scan_start
    scan_start_inv scan_start_format scan_chars_ok scan_items_ok eq_refl eq_refl).
Defined.

(** The directive [%2$3m[^]a]] with two arguments. *)
Definition set_directive : directive :=
  Directive (Positional [50]) [51] true LenNone ch_lbracket [ch_caret; ch_rbracket; 97].

Lemma set_directive_ok : directive_ok set_directive.
Proof.
  split_and!.
  - split_and!; [discriminate|repeat constructor; discriminate|done|done].
  - repeat constructor; discriminate.
  - unfold spec_ok, digit. cbn [d_spec set_directive]. unfold ch_lbracket. split_and!; [discriminate..|lia|].
    by apply (bool_decide_unpack _).
  - intros _. exists true, true, [97]. split; [done|]. split_and!; [|done..].
    repeat constructor; discriminate.
Qed.

Lemma conversion_roundtrip_witness :
  parse_conversion Wide (directive_chars set_directive ++ [0]) [100; 200] =
    Some (Some (Conversion false 200 3 true AO_SIZE_DEF ch_lbracket,
                [ch_caret; ch_rbracket; 97; ch_rbracket; 0]), [100; 200]).
Proof. exact (conversion_roundtrip Wide set_directive [0] [100; 200] 200 [100; 200] set_directive_ok eq_refl). Defined.

(** Thirty nines. *)
Lemma width_saturates_witness :
  parse_width Narrow (replicate 30 57 ++ [ch_m; 0]) 0 = Some (SIZE_MAX, [ch_m; 0]).
Proof.
  apply (width_saturates Narrow (replicate 30 57) ch_m [0]).
  - apply Forall_replicate. split; discriminate.
  - unfold digit, ch_m. lia.
Defined.

Lemma scan_read_format : read_format Narrow scan_format scan_start = Ret (print_format scan_items, scan_start).
Proof.
  destruct (wp_returns (read_format Narrow scan_format) (fun p s' => p = print_format scan_items /\ s' = scan_start) scan_start)
    as (p & s' & H & -> & ->); [|exact H].
  eapply (wp_read_format _ Narrow scan_format (concat (map item_chars scan_items)));
    [exact scan_start_format|exact scan_chars_ok|split; reflexivity].
Qed.

Lemma parse_terminates_witness :
  parse_format Narrow scan_format scan_args (ScanfPlan 0 0 0) scan_start <> Diverge.
Proof.
  exact (parse_terminates Narrow scan_format scan_args (print_format scan_items) scan_start
    scan_start_inv scan_read_format eq_refl).
Defined.

(** The slot points to the block of ten bytes, which the registry does not know. *)
Definition foreign_memory : gmap Z Z := write busy_memory scan_slot (le_encode 8 simple_block).
Definition foreign_start : st (scanf_globals * (globals * arena)) :=
  St foreign_memory 0 (scan_globals, (ready_globals 0, busy_arena)).

Lemma foreign_start_inv : al_inv (ext foreign_start) (mem foreign_start).
Proof.
  change (mock_inv (ready_globals 0, busy_arena) foreign_memory). unfold foreign_memory.
  apply heap_write_inv; [|vm_compute; discriminate..].
  exact (proj1 (mock_inv_behind (ready_globals 0) _ _ simple_block 10 busy_arena busy_memory
    (simple_ready_inv 0) busy_heap busy_allocated)).
Qed.

Lemma foreign_slot_ok :
  slot_ok scan_record simple_block simple_text foreign_start.
Proof.
  split.
  - apply holds_write.
  - split; vm_compute; discriminate.
  - right; right. exists 10. split_and!.
    + exact (proj2 (mock_inv_behind (ready_globals 0) _ _ simple_block 10 busy_arena busy_memory
        (simple_ready_inv 0) busy_heap busy_allocated)).
    + discriminate.
    + left. vm_compute. discriminate.
    + exists (removelast simple_text). split; [reflexivity|]. split; [|repeat constructor; discriminate].
      apply holds_write_other; [right; vm_compute; discriminate|]. apply holds_write.
Qed.

Lemma rehome_record_moves_witness :
  wp (al_exits (X := scanf_globals * (globals * arena))) (ao_rehome_scanf_record scan_record)
    (fun _ s' => rehomed scan_record simple_block simple_text foreign_start s') foreign_start.
Proof.
  exact (rehome_record_moves scan_record simple_block simple_text foreign_start foreign_start_inv
    scan_bridge_there foreign_slot_ok).
Defined.

Lemma plan_balanced_witness :
  wp (al_exits (X := scanf_globals * (globals * arena)))
    (let* ' (_, plan) := parse_format Narrow scan_format scan_args (ScanfPlan 0 0 0) in
     ao_scanf_plan_reset plan)
    (fun plan s' => plan = ScanfPlan 0 0 0 /\ al_inv (ext s') (mem s') /\
       fst (ext s') = fst (ext scan_start) /\ al_live (ext s') = al_live (ext scan_start) /\
       forall x b, mem scan_start !! x = Some b -> mem s' !! x = Some b) scan_start.
Proof.
  exact (plan_balanced Narrow scan_format scan_items scan_args scan_records scan_start
    scan_start_inv scan_start_format scan_chars_ok scan_items_ok eq_refl eq_refl).
Defined.

End Witnesses.
