(* ===== verification/Dirent.v ===== *)
(** * Directory scan (src/dirent_overrides.c)

    [scandir] and [scandir64] against the allocator interface and a directory
    stream.  The stream is the one the call opens: the entries it still delivers,
    each with the address the C library puts it at, and how the stream ends and
    closes.  [opendir], the selection callback and [qsort] are parameters. *)
From stdpp Require Import sorting.
From S2P Require Import Prelude CMem CCmd CLib Alloc SimpleHeap.
#[local] Set Warnings "-clear-no-such-hyp".

(** ** Directory streams (the standard library's) *)

Record dirstream := Dirstream {
  d_entries : list (Z * list Z);  (** address and bytes of each entry *)
  d_error : Z;                    (** 0, or the [errno] of the read that fails after them *)
  d_close : Z;                    (** 0, or the [errno] of [closedir] *)
  d_open : bool
}.

(** What is not in the sources: [opendir] of a path, a call through the pointer
    [sel] with an entry, and [qsort] of an array with the comparison [cmp]. *)
Class DirWorld (X : Type) := {
  opendir : Z -> C (dirstream * X) Z;
  call_sel : Z -> Z -> C (dirstream * X) Z;
  qsort : Z -> Z -> Z -> Z -> C (dirstream * X) unit
}.

Section Streams.
Context {X : Type}.

Definition get_dir : C (dirstream * X) dirstream := fun s => Ret (fst (ext s), s).
Definition put_dir (d : dirstream) : C (dirstream * X) unit := fun s =>
  Ret (tt, St (mem s) (errno s) (d, snd (ext s))).

(** The next entry, in the library's buffer: valid until the next call.  At the end
    [errno] is left alone; a read error sets it. *)
Definition readdir (dir : Z) : C (dirstream * X) Z :=
  let* d := get_dir in
  if negb (d_open d) then undef
  else
    match d_entries d with
    | (a, bs) :: rest =>
        do* put_dir (Dirstream rest (d_error d) (d_close d) true) in
        do* store a bs in
        ret a
    | [] => do* (if d_error d =? 0 then ret tt else set_errno (d_error d)) in ret 0
    end.

(** The two structures coincide on LP64. *)
Definition readdir64 (dir : Z) : C (dirstream * X) Z := readdir dir.

Definition closedir (dir : Z) : C (dirstream * X) Z :=
  let* d := get_dir in
  if negb (d_open d) then undef
  else
    do* put_dir (Dirstream (d_entries d) (d_error d) (d_close d) false) in
    if d_close d =? 0 then ret 0 else do* set_errno (d_close d) in ret (-1).

End Streams.

(** ** The program *)

(** The offset of [d_reclen] in [struct dirent]. *)
Definition off_d_reclen : Z := 16.

Section Definitions.
Context {X : Type} `{!Allocator X} `{!DirWorld X}.
#[local] Existing Instance lift_allocator.

(** [unsigned short] *)
Definition load_u16 (a : Z) : C (dirstream * X) Z :=
  let* bs := load a 2 in ret (le_decode bs).

(** Room for one more pointer: the array and its capacity, or nothing when it
    cannot grow. *)
Definition grow_names (names count capacity : Z) : C (dirstream * X) (option (Z * Z)) :=
  if capacity <=? count then
    let capacity := u64 (u64 (2 * capacity) + 1) in
    if SIZE_MAX / 8 <? capacity then ret None
    else
      let* tmp := al_realloc names (u64 (capacity * 8)) in
      if tmp =? 0 then ret None else ret (Some (tmp, capacity))
  else ret (Some (names, capacity)).

(** The loop: one turn consumes an entry.  The result is the array and the number
    of its entries. *)
Fixpoint scan_loop (fuel : nat) (next : C (dirstream * X) Z) (sel names count capacity : Z) :
    C (dirstream * X) (Z * Z) :=
  match fuel with
  | O => diverge
  | S fuel' =>
      do* set_errno 0 in
      let* entry := next in
      if entry =? 0 then ret (names, count)
      else
        let* selected := (if sel =? 0 then ret true
                          else let* r := call_sel sel entry in ret (negb (r =? 0))) in
        if negb selected then scan_loop fuel' next sel names count capacity
        else
          let* grown := grow_names names count capacity in
          match grown with
          | None => ret (names, count)
          | Some (names, capacity) =>
              let* reclen := load_u16 (entry + off_d_reclen) in
              let* p := al_malloc reclen in
              do* store_u64 (names + 8 * count) p in
              let* p := load_u64 (names + 8 * count) in
              if p =? 0 then ret (names, count)
              else
                let* reclen := load_u16 (entry + off_d_reclen) in
                do* memcpy p entry reclen in
                scan_loop fuel' next sel names (u64 (count + 1)) capacity
          end
  end.

(** [while (count > 0) free(names[--count])] *)
Fixpoint free_names (count : nat) (names : Z) : C (dirstream * X) unit :=
  match count with
  | O => ret tt
  | S count' =>
      let* p := load_u64 (names + 8 * Z.of_nat count') in
      do* al_free p in
      free_names count' names
  end.

(** The tail of the function: release everything, or sort and return the array. *)
Definition scan_finish (old_errno res cmp names count : Z) : C (dirstream * X) Z :=
  let* e := get_errno in
  if negb (e =? 0) then
    do* free_names (Z.to_nat count) names in
    do* al_free names in
    ret (-1)
  else
    do* set_errno old_errno in
    do* (if negb (cmp =? 0) then qsort names count 8 cmp else ret tt) in
    do* store_u64 res names in
    ret (s32 count).

(** The body the two functions share, with the reader each uses. *)
Definition scan_common (next : Z -> C (dirstream * X) Z) (path res sel cmp : Z) :
    C (dirstream * X) Z :=
  let* dir := opendir path in
  let* old_errno := get_errno in
  if dir =? 0 then ret (-1)
  else
    let* d := get_dir in
    let* ' (names, count) := scan_loop (S (length (d_entries d))) (next dir) sel 0 0 0 in
    do* closedir dir in
    scan_finish old_errno res cmp names count.

Definition scandir (path res sel cmp : Z) : C (dirstream * X) Z := scan_common readdir path res sel cmp.
Definition scandir64 (path res sel cmp : Z) : C (dirstream * X) Z := scan_common readdir64 path res sel cmp.

End Definitions.

(** ** Blocks a function owns

    [owned m0 live0 bs live]: the live blocks are those of [live0] and the blocks
    [bs] (address and size), which lie in memory [m0] does not map. *)
Record owned (m0 live0 : gmap Z Z) (bs : list (Z * Z)) (live : gmap Z Z) : Prop := {
  own_live : live = list_to_map bs ∪ live0;
  own_nodup : NoDup bs.*1;
  own_new : Forall (fun b => live0 !! b.1 = None) bs;
  own_fresh : Forall (fun b => forall x, b.1 <= x < b.1 + b.2 -> m0 !! x = None) bs
}.

#[export] Instance owned_proper m0 live0 : Proper ((≡ₚ) ==> eq ==> iff) (owned m0 live0).
Proof.
  assert (H : forall bs bs' live, bs ≡ₚ bs' -> owned m0 live0 bs live -> owned m0 live0 bs' live).
  { intros bs bs' live P [Hl Hn Hw Hf]. split.
    - rewrite Hl. f_equal. by apply list_to_map_proper.
    - by rewrite <- P.
    - by rewrite <- P.
    - by rewrite <- P. }
  intros bs bs' P live ? <-. split; by apply H.
Qed.

Lemma owned_nil m0 live0 : owned m0 live0 [] live0.
Proof. split; [by rewrite list_to_map_nil, (left_id_L ∅ (∪))|constructor..]. Qed.

Lemma owned_lookup m0 live0 bs live p n : owned m0 live0 bs live -> (p, n) ∈ bs -> live !! p = Some n.
Proof.
  intros [-> Hn _ _] H. apply lookup_union_Some_l. by apply elem_of_list_to_map.
Qed.

Lemma owned_cons m0 live0 bs live p n :
  owned m0 live0 bs live -> live !! p = None -> (forall x, p <= x < p + n -> m0 !! x = None) ->
  owned m0 live0 ((p, n) :: bs) (<[p := n]> live).
Proof.
  intros [-> Hn Hw Hf] Hp Hx. apply lookup_union_None in Hp as [Hp1 Hp2]. split.
  - by rewrite list_to_map_cons, insert_union_l.
  - apply list.NoDup_cons. split; [|done]. by apply not_elem_of_list_to_map.
  - by constructor.
  - by constructor.
Qed.

Lemma owned_delete m0 live0 bs live p n :
  owned m0 live0 ((p, n) :: bs) live -> owned m0 live0 bs (delete p live).
Proof.
  intros [-> Hn Hw Hf]. apply list.NoDup_cons in Hn as [Hp Hn].
  apply list.Forall_cons in Hw as [Hp0 Hw]. apply list.Forall_cons in Hf as [_ Hf]. cbn in Hp, Hp0.
  split; [|done..]. rewrite list_to_map_cons, delete_union, delete_insert_id.
  - by rewrite delete_id.
  - by apply not_elem_of_list_to_map.
Qed.

Lemma owned_fresh m0 live0 bs live p n x :
  owned m0 live0 bs live -> (p, n) ∈ bs -> p <= x < p + n -> m0 !! x = None.
Proof.
  intros O H. pose proof (own_fresh _ _ _ _ O) as F. rewrite list.Forall_forall in F.
  exact (F _ H x).
Qed.

(** ** The state of a scan *)

Section Specs.
Context {X : Type} `{!Allocator X} `{!AllocatorLaws X} `{!DirWorld X}.
#[local] Existing Instance lift_allocator.
#[local] Existing Instance lift_allocator_laws.
Abbreviation W := (dirstream * X)%type.

(** The library's buffer, where entries are delivered. *)
Context (buf size : Z).

(** An entry: a [struct dirent] in the buffer that says its own length. *)
Record entry_ok (e : Z * list Z) : Prop := {
  ent_addr : 0 < e.1 /\ buf <= e.1 /\ e.1 + Z.of_nat (length e.2) <= buf + size;
  ent_length : 24 <= Z.of_nat (length e.2) < 65536;
  ent_reclen : take 2 (drop 16 e.2) = le_encode 2 (Z.of_nat (length e.2))
}.

(** The caller's memory, the buffer apart, is unchanged. *)
Definition kept (m0 m : gmap Z Z) : Prop :=
  forall x b, m0 !! x = Some b -> ~ (buf <= x < buf + size) -> m !! x = Some b.

Definition lengths (bss : list (list Z)) : list Z := map (fun bs => Z.of_nat (length bs)) bss.

(** The array of pointers, and the copies of the entries. *)
Definition names_block (names cap : Z) : list (Z * Z) :=
  if names =? 0 then [] else [(names, 8 * cap)].
Definition scan_blocks (names cap : Z) (ps : list Z) (bss : list (list Z)) : list (Z * Z) :=
  names_block names cap ++ zip ps (lengths bss).

(** [extra]: blocks allocated and not yet in the array. *)
Record scanning (s0 s : st W) (extra : list (Z * Z)) (names cap : Z) (ps : list Z)
    (bss : list (list Z)) : Prop := {
  sc_inv : al_inv (ext s) (mem s);
  sc_kept : kept (mem s0) (mem s);
  sc_buf : mapped (mem s) buf size;
  sc_owned : owned (mem s0) (al_live (ext s0)) (extra ++ scan_blocks names cap ps bss) (al_live (ext s));
  sc_names : holds (mem s) names (words ps);
  sc_entries : Forall2 (holds (mem s)) ps bss;
  sc_cap : Z.of_nat (length ps) <= cap < 2 ^ 61;
  sc_null : names = 0 -> cap = 0
}.

Lemma scan_names_elem extra names cap ps bss :
  names <> 0 -> (names, 8 * cap) ∈ extra ++ scan_blocks names cap ps bss.
Proof.
  intros H. unfold scan_blocks, names_block. destruct (Z.eqb_spec names 0); [done|]. set_solver.
Qed.

Lemma scan_entry_elem extra names cap ps bss (i : nat) p bs :
  ps !! i = Some p -> bss !! i = Some bs ->
  (p, Z.of_nat (length bs)) ∈ extra ++ scan_blocks names cap ps bss.
Proof.
  intros Hp Hb. apply elem_of_app. right. apply elem_of_app. right.
  apply list_elem_of_lookup. exists i. apply lookup_zip_Some. split; [done|].
  unfold lengths. by rewrite list_lookup_fmap, Hb.
Qed.

Section Scan.
Context (s0 : st W) (Hbuf0 : mapped (mem s0) buf size).

(** A block of the scan is apart from what the caller had mapped. *)
Lemma scan_apart s extra names cap ps bss p n x :
  scanning s0 s extra names cap ps bss -> (p, n) ∈ extra ++ scan_blocks names cap ps bss ->
  p <= x < p + n -> mem s0 !! x = None.
Proof. intros S. by apply owned_fresh with (1 := sc_owned _ _ _ _ _ _ _ S). Qed.

(** The array and the copies depend on the bytes of their blocks only. *)
Lemma scan_contents s m' extra names cap ps bss :
  scanning s0 s extra names cap ps bss ->
  (forall p n x, (p, n) ∈ scan_blocks names cap ps bss -> p <= x < p + n -> m' !! x = mem s !! x) ->
  holds m' names (words ps) /\ Forall2 (holds m') ps bss.
Proof.
  intros S B. split.
  - eapply holds_agree; [|apply S]. intros x Hx. rewrite length_words in Hx.
    pose proof (sc_cap _ _ _ _ _ _ _ S) as Hc.
    assert (Hn : names <> 0) by (intros Hn; apply (sc_null _ _ _ _ _ _ _ S) in Hn; lia).
    eapply (B names (8 * cap)); [|lia]. exact (scan_names_elem [] _ _ _ _ Hn).
  - pose proof (sc_entries _ _ _ _ _ _ _ S) as F. rewrite Forall2_same_length_lookup in F |- *.
    destruct F as [Hl F]. split; [done|]. intros i p bs Hp Hb.
    eapply holds_agree; [|by eapply F]. intros x Hx.
    eapply B; [exact (scan_entry_elem [] names cap _ _ _ _ _ Hp Hb)|done].
Qed.

Lemma scanning_move s s' extra names cap ps bss :
  scanning s0 s extra names cap ps bss -> al_inv (ext s') (mem s') ->
  al_live (ext s') = al_live (ext s) -> kept (mem s0) (mem s') -> mapped (mem s') buf size ->
  (forall p n x, (p, n) ∈ scan_blocks names cap ps bss -> p <= x < p + n ->
     mem s' !! x = mem s !! x) ->
  scanning s0 s' extra names cap ps bss.
Proof.
  intros S I L K M B. destruct (scan_contents _ _ _ _ _ _ _ S B) as [Hn He].
  split; [done..|by rewrite L; apply S|done|done|apply S|apply S].
Qed.

(** An entry delivered in the buffer, and any change of the world that leaves the
    allocator alone. *)
Lemma scanning_buffer s extra names cap ps bss a bs e d :
  scanning s0 s extra names cap ps bss -> buf <= a -> a + Z.of_nat (length bs) <= buf + size ->
  scanning s0 (St (write (mem s) a bs) e (d, snd (ext s))) extra names cap ps bss.
Proof.
  intros S Ha He.
  assert (Hw : mapped (mem s) a (Z.of_nat (length bs))) by (eapply mapped_sub; [apply S|lia..]).
  eapply scanning_move; [exact S| |done| | |].
  - eapply (al_inv_dom (X := X)); [by apply same_dom_write|exact (sc_inv _ _ _ _ _ _ _ S)].
  - intros x b Hx Hn. cbn. rewrite lookup_write_out by lia. by apply (sc_kept _ _ _ _ _ _ _ S).
  - cbn. apply mapped_write, S.
  - intros p n x Hp Hx. cbn. apply lookup_write_out. intros Hin.
    assert (Hin' : (p, n) ∈ extra ++ scan_blocks names cap ps bss) by set_solver.
    pose proof (scan_apart _ _ _ _ _ _ _ _ _ S Hin' Hx) as H0.
    destruct (Hbuf0 x) as [b Hb]; [lia|congruence].
Qed.

Lemma scanning_world s extra names cap ps bss e d :
  scanning s0 s extra names cap ps bss ->
  scanning s0 (St (mem s) e (d, snd (ext s))) extra names cap ps bss.
Proof. intros S. eapply scanning_move; [exact S|apply S|done|apply S|apply S|done]. Qed.

(** Two blocks of the scan do not overlap. *)
Lemma scan_disjoint s extra names cap ps bss p n q k :
  scanning s0 s extra names cap ps bss -> (p, n) ∈ extra ++ scan_blocks names cap ps bss ->
  (q, k) ∈ extra ++ scan_blocks names cap ps bss -> p <> q -> p + n <= q \/ q + k <= p.
Proof.
  intros S Hp Hq Hne.
  eapply (al_live_disjoint (ext s) (mem s)); [apply S| | |done]; (eapply owned_lookup; [apply S|done]).
Qed.

Lemma scan_block_mapped s extra names cap ps bss p n :
  scanning s0 s extra names cap ps bss -> (p, n) ∈ extra ++ scan_blocks names cap ps bss ->
  good_block p n /\ mapped (mem s) p n.
Proof.
  intros S Hp. eapply (al_live_block (ext s) (mem s)); [apply S|]. eapply owned_lookup; [apply S|done].
Qed.

(** The keys of the entries are not that of the array. *)
Lemma scan_keys_differ s extra names cap ps bss p n :
  scanning s0 s extra names cap ps bss -> names <> 0 -> (p, n) ∈ zip ps (lengths bss) -> p <> names.
Proof.
  intros S Hn Hp ->. pose proof (own_nodup _ _ _ _ (sc_owned _ _ _ _ _ _ _ S)) as N.
  unfold scan_blocks, names_block in N. destruct (Z.eqb_spec names 0); [done|].
  rewrite fmap_app in N. apply list.NoDup_app in N as (_ & _ & N). cbn in N.
  apply list.NoDup_cons in N as [N _]. apply N.
  apply list_elem_of_fmap. by exists (names, n).
Qed.

(** An entry is apart from the array. *)
Lemma scan_sep s extra names cap ps bss (i : nat) p bs :
  scanning s0 s extra names cap ps bss -> ps !! i = Some p -> bss !! i = Some bs ->
  p + Z.of_nat (length bs) <= names \/ names + 8 * cap <= p.
Proof.
  intros S Hp Hb.
  assert (Hn : names <> 0).
  { intros Hn. apply (sc_null _ _ _ _ _ _ _ S) in Hn. apply lookup_lt_Some in Hp.
    pose proof (sc_cap _ _ _ _ _ _ _ S). lia. }
  pose proof (scan_entry_elem [] 0 0 _ _ _ _ _ Hp Hb) as He. cbn [app scan_blocks names_block Z.eqb] in He.
  pose proof (scan_keys_differ _ _ _ _ _ _ _ _ S Hn He) as Hne.
  exact (scan_disjoint _ _ _ _ _ _ _ _ _ _ S (scan_entry_elem _ _ _ _ _ _ _ _ Hp Hb)
    (scan_names_elem extra _ cap ps bss Hn) Hne).
Qed.

(** A pointer stored in the next free slot. *)
Lemma scanning_slot s extra names cap ps bss v e :
  scanning s0 s extra names cap ps bss -> Z.of_nat (length ps) < cap ->
  mapped (mem s) (names + 8 * Z.of_nat (length ps)) 8 /\
  scanning s0 (St (write (mem s) (names + 8 * Z.of_nat (length ps)) (le_encode 8 v)) e (ext s))
    extra names cap ps bss.
Proof.
  intros S Hc. assert (Hn : names <> 0) by (intros Hn; apply (sc_null _ _ _ _ _ _ _ S) in Hn; lia).
  pose proof (scan_names_elem extra _ cap ps bss Hn) as Hin.
  destruct (scan_block_mapped _ _ _ _ _ _ _ _ S Hin) as [_ Hm].
  set (a := names + 8 * Z.of_nat (length ps)) in *.
  assert (Ha : mapped (mem s) a 8) by (eapply mapped_sub; [exact Hm|lia..]).
  assert (Hd : same_dom (mem s) (write (mem s) a (le_encode 8 v)))
    by (apply same_dom_write; by rewrite length_le_encode).
  split; [done|]. split; cbn [mem errno ext]; try apply S.
  - eapply al_inv_dom; [exact Hd|apply S].
  - intros x b Hx Hb. rewrite lookup_write_out; [by apply (sc_kept _ _ _ _ _ _ _ S)|].
    rewrite length_le_encode. intros Hr.
    rewrite (scan_apart _ _ _ _ _ _ _ _ x S Hin) in Hx; [done|lia].
  - rewrite <- Hd. apply S.
  - apply holds_write_other; [left; rewrite length_words; lia|apply S].
  - pose proof (sc_entries _ _ _ _ _ _ _ S) as F. rewrite Forall2_same_length_lookup in F |- *.
    destruct F as [Hl F]. split; [done|]. intros i p bs Hp Hb.
    apply holds_write_other; [|by eapply F]. rewrite length_le_encode.
    destruct (scan_sep _ _ _ _ _ _ _ _ _ S Hp Hb); lia.
Qed.

(** Memory the scan does not map was not mapped at its start. *)
Lemma scan_unmapped s extra names cap ps bss x :
  scanning s0 s extra names cap ps bss -> mem s !! x = None -> mem s0 !! x = None.
Proof.
  intros S Hx. destruct (mem s0 !! x) as [b|] eqn:E; [exfalso|done].
  destruct (decide (buf <= x < buf + size)) as [Hb|Hb].
  - destruct (sc_buf _ _ _ _ _ _ _ S x Hb). congruence.
  - pose proof (sc_kept _ _ _ _ _ _ _ S x b E Hb). congruence.
Qed.

Lemma scan_lengths s extra names cap ps bss :
  scanning s0 s extra names cap ps bss -> length ps = length bss.
Proof. intros S. by eapply Forall2_length, sc_entries. Qed.

Lemma scanning_failed s s' names cap ps bss :
  scanning s0 s [] names cap ps bss -> al_inv (ext s') (mem s') -> alloc_failed al_live s s' ->
  scanning s0 s' [] names cap ps bss.
Proof.
  intros S I (Hm & Hl & _). eapply scanning_move; [exact S|done|done|rewrite Hm; apply S..|].
  intros. by rewrite Hm.
Qed.

(** The array moved to a larger block. *)
Lemma scanning_grown s s' names cap ps bss q n :
  scanning s0 s [] names cap ps bss -> names <> 0 -> al_inv (ext s') (mem s') ->
  reallocated (mem s) (al_live (ext s)) names (8 * cap) q (8 * n) (mem s') (al_live (ext s')) ->
  q <> 0 -> cap <= n < 2 ^ 61 ->
  scanning s0 s' [] q n ps bss.
Proof.
  intros S Hn I R Hq Hc. pose proof (scan_names_elem [] _ cap ps bss Hn) as Hin.
  pose proof (fun x => scan_apart _ _ _ _ _ _ _ _ x S Hin) as Hold.
  assert (Hout : forall x, is_Some (mem s0 !! x) -> ~ (names <= x < names + 8 * cap)).
  { intros x [b Hb] Hx. by rewrite Hold in Hb. }
  pose proof (sc_cap _ _ _ _ _ _ _ S) as Hcap.
  split; cbn [app]; [done| | | | | |lia|done].
  - intros x b Hx Hb. eapply reallocated_keeps; [exact R| |by apply Hout].
    by apply (sc_kept _ _ _ _ _ _ _ S).
  - intros x Hx. destruct (sc_buf _ _ _ _ _ _ _ S x Hx) as [b Hb].
    exists b. eapply reallocated_keeps; [exact R|done|by apply Hout, Hbuf0].
  - pose proof (sc_owned _ _ _ _ _ _ _ S) as O. cbn [app] in O. unfold scan_blocks, names_block in *.
    destruct (Z.eqb_spec names 0); [done|]. destruct (Z.eqb_spec q 0); [done|].
    rewrite (realloc_live _ _ _ _ _ _ _ _ R). cbn [app] in *. apply owned_cons.
    + by eapply owned_delete.
    + destruct (realloc_new _ _ _ _ _ _ _ _ R) as [->|Hnew]; [apply lookup_delete_eq|].
      rewrite lookup_delete_None. by right.
    + intros x Hx. destruct (realloc_fresh _ _ _ _ _ _ _ _ R x) as [Hx'|Hx']; [lia| |].
      * by eapply scan_unmapped.
      * by apply Hold.
  - intros i b Hi. pose proof (lookup_lt_Some _ _ _ Hi) as Hlt. pose proof (length_words ps).
    rewrite (realloc_copy _ _ _ _ _ _ _ _ R) by lia. by apply (sc_names _ _ _ _ _ _ _ S).
  - pose proof (sc_entries _ _ _ _ _ _ _ S) as F. rewrite Forall2_same_length_lookup in F |- *.
    destruct F as [Hl F]. split; [done|]. intros i p bs Hp Hb j c Hj.
    pose proof (lookup_lt_Some _ _ _ Hj) as Hlt.
    eapply reallocated_keeps; [exact R|by eapply F|].
    destruct (scan_sep _ _ _ _ _ _ _ _ _ S Hp Hb); lia.
Qed.

(** A block allocated on the side. *)
Lemma scanning_alloc s s' names cap ps bss p n :
  scanning s0 s [] names cap ps bss -> al_inv (ext s') (mem s') ->
  allocated (mem s) (al_live (ext s)) p n (mem s') (al_live (ext s')) ->
  scanning s0 s' [(p, n)] names cap ps bss.
Proof.
  intros S I A. split; try apply S; [done| | | | |].
  - intros x b Hx Hb. eapply allocated_keeps; [exact A|]. by apply (sc_kept _ _ _ _ _ _ _ S).
  - eapply allocated_keeps_mapped; [exact A|apply S].
  - rewrite (alloc_live _ _ _ _ _ _ A). apply owned_cons; [apply S|apply A|].
    intros x Hx. eapply scan_unmapped; [exact S|]. apply A. lia.
  - eapply allocated_holds; [exact A|apply S].
  - eapply list.Forall2_impl; [apply S|]. intros q bs Hq. by eapply allocated_holds.
Qed.

(** An allocation of the scan failed, when it held the array and some copies. *)
Definition out_of_memory : Prop := exists s names cap ps bss q n s',
  scanning s0 s [] names cap ps bss /\
  (al_malloc n s = Ret (0, s') \/ al_realloc q n s = Ret (0, s')).

Lemma grow_names_wp s names cap ps bss :
  scanning s0 s [] names cap ps bss -> Z.of_nat (length ps) < 2 ^ 60 ->
  wp al_exits (grow_names names (Z.of_nat (length ps)) cap) (fun r s' =>
    fst (ext s') = fst (ext s) /\
    (forall x, is_Some (mem s0 !! x) -> mem s' !! x = mem s !! x) /\
    ((r = None /\ errno s' = ENOMEM /\ out_of_memory /\ scanning s0 s' [] names cap ps bss) \/
     (exists names' cap', r = Some (names', cap') /\ Z.of_nat (length ps) < cap' /\
        scanning s0 s' [] names' cap' ps bss))) s.
Proof.
  intros S Hl. unfold grow_names. pose proof (sc_cap _ _ _ _ _ _ _ S) as Hc.
  destruct (Z.leb_spec cap (Z.of_nat (length ps))) as [Hg|Hg].
  2: { apply wp_ret. split_and!; [done|done|]. right. by exists names, cap. }
  assert (Hcap : cap = Z.of_nat (length ps)) by lia.
  rewrite (u64_small (2 * cap)) by zlia. rewrite (u64_small (2 * cap + 1)) by zlia.
  change (SIZE_MAX / 8) with (2 ^ 61 - 1).
  destruct (Z.ltb_spec (2 ^ 61 - 1) (2 * cap + 1)); [lia|].
  rewrite u64_small by zlia. replace ((2 * cap + 1) * 8) with (8 * (2 * cap + 1)) by lia.
  apply wp_bind. destruct (decide (names = 0)) as [->|Hn].
  - pose proof (sc_null _ _ _ _ _ _ _ S eq_refl) as ->. cbn in Hcap.
    assert (ps = []) as -> by (destruct ps; [done|cbn in Hcap; lia]).
    pose proof (scan_lengths _ _ _ _ _ _ S) as Hb. destruct bss; [|done].
    eapply wp_mono; [apply wp_lift_fst, wp_eq; refine (al_realloc_null (X := W) (8 * (2 * 0 + 1)) s (sc_inv _ _ _ _ _ _ _ S) _); zlia|].
    intros q s' [[[I [[-> F]|[Hq A]]] Heq] Hfst]; cbn [Z.eqb].
    + apply wp_ret. split_and!; [done|intros; by rewrite (proj1 F)|].
      left. split_and!; [done|apply F| |by eapply scanning_failed].
      eexists s, _, _, _, _, _, _, s'. split; [exact S|right; exact Heq].
    + destruct (Z.eqb_spec q 0); [done|]. apply wp_ret. split_and!; [done| |].
      { intros x [b Hx]. apply (alloc_frame _ _ _ _ _ _ A). intros Hin.
        rewrite (scan_unmapped _ _ _ _ _ _ x S) in Hx; [done|]. apply A. lia. }
      right. exists q, 1. split_and!; [done|done|].
      destruct (scanning_alloc _ _ _ _ _ _ _ _ S I A) as [? ? ? O ? ? ? _].
      split; [done..| |apply holds_nil|constructor|cbn; lia|done].
      unfold scan_blocks, names_block in *. destruct (Z.eqb_spec q 0); [done|]. exact O.
  - assert (Hlive : al_live (ext s) !! names = Some (8 * cap)).
    { eapply owned_lookup; [apply S|]. by apply scan_names_elem. }
    eapply wp_mono; [apply wp_lift_fst, wp_eq; refine (al_realloc_ok (X := W) names (8 * cap)
      (8 * (2 * cap + 1)) s (sc_inv _ _ _ _ _ _ _ S) Hlive _); zlia|].
    intros q s' [[[I [(-> & _ & F)|[(_ & H0 & _)|[Hq R]]]] Heq] Hfst]; [|lia|]; cbn [Z.eqb].
    + apply wp_ret. split_and!; [done|intros; by rewrite (proj1 F)|].
      left. split_and!; [done|apply F| |by eapply scanning_failed].
      eexists s, _, _, _, _, _, _, s'. split; [exact S|right; exact Heq].
    + destruct (Z.eqb_spec q 0); [done|]. apply wp_ret. split_and!; [done| |].
      { intros x [b Hx].
        pose proof (fun y => scan_apart _ _ _ _ _ _ _ _ y S (scan_names_elem [] _ cap ps bss Hn)) as Hold.
        apply (realloc_frame _ _ _ _ _ _ _ _ R); intros Hin; [|by rewrite Hold in Hx].
        destruct (realloc_fresh _ _ _ _ _ _ _ _ R x) as [Hx'|Hx']; [lia| |by rewrite Hold in Hx].
        by rewrite (scan_unmapped _ _ _ _ _ _ x S Hx') in Hx. }
      right. exists q, (2 * cap + 1). split_and!; [done|lia|].
      eapply scanning_grown; [exact S|done|done|exact R|done|lia].
Qed.

Lemma zip_snoc {A B} (xs : list A) (ys : list B) x y :
  length xs = length ys -> zip (xs ++ [x]) (ys ++ [y]) = zip xs ys ++ [(x, y)].
Proof.
  revert ys. induction xs as [|a xs IH]; intros [|b ys] H; try done; [].
  cbn. f_equal. apply IH. by injection H.
Qed.

(** The copy of an entry joins the array. *)
Lemma scanning_push s names cap ps bss p bs :
  scanning s0 s [(p, Z.of_nat (length bs))] names cap ps bss ->
  holds (mem s) names (words (ps ++ [p])) -> holds (mem s) p bs -> Z.of_nat (length ps) < cap ->
  scanning s0 s [] names cap (ps ++ [p]) (bss ++ [bs]).
Proof.
  intros S Hw Hp Hc. pose proof (scan_lengths _ _ _ _ _ _ S) as Hl.
  pose proof (sc_cap _ _ _ _ _ _ _ S) as Hcap.
  split; try apply S; [|done| |rewrite length_app; cbn; lia].
  - unfold scan_blocks, lengths. rewrite map_app. cbn [map].
    rewrite zip_snoc by (by rewrite length_map). cbn [app].
    rewrite <- Permutation_cons_append, <- Permutation_middle. apply S.
  - apply Forall2_app; [apply S|]. by constructor.
Qed.

Lemma wp_load_reclen a bs (Q : Z -> st W -> Prop) s :
  entry_ok (a, bs) -> holds (mem s) a bs -> Q (Z.of_nat (length bs)) s ->
  wp al_exits (load_u16 (a + off_d_reclen)) Q s.
Proof.
  intros [_ Hl Hr] H HQ. cbn in Hl, Hr. unfold load_u16. apply wp_bind.
  eapply (wp_load _ _ _ (le_encode 2 (Z.of_nat (length bs)))); [|done|].
  - rewrite <- Hr. rewrite <- (take_drop 16 bs) in H at 1. apply holds_app in H as [_ H].
    rewrite length_take, Nat.min_l in H by lia. by apply holds_take.
  - apply wp_ret. rewrite le_decode_encode, Z.mod_small by lia. done.
Qed.

(** The next free slot is not in the buffer. *)
Lemma scan_slot_apart s extra names cap ps bss v a (bs : list Z) :
  Z.of_nat (length ps) < cap -> scanning s0 s extra names cap ps bss ->
  0 < a /\ buf <= a /\ a + Z.of_nat (length bs) <= buf + size ->
  forall x, a <= x < a + Z.of_nat (length bs) ->
    write (mem s) (names + 8 * Z.of_nat (length ps)) (le_encode 8 v) !! x = mem s !! x.
Proof.
  intros Hc S Ha x Hx. apply lookup_write_out. rewrite length_le_encode. intros Hin.
  assert (Hn : names <> 0) by (intros Hn; apply (sc_null _ _ _ _ _ _ _ S) in Hn; lia).
  destruct (Hbuf0 x) as [b Hb]; [lia|].
  rewrite (scan_apart _ _ _ _ _ _ _ _ x S (scan_names_elem extra _ cap ps bss Hn)) in Hb; [done|lia].
Qed.

(** Filling the block on the side. *)
Lemma scan_side_apart s p n names cap ps bss q k :
  scanning s0 s [(p, n)] names cap ps bss -> (q, k) ∈ scan_blocks names cap ps bss ->
  q + k <= p \/ p + n <= q.
Proof.
  intros S Hq.
  assert (Hne : p <> q).
  { intros ->. pose proof (own_nodup _ _ _ _ (sc_owned _ _ _ _ _ _ _ S)) as N.
    cbn in N. apply list.NoDup_cons in N as [N _]. apply N, list_elem_of_fmap. by exists (q, k). }
  destruct (scan_disjoint _ _ _ _ _ _ p n q k S); [set_solver|set_solver|done|lia..].
Qed.

Lemma scanning_fill s p bs names cap ps bss e :
  scanning s0 s [(p, Z.of_nat (length bs))] names cap ps bss ->
  scanning s0 (St (write (mem s) p bs) e (ext s)) [(p, Z.of_nat (length bs))] names cap ps bss.
Proof.
  intros S. assert (Hin : (p, Z.of_nat (length bs)) ∈ [(p, Z.of_nat (length bs))] ++ scan_blocks names cap ps bss)
    by set_solver.
  destruct (scan_block_mapped _ _ _ _ _ _ _ _ S Hin) as [_ Hm].
  eapply scanning_move; [exact S| |done| | |]; cbn [mem ext].
  - eapply al_inv_dom; [by apply same_dom_write|apply S].
  - intros x b Hx Hb. rewrite lookup_write_out; [by apply (sc_kept _ _ _ _ _ _ _ S)|].
    intros Hr. by rewrite (scan_apart _ _ _ _ _ _ _ _ x S Hin Hr) in Hx.
  - apply mapped_write, S.
  - intros q k x Hq Hx. apply lookup_write_out.
    pose proof (scan_side_apart _ _ _ _ _ _ _ _ _ S Hq). lia.
Qed.

Lemma scanning_fill_names s p bs names cap ps bss ws :
  scanning s0 s [(p, Z.of_nat (length bs))] names cap ps bss -> Z.of_nat (length ws) <= cap ->
  names <> 0 -> holds (mem s) names (words ws) -> holds (write (mem s) p bs) names (words ws).
Proof.
  intros S Hw Hn H. apply holds_write_other; [|done]. rewrite length_words.
  pose proof (scan_side_apart _ _ _ _ _ _ _ _ _ S (scan_names_elem [] _ cap ps bss Hn)). lia.
Qed.

(** The copy of one entry: for want of memory the loop ends, otherwise it goes on
    with one more entry. *)
Lemma copy_entry_wp s names cap ps bss a bs k (Q : Z * Z -> st W -> Prop) :
  scanning s0 s [] names cap ps bss -> Z.of_nat (length ps) < cap -> entry_ok (a, bs) ->
  holds (mem s) a bs ->
  (forall s', fst (ext s') = fst (ext s) -> errno s' = ENOMEM -> out_of_memory ->
     scanning s0 s' [] names cap ps bss -> Q (names, Z.of_nat (length ps)) s') ->
  (forall p s', fst (ext s') = fst (ext s) ->
     scanning s0 s' [] names cap (ps ++ [p]) (bss ++ [bs]) -> wp al_exits k Q s') ->
  wp al_exits
    (let* reclen := load_u16 (a + off_d_reclen) in
     let* p := al_malloc reclen in
     do* store_u64 (names + 8 * Z.of_nat (length ps)) p in
     let* p := load_u64 (names + 8 * Z.of_nat (length ps)) in
     if p =? 0 then ret (names, Z.of_nat (length ps))
     else
       let* reclen := load_u16 (a + off_d_reclen) in
       do* memcpy p a reclen in k) Q s.
Proof.
  intros S Hc Hent Ha Hfail Hok. pose proof (ent_length _ Hent) as Hlen. cbn [snd] in Hlen.
  apply wp_bind, (wp_load_reclen _ bs); [done..|]. apply wp_bind.
  eapply wp_mono; [apply wp_lift_fst, wp_eq; refine (al_malloc_ok (X := W) (Z.of_nat (length bs)) s (sc_inv _ _ _ _ _ _ _ S) _); zlia|].
  intros p s1 [[[I [[-> F]|[Hp A]]] Heq] Hfst].
  - pose proof (scanning_failed _ _ _ _ _ _ S I F) as S1.
    destruct (scanning_slot s1 [] names cap ps bss 0 (errno s1) S1 Hc) as [Hm S2].
    apply wp_bind, wp_store_u64; [done|]. apply wp_bind. eapply wp_load_u64; [apply holds_write|done|].
    apply wp_ret. apply Hfail; [done|apply F| |done].
    eexists s, _, _, _, _, 0, _, s1. split; [exact S|left; exact Heq].
  - pose proof (scanning_alloc _ _ _ _ _ _ _ _ S I A) as S1.
    pose proof (alloc_good _ _ _ _ _ _ A) as (Gp & _ & _ & Ge).
    destruct (scanning_slot s1 _ names cap ps bss p (errno s1) S1 Hc) as [Hm S2].
    apply wp_bind, wp_store_u64; [done|]. apply wp_bind.
    eapply wp_load_u64; [apply holds_write|lia|]. destruct (Z.eqb_spec p 0); [done|].
    set (s2 := St _ _ _) in *.
    pose proof (holds_agree _ (mem s2) _ _ (scan_slot_apart _ _ _ _ _ _ _ a _ Hc S1 (ent_addr _ Hent))
      (allocated_holds _ _ _ _ _ _ _ _ A Ha)) as Ha2.
    apply wp_bind, (wp_load_reclen _ bs); [done..|]. apply wp_bind.
    eapply wp_memcpy; [exact Ha2|done| | |].
    + apply (scan_block_mapped _ _ _ _ _ _ _ _ S2 (list_elem_of_here _ _)).
    + destruct (allocated_apart _ _ _ _ _ _ a (Z.of_nat (length bs)) A); [by apply holds_mapped|lia..].
    + apply (Hok p); [done|]. apply scanning_push; [|  | |done].
      * by apply scanning_fill.
      * cbn [mem]. eapply scanning_fill_names; [exact S2|rewrite length_app; cbn; lia| |].
        { intros Hn. apply (sc_null _ _ _ _ _ _ _ S) in Hn. lia. }
        rewrite words_app. apply holds_app. split; [apply S2|]. rewrite length_words.
        unfold words. cbn [map concat]. rewrite app_nil_r. apply holds_write.
      * apply holds_write.
Qed.
(** The selection callback decides by the entry's bytes and changes [errno] at most;
    a null pointer selects every entry. *)
Definition selects (sel : Z) (keep : list Z -> bool) : Prop :=
  if sel =? 0 then forall bs, keep bs = true
  else forall entry bs s, holds (mem s) entry bs -> 24 <= Z.of_nat (length bs) ->
    wp no_exit (call_sel sel entry) (fun r s' => (r =? 0) = negb (keep bs) /\
      mem s' = mem s /\ ext s' = ext s) s.

Lemma select_wp sel keep a bs (s : st W) (Q : bool -> st W -> Prop) :
  selects sel keep -> holds (mem s) a bs -> 24 <= Z.of_nat (length bs) ->
  (forall e, Q (keep bs) (St (mem s) e (ext s))) ->
  wp al_exits (if sel =? 0 then ret true
               else let* r := call_sel sel a in ret (negb (r =? 0))) Q s.
Proof.
  unfold selects. intros Hs Ha Hl HQ. destruct (sel =? 0).
  - apply wp_ret. specialize (HQ (errno s)). rewrite Hs in HQ. by destruct s.
  - apply wp_bind. eapply wp_mono; [eapply (wp_exits no_exit); [by apply (Hs a bs)|done]|].
    intros r [m e x] (Hr & Hm & Hx). cbn in Hm, Hx. subst. apply wp_ret.
    rewrite Hr, negb_involutive. apply HQ.
Qed.

(** The loop delivers every entry that is selected, in order, or stops for want of
    memory; [errno] tells the two apart from a clean end. *)
Definition scanned (err cl : Z) (keep : list Z -> bool) (es : list (Z * list Z)) (bss : list (list Z))
    (r : Z * Z) (s' : st W) : Prop :=
  exists cap ps bss', r.2 = Z.of_nat (length ps) /\ scanning s0 s' [] r.1 cap ps bss' /\
    d_open (fst (ext s')) = true /\ d_close (fst (ext s')) = cl /\
    Z.of_nat (length ps) <= Z.of_nat (length bss) + Z.of_nat (length es) /\
    ((errno s' = err /\ bss' = bss ++ filter keep (map snd es)) \/ (errno s' = ENOMEM /\ out_of_memory)).

Lemma readdir_end dir (s : st W) err cl :
  fst (ext s) = Dirstream [] err cl true ->
  wp al_exits (readdir dir) (fun r s' => r = 0 /\ mem s' = mem s /\ ext s' = ext s /\
    (errno s = 0 -> errno s' = err)) s.
Proof.
  intros Hd. unfold readdir, wp, bind, get_dir. rewrite Hd. cbn.
  destruct (Z.eqb_spec err 0) as [->|]; done.
Qed.

Lemma readdir_entry dir (s : st W) a bs es err cl (Q : Z -> st W -> Prop) :
  fst (ext s) = Dirstream ((a, bs) :: es) err cl true -> mapped (mem s) a (Z.of_nat (length bs)) ->
  Q a (St (write (mem s) a bs) (errno s) (Dirstream es err cl true, snd (ext s))) ->
  wp al_exits (readdir dir) Q s.
Proof.
  intros Hd Hm HQ. unfold readdir. apply wp_bind. unfold wp at 1, get_dir. rewrite Hd. cbn.
  apply wp_bind. unfold wp at 1, put_dir. cbn. apply wp_bind, wp_store; [done|]. by apply wp_ret.
Qed.

Lemma scan_loop_wp dir sel keep err cl es : selects sel keep -> Forall entry_ok es ->
  forall s names cap ps bss fuel, fst (ext s) = Dirstream es err cl true ->
  (length es < fuel)%nat -> Z.of_nat (length ps) + Z.of_nat (length es) < 2 ^ 60 ->
  scanning s0 s [] names cap ps bss ->
  wp al_exits (scan_loop fuel (readdir dir) sel names (Z.of_nat (length ps)) cap)
    (scanned err cl keep es bss) s.
Proof.
  intros Hsel Hok. induction Hok as [|[a bs] es Hent Hok IH];
    intros s names cap ps bss [|fuel] Hd Hf Hb S; try (cbn in Hf; lia);
    cbn [scan_loop]; pose proof (scan_lengths _ _ _ _ _ _ S) as Hlen.
  - apply wp_bind, wp_set_errno, wp_bind. eapply wp_mono; [by apply (readdir_end _ _ err cl)|].
    intros r [m e x] (-> & Hm & Hx & He). cbn in Hm, Hx, He. subst. specialize (He eq_refl). subst e.
    apply wp_ret. exists cap, ps, bss. cbn [fst snd errno ext]. rewrite Hd.
    split_and!; [done| |done|done|cbn [length]; lia|left; by rewrite app_nil_r].
    rewrite (surjective_pairing (ext s)). by apply scanning_world.
  - pose proof Hent as [(Ha0 & Ha1 & Ha2) Hl _]; cbn [fst snd] in *.
    apply wp_bind, wp_set_errno, wp_bind. eapply readdir_entry; [exact Hd| |]; cbn [mem errno ext].
    { eapply mapped_sub; [apply S|lia..]. }
    destruct (Z.eqb_spec a 0); [lia|]. apply wp_bind.
    eapply (select_wp _ keep _ bs); [done|apply holds_write|lia|]. intros e. cbn [mem ext].
    pose proof (scanning_buffer _ _ _ _ _ _ a bs e (Dirstream es err cl true) S Ha1 Ha2) as S1.
    set (s1 := St _ e _) in *. destruct (keep bs) eqn:Hk; cbn [negb].
    2: { eapply wp_mono; [apply IH; [done|cbn in Hf; lia|cbn [length] in Hb; lia|done]|].
         intros r s' (cap' & ps' & bss' & H1 & H2 & H3 & H4 & H5 & H6).
         exists cap', ps', bss'. split_and!; [exact H1|exact H2|exact H3|exact H4|cbn [length]; lia|].
         destruct H6 as [[? ->]|?]; [left|by right]. split; [done|]. cbn [map snd].
         rewrite filter_cons_False; [done|]. rewrite Hk. by intros []. }
    apply wp_bind. eapply wp_mono; [apply grow_names_wp; [exact S1|cbn [length] in Hb; lia]|].
    intros r s2 (Hfst & Hsame & [(-> & He & Ho & S2)|(names' & cap' & -> & Hc & S2)]).
    { apply wp_ret. exists cap, ps, bss. cbn [fst snd]. rewrite Hfst.
      split_and!; [done|done|done|done|lia|by right]. }
    eapply (copy_entry_wp s2 names' cap' ps bss a bs); [exact S2|done|done| | |].
    + eapply holds_agree; [|apply holds_write]. intros x Hx. apply Hsame, Hbuf0. lia.
    + intros s3 Hfst3 He Ho S3. exists cap', ps, bss. cbn [fst snd]. rewrite Hfst3, Hfst.
      split_and!; [done|done|done|done|lia|by right].
    + intros p s3 Hfst3 S3. rewrite u64_small by zlia.
      replace (Z.of_nat (length ps) + 1) with (Z.of_nat (length (ps ++ [p]))) by (rewrite length_app; cbn; lia).
      eapply wp_mono; [apply IH; [by rewrite Hfst3, Hfst|cbn in Hf; lia| |done]|].
      { rewrite length_app. cbn [length] in *. lia. }
      intros r s' (cap2 & ps' & bss' & H1 & H2 & H3 & H4 & H5 & H6).
      exists cap2, ps', bss'. rewrite length_app in H5. cbn [length] in H5.
      split_and!; [exact H1|exact H2|exact H3|exact H4|cbn [length]; lia|].
      destruct H6 as [[? ->]|?]; [left|by right]. split; [done|]. cbn [map snd].
      rewrite filter_cons_True by (by rewrite Hk). by rewrite <- app_assoc.
Qed.

(** The last entry is released. *)
Lemma free_entry_wp s names cap ps bss p bs :
  scanning s0 s [] names cap (ps ++ [p]) (bss ++ [bs]) ->
  wp al_exits (al_free p) (fun _ s' => scanning s0 s' [] names cap ps bss /\
    fst (ext s') = fst (ext s)) s.
Proof.
  intros S. pose proof (scan_lengths _ _ _ _ _ _ S) as Hl. rewrite !length_app in Hl. cbn in Hl.
  pose proof (sc_cap _ _ _ _ _ _ _ S) as Hcap. rewrite length_app in Hcap. cbn [length] in Hcap.
  assert (P : scan_blocks names cap (ps ++ [p]) (bss ++ [bs]) ≡ₚ
    (p, Z.of_nat (length bs)) :: scan_blocks names cap ps bss).
  { unfold scan_blocks, lengths. rewrite map_app. cbn [map].
    rewrite zip_snoc by (rewrite length_map; lia).
    by rewrite <- Permutation_cons_append, <- Permutation_middle. }
  pose proof (sc_owned _ _ _ _ _ _ _ S) as O. cbn [app] in O. rewrite P in O.
  eapply wp_mono; [apply wp_lift_fst; refine (al_free_ok (X := W) p (Z.of_nat (length bs)) s (sc_inv _ _ _ _ _ _ _ S) _)|].
  { eapply owned_lookup; [exact O|apply list_elem_of_here]. }
  intros _ s' [[I F] Hfst]. split; [|done].
  assert (Hfree : forall x, is_Some (mem s0 !! x) -> mem s' !! x = mem s !! x).
  { intros x [b Hx]. apply (freed_frame _ _ _ _ _ _ F). intros Hin.
    rewrite (owned_fresh _ _ _ _ _ _ x O (list_elem_of_here _ _) Hin) in Hx. done. }
  assert (S' : scanning s0 s [(p, Z.of_nat (length bs))] names cap ps bss).
  { split; try apply S; [exact O| | |lia].
    - pose proof (sc_names _ _ _ _ _ _ _ S) as H. rewrite words_app in H. by apply holds_app in H as [H _].
    - pose proof (sc_entries _ _ _ _ _ _ _ S) as H. apply Forall2_app_inv in H as [H _]; [done|lia]. }
  assert (Hblk : forall q k x, (q, k) ∈ scan_blocks names cap ps bss -> q <= x < q + k ->
    mem s' !! x = mem s !! x).
  { intros q k x Hq Hx. apply (freed_frame _ _ _ _ _ _ F).
    pose proof (scan_side_apart _ _ _ _ _ _ _ _ _ S' Hq). lia. }
  destruct (scan_contents _ _ _ _ _ _ _ S' Hblk) as [Hn He].
  split; [done| | | |done|done|lia|apply S].
  - intros x b Hx Hb. rewrite Hfree by done. by apply (sc_kept _ _ _ _ _ _ _ S).
  - intros x Hx. rewrite Hfree by (by apply Hbuf0). by apply (sc_buf _ _ _ _ _ _ _ S).
  - rewrite (freed_live _ _ _ _ _ _ F). by eapply owned_delete.
Qed.

Lemma free_names_wp names cap ps : forall bss s, scanning s0 s [] names cap ps bss ->
  wp al_exits (free_names (length ps) names) (fun _ s' => scanning s0 s' [] names cap [] [] /\
    fst (ext s') = fst (ext s)) s.
Proof.
  induction ps as [|p ps IH] using rev_ind; intros bss s S; pose proof (scan_lengths _ _ _ _ _ _ S) as Hl.
  { destruct bss; [|done]. by apply wp_ret. }
  destruct (exists_last (l := bss)) as (bss0 & bs & ->); [intros ->; rewrite length_app in Hl; cbn in Hl; lia|].
  rewrite length_app. cbn [length]. rewrite Nat.add_1_r. cbn [free_names].
  assert (Hp : (ps ++ [p]) !! length ps = Some p) by (by rewrite lookup_app_at).
  apply wp_bind. eapply (wp_load_word _ names (ps ++ [p]) (length ps) p); [apply S|done|done| |].
  { assert (Hin : (p, Z.of_nat (length bs)) ∈ [] ++ scan_blocks names cap (ps ++ [p]) (bss0 ++ [bs])).
    { apply (scan_entry_elem [] names cap _ _ (length ps)); [done|].
      rewrite lookup_app_at; [done|]. rewrite !length_app in Hl. cbn in Hl. lia. }
    destruct (scan_block_mapped _ _ _ _ _ _ _ _ S Hin) as [(? & _ & ? & ?) _]. lia. }
  apply wp_bind. eapply wp_mono; [by eapply free_entry_wp|]. intros ? s' [S' <-]. by eapply IH.
Qed.

(** Everything the scan allocated is released. *)
Lemma free_array_wp s names cap :
  scanning s0 s [] names cap [] [] ->
  wp al_exits (al_free names) (fun _ s' => al_inv (ext s') (mem s') /\
    al_live (ext s') = al_live (ext s0) /\ kept (mem s0) (mem s') /\ fst (ext s') = fst (ext s)) s.
Proof.
  intros S. pose proof (sc_owned _ _ _ _ _ _ _ S) as O.
  unfold scan_blocks, names_block in O. destruct (Z.eqb_spec names 0) as [->|Hn]; cbn [app zip zip_with] in O.
  - eapply wp_mono; [apply wp_lift_fst; exact (al_free_null (X := W) s (sc_inv _ _ _ _ _ _ _ S))|].
    intros _ s' [(I & Hm & Hl) Hf]. split_and!; [done| |rewrite Hm; apply S|done].
    rewrite Hl, (own_live _ _ _ _ O). by rewrite list_to_map_nil, (left_id_L ∅ (∪)).
  - eapply wp_mono; [apply wp_lift_fst; refine (al_free_ok (X := W) names (8 * cap) s (sc_inv _ _ _ _ _ _ _ S) _)|].
    { eapply owned_lookup; [exact O|apply list_elem_of_here]. }
    intros _ s' [[I F] Hf]. split_and!; [done| | |done].
    + rewrite (freed_live _ _ _ _ _ _ F). pose proof (owned_delete _ _ _ _ _ _ O) as O'.
      rewrite (own_live _ _ _ _ O'). by rewrite list_to_map_nil, (left_id_L ∅ (∪)).
    + intros x b Hx Hb. rewrite (freed_frame _ _ _ _ _ _ F); [by apply (sc_kept _ _ _ _ _ _ _ S)|].
      intros Hin. by rewrite (owned_fresh _ _ _ _ _ _ x O (list_elem_of_here _ _) Hin) in Hx.
Qed.
(** [qsort] with the comparison [cmp] reorders the array so that the entries it
    points to are sorted by [R], and touches nothing else. *)
Definition sorts (cmp : Z) (R : list Z -> list Z -> Prop) : Prop :=
  forall base ps bss s, holds (mem s) base (words ps) -> Forall2 (holds (mem s)) ps bss ->
    Forall (fun p => 0 <= p <= SIZE_MAX) ps -> Forall (fun bs => 24 <= Z.of_nat (length bs)) bss ->
    (forall p bs, (p, bs) ∈ zip ps bss ->
       p + Z.of_nat (length bs) <= base \/ base + 8 * Z.of_nat (length ps) <= p) ->
    wp no_exit (qsort base (Z.of_nat (length ps)) 8 cmp) (fun _ s' => exists ps' bss',
      zip ps' bss' ≡ₚ zip ps bss /\ length ps' = length bss' /\ StronglySorted R bss' /\
      mem s' = write (mem s) base (words ps') /\ ext s' = ext s) s.

Lemma scan_pointers s extra names cap ps bss :
  scanning s0 s extra names cap ps bss -> Forall (fun p => 0 <= p <= SIZE_MAX) ps.
Proof.
  intros S. pose proof (scan_lengths _ _ _ _ _ _ S) as Hl. apply Forall_lookup. intros i p Hp.
  destruct (lookup_lt_is_Some_2 bss i) as [bs Hb]; [rewrite <- Hl; by eapply lookup_lt_Some|].
  destruct (scan_block_mapped _ _ _ _ _ _ _ _ S (scan_entry_elem _ _ _ _ _ _ _ _ Hp Hb))
    as [(? & _ & ? & ?) _]. lia.
Qed.

Lemma filter_lengths (keep : list Z -> bool) es :
  Forall entry_ok es -> Forall (fun bs => 24 <= Z.of_nat (length bs)) (filter keep (map snd es)).
Proof.
  intros H. apply list.Forall_forall. intros bs [_ Hin]%list_elem_of_filter.
  apply list_elem_of_fmap in Hin as (e & -> & He).
  rewrite list.Forall_forall in H. destruct (H e He). lia.
Qed.

Lemma zip_lengths ps bss :
  zip ps (lengths bss) = map (fun pb : Z * list Z => (pb.1, Z.of_nat (length pb.2))) (zip ps bss).
Proof.
  revert bss. induction ps as [|p ps IH]; intros [|bs bss]; try done; [].
  unfold lengths in *. cbn. by rewrite IH.
Qed.

Lemma scanning_sorted s names cap ps bss ps' bss' e :
  scanning s0 s [] names cap ps bss -> zip ps' bss' ≡ₚ zip ps bss -> length ps' = length bss' ->
  scanning s0 (St (write (mem s) names (words ps')) e (ext s)) [] names cap ps' bss'.
Proof.
  intros S P Hl'. pose proof (scan_lengths _ _ _ _ _ _ S) as Hl.
  assert (Hlen : length ps' = length ps).
  { apply Permutation_length in P. rewrite !length_zip_with in P. lia. }
  pose proof (sc_cap _ _ _ _ _ _ _ S) as Hcap. pose proof (length_words ps') as Hw.
  assert (Hblocks : scan_blocks names cap ps' bss' ≡ₚ scan_blocks names cap ps bss).
  { unfold scan_blocks. rewrite !zip_lengths. by rewrite P. }
  assert (Harr : forall x, names <= x < names + 8 * Z.of_nat (length ps) -> mem s0 !! x = None).
  { intros x Hx. assert (Hn : names <> 0) by (intros Hn; apply (sc_null _ _ _ _ _ _ _ S) in Hn; lia).
    eapply scan_apart; [exact S|exact (scan_names_elem [] _ cap _ _ Hn)|lia]. }
  assert (Hm : mapped (mem s) names (Z.of_nat (length (words ps')))).
  { rewrite Hw, Hlen, <- length_words. apply holds_mapped, S. }
  split; cbn [mem errno ext app]; try apply S.
  - eapply al_inv_dom; [by apply same_dom_write|apply S].
  - intros x b Hx Hb. rewrite lookup_write_out; [by apply (sc_kept _ _ _ _ _ _ _ S)|].
    intros Hin. rewrite Harr in Hx; [done|lia].
  - apply mapped_write, S.
  - rewrite Hblocks. apply S.
  - apply holds_write.
  - apply Forall2_same_length_lookup. split; [done|]. intros i p bs Hp Hb.
    assert (Hin : (p, bs) ∈ zip ps bss).
    { rewrite <- P. apply list_elem_of_lookup. exists i. by apply lookup_zip_Some. }
    apply list_elem_of_lookup in Hin as [j [Hpj Hbj]%lookup_zip_Some].
    apply holds_write_other.
    + destruct (scan_sep _ _ _ _ _ _ _ _ _ S Hpj Hbj); lia.
    + pose proof (sc_entries _ _ _ _ _ _ _ S) as F. rewrite Forall2_same_length_lookup in F.
      by eapply (proj2 F).
  - lia.
Qed.

(** The array the caller gets. *)
Record scan_result (keep : list Z -> bool) (es : list (Z * list Z)) (res cmp : Z)
    (R : list Z -> list Z -> Prop) (r : Z) (s' : st W) (names cap : Z) (ps : list Z)
    (bss : list (list Z)) : Prop := {
  sr_count : r = s32 (Z.of_nat (length bss));
  sr_selected : bss ≡ₚ filter keep (map snd es);
  sr_order : if cmp =? 0 then bss = filter keep (map snd es) /\ errno s' = errno s0
             else StronglySorted R bss;
  sr_res : holds (mem s') res (le_encode 8 names);
  sr_names : holds (mem s') names (words ps);
  sr_entries : Forall2 (holds (mem s')) ps bss;
  sr_owned : owned (mem s0) (al_live (ext s0)) (scan_blocks names cap ps bss) (al_live (ext s'));
  sr_kept : forall x b, mem s0 !! x = Some b -> ~ (buf <= x < buf + size) ->
    ~ (res <= x < res + 8) -> mem s' !! x = Some b
}.

Lemma store_result_wp s names cap ps bss res cmp R (keep : list Z -> bool) (es : list (Z * list Z)) r :
  scanning s0 s [] names cap ps bss -> mapped (mem s0) res 8 ->
  res + 8 <= buf \/ buf + size <= res -> bss ≡ₚ filter keep (map snd es) ->
  (if cmp =? 0 then bss = filter keep (map snd es) /\ errno s = errno s0 else StronglySorted R bss) ->
  r = s32 (Z.of_nat (length bss)) ->
  wp al_exits (do* store_u64 res names in ret r) (fun r s' => al_inv (ext s') (mem s') /\
    fst (ext s') = fst (ext s) /\ exists names cap ps bss,
    scan_result keep es res cmp R r s' names cap ps bss) s.
Proof.
  intros S Hres Hsep P Ho ->.
  assert (Hm : mapped (mem s) res 8).
  { intros x Hx. destruct (Hres x Hx) as [b Hb]. exists b. apply (sc_kept _ _ _ _ _ _ _ S); [done|lia]. }
  assert (Hblk : forall p n x, (p, n) ∈ scan_blocks names cap ps bss -> p <= x < p + n ->
    write (mem s) res (le_encode 8 names) !! x = mem s !! x).
  { intros p n x Hp Hx. apply lookup_write_out. rewrite length_le_encode. intros Hin.
    destruct (Hres x Hin) as [b Hb]. by rewrite (scan_apart _ [] _ _ _ _ _ _ x S Hp Hx) in Hb. }
  destruct (scan_contents _ _ _ _ _ _ _ S Hblk) as [Hn He].
  apply wp_bind, wp_store_u64; [done|]. apply wp_ret. cbn [mem errno ext]. split_and!; [|done|].
  { eapply al_inv_dom; [apply same_dom_write; by rewrite length_le_encode|apply S]. }
  exists names, cap, ps, bss. split; cbn [mem errno ext]; try done; [apply holds_write|apply S|].
  intros x b Hx Hb Hr. rewrite lookup_write_out by (by rewrite length_le_encode).
  by apply (sc_kept _ _ _ _ _ _ _ S).
Qed.

(** Nothing is left of the scan but the entries in the library's buffer. *)
Definition scan_failed (r : Z) (s' : st W) : Prop :=
  r = -1 /\ al_inv (ext s') (mem s') /\ al_live (ext s') = al_live (ext s0) /\ kept (mem s0) (mem s').

Lemma scan_finish_ok s res cmp names cap ps (keep : list Z -> bool) (es : list (Z * list Z)) R :
  errno s = 0 -> scanning s0 s [] names cap ps (filter keep (map snd es)) -> Forall entry_ok es ->
  mapped (mem s0) res 8 -> res + 8 <= buf \/ buf + size <= res ->
  (cmp <> 0 -> sorts cmp R) ->
  wp al_exits (scan_finish (errno s0) res cmp names (Z.of_nat (length ps)))
    (fun r s' => al_inv (ext s') (mem s') /\ fst (ext s') = fst (ext s) /\
       exists names cap ps bss, scan_result keep es res cmp R r s' names cap ps bss) s.
Proof.
  intros He S Hes Hres Hsep Hs. pose proof (scan_lengths _ _ _ _ _ _ S) as Hl.
  apply wp_bind, wp_get_errno. rewrite He. cbn [Z.eqb negb].
  apply wp_bind, wp_set_errno, wp_bind. rewrite (surjective_pairing (ext s)).
  pose proof (scanning_world _ _ _ _ _ _ (errno s0) (fst (ext s)) S) as S1.
  destruct (Z.eqb_spec cmp 0) as [->|Hc]; cbn [negb].
  - apply wp_ret. eapply store_result_wp; [exact S1|done|done|done|done|by rewrite Hl].
  - eapply wp_mono; [eapply (wp_exits no_exit); [|done]|].
    { apply (Hs Hc _ _ _ _ (sc_names _ _ _ _ _ _ _ S1) (sc_entries _ _ _ _ _ _ _ S1)
        (scan_pointers _ _ _ _ _ _ S1) (filter_lengths keep es Hes)).
      intros p bs Hin. apply list_elem_of_lookup in Hin as [i [Hp Hb]%lookup_zip_Some].
      destruct (scan_sep _ _ _ _ _ _ _ _ _ S1 Hp Hb); [by left|right].
      pose proof (sc_cap _ _ _ _ _ _ _ S1). lia. }
    intros _ [m2 e2 x2] (ps' & bss' & P & Hl' & Hsort & Hm & Hx). cbn [mem errno ext] in Hm, Hx. subst m2 x2.
    pose proof (scanning_sorted _ _ _ _ _ _ _ e2 S1 P Hl') as S2.
    assert (P2 : bss' ≡ₚ filter keep (map snd es)).
    { apply (fmap_Permutation snd) in P. by rewrite !snd_zip in P by lia. }
    eapply store_result_wp; [exact S2|done|done|done| |by rewrite P2, Hl].
    destruct (Z.eqb_spec cmp 0); [done|exact Hsort].
Qed.

Lemma scan_finish_failed s res cmp names cap ps bss old :
  errno s <> 0 -> scanning s0 s [] names cap ps bss ->
  wp al_exits (scan_finish old res cmp names (Z.of_nat (length ps)))
    (fun r s' => scan_failed r s' /\ fst (ext s') = fst (ext s)) s.
Proof.
  intros He S. apply wp_bind, wp_get_errno. destruct (Z.eqb_spec (errno s) 0); [done|]. cbn [negb].
  rewrite Nat2Z.id. apply wp_bind. eapply wp_mono; [by eapply free_names_wp|].
  intros ? s1 [S1 Hf1]. apply wp_bind. eapply wp_mono; [exact (free_array_wp _ _ _ S1)|].
  intros ? s2 (I & L & K & Hf2). apply wp_ret. split; [done|congruence].
Qed.

Lemma closedir_wp dir (s : st W) names cap ps bss :
  scanning s0 s [] names cap ps bss -> d_open (fst (ext s)) = true ->
  wp al_exits (closedir dir) (fun _ s' => scanning s0 s' [] names cap ps bss /\
    d_open (fst (ext s')) = false /\
    errno s' = if d_close (fst (ext s)) =? 0 then errno s else d_close (fst (ext s))) s.
Proof.
  intros S Ho. unfold closedir, wp, bind, get_dir. rewrite Ho. cbn.
  destruct (Z.eqb_spec (d_close (fst (ext s))) 0); cbn;
    (split_and!; [by apply scanning_world|done|done]).
Qed.

End Scan.
(** [opendir] fails, or opens a stream that will deliver [es] and end with [err], and
    whose closing ends with [cl]. *)
Definition opens (path : Z) (es : list (Z * list Z)) (err cl : Z) (s : st W) : Prop :=
  wp no_exit (opendir path) (fun dir s' => mem s' = mem s /\ snd (ext s') = snd (ext s) /\
    (dir <> 0 -> fst (ext s') = Dirstream es err cl true)) s.

(** The three outcomes: the directory could not be opened; it was scanned, the
    stream was closed, and the call failed without keeping anything; the whole
    directory was read and the array of its selected entries is the caller's. *)
Definition scandir_post (path : Z) (es : list (Z * list Z)) (err cl : Z) (keep : list Z -> bool) (res cmp : Z)
    (R : list Z -> list Z -> Prop) (s : st W) (r : Z) (s' : st W) : Prop :=
  al_inv (ext s') (mem s') /\
  ((r = -1 /\ mem s' = mem s /\ al_live (ext s') = al_live (ext s) /\
    exists s0, opendir path s = Ret (0, s0)) \/
   (d_open (fst (ext s')) = false /\ r = -1 /\ al_live (ext s') = al_live (ext s) /\
    kept (mem s) (mem s') /\ (err <> 0 \/ cl <> 0 \/ exists s0, mem s0 = mem s /\
    snd (ext s0) = snd (ext s) /\ out_of_memory s0)) \/
   (d_open (fst (ext s')) = false /\ err = 0 /\ cl = 0 /\ exists s0 names cap ps bss,
    mem s0 = mem s /\ snd (ext s0) = snd (ext s) /\
    scan_result s0 keep es res cmp R r s' names cap ps bss)).

Lemma scan_common_wp path res sel cmp es err cl keep R (s : st W) :
  al_inv (ext s) (mem s) -> mapped (mem s) buf size -> Forall entry_ok es ->
  Z.of_nat (length es) < 2 ^ 60 -> opens path es err cl s -> selects sel keep ->
  (cmp <> 0 -> sorts cmp R) -> mapped (mem s) res 8 ->
  res + 8 <= buf \/ buf + size <= res ->
  wp al_exits (scan_common readdir path res sel cmp) (scandir_post path es err cl keep res cmp R s) s.
Proof.
  intros I Hbuf Hok Hlen Hopen Hsel Hsort Hres Hsep. apply wp_bind.
  eapply wp_mono; [eapply (wp_exits no_exit); [exact (wp_eq _ _ _ _ Hopen)|done]|].
  intros dir s0 [(Hm & Hx & Hd) Heq]. apply wp_bind, wp_get_errno.
  assert (Hl : al_live (ext s0) = al_live (ext s)) by (cbn; by rewrite Hx).
  assert (I0 : al_inv (ext s0) (mem s0)) by (cbn in *; by rewrite Hx, Hm).
  destruct (Z.eqb_spec dir 0) as [->|Hdir].
  { apply wp_ret. split; [done|]. left. split_and!; [done..|]. by exists s0. }
  specialize (Hd Hdir). rewrite <- Hm in Hbuf, Hres.
  assert (S0 : scanning s0 s0 [] 0 0 [] []).
  { split; [done|by intros x b Hb _|done|apply owned_nil|apply holds_nil|constructor|cbn; lia|done]. }
  apply wp_bind. unfold wp at 1, get_dir. rewrite Hd. cbn [d_entries].
  apply wp_bind. eapply wp_mono.
  { apply (scan_loop_wp s0 Hbuf dir sel keep err cl es Hsel Hok s0 0 0 [] []); [done|lia|cbn; lia|done]. }
  intros [names count] s1 (cap & ps & bss & Hc & S1 & Ho & Hcl & Hle & Hend). cbn [fst snd] in Hc, S1.
  apply wp_bind. eapply wp_mono; [by apply (closedir_wp s0 dir s1 names cap ps bss)|].
  intros ? s2 (S2 & Ho2 & He2). rewrite Hcl in He2. subst count.
  destruct (decide (errno s2 = 0)) as [He|He].
  - assert (Hcl0 : cl = 0) by (revert He2; case_cmp; congruence).
    rewrite Hcl0, Z.eqb_refl in He2. destruct Hend as [[He1 ->]|[He1 _]]; [|rewrite He1 in He2; zlia].
    eapply wp_mono; [by apply (scan_finish_ok s0 s2 res cmp names cap ps keep es R)|].
    intros r s' (I' & Hf & names' & cap' & ps' & bss' & Hr). split; [done|]. right; right.
    split_and!; [by rewrite Hf|congruence|done|]. by exists s0, names', cap', ps', bss'.
  - eapply wp_mono; [by apply (scan_finish_failed s0 Hbuf s2 res cmp names cap ps bss)|].
    intros r s' [(-> & I' & L & K) Hf]. split; [done|]. right; left.
    split_and!; [by rewrite Hf|done|by rewrite L|by rewrite <- Hm|].
    destruct (decide (cl = 0)) as [->|]; [|by right; left].
    destruct Hend as [[He1 _]|[_ Hn]]; [left; rewrite Z.eqb_refl in He2; congruence|].
    right; right. by exists s0.
Qed.

End Specs.
