(* ===== verification/DirentProps.v ===== *)
(** * Directory scan: properties

    The theorem on [scandir] and [scandir64], and a concrete directory on which it
    is exercised: a stream of three entries, a callback that drops dot files, and a
    [qsort] that sorts by the inode number's low byte. *)
From stdpp Require Import sorting.
From S2P Require Import Prelude CMem CCmd CLib Alloc SimpleHeap Dirent.

Section Props.
Context {X : Type} `{!Allocator X} `{!AllocatorLaws X} `{!DirWorld X}.
#[local] Existing Instance lift_allocator.
#[local] Existing Instance lift_allocator_laws.

(** C40: [scandir] and [scandir64] terminate with one of three outcomes. The directory
    cannot be opened: -1 and nothing changed. A read error, a failed close or no
    memory: -1, the stream closed, and every block the scan allocated released. Or
    the whole directory was read and the stream closed: the caller's variable gets
    an array of pointers to exact copies, each in a block of its own size, of
    exactly the entries the callback selects, in the directory's order with
    [errno] as it was, or sorted when there is a comparison; the result is their
    number, truncated to [int]; nothing else of the caller's memory changes. *)
Theorem scandir_collects buf size path res sel cmp es err cl keep R (s : st (dirstream * X)) :
  al_inv (ext s) (mem s) -> mapped (mem s) buf size -> Forall (entry_ok buf size) es ->
  Z.of_nat (length es) < 2 ^ 60 -> opens path es err cl s -> selects sel keep ->
  (cmp <> 0 -> sorts cmp R) -> mapped (mem s) res 8 ->
  res + 8 <= buf \/ buf + size <= res ->
  wp al_exits (scandir path res sel cmp) (scandir_post buf size path es err cl keep res cmp R s) s /\
  wp al_exits (scandir64 path res sel cmp) (scandir_post buf size path es err cl keep res cmp R s) s.
Proof. intros. split; by apply scan_common_wp. Qed.

End Props.

(** ** A concrete [qsort]

    The keys of the entries (their first byte) are read, the pairs sorted and the
    pointers written back. *)
Section SimpleSort.
Context {X : Type}.

Definition entry_key (bs : list Z) : Z := match bs with b :: _ => b | [] => 0 end.
Definition key_le (a b : Z * Z) : Prop := a.1 <= b.1.
#[local] Instance key_le_dec : RelDecision key_le.
Proof. intros a b. unfold key_le. apply _. Defined.
#[local] Instance key_le_total : Total key_le.
Proof. intros a b. unfold key_le. lia. Qed.
#[local] Instance key_le_trans : Transitive key_le.
Proof. intros a b c. unfold key_le. lia. Qed.

Fixpoint load_keys (n : nat) (base : Z) : C (dirstream * X) (list (Z * Z)) :=
  match n with
  | O => ret []
  | S n' =>
      let* p := load_u64 base in
      let* k := load_byte p in
      let* rest := load_keys n' (base + 8) in
      ret ((k, p) :: rest)
  end.

Definition sort_entries (base count : Z) : C (dirstream * X) unit :=
  let* kps := load_keys (Z.to_nat count) base in
  store base (words (merge_sort key_le kps).*2).

Definition keyed (pb : Z * list Z) : Z * Z := (entry_key pb.2, pb.1).

Lemma load_keys_wp ps bss base (Q : list (Z * Z) -> st (dirstream * X) -> Prop) s :
  holds (mem s) base (words ps) -> Forall2 (holds (mem s)) ps bss ->
  Forall (fun p => 0 <= p <= SIZE_MAX) ps -> Forall (fun bs => 24 <= Z.of_nat (length bs)) bss ->
  Q (keyed <$> zip ps bss) s -> wp no_exit (load_keys (length ps) base) Q s.
Proof.
  intros Hw HF. revert base Q Hw. induction HF as [|p bs ps bss Hp HF IH]; intros base Q Hw Hr Hl HQ.
  { by apply wp_ret. }
  apply list.Forall_cons in Hr as [Hr1 Hr]. apply list.Forall_cons in Hl as [Hl1 Hl].
  change (words (p :: ps)) with (le_encode 8 p ++ words ps) in Hw.
  apply holds_app in Hw as [Hw1 Hw]. rewrite length_le_encode in Hw. cbn [length load_keys].
  apply wp_bind. eapply wp_load_u64; [done..|].
  destruct bs as [|b bs]; [cbn in Hl1; lia|]. apply holds_cons in Hp as [Hp _].
  apply wp_bind. eapply wp_load_byte; [done|]. apply wp_bind. apply IH; [done..|]. by apply wp_ret.
Qed.

Lemma StronglySorted_keyed l :
  StronglySorted key_le (keyed <$> l) ->
  StronglySorted (fun a b => entry_key a <= entry_key b) l.*2.
Proof.
  induction l as [|a l IH]; [constructor|]. cbn. intros [Hs Hf]%StronglySorted_inv.
  constructor; [by apply IH|]. apply list.Forall_forall. intros b Hb.
  apply list_elem_of_fmap in Hb as (c & -> & Hc). rewrite list.Forall_forall in Hf.
  apply (Hf (keyed c)), list_elem_of_fmap. by exists c.
Qed.

Lemma sort_entries_ok base ps bss s :
  holds (mem s) base (words ps) -> Forall2 (holds (mem s)) ps bss ->
  Forall (fun p => 0 <= p <= SIZE_MAX) ps -> Forall (fun bs => 24 <= Z.of_nat (length bs)) bss ->
  wp no_exit (sort_entries base (Z.of_nat (length ps))) (fun _ s' => exists ps' bss',
    zip ps' bss' ≡ₚ zip ps bss /\ length ps' = length bss' /\
    StronglySorted (fun a b => entry_key a <= entry_key b) bss' /\
    mem s' = write (mem s) base (words ps') /\ ext s' = ext s) s.
Proof.
  intros Hw HF Hr Hl. unfold sort_entries. rewrite Nat2Z.id. apply wp_bind.
  eapply load_keys_wp; [done..|].
  destruct (Permutation_map_inv keyed (l1 := merge_sort key_le (keyed <$> zip ps bss)) (zip ps bss))
    as (l & Hl' & P).
  { apply merge_sort_Permutation. }
  change (map keyed l) with (keyed <$> l) in Hl'.
  assert (Hps : (merge_sort key_le (keyed <$> zip ps bss)).*2 = l.*1).
  { rewrite Hl', <- list_fmap_compose. done. }
  pose proof (Forall2_length HF) as Hlen.
  assert (Hll : length l = length ps).
  { apply Permutation_length in P. rewrite length_zip_with in P. lia. }
  rewrite Hps. apply wp_store.
  { pose proof (holds_mapped _ _ _ Hw) as Hm. rewrite length_words in Hm |- *.
    by rewrite length_fmap, Hll. }
  exists l.*1, l.*2. split_and!; [by rewrite zip_fst_snd, P|by rewrite !length_fmap| |done|done].
  apply StronglySorted_keyed. rewrite <- Hl'. apply StronglySorted_merge_sort; apply _.
Qed.

End SimpleSort.

(** ** A concrete directory *)

(** A [struct dirent]: inode, offset, length, type and name, padded to 24 bytes. *)
Definition dirent_bytes (ino : Z) (name : list Z) : list Z :=
  le_encode 8 ino ++ le_encode 8 0 ++ le_encode 2 24 ++ [8] ++
  take 5 (name ++ replicate 5 0).

Definition dir_buffer : Z := 8192.
Definition dir_res : Z := 4096.
Definition dir_entries : list (Z * list Z) :=
  [(dir_buffer, dirent_bytes 3 [97]); (dir_buffer + 24, dirent_bytes 9 [46]);
   (dir_buffer + 48, dirent_bytes 2 [98])].

(** Not a dot file: the name starts at byte 19. *)
Definition not_hidden (bs : list Z) : bool := negb (bool_decide (bs !! 19%nat = Some 46)).

#[local] Instance simple_dir_world : DirWorld arena := {
  opendir path :=
    if path =? 0 then do* set_errno ENOENT in ret 0
    else do* put_dir (Dirstream dir_entries 0 0 true) in ret 77;
  call_sel sel entry :=
    let* c := load_byte (entry + 19) in ret (if c =? 46 then 0 else 1);
  qsort base count width cmp := sort_entries base count
}.

Definition dir_memory : gmap Z Z :=
  write (write ∅ dir_res (replicate 8 255)) dir_buffer (replicate 72 0).
Definition dir_start : st (dirstream * arena) :=
  St dir_memory 0 (Dirstream [] 0 0 false, empty_arena (2 ^ 20) (2 ^ 21)).

Lemma dir_start_inv : heap_inv (empty_arena (2 ^ 20) (2 ^ 21)) dir_memory.
Proof.
  apply empty_arena_inv; [done|done|done|]. intros x Hx. unfold dir_memory, dir_buffer, dir_res.
  rewrite !lookup_write_out by (rewrite length_replicate; lia). apply lookup_empty.
Qed.

Lemma dir_entries_ok : Forall (entry_ok dir_buffer 72) dir_entries.
Proof. repeat constructor; vm_compute; congruence. Qed.

Lemma dir_opens : opens 1 dir_entries 0 0 dir_start.
Proof. by split_and!. Qed.

Lemma dir_selects : selects (X := arena) 1 not_hidden.
Proof.
  intros entry bs s H Hl. cbn [Z.eqb Pos.eqb call_sel simple_dir_world].
  destruct (lookup_lt_is_Some_2 bs 19) as [c Hc]; [lia|].
  apply wp_bind. eapply wp_load_byte; [exact (H _ _ Hc)|]. apply wp_ret.
  split; [|done]. unfold not_hidden. rewrite Hc, negb_involutive.
  destruct (Z.eqb_spec c 46) as [->|Hne]; [by rewrite bool_decide_eq_true_2|].
  rewrite bool_decide_eq_false_2; [done|congruence].
Qed.

Lemma dir_sorts : sorts (X := arena) 1 (fun a b => entry_key a <= entry_key b).
Proof. intros base ps bss s Hw HF Hr Hl _. by apply sort_entries_ok. Qed.

Section Witness.
#[local] Existing Instance lift_allocator.
#[local] Existing Instance lift_allocator_laws.

(** The whole call, run: two of the three entries, sorted. *)
Example scandir_runs :
  match scandir (X := arena) 1 dir_res 1 1 dir_start with
  | Ret (r, s') => r = 2 /\ errno s' = 0 /\
      load_bytes (mem s') dir_res 8 = Some (le_encode 8 (2 ^ 20 + 48)) /\
      load_bytes (mem s') (2 ^ 20 + 48) 16 = Some (words [2 ^ 20 + 80; 2 ^ 20 + 16]) /\
      load_bytes (mem s') (2 ^ 20 + 80) 24 = Some (dirent_bytes 2 [98])
  | _ => False
  end.
Proof. vm_compute. by split_and!. Qed.

Lemma dir_buffer_mapped : mapped dir_memory dir_buffer 72.
Proof. exact (holds_mapped _ _ _ (holds_write _ dir_buffer (replicate 72 0))). Qed.

Lemma dir_res_mapped : mapped dir_memory dir_res 8.
Proof. apply mapped_write. exact (holds_mapped _ _ _ (holds_write ∅ dir_res (replicate 8 255))). Qed.

Lemma dir_apart : dir_res + 8 <= dir_buffer.
Proof. unfold dir_res, dir_buffer. lia. Qed.

Lemma scandir_collects_witness :
  wp no_exit (scandir 1 dir_res 1 1) (scandir_post dir_buffer 72 1 dir_entries 0 0 not_hidden dir_res 1
    (fun a b => entry_key a <= entry_key b) dir_start) dir_start /\
  wp no_exit (scandir64 1 dir_res 1 1) (scandir_post dir_buffer 72 1 dir_entries 0 0 not_hidden dir_res 1
    (fun a b => entry_key a <= entry_key b) dir_start) dir_start.
Proof.
  exact (scandir_collects (X := arena) dir_buffer 72 1 dir_res 1 1 dir_entries 0 0 not_hidden
    (fun a b => entry_key a <= entry_key b) dir_start dir_start_inv dir_buffer_mapped dir_entries_ok
    eq_refl dir_opens dir_selects (fun _ => dir_sorts) dir_res_mapped (or_introl dir_apart)).
Defined.

End Witness.
