(* ===== verification/Path.v ===== *)
(** * Paths (src/path_overrides.c)

    [getcwd], [get_current_dir_name], [realpath] and [tempnam].  The automatic arrays
    of a call live in a frame of the caller's stack: the functions take the frame's
    address [fp] and give their callees the memory above their own arrays.  System
    calls and the environment are parameters. *)
From S2P Require Import Prelude CMem CCmd CLib Alloc Strings Helpers.

(** The system calls [getcwd] and [readlink], [stat] (its result and the device and
    inode numbers it fills in) and [getenv]. *)
Class PathWorld (X : Type) := {
  sys_getcwd : Z -> Z -> C X Z;
  readlink : Z -> Z -> Z -> C X Z;
  stat : Z -> C X (Z * (Z * Z));
  getenv : Z -> C X Z
}.

(** The addresses of the string literals the functions pass on: ["."], ["PWD"],
    [P_tmpdir] and ["temp"]. *)
Record literals := Literals { lit_dot : Z; lit_PWD : Z; lit_tmpdir : Z; lit_temp : Z }.

Definition PATH_MAX : Z := 4096.
Definition SYMLOOP_MAX : Z := 40.
Definition MAXTRIES : nat := 100.

Definition ch_slash : Z := 47.
Definition ch_dot : Z := 46.

(** The locals of [realpath] that live across the turns of its loop. *)
Record locals := Locals {
  l_p : Z;
  l_q : Z;
  l_check_dir : bool;
  l_pending_up : Z;
  l_loop_count : Z
}.

(** How a turn of the loop ends: [continue], [goto restart], [break], or the
    function returns null. *)
Inductive turn := Continue (l : locals) | Restart (l : locals) | Break (l : locals) | Fail.

Fixpoint slash_run (fuel : nat) (m : gmap Z Z) (s n : Z) : option Z :=
  match fuel with
  | O => None
  | S fuel' =>
      match m !! (s + n) with
      | None => None
      | Some c => if c =? ch_slash then slash_run fuel' m s (n + 1) else Some n
      end
  end.

Section Definitions.
Context {X : Type} `{!Allocator X} `{!PathWorld X} `{!ClockWorld X}.

Definition ao_slash_len (s : Z) : C X Z := reads (fun m => slash_run (S (size m)) m s 0).

Definition fails_with (e : Z) : C X Z := do* set_errno e in ret 0.

(** ** The current directory *)

Definition getcwd (fp buf size : Z) : C X Z :=
  if negb (buf =? 0) && (size =? 0) then fails_with EINVAL
  else
    let stack_buf := fp in
    let b := if buf =? 0 then stack_buf else buf in
    let size := if buf =? 0 then PATH_MAX else size in
    let* r := sys_getcwd b size in
    if r <? 0 then ret 0
    else
      let* bad := (if r =? 0 then ret true
                   else let* c := load_byte b in ret (negb (c =? ch_slash))) in
      if bad then fails_with ENOENT
      else if b =? stack_buf then strdup b
      else ret b.

Definition get_current_dir_name (lits : literals) (fp : Z) : C X Z :=
  let* pwd := getenv (lit_PWD lits) in
  let* same :=
    (if pwd =? 0 then ret false
     else
       let* c := load_byte pwd in
       if c =? 0 then ret false
       else
         let* ' (r, (dev, ino)) := stat pwd in
         if negb (r =? 0) then ret false
         else
           let* ' (r', (dev', ino')) := stat (lit_dot lits) in
           ret ((r' =? 0) && (dev =? dev') && (ino =? ino'))) in
  if same then strdup pwd else getcwd fp 0 0.

(** ** [realpath] *)

Section Realpath.
Context (fp : Z).
Definition stack : Z := fp.
Definition output : Z := fp + PATH_MAX + 1.
Definition callee_fp : Z := fp + 2 * PATH_MAX + 1.

Definition too_long : C X turn := do* set_errno ENAMETOOLONG in ret Fail.

(** [while (len > floor && base[len - 1] != '/') --len;] *)
Fixpoint strip_name (fuel : nat) (base floor len : Z) : C X Z :=
  match fuel with
  | O => diverge
  | S fuel' =>
      if floor <? len then
        let* c := load_byte (base + (len - 1)) in
        if c =? ch_slash then ret len else strip_name fuel' base floor (len - 1)
      else ret len
  end.

(** From the label [skip_readlink] on. *)
Definition skip_readlink (l : locals) (up : bool) (component_size component_len : Z) : C X turn :=
  if up then
    let* q := strip_name (S (Z.to_nat (l_q l))) output 0 (l_q l) in
    let* drop_slash :=
      (if 1 <? q then
         if 2 <? q then ret true
         else let* c := load_byte output in ret (negb (c =? ch_slash))
       else ret false) in
    ret (Continue (Locals (l_p l) (if drop_slash then q - 1 else q) false (l_pending_up l) (l_loop_count l)))
  else
    let q := if component_size =? 0 then l_q l else u64 (l_q l + component_len) in
    let* c := load_byte (stack + l_p l) in
    ret (Continue (Locals (l_p l) q (negb (c =? 0)) (l_pending_up l) (l_loop_count l))).

(** A symbolic link of [link_len] bytes was read. *)
Definition follow_link (l : locals) (link_len : Z) : C X turn :=
  if l_loop_count l + 1 =? SYMLOOP_MAX then do* set_errno ELOOP in ret Fail
  else
    let* c := load_byte (stack + (link_len - 1)) in
    let* slashes := (if c =? ch_slash then ao_slash_len (stack + l_p l) else ret 0) in
    let p := u64 (u64 (l_p l + slashes) - link_len) in
    do* memmove (stack + p) stack link_len in
    ret (Restart (Locals p (l_q l) (l_check_dir l) (l_pending_up l) (l_loop_count l + 1))).

(** From the second test of [PATH_MAX] on. *)
Definition push_component (l : locals) (component_size component_len : Z) : C X turn :=
  let q := l_q l in
  if PATH_MAX <=? u64 (q + component_len) then too_long
  else
    do* memcpy (output + q) (stack + l_p l) component_len in
    do* store_byte (output + u64 (q + component_len)) 0 in
    let p := u64 (l_p l + component_len) in
    let l := Locals p q (l_check_dir l) (l_pending_up l) (l_loop_count l) in
    let* up := (if component_size =? 2 then
                  let* c := load_byte (stack + (p - 2)) in
                  if c =? ch_dot then let* c := load_byte (stack + (p - 1)) in ret (c =? ch_dot)
                  else ret false
                else ret false) in
    if up && (q <=? u64 (3 * l_pending_up l)) then
      ret (Continue (Locals p (u64 (q + component_len)) (l_check_dir l) (u64 (l_pending_up l + 1)) (l_loop_count l)))
    else if up && negb (l_check_dir l) then skip_readlink l up component_size component_len
    else
      let* link_len := readlink output stack p in
      if link_len =? p then too_long
      else if link_len =? 0 then do* set_errno ENOENT in ret Fail
      else if link_len <? 0 then
        let* e := get_errno in
        if negb (e =? EINVAL) then ret Fail
        else skip_readlink l up component_size component_len
      else follow_link l link_len.

(** One turn of the loop. *)
Definition realpath_turn (l : locals) : C X turn :=
  let* c := load_byte (stack + l_p l) in
  if c =? ch_slash then
    do* store_byte output ch_slash in
    let p := u64 (l_p l + 1) in
    let* c := load_byte (stack + p) in
    let* double := (if c =? ch_slash then
                      let* c := load_byte (stack + (p + 1)) in ret (negb (c =? ch_slash))
                    else ret false) in
    do* (if double then store_byte (output + 1) ch_slash else ret tt) in
    ret (Continue (Locals p (if double then 2 else 1) false 0 (l_loop_count l)))
  else
    let* end_ := ao_strchrnul (stack + l_p l) ch_slash in
    let component_size := u64 (end_ - (stack + l_p l)) in
    if (component_size =? 0) && negb (l_check_dir l) then ret (Break l)
    else
      let* dot := (if component_size =? 1 then
                     let* c := load_byte (stack + l_p l) in ret (c =? ch_dot)
                   else ret false) in
      if dot then
        ret (Continue (Locals (u64 (l_p l + component_size)) (l_q l) (l_check_dir l) (l_pending_up l) (l_loop_count l)))
      else
        let* slash := (if l_q l =? 0 then ret false
                       else let* c := load_byte (output + (l_q l - 1)) in ret (negb (c =? ch_slash))) in
        if slash then
          if l_p l =? 0 then too_long
          else
            let p := l_p l - 1 in
            do* store_byte (stack + p) ch_slash in
            push_component (Locals p (l_q l) (l_check_dir l) (l_pending_up l) (l_loop_count l))
              component_size (u64 (component_size + 1))
        else push_component l component_size component_size.

Fixpoint realpath_walk (fuel : nat) (l : locals) : C X (option locals) :=
  match fuel with
  | O => diverge
  | S fuel' =>
      let* t := realpath_turn l in
      match t with
      | Fail => ret None
      | Break l => ret (Some l)
      | Restart l => realpath_walk fuel' l
      | Continue l =>
          let* n := ao_slash_len (stack + l_p l) in
          realpath_walk fuel'
            (Locals (u64 (l_p l + n)) (l_q l) (l_check_dir l) (l_pending_up l) (l_loop_count l))
      end
  end.

(** [while (pending_up--)]: the current directory's length and the bytes of the
    output to skip. *)
Fixpoint climb (pending_up : nat) (q cwd_len skip : Z) : C X (Z * Z) :=
  match pending_up with
  | O => ret (cwd_len, skip)
  | S n =>
      let* cwd_len := strip_name (S (Z.to_nat cwd_len)) stack 1 cwd_len in
      let cwd_len := if 1 <? cwd_len then cwd_len - 1 else cwd_len in
      let skip := u64 (skip + 2) in
      let skip := if skip <? q then u64 (skip + 1) else skip in
      climb n q cwd_len skip
  end.

(** The output of the loop is relative to the current directory: the new length,
    or nothing on failure. *)
Definition prepend_cwd (q pending_up : Z) : C X (option Z) :=
  let* r := getcwd callee_fp stack (PATH_MAX + 1) in
  if r =? 0 then ret None
  else
    let* cwd_len := strlen stack in
    let* ' (cwd_len, skip) := climb (Z.to_nat pending_up) q cwd_len 0 in
    let* slash := (if u64 (q - skip) =? 0 then ret false
                   else let* c := load_byte (stack + (cwd_len - 1)) in ret (negb (c =? ch_slash))) in
    do* (if slash then store_byte (stack + cwd_len) ch_slash else ret tt) in
    let cwd_len := if slash then u64 (cwd_len + 1) else cwd_len in
    if PATH_MAX <=? u64 (u64 (cwd_len + u64 (q - skip)) + 1) then
      do* set_errno ENAMETOOLONG in ret None
    else
      do* memmove (output + cwd_len) (output + skip) (u64 (u64 (q - skip) + 1)) in
      do* memcpy output stack cwd_len in
      ret (Some (u64 (u64 (cwd_len + q) - skip))).

Definition realpath_finish (l : locals) (resolved : Z) : C X Z :=
  do* store_byte (output + l_q l) 0 in
  let* c := load_byte output in
  let* done := (if c =? ch_slash then ret (Some (l_q l)) else prepend_cwd (l_q l) (l_pending_up l)) in
  match done with
  | None => ret 0
  | Some q => if negb (resolved =? 0) then memcpy resolved output (u64 (q + 1)) else strdup output
  end.

(** Each turn but those that follow one of the at most 39 links shortens what is left
    of the path, of at most [PATH_MAX] bytes. *)
Definition walk_fuel : nat := Z.to_nat ((SYMLOOP_MAX + 1) * (2 * PATH_MAX + 4)).

Definition realpath (filename resolved : Z) : C X Z :=
  if filename =? 0 then fails_with EINVAL
  else
    let* len := strnlen filename (PATH_MAX + 1) in
    if len =? 0 then fails_with ENOENT
    else if PATH_MAX <=? len then fails_with ENAMETOOLONG
    else
      let p := u64 (u64 (PATH_MAX + 1 - len) - 1) in
      do* memcpy (stack + p) filename (u64 (len + 1)) in
      let* l := realpath_walk walk_fuel (Locals p 0 false 0 0) in
      match l with
      | None => ret 0
      | Some l => realpath_finish l resolved
      end.

End Realpath.

(** ** [tempnam] *)

Section Tempnam.
Context (fp : Z).
Definition path : Z := fp.
Definition dummy : Z := fp + PATH_MAX.

Fixpoint tempnam_loop (attempts : nat) (total_len : Z) : C X Z :=
  match attempts with
  | O => ret 0
  | S n =>
      do* ao_randname (path + total_len - 6) in
      let* r := readlink path dummy 1 in
      let* missing := (if r <? 0 then let* e := get_errno in ret (e =? ENOENT) else ret false) in
      if missing then strdup path else tempnam_loop n total_len
  end.

Definition tempnam (lits : literals) (dir pfx : Z) : C X Z :=
  let dir := if dir =? 0 then lit_tmpdir lits else dir in
  let pfx := if pfx =? 0 then lit_temp lits else pfx in
  let* dir_len := strlen dir in
  let* pfx_len := strlen pfx in
  let total_len := u64 (dir_len + 1 + pfx_len + 1 + 6) in
  if PATH_MAX <=? total_len then fails_with ENAMETOOLONG
  else
    do* memcpy path dir dir_len in
    do* store_byte (path + dir_len) ch_slash in
    do* memcpy (path + dir_len + 1) pfx pfx_len in
    do* store_byte (path + dir_len + 1 + pfx_len) 95 in
    do* store_byte (path + total_len) 0 in
    tempnam_loop MAXTRIES total_len.

End Tempnam.
End Definitions.
