(* ===== verification/PathSpec.v ===== *)
(** * Path resolution, abstractly

    What [realpath] computes, as a function on texts: the text already resolved, the
    text still to resolve, and the two flags.  [PathWalk] proves that the function
    in memory implements it; here are its termination and the shape of its result. *)
From S2P Require Import Prelude CMem CCmd CLib Alloc Strings Helpers Path.

(** What the file system says of a path: a symbolic link and its text, something
    else that exists, or an error. *)
Inductive answer := LinkTo (t : list Z) | NotLink | Unreadable (e : Z).

Record walk := Walk {
  w_rest : list Z;
  w_out : list Z;
  w_check : bool;
  w_pending : Z;
  w_loops : Z
}.

Inductive step := Next (w : walk) | Again (w : walk) | Stop | Error (e : Z).

(** The first component of a text, and what follows it. *)
Fixpoint component (cs : list Z) : list Z :=
  match cs with
  | [] => []
  | c :: cs' => if c =? ch_slash then [] else c :: component cs'
  end.
Fixpoint after (cs : list Z) : list Z :=
  match cs with
  | [] => []
  | c :: cs' => if c =? ch_slash then cs else after cs'
  end.
Fixpoint skip_slashes (cs : list Z) : list Z :=
  match cs with
  | c :: cs' => if c =? ch_slash then skip_slashes cs' else cs
  | [] => []
  end.

Definition starts_slash (cs : list Z) : bool :=
  match cs with c :: _ => c =? ch_slash | [] => false end.
Definition ends_slash (cs : list Z) : bool :=
  match list.last cs with Some c => c =? ch_slash | None => false end.

(** The parent of a resolved text: without its last component, and without the slash
    before it unless it is the root's. *)
Fixpoint strip_last (fuel : nat) (floor : Z) (cs : list Z) : list Z :=
  match fuel with
  | O => cs
  | S fuel' =>
      if (floor <? Z.of_nat (length cs)) && negb (ends_slash cs)
      then strip_last fuel' floor (removelast cs) else cs
  end.
Definition go_up (out : list Z) : list Z :=
  let out' := strip_last (length out) 0 out in
  if (1 <? Z.of_nat (length out')) && ((2 <? Z.of_nat (length out')) || negb (starts_slash out'))
  then removelast out' else out'.

(** The parent of the current directory, whose text always keeps its first slash. *)
Definition parent_dir (cwd : list Z) : list Z :=
  let cwd' := strip_last (length cwd) 1 cwd in
  if 1 <? Z.of_nat (length cwd') then removelast cwd' else cwd'.

Definition dot : list Z := [ch_dot].
Definition dotdot : list Z := [ch_dot; ch_dot].

Section Spec.
Context (fs : list Z -> answer).

(** The room before the text [rest], which ends at the end of the array. *)
Definition room (rest : list Z) : Z := PATH_MAX - Z.of_nat (length rest).

Definition joint (out : list Z) : list Z :=
  if negb (bool_decide (out = [])) && negb (ends_slash out) then [ch_slash] else [].

Definition leave (w : walk) (comp piece rest : list Z) : step :=
  if bool_decide (comp = dotdot) then Next (Walk rest (go_up (w_out w)) false (w_pending w) (w_loops w))
  else Next (Walk rest (if bool_decide (comp = []) then w_out w else w_out w ++ piece)
               (negb (bool_decide (rest = []))) (w_pending w) (w_loops w)).

Definition enter (w : walk) (t rest : list Z) : step :=
  if room rest <=? Z.of_nat (length t) then Error ENAMETOOLONG
  else if bool_decide (t = []) then Error ENOENT
  else if w_loops w + 1 =? SYMLOOP_MAX then Error ELOOP
  else Again (Walk (t ++ (if ends_slash t then skip_slashes rest else rest)) (w_out w) (w_check w)
                (w_pending w) (w_loops w + 1)).

Definition walk_step (w : walk) : step :=
  let '(Walk rest out check pending loops) := w in
  if starts_slash rest then
    let r := tail rest in
    Next (Walk r (if starts_slash r && negb (starts_slash (tail r)) then [ch_slash; ch_slash] else [ch_slash])
            false 0 loops)
  else
    let comp := component rest in
    let rest' := after rest in
    if bool_decide (comp = []) && negb check then Stop
    else if bool_decide (comp = dot) then Next (Walk rest' out check pending loops)
    else
      let piece := joint out ++ comp in
      if negb (bool_decide (joint out = [])) && (room rest =? 0) then Error ENAMETOOLONG
      else if PATH_MAX <=? Z.of_nat (length (out ++ piece)) then Error ENAMETOOLONG
      else if bool_decide (comp = dotdot) && (Z.of_nat (length out) <=? 3 * pending) then
        Next (Walk rest' (out ++ piece) check (pending + 1) loops)
      else if bool_decide (comp = dotdot) && negb check then leave w comp piece rest'
      else
        match fs (out ++ piece) with
        | LinkTo t => enter w t rest'
        | Unreadable e => Error e
        | NotLink => leave w comp piece rest'
        end.

(** The loop: the walk at its end, or the error. *)
Fixpoint walk_loop (fuel : nat) (w : walk) : option (walk + Z) :=
  match fuel with
  | O => None
  | S fuel' =>
      match walk_step w with
      | Stop => Some (inl w)
      | Error e => Some (inr e)
      | Again w' => walk_loop fuel' w'
      | Next w' => walk_loop fuel' (Walk (skip_slashes (w_rest w')) (w_out w') (w_check w') (w_pending w') (w_loops w'))
      end
  end.

(** The bytes of a relative output that stand for its [..]. *)
Fixpoint ups_length (pending : nat) (q skip : Z) : Z :=
  match pending with
  | O => skip
  | S n => ups_length n q (if skip + 2 <? q then skip + 3 else skip + 2)
  end.

(** What is left of the output goes behind the current directory, as many levels up
    as there are [..]. *)
Definition absolute (cwd : list Z) (pending : Z) (out : list Z) : list Z :=
  let base := Nat.iter (Z.to_nat pending) parent_dir cwd in
  let tl := drop (Z.to_nat (ups_length (Z.to_nat pending) (Z.of_nat (length out)) 0)) out in
  base ++ (if bool_decide (tl = []) then [] else joint base) ++ tl.

(** The whole function, of the text of the path and of the current directory (or the
    error of asking for it). *)
Definition resolve (fuel : nat) (cwd : list Z + Z) (filename : list Z) : option (list Z + Z) :=
  if bool_decide (filename = []) then Some (inr ENOENT)
  else if PATH_MAX <=? Z.of_nat (length filename) then Some (inr ENAMETOOLONG)
  else
    match walk_loop fuel (Walk filename [] false 0 0) with
    | None => None
    | Some (inr e) => Some (inr e)
    | Some (inl w) =>
        if starts_slash (w_out w) then Some (inl (w_out w))
        else
          match cwd with
          | inr e => Some (inr e)
          | inl cwd =>
              let r := absolute cwd (w_pending w) (w_out w) in
              if PATH_MAX <=? Z.of_nat (length r) + 1 then Some (inr ENAMETOOLONG) else Some (inl r)
          end
    end.

End Spec.

(** ** Components *)

Lemma component_after cs : component cs ++ after cs = cs.
Proof. induction cs as [|c cs IH]; [done|]. cbn. case_cmp; [done|]. cbn. by rewrite IH. Qed.

Lemma component_no_slash cs : Forall (fun c => c <> ch_slash) (component cs).
Proof. induction cs as [|c cs IH]; cbn; [constructor|]. case_cmp; by constructor. Qed.

Lemma component_nil cs : starts_slash cs = false -> component cs = [] -> cs = [].
Proof. destruct cs as [|c cs]; [done|]. cbn. intros ->. done. Qed.

Lemma length_skip_slashes cs : (length (skip_slashes cs) <= length cs)%nat.
Proof. induction cs as [|c cs IH]; cbn; [done|]. case_cmp; cbn; lia. Qed.

Lemma length_after cs :
  (length (after cs) + length (component cs) = length cs)%nat.
Proof. rewrite <- (component_after cs) at 3. rewrite length_app. lia. Qed.

(** ** Termination *)

Definition measure (w : walk) : Z :=
  2 * Z.of_nat (length (w_rest w)) + if w_check w then 1 else 0.

Section Termination.
Context (fs : list Z -> answer).

Lemma leave_next w comp piece rest w' n :
  leave w comp piece rest = Next w' -> 2 * Z.of_nat (length rest) < n ->
  (rest <> [] -> 2 * Z.of_nat (length rest) + 1 < n) ->
  w_loops w' = w_loops w /\ measure w' < n.
Proof.
  unfold leave, measure. intros H H1 H2.
  case_bool_decide; injection H as <-; cbn; (split; [done|]); [lia|].
  destruct (bool_decide_reflect (rest = [])) as [->|Hr]; cbn in *; [lia|]. specialize (H2 Hr). lia.
Qed.

Lemma leave_shape w comp piece rest : exists w', leave w comp piece rest = Next w'.
Proof. unfold leave. case_bool_decide; eauto. Qed.

Lemma enter_again w t rest w' :
  enter w t rest = Again w' ->
  w_loops w' = w_loops w + 1 /\ w_loops w' <> SYMLOOP_MAX /\ Z.of_nat (length (w_rest w')) < PATH_MAX.
Proof.
  unfold enter, room. destruct (Z.leb_spec (PATH_MAX - Z.of_nat (length rest)) (Z.of_nat (length t))); [done|].
  case_bool_decide; [done|]. destruct (Z.eqb_spec (w_loops w + 1) SYMLOOP_MAX); [done|].
  intros [= <-]. cbn [w_loops w_rest]. split_and!; [done|done|]. rewrite length_app.
  pose proof (length_skip_slashes rest). destruct (ends_slash t); lia.
Qed.

Lemma enter_not_next w t rest w' : enter w t rest <> Next w'.
Proof. unfold enter. by repeat case_match. Qed.

(** A turn that follows no link comes closer to the end. *)
Lemma step_next w w' :
  walk_step fs w = Next w' -> w_loops w' = w_loops w /\ measure w' < measure w.
Proof.
  destruct w as [rest out check pending loops]. unfold walk_step.
  destruct (starts_slash rest) eqn:Hs.
  { destruct rest as [|c r]; [done|]. intros [= <-]. unfold measure. cbn [w_rest w_check w_loops tail length].
    split; [done|]. destruct check; lia. }
  pose proof (length_after rest) as Hl.
  assert (Hc : component rest = [] -> rest = []) by (by apply component_nil).
  destruct (decide (component rest = [] /\ check = false)) as [[H1 ->]|Hn].
  { rewrite H1. done. }
  replace (bool_decide (component rest = []) && negb check) with false.
  2: { symmetry. case_bool_decide; [|done]. destruct check; [done|]. exfalso. by apply Hn. }
  assert (Hm : 2 * Z.of_nat (length (after rest)) < measure (Walk rest out check pending loops) /\
    (after rest <> [] -> 2 * Z.of_nat (length (after rest)) + 1 < measure (Walk rest out check pending loops))).
  { unfold measure. cbn [w_rest w_check]. destruct (component rest) as [|c0 comp] eqn:E.
    - rewrite (Hc eq_refl) in *. destruct check; [|exfalso; by apply Hn]. cbn. by split; [lia|].
    - cbn [length] in Hl. destruct check; lia. }
  case_bool_decide as Hdot.
  { intros [= <-]. split; [done|]. rewrite Hdot in Hl. unfold measure in *. cbn [w_rest w_check] in *. cbn in Hl.
    destruct check; lia. }
  case_match; [done|]. case_match; [done|]. case_match eqn:Hup.
  { intros [= <-]. split; [done|]. apply andb_true_iff in Hup as [Hup _]. apply bool_decide_eq_true in Hup.
    rewrite Hup in Hl. unfold measure in *. cbn [w_rest w_check] in *. cbn in Hl. destruct check; lia. }
  case_match; [intros H'; eapply leave_next in H'; [exact H'|apply Hm..]|].
  case_match; [|intros H'; eapply leave_next in H'; [exact H'|apply Hm..]|done].
  intros H'. by apply enter_not_next in H'.
Qed.

Lemma step_again w w' :
  walk_step fs w = Again w' -> w_loops w' = w_loops w + 1 /\ w_loops w' <> SYMLOOP_MAX /\
    Z.of_nat (length (w_rest w')) < PATH_MAX.
Proof.
  destruct w as [rest out check pending loops]. unfold walk_step, leave.
  repeat case_match; try done; intros H'; by apply enter_again in H'.
Qed.

(** The loop ends: a link is followed at most [SYMLOOP_MAX - 1] times. *)
Lemma walk_terminates fuel w :
  Z.of_nat (length (w_rest w)) <= PATH_MAX -> w_loops w < SYMLOOP_MAX ->
  measure w + (SYMLOOP_MAX - w_loops w) * (2 * PATH_MAX + 2) < Z.of_nat fuel ->
  exists r, walk_loop fs fuel w = Some r.
Proof.
  revert w. induction fuel as [|fuel IH]; intros w Hl Hk Hf.
  { unfold measure in Hf. destruct (w_check w); unfold PATH_MAX in *; nia. }
  cbn [walk_loop]. destruct (walk_step fs w) as [w'|w'| |e] eqn:E; [| |eauto..].
  - apply step_next in E as [E1 E2]. pose proof (length_skip_slashes (w_rest w')).
    apply IH; cbn [w_rest w_loops]; rewrite ?E1; [|done|].
    + unfold measure in *. destruct (w_check w), (w_check w'); lia.
    + unfold measure in *. cbn [w_rest w_check w_loops] in *. destruct (w_check w'); lia.
  - apply step_again in E as (E1 & E2 & E3). apply IH; [lia|lia|]. rewrite E1.
    unfold measure in *. destruct (w_check w), (w_check w'); unfold PATH_MAX in *; nia.
Qed.

End Termination.

(** ** Resolved texts *)

(** Components appended to a root, with a slash where one is needed. *)
Definition text (root : list Z) (names : list (list Z)) : list Z :=
  fold_left (fun out n => out ++ joint out ++ n) names root.

Lemma text_snoc root names n :
  text root (names ++ [n]) = text root names ++ joint (text root names) ++ n.
Proof. unfold text. by rewrite fold_left_app. Qed.

(** A component of a resolved path. *)
Record proper (n : list Z) : Prop := {
  prop_nonempty : n <> [];
  prop_no_slash : Forall (fun c => c <> ch_slash) n;
  prop_not_dot : n <> dot;
  prop_not_dotdot : n <> dotdot
}.

Definition is_root (root : list Z) : Prop := root = [ch_slash] \/ root = [ch_slash; ch_slash].

Lemma last_app_name (out n : list Z) :
  n <> [] -> Forall (fun c => c <> ch_slash) n -> ends_slash (out ++ n) = false.
Proof.
  intros Hn HF. destruct (exists_last Hn) as (n' & c & ->).
  apply Forall_app in HF as [_ HF]. apply list.Forall_cons in HF as [Hc _].
  unfold ends_slash. rewrite app_assoc, last_snoc. by apply Z.eqb_neq.
Qed.

(** Stripping the last component stops at the slash before it. *)
Lemma strip_last_app out n fuel :
  Forall (fun c => c <> ch_slash) n -> (length n <= fuel)%nat -> out = [] \/ ends_slash out = true ->
  strip_last fuel 0 (out ++ n) = out.
Proof.
  revert n. induction fuel as [|fuel IH]; intros n HF Hl Ho.
  { destruct n; [by rewrite app_nil_r|cbn in Hl; lia]. }
  destruct n as [|c n _] using rev_ind.
  - rewrite app_nil_r. cbn. destruct Ho as [->|Ho]; [done|]. rewrite Ho. by rewrite andb_false_r.
  - cbn [strip_last]. rewrite last_app_name; [|by destruct n|done].
    rewrite length_app in Hl. rewrite !length_app. cbn [length] in *.
    destruct (Z.ltb_spec 0 (Z.of_nat (length out + (length n + 1)))); [|lia]. cbn [negb andb].
    rewrite app_assoc, removelast_last. apply Forall_app in HF as [HF _]. apply IH; [done|lia|done].
Qed.

Lemma ends_slash_snoc out : ends_slash (out ++ [ch_slash]) = true.
Proof. unfold ends_slash. by rewrite last_snoc. Qed.

Lemma joint_spec out :
  (joint out = [] /\ (out = [] \/ ends_slash out = true)) \/
  (joint out = [ch_slash] /\ out <> [] /\ ends_slash out = false).
Proof.
  unfold joint. case_bool_decide; cbn; [left; auto|]. destruct (ends_slash out); cbn; auto.
Qed.

(** The parent of a text with at least one component. *)
Lemma go_up_app out n :
  n <> [] -> Forall (fun c => c <> ch_slash) n -> out = [] \/ is_root out \/ joint out <> [] ->
  go_up (out ++ joint out ++ n) = out.
Proof.
  intros Hn HF Ho. unfold go_up.
  destruct (joint_spec out) as [[Hj He]|(Hj & Hne & He)]; rewrite Hj.
  - rewrite app_nil_l. rewrite strip_last_app; [|done|rewrite length_app; lia|done].
    destruct Ho as [->|[[->| ->]|Ho]]; done.
  - rewrite app_assoc, strip_last_app;
      [|done|rewrite !length_app; cbn; lia|right; apply ends_slash_snoc].
    rewrite length_app. cbn [length]. destruct (Z.ltb_spec 1 (Z.of_nat (length out + 1))).
    2: { destruct out; [done|cbn in *; lia]. }
    cbn [andb]. rewrite removelast_last.
    destruct (Z.ltb_spec 2 (Z.of_nat (length out + 1))); [done|].
    destruct out as [|c [|d out]]; [done| |cbn in *; lia].
    cbn in He |- *. by rewrite He.
Qed.

Lemma go_up_root root : is_root root -> go_up root = root.
Proof. intros [->| ->]; done. Qed.

Lemma ends_name root names n :
  n <> [] -> Forall (fun c => c <> ch_slash) n -> ends_slash (text root (names ++ [n])) = false.
Proof. intros Hn HF. rewrite text_snoc, app_assoc. by apply last_app_name. Qed.

Lemma text_nonempty root names n : n <> [] -> text root (names ++ [n]) <> [].
Proof. intros Hn. rewrite text_snoc. by destruct (text root names), (joint (text root names)), n. Qed.

Lemma text_shape root names :
  is_root root \/ root = [] -> Forall (fun n => n <> [] /\ Forall (fun c => c <> ch_slash) n) names ->
  text root names = [] \/ is_root (text root names) \/ joint (text root names) <> [].
Proof.
  intros Hr HF. destruct names as [|n names _] using rev_ind; [cbn; tauto|].
  apply Forall_app in HF as [_ HF]. apply list.Forall_cons in HF as [[Hn Hs] _]. right; right.
  unfold joint. rewrite ends_name by done. rewrite bool_decide_eq_false_2; [done|].
  by apply text_nonempty.
Qed.

Lemma dotdot_name : dotdot <> [] /\ Forall (fun c => c <> ch_slash) dotdot.
Proof. split; [done|]. repeat constructor; done. Qed.

(** ** What the walk maintains *)

Section Canonical.
Context (fs : list Z -> answer).

(** The resolved text: a root, or nothing and [pending] times [..], then components
    none of which is special, and every path to one of them exists and is not a
    symbolic link. *)
Record resolved (root : list Z) (pending : Z) (names : list (list Z)) (out : list Z) : Prop := {
  rs_root : is_root root \/ root = [];
  rs_pending : 0 <= pending /\ (is_root root -> pending = 0);
  rs_names : Forall proper names;
  rs_text : out = text root (replicate (Z.to_nat pending) dotdot ++ names);
  rs_links k : (0 < k <= length names)%nat ->
    fs (text root (replicate (Z.to_nat pending) dotdot ++ take k names)) = NotLink
}.

Lemma resolved_names root pending names out :
  resolved root pending names out ->
  Forall (fun n => n <> [] /\ Forall (fun c => c <> ch_slash) n)
    (replicate (Z.to_nat pending) dotdot ++ names).
Proof.
  intros R. apply Forall_app. split; [apply Forall_replicate, dotdot_name|].
  eapply list.Forall_impl; [apply R|]. intros n [? ? _ _]. done.
Qed.

(** The length of a chain of [..]. *)
Lemma length_ups n :
  Z.of_nat (length (text [] (replicate n dotdot))) = if decide (n = 0%nat) then 0 else 3 * Z.of_nat n - 1.
Proof.
  induction n as [|n IH]; [done|]. rewrite replicate_S_end, text_snoc, !length_app.
  destruct (decide (S n = 0%nat)); [done|]. destruct n as [|n]; [done|].
  destruct (decide (S n = 0%nat)); [done|].
  assert (He : ends_slash (text [] (replicate (S n) dotdot)) = false)
    by (rewrite replicate_S_end; apply ends_name; apply dotdot_name).
  assert (Hne : text [] (replicate (S n) dotdot) <> [])
    by (rewrite replicate_S_end; by apply text_nonempty).
  unfold joint. rewrite He, bool_decide_eq_false_2 by done. cbn [negb andb length dotdot]. lia.
Qed.

Lemma length_text_app root ns names :
  Z.of_nat (length (text root ns)) <= Z.of_nat (length (text root (ns ++ names))).
Proof.
  induction names as [|m names IH] using rev_ind; [by rewrite app_nil_r|].
  rewrite app_assoc, text_snoc, !length_app. lia.
Qed.

Lemma head_text_app root ns names c :
  head (text root ns) = Some c -> head (text root (ns ++ names)) = Some c.
Proof.
  intros H. induction names as [|m names IH] using rev_ind; [by rewrite app_nil_r|].
  rewrite app_assoc, text_snoc. by destruct (text root (ns ++ names)).
Qed.

(** The text is no longer than its [..] only when there is nothing else. *)
Lemma only_ups root pending names out :
  resolved root pending names out -> Z.of_nat (length out) <= 3 * pending -> root = [] /\ names = [].
Proof.
  intros R Hl. destruct (rs_pending _ _ _ _ R) as [Hp Hp0]. rewrite (rs_text _ _ _ _ R) in Hl.
  pose proof (resolved_names _ _ _ _ R) as HF.
  destruct names as [|n names _] using rev_ind.
  - destruct (rs_root _ _ _ _ R) as [Hr|]; [|done]. rewrite (Hp0 Hr) in Hl.
    by destruct Hr as [->| ->].
  - exfalso. rewrite app_assoc, text_snoc, !length_app in Hl.
    assert (Hn : (1 <= length n)%nat).
    { rewrite app_assoc in HF. apply Forall_app in HF as [_ HF].
      apply list.Forall_cons in HF as [[Hn _] _]. destruct n; [done|cbn; lia]. }
    pose proof (length_text_app root (replicate (Z.to_nat pending) dotdot) names) as Hb.
    destruct (rs_root _ _ _ _ R) as [Hr|Hr].
    { rewrite (Hp0 Hr) in *. cbn in Hb. destruct Hr as [->| ->]; cbn in Hb; lia. }
    subst root. rewrite length_ups in Hb.
    assert (Hj : pending <> 0 -> joint (text [] (replicate (Z.to_nat pending) dotdot ++ names)) <> []).
    { intros Hpz. destruct (decide (Z.to_nat pending = 0%nat)); [lia|].
      rewrite app_assoc in HF. apply Forall_app in HF as [HF _].
      destruct (text_shape [] _ (or_intror eq_refl) HF) as [H0|[H0|H0]]; [| |done].
      - rewrite H0 in Hb. cbn in Hb. lia.
      - assert (Hh : head (text [] (replicate (Z.to_nat pending) dotdot ++ names)) = Some ch_dot).
        { destruct (Z.to_nat pending) as [|k]; [done|].
          change (replicate (S k) dotdot ++ names) with ([dotdot] ++ (replicate k dotdot ++ names)).
          apply head_text_app. done. }
        by destruct H0 as [H0|H0]; rewrite H0 in Hh. }
    destruct (decide (Z.to_nat pending = 0%nat)); [lia|].
    destruct (joint _); [by apply Hj; [lia|]|cbn [length] in Hl; lia].
Qed.

Lemma resolved_root root : is_root root -> resolved root 0 [] root.
Proof. intros H. split; [by left|done|constructor|done|cbn; lia]. Qed.

Lemma resolved_empty : resolved [] 0 [] [].
Proof. split; [by right|done|constructor|done|cbn; lia]. Qed.

Lemma resolved_push root pending names out n :
  resolved root pending names out -> proper n -> fs (out ++ joint out ++ n) = NotLink ->
  resolved root pending (names ++ [n]) (out ++ joint out ++ n).
Proof.
  intros R Hn Hfs. pose proof (rs_text _ _ _ _ R) as Ht. split; try apply R.
  - apply Forall_app. split; [apply R|by constructor].
  - by rewrite (app_assoc (replicate _ _)), text_snoc, <- Ht.
  - intros k Hk. rewrite length_app in Hk. cbn [length] in Hk.
    destruct (decide (k = S (length names))) as [->|Hne].
    + rewrite take_ge by (rewrite length_app; cbn [length]; lia).
      by rewrite (app_assoc (replicate _ _)), text_snoc, <- Ht.
    + rewrite take_app_le by lia. apply R. lia.
Qed.

Lemma resolved_up root pending names out :
  resolved root pending names out -> Z.of_nat (length out) <= 3 * pending ->
  resolved [] (pending + 1) [] (out ++ joint out ++ dotdot).
Proof.
  intros R Hl. destruct (only_ups _ _ _ _ R Hl) as [-> ->].
  destruct (rs_pending _ _ _ _ R) as [Hp _]. pose proof (rs_text _ _ _ _ R) as Ht.
  rewrite app_nil_r in Ht. split; [by right|split; [lia|by intros [?|?]]|constructor| |cbn; lia].
  rewrite Z2Nat.inj_add by lia. change (Z.to_nat 1) with 1%nat. rewrite Nat.add_1_r, app_nil_r.
  by rewrite replicate_S_end, text_snoc, <- Ht.
Qed.

Lemma resolved_parent root pending names out :
  resolved root pending names out -> ~ Z.of_nat (length out) <= 3 * pending ->
  exists names', resolved root pending names' (go_up out).
Proof.
  intros R Hl. pose proof (rs_text _ _ _ _ R) as Ht. pose proof (resolved_names _ _ _ _ R) as HF.
  destruct names as [|n names _] using rev_ind.
  - exists []. rewrite app_nil_r in Ht. destruct (rs_root _ _ _ _ R) as [Hr| ->].
    + pose proof (proj2 (rs_pending _ _ _ _ R) Hr) as ->. cbn in Ht. subst out. by rewrite go_up_root.
    + exfalso. rewrite Ht, length_ups in Hl. pose proof (rs_pending _ _ _ _ R). case_decide; lia.
  - exists names. rewrite app_assoc in HF, Ht. apply Forall_app in HF as [HF Hn].
    apply list.Forall_cons in Hn as [[Hn Hs] _]. rewrite text_snoc in Ht.
    rewrite Ht, go_up_app; [|done|done|by apply text_shape; [apply R|]].
    pose proof (rs_names _ _ _ _ R) as HP. apply Forall_app in HP as [HP _].
    split; try apply R; [done|done|]. intros k Hk.
    rewrite <- (rs_links _ _ _ _ R k) by (rewrite length_app; lia). by rewrite take_app_le by lia.
Qed.

Definition walk_ok (w : walk) : Prop := exists root names, resolved root (w_pending w) names (w_out w).

Lemma leave_ok w comp rest w' :
  walk_ok w -> Forall (fun c => c <> ch_slash) comp -> comp <> dot ->
  (comp = dotdot -> ~ Z.of_nat (length (w_out w)) <= 3 * w_pending w) ->
  (comp <> dotdot -> fs (w_out w ++ joint (w_out w) ++ comp) = NotLink) ->
  leave w comp (joint (w_out w) ++ comp) rest = Next w' -> walk_ok w'.
Proof.
  intros (root & names & R) Hs Hd Hup Hfs. unfold leave. case_bool_decide as Hdd; intros [= <-].
  - destruct (resolved_parent _ _ _ _ R (Hup Hdd)) as [names' R']. by exists root, names'.
  - unfold walk_ok. cbn [w_out w_pending]. case_bool_decide as Hc; [by exists root, names|].
    exists root, (names ++ [comp]). by apply resolved_push; [| |apply Hfs].
Qed.

Lemma enter_ok w t rest w' : walk_ok w -> enter w t rest = Again w' -> walk_ok w'.
Proof. unfold enter. intros H. repeat case_match; try done; intros [= <-]; exact H. Qed.

Lemma step_ok w w' :
  walk_ok w -> walk_step fs w = Next w' \/ walk_step fs w = Again w' -> walk_ok w'.
Proof.
  destruct w as [rest out check pending loops]. intros H. unfold walk_step.
  destruct (starts_slash rest).
  { intros [[= <-]|[=]]. set (root := if _ : bool then _ else _).
    exists root, []. apply resolved_root. unfold root, is_root. case_match; auto. }
  set (comp := component rest). pose proof (component_no_slash rest) as Hs. fold comp in Hs.
  case_match; [by intros [|]|]. destruct (bool_decide_reflect (comp = dot)) as [Hd|Hd]; [intros [E|E]; [injection E as <-; exact H|done]|].
  case_match; [by intros [|]|]. case_match; [by intros [|]|].
  destruct (bool_decide_reflect (comp = dotdot)) as [Hdd|Hdd]; cbn [andb].
  - destruct (Z.leb_spec (Z.of_nat (length out)) (3 * pending)) as [Hle|Hgt].
    { intros [[= <-]|[=]]. destruct H as (root & names & R). exists [], [].
      cbn [w_out w_pending] in *. rewrite Hdd. by eapply resolved_up. }
    destruct check; cbn [negb].
    2: { intros [E|E]; [|by destruct (leave_shape (Walk rest out false pending loops) comp (joint out ++ comp) (after rest)) as [w2 E2]; rewrite E2 in E].
         eapply leave_ok in E; [done|done|done|done|cbn; lia|done]. }
    destruct (fs (out ++ joint out ++ comp)) eqn:Hf; [| |by intros [|]].
    + intros [E|E]; [by apply enter_not_next in E|]. by eapply enter_ok.
    + intros [E|E]; [|by destruct (leave_shape (Walk rest out true pending loops) comp (joint out ++ comp) (after rest)) as [w2 E2]; rewrite E2 in E].
      eapply leave_ok in E; [done|done|done|done|cbn; lia|done].
  - destruct (fs (out ++ joint out ++ comp)) eqn:Hf; [| |by intros [|]].
    + intros [E|E]; [by apply enter_not_next in E|]. by eapply enter_ok.
    + intros [E|E]; [|by destruct (leave_shape (Walk rest out check pending loops) comp (joint out ++ comp) (after rest)) as [w2 E2]; rewrite E2 in E].
      eapply leave_ok in E; [done|done|done|done|done|done].
Qed.

Lemma walk_loop_ok fuel w w' : walk_ok w -> walk_loop fs fuel w = Some (inl w') -> walk_ok w'.
Proof.
  revert w. induction fuel as [|fuel IH]; intros w H; [done|]. cbn [walk_loop].
  destruct (walk_step fs w) as [w1|w1| |e] eqn:E; intros Hw.
  - eapply IH; [|exact Hw]. apply (step_ok w w1); auto.
  - eapply IH; [|exact Hw]. apply (step_ok w w1); auto.
  - by injection Hw as <-.
  - done.
Qed.

End Canonical.
