(* ===== verification/PathWalk.v ===== *)
(** * [realpath] implements path resolution

    The function in memory, on its two arrays, computes what [PathSpec] says: one
    lemma per part of a turn of the loop, then the loop. *)
From S2P Require Import Prelude CMem CCmd CLib Alloc Strings Helpers Path PathSpec.

(** ** The scanning loops *)

Lemma stop_index_component cs :
  stop_index ch_slash cs = Z.of_nat (length (component cs)).
Proof. induction cs as [|c cs IH]; [done|]. cbn [stop_index component]. case_cmp; cbn [length]; lia. Qed.

Lemma slash_run_spec m s k cs fuel :
  cstring m (s + k) cs -> (length cs < fuel)%nat ->
  slash_run fuel m s k = Some (k + Z.of_nat (length cs - length (skip_slashes cs))).
Proof.
  revert k fuel. induction cs as [|c cs IH]; intros k [|fuel] [H HF] Hf; try (cbn in Hf; lia);
    cbn [slash_run skip_slashes app] in *; apply holds_cons in H as [Hc H]; rewrite Hc.
  - cbn. f_equal. lia.
  - apply list.Forall_cons in HF as [Hc0 HF]. pose proof (length_skip_slashes cs).
    case_cmp; [|cbn [length]; f_equal; lia].
    rewrite IH; [cbn [length]; f_equal; lia| |cbn in Hf; lia].
    split; [|done]. by replace (s + (k + 1)) with (s + k + 1) by lia.
Qed.

Lemma wp_slash_len {X} E a cs (Q : Z -> st X -> Prop) s :
  cstring (mem s) a cs -> Q (Z.of_nat (length cs - length (skip_slashes cs))) s -> wp E (ao_slash_len a) Q s.
Proof.
  intros H HQ. eapply wp_reads; [|exact HQ].
  pose proof (scan_fuel _ _ _ (proj1 H)) as Hf. rewrite length_app in Hf. cbn in Hf.
  rewrite (slash_run_spec _ a 0 cs); [f_equal; lia|by rewrite Z.add_0_r|lia].
Qed.

Lemma skip_slashes_suffix cs : exists n, cs = replicate n ch_slash ++ skip_slashes cs.
Proof.
  induction cs as [|c cs [n IH]]; [by exists 0%nat|]. cbn. case_cmp; [|by exists 0%nat].
  exists (S n). subst c. cbn. by rewrite <- IH.
Qed.

Lemma skip_slashes_drop cs : skip_slashes cs = drop (length cs - length (skip_slashes cs)) cs.
Proof.
  destruct (skip_slashes_suffix cs) as [n Hn].
  assert (Hl : length cs = (n + length (skip_slashes cs))%nat)
    by (rewrite Hn at 1; by rewrite length_app, length_replicate).
  replace (length cs - length (skip_slashes cs))%nat with n by lia.
  rewrite Hn at 2. by rewrite drop_app_length' by (by rewrite length_replicate).
Qed.

(** ** Texts in memory *)

(** The part of a string from an index on. *)
Lemma cstring_drop m a cs (n : nat) :
  cstring m a cs -> (n <= length cs)%nat -> cstring m (a + Z.of_nat n) (drop n cs).
Proof.
  intros [H HF] Hn. split; [|by apply Forall_drop].
  rewrite <- (take_drop n cs), <- app_assoc in H. apply holds_app in H as [_ H].
  by rewrite length_take, Nat.min_l in H by lia.
Qed.

Lemma wp_load_head {X} E a cs (Q : Z -> st X -> Prop) s :
  holds (mem s) a (cs ++ [0]) -> (forall c, (c =? ch_slash) = starts_slash cs ->
    (Forall (fun c => c <> 0) cs -> (c =? 0) = bool_decide (cs = [])) -> Q c s) -> wp E (load_byte a) Q s.
Proof.
  intros H HQ. destruct cs as [|c cs]; cbn [app] in H; apply holds_cons in H as [Hc _];
    (eapply wp_load_byte; [exact Hc|]); apply HQ; try done.
  intros [Hc0 _]%list.Forall_cons. rewrite bool_decide_eq_false_2 by done. by apply Z.eqb_neq.
Qed.

Lemma wp_load_last {X} E a cs n (Q : Z -> st X -> Prop) s :
  holds (mem s) a cs -> cs <> [] -> n = Z.of_nat (length cs) ->
  (forall c, (c =? ch_slash) = ends_slash cs -> Q c s) -> wp E (load_byte (a + (n - 1))) Q s.
Proof.
  intros H Hne -> HQ. destruct (exists_last Hne) as (cs' & c & ->).
  apply (wp_load_byte _ _ c).
  - rewrite length_app. cbn [length]. replace (a + (Z.of_nat (length cs' + 1) - 1)) with (a + Z.of_nat (length cs')) by lia.
    apply H. by rewrite lookup_app_at.
  - apply HQ. unfold ends_slash. by rewrite last_snoc.
Qed.

Lemma removelast_take {A} (cs : list A) : removelast cs = take (length cs - 1) cs.
Proof. rewrite removelast_firstn_len. f_equal. lia. Qed.

Lemma strip_last_prefix fuel floor cs : exists k, strip_last fuel floor cs = take k cs.
Proof.
  revert cs. induction fuel as [|fuel IH]; intros cs; cbn [strip_last];
    [exists (length cs); by rewrite take_ge|].
  case_match; [|exists (length cs); by rewrite take_ge].
  destruct (IH (removelast cs)) as [k ->]. rewrite removelast_take, take_take. eauto.
Qed.

Lemma strip_name_wp {X} E fuel base floor cs (Q : Z -> st X -> Prop) s :
  holds (mem s) base cs -> 0 <= floor -> (length cs < fuel)%nat ->
  Q (Z.of_nat (length (strip_last (length cs) floor cs))) s ->
  wp E (strip_name fuel base floor (Z.of_nat (length cs))) Q s.
Proof.
  revert cs. induction fuel as [|fuel IH]; intros cs H Hfl Hf HQ; [lia|]. cbn [strip_name].
  destruct (length cs) as [|n] eqn:El.
  { destruct (Z.ltb_spec floor (Z.of_nat 0)); [lia|]. apply wp_ret. cbn in HQ. by rewrite El in HQ. }
  cbn [strip_last] in HQ. rewrite El in HQ.
  destruct (Z.ltb_spec floor (Z.of_nat (S n))) as [Hlt|Hge]; cbn [andb] in HQ.
  2: { apply wp_ret. by rewrite El in HQ. }
  apply wp_bind, (wp_load_last _ _ cs); [done|by destruct cs|by rewrite El|].
  intros c Hc. rewrite Hc. destruct (ends_slash cs); cbn [negb] in HQ.
  { apply wp_ret. by rewrite El in HQ. }
  assert (Hr : length (removelast cs) = n) by (rewrite removelast_take, length_take; lia).
  replace (Z.of_nat (S n) - 1) with (Z.of_nat (length (removelast cs))) by lia.
  apply IH; [|done|lia|by rewrite Hr].
  rewrite removelast_take. by apply holds_take.
Qed.

(** ** What [readlink] says *)

Record file_system {X} `{!PathWorld X} (fs : list Z -> answer) : Prop := {
  fs_readlink s a path buf n : cstring (mem s) a path -> 0 < n -> mapped (mem s) buf n ->
    a + Z.of_nat (length path) + 1 <= buf \/ buf + n <= a ->
    wp no_exit (readlink a buf n) (fun r s' => ext s' = ext s /\
      match fs path with
      | LinkTo t => r = Z.min (Z.of_nat (length t)) n /\
          mem s' = write (mem s) buf (take (Z.to_nat n) t)
      | NotLink => r = -1 /\ errno s' = EINVAL /\ mem s' = mem s
      | Unreadable e => r = -1 /\ errno s' = e /\ mem s' = mem s
      end) s;
  fs_text path t : fs path = LinkTo t -> Forall (fun c => c <> 0) t;
  fs_error path e : fs path = Unreadable e -> e <> EINVAL
}.

(** The two arrays of the frame. *)
Definition frame_size : Z := 2 * PATH_MAX + 1.

(** A state of a function: only the memory of its frame, of [n] bytes, has changed. *)
Record framed_in {X} (n fp : Z) (s0 s : st X) : Prop := {
  fr_outside : same_outside fp n (mem s0) (mem s);
  fr_dom : same_dom (mem s0) (mem s);
  fr_ext : ext s = ext s0
}.

Abbreviation framed := (framed_in frame_size).

Section Walk.
Context {X : Type} `{!Allocator X} `{!PathWorld X}.
Context (fs : list Z -> answer) (FS : file_system fs) (fp : Z) (s0 : st X).
Context (Hframe : mapped (mem s0) fp frame_size) (Hfp : 0 < fp /\ fp + frame_size <= SIZE_MAX).

Lemma framed_mapped s a n :
  framed fp s0 s -> fp <= a -> a + n <= fp + frame_size -> mapped (mem s) a n.
Proof. intros F Ha He. rewrite <- (fr_dom _ _ _ _ F). eapply mapped_sub; [exact Hframe|done|done]. Qed.

Lemma framed_write s a bs e :
  framed fp s0 s -> fp <= a -> a + Z.of_nat (length bs) <= fp + frame_size ->
  framed fp s0 (St (write (mem s) a bs) e (ext s)).
Proof.
  intros F Ha He. split; cbn [mem ext]; [| |apply F].
  - intros x Hx. rewrite lookup_write_out by lia. by apply F.
  - etransitivity; [apply F|]. apply same_dom_write. by apply framed_mapped.
Qed.

Lemma framed_errno s e : framed fp s0 s -> framed fp s0 (St (mem s) e (ext s)).
Proof. intros F. split; apply F. Qed.

(** The locals and the arrays stand for a state of the abstract walk. *)
Record at_walk (s : st X) (l : locals) (w : walk) : Prop := {
  aw_framed : framed fp s0 s;
  aw_p : l_p l = room (w_rest w) /\ 1 <= room (w_rest w);
  aw_q : l_q l = Z.of_nat (length (w_out w)) /\ Z.of_nat (length (w_out w)) < PATH_MAX;
  aw_check : l_check_dir l = w_check w;
  aw_pending : l_pending_up l = w_pending w;
  aw_loops : l_loop_count l = w_loops w;
  aw_rest : cstring (mem s) (stack fp + room (w_rest w)) (w_rest w);
  aw_out : holds (mem s) (output fp) (w_out w);
  aw_text : Forall (fun c => c <> 0) (w_out w);
  aw_ok : walk_ok fs w
}.

(** What a turn of the loop does, given what the abstract turn does. *)
Definition turn_post (w : walk) (r : step) (t : turn) (s' : st X) : Prop :=
  match r with
  | Next w' => exists l', t = Continue l' /\ at_walk s' l' w'
  | Again w' => exists l', t = Restart l' /\ at_walk s' l' w'
  | Stop => exists l', t = Break l' /\ at_walk s' l' w
  | Error e => t = Fail /\ errno s' = e /\ framed fp s0 s'
  end.

Lemma pending_bound w : walk_ok fs w -> 0 <= w_pending w /\ 3 * w_pending w <= Z.of_nat (length (w_out w)) + 1.
Proof.
  intros (root & names & R). destruct (rs_pending _ _ _ _ _ R) as [Hp Hr]. split; [done|].
  destruct (rs_root _ _ _ _ _ R) as [H| ->]; [specialize (Hr H); lia|].
  rewrite (rs_text _ _ _ _ _ R).
  pose proof (length_text_app [] (replicate (Z.to_nat (w_pending w)) dotdot) names) as H.
  rewrite length_ups in H. case_decide; lia.
Qed.

Lemma too_long_wp w s :
  framed fp s0 s -> wp no_exit too_long (turn_post w (Error ENAMETOOLONG)) s.
Proof. intros F. apply wp_bind, wp_set_errno, wp_ret. split_and!; [done|done|by apply framed_errno]. Qed.

(** The output array is beyond the stack array. *)
Lemma output_stack : output fp = stack fp + (PATH_MAX + 1).
Proof. unfold output, stack. lia. Qed.

(** Writing to the output leaves what is left of the path, and conversely. *)
Lemma rest_keeps m a bs rest :
  cstring m (stack fp + room rest) rest -> output fp <= a ->
  cstring (write m a bs) (stack fp + room rest) rest.
Proof.
  intros [H HF] Ha. split; [|done]. apply holds_write_other; [|done].
  left. rewrite length_app. cbn [length]. rewrite output_stack in Ha. unfold room. lia.
Qed.

Lemma out_keeps m a bs out :
  holds m (output fp) out -> a + Z.of_nat (length bs) <= output fp -> holds (write m a bs) (output fp) out.
Proof. intros H Ha. apply holds_write_other; [by right|done]. Qed.

Lemma room_bounds rest : 1 <= room rest -> 1 <= room rest <= PATH_MAX.
Proof. unfold room. lia. Qed.

(** ** A leading slash *)

Lemma turn_slash s l w :
  at_walk s l w -> starts_slash (w_rest w) = true ->
  wp no_exit (realpath_turn fp l) (turn_post w (walk_step fs w)) s.
Proof.
  intros A Hs. destruct w as [rest out check pending loops]. destruct rest as [|c r]; [done|].
  cbn [w_rest starts_slash] in Hs. apply Z.eqb_eq in Hs. subst c.
  pose proof (aw_ok _ _ _ A) as HOK.
  destruct A as [F [Hp Hp1] [Hq Hq1] Hc Hpe Hlo [HR HF] HO HT _];
    cbn [w_rest w_out w_check w_pending w_loops] in *.
  apply list.Forall_cons in HF as [_ HF].
  assert (Hroom : room r = room (ch_slash :: r) + 1) by (unfold room; cbn [length]; lia).
  pose proof (room_bounds _ Hp1) as Hb.
  cbn [app] in HR. apply holds_cons in HR as [HR0 HR].
  unfold realpath_turn. rewrite Hp. apply wp_bind. eapply wp_load_byte; [exact HR0|].
  rewrite Z.eqb_refl. rewrite <- Z.add_assoc, <- Hroom in HR.
  rewrite u64_small by (unfold PATH_MAX in *; zlia). rewrite <- Hroom.
  pose proof output_stack as HS. pose proof (conj HR HF : cstring (mem s) _ r) as HRr.
  apply wp_bind, wp_store_byte; [apply (framed_mapped s (output fp) 1 F); unfold frame_size, stack in *; lia|].
  set (s1 := St _ _ _). pose proof (rest_keeps _ (output fp) [ch_slash] _ HRr ltac:(lia)) as HR1.
  assert (F1 : framed fp s0 s1)
    by (apply framed_write; [done|unfold frame_size, stack in *; cbn [length]; lia..]).
  assert (HO1 : holds (mem s1) (output fp) [ch_slash]) by apply holds_write.
  apply wp_bind, (wp_load_head _ _ r); [apply HR1|]. intros c Hc1 _. rewrite Hc1.
  cbn [walk_step starts_slash tail]. rewrite Z.eqb_refl.
  apply wp_bind.
  assert (Hdone : forall d s2, framed fp s0 s2 -> cstring (mem s2) (stack fp + room r) r ->
    holds (mem s2) (output fp) (if d : bool then [ch_slash; ch_slash] else [ch_slash]) ->
    turn_post (Walk (ch_slash :: r) out check pending loops)
      (Next (Walk r (if d then [ch_slash; ch_slash] else [ch_slash]) false 0 loops))
      (Continue (Locals (room r) (if d then 2 else 1) false 0 (l_loop_count l))) s2).
  { intros d s2 F2 HR2 HO2. eexists. split; [done|]. split; cbn; try done; [lia|by destruct d|by destruct d; repeat constructor| ].
    exists (if d then [ch_slash; ch_slash] else [ch_slash]), []. apply resolved_root.
    unfold is_root. destruct d; auto. }
  destruct (starts_slash r) eqn:Hs1; cbn [andb].
  - destruct r as [|c1 r2]; [done|]. cbn [starts_slash tail] in *.
    apply Z.eqb_eq in Hs1. subst c1.
    assert (HR2 : holds (mem s1) (stack fp + room (ch_slash :: r2) + 1) (r2 ++ [0])).
    { destruct HR1 as [HR1 _]. cbn [app] in HR1. by apply holds_cons in HR1 as [_ HR1]. }
    rewrite <- Z.add_assoc in HR2. apply wp_bind, (wp_load_head _ _ r2); [exact HR2|]. intros c2 Hc2 _.
    apply wp_ret. rewrite Hc2. destruct (starts_slash r2); cbn [negb].
    + apply wp_bind, wp_ret, wp_ret. by apply (Hdone false).
    + apply wp_bind, wp_store_byte; [apply (framed_mapped s1 (output fp + 1) 1 F1); unfold frame_size, stack, PATH_MAX in *; lia|].
      apply wp_ret. apply (Hdone true).
      * apply framed_write; [done|unfold frame_size, stack, PATH_MAX in *; cbn [length]; lia..].
      * apply rest_keeps; [exact HR1|lia].
      * apply holds_cons. split; [|apply holds_write].
        cbn [mem]. rewrite lookup_write_out by (cbn [length]; lia). by apply holds_cons in HO1 as [HO1 _].
  - apply wp_ret. apply wp_bind, wp_ret, wp_ret. by apply (Hdone false).
Qed.
(** ** After a component *)

(** The state between the parts of a turn: [piece] has been appended to the output
    and [rest] is left. *)
Record pushed (s : st X) (l : locals) (w : walk) (piece rest : list Z) : Prop := {
  pu_framed : framed fp s0 s;
  pu_p : l_p l = room rest /\ 1 <= room rest;
  pu_q : l_q l = Z.of_nat (length (w_out w));
  pu_length : Z.of_nat (length (w_out w ++ piece)) < PATH_MAX;
  pu_check : l_check_dir l = w_check w;
  pu_pending : l_pending_up l = w_pending w;
  pu_loops : l_loop_count l = w_loops w;
  pu_rest : cstring (mem s) (stack fp + room rest) rest;
  pu_out : holds (mem s) (output fp) (w_out w ++ piece);
  pu_text : Forall (fun c => c <> 0) (w_out w ++ piece)
}.

Lemma strip_last_length fuel floor cs : (length (strip_last fuel floor cs) <= length cs)%nat.
Proof. destruct (strip_last_prefix fuel floor cs) as [k ->]. rewrite length_take. lia. Qed.

Lemma go_up_prefix out : exists k, go_up out = take k out.
Proof.
  unfold go_up. destruct (strip_last_prefix (length out) 0 out) as [k ->].
  case_match; [|eauto]. rewrite removelast_take, take_take. eauto.
Qed.

(** The two tests of the parent's length and first byte. *)
Lemma drop_slash_wp out' (Q : bool -> st X -> Prop) s :
  holds (mem s) (output fp) out' ->
  Q ((1 <? Z.of_nat (length out')) && ((2 <? Z.of_nat (length out')) || negb (starts_slash out'))) s ->
  wp no_exit (if 1 <? Z.of_nat (length out') then
         if 2 <? Z.of_nat (length out') then ret true
         else let* c := load_byte (output fp) in ret (negb (c =? ch_slash))
       else ret false) Q s.
Proof.
  intros H HQ. destruct (Z.ltb_spec 1 (Z.of_nat (length out'))); [|by apply wp_ret].
  destruct (Z.ltb_spec 2 (Z.of_nat (length out'))); [by apply wp_ret|].
  destruct out' as [|c out']; [cbn in *; lia|]. apply holds_cons in H as [Hc _].
  apply wp_bind. eapply wp_load_byte; [exact Hc|]. by apply wp_ret.
Qed.

Lemma leave_wp s l w comp piece rest :
  pushed s l w piece rest ->
  (forall w', leave w comp piece rest = Next w' -> walk_ok fs w') ->
  wp no_exit (skip_readlink fp l (bool_decide (comp = dotdot)) (Z.of_nat (length comp)) (Z.of_nat (length piece)))
    (turn_post w (leave w comp piece rest)) s.
Proof.
  intros [F [Hp Hp1] Hq Hl Hc Hpe Hlo HR HO HT] HOK. unfold skip_readlink, leave in *.
  assert (HO1 : holds (mem s) (output fp) (w_out w)) by (by apply holds_app in HO as [HO _]).
  rewrite length_app in Hl.
  destruct (bool_decide_reflect (comp = dotdot)) as [Hdd|Hdd].
  - rewrite Hq. apply wp_bind, (strip_name_wp _ _ _ _ (w_out w)); [done|lia|lia|].
    set (out' := strip_last _ 0 _). apply wp_bind, (drop_slash_wp out').
    { destruct (strip_last_prefix (length (w_out w)) 0 (w_out w)) as [k Hk]. unfold out'.
      rewrite Hk. by apply holds_take. }
    apply wp_ret. eexists. split; [done|].
    destruct (go_up_prefix (w_out w)) as [k Hk].
    assert (Hlen : (length (go_up (w_out w)) <= length (w_out w))%nat) by (rewrite Hk, length_take; lia).
    split; cbn [w_rest w_out w_check w_pending w_loops l_p l_q l_check_dir l_pending_up l_loop_count]; try done.
    + split; [|lia]. unfold go_up. fold out'. case_match eqn:E; [|done].
      rewrite removelast_take, length_take. apply andb_true_iff in E as [E%Z.ltb_lt _]. lia.
    + rewrite Hk. by apply holds_take.
    + rewrite Hk. apply Forall_take. by apply Forall_app in HT as [HT _].
    + by apply HOK.
  - rewrite Hp. apply wp_bind, (wp_load_head _ _ rest); [apply HR|]. intros c _ Hc0.
    rewrite (Hc0 (proj2 HR)). apply wp_ret. eexists. split; [done|].
    split; cbn [w_rest w_out w_check w_pending w_loops l_p l_q l_check_dir l_pending_up l_loop_count]; try done.
    + destruct (bool_decide_reflect (comp = [])) as [->|Hne]; [split; [exact Hq|lia]|].
      destruct comp as [|c0 comp]; [done|]. rewrite length_app. destruct (Z.eqb_spec (Z.of_nat (length (c0 :: comp))) 0).
      { cbn [length] in *. lia. }
      rewrite u64_small; [lia|unfold PATH_MAX in *; zlia].
    + destruct (bool_decide_reflect (comp = [])); [done|exact HO].
    + destruct (bool_decide_reflect (comp = [])); [by apply Forall_app in HT as [HT _]|exact HT].
    + by apply HOK.
Qed.

(** ** A symbolic link *)

Lemma follow_link_wp s l w piece rest t :
  pushed s l w piece rest -> holds (mem s) (stack fp) t -> Forall (fun c => c <> 0) t ->
  t <> [] -> Z.of_nat (length t) < room rest ->
  (forall w', enter w t rest = Again w' -> walk_ok fs w') ->
  wp no_exit (follow_link fp l (Z.of_nat (length t))) (turn_post w (enter w t rest)) s.
Proof.
  intros [F [Hp Hp1] Hq Hl Hc Hpe Hlo HR HO HT] Ht Htz Hne Hlt HOK.
  unfold follow_link, enter in *. rewrite Hlo. rewrite (bool_decide_eq_false_2 (t = [])) in * by done.
  destruct (Z.leb_spec (room rest) (Z.of_nat (length t))); [lia|].
  destruct (Z.eqb_spec (w_loops w + 1) SYMLOOP_MAX) as [He|He].
  { apply wp_bind, wp_set_errno, wp_ret. split_and!; [done|done|by apply framed_errno]. }
  pose proof (room_bounds _ Hp1) as Hb. pose proof (length_skip_slashes rest) as Hsk.
  set (n := if ends_slash t then (length rest - length (skip_slashes rest))%nat else 0%nat).
  set (rest2 := if ends_slash t then skip_slashes rest else rest) in *.
  assert (Hr2 : rest2 = drop n rest).
  { unfold rest2, n. destruct (ends_slash t); [apply skip_slashes_drop|done]. }
  assert (Hn : (n <= length rest)%nat) by (unfold n; destruct (ends_slash t); lia).
  assert (HR2 : cstring (mem s) (stack fp + room rest + Z.of_nat n) rest2)
    by (rewrite Hr2; by apply cstring_drop).
  assert (Hroom : room (t ++ rest2) = room rest + Z.of_nat n - Z.of_nat (length t)).
  { unfold room. rewrite length_app, Hr2, length_drop. lia. }
  assert (Hrr : Z.of_nat (length rest) = PATH_MAX - room rest) by (unfold room; lia).
  apply wp_bind, (wp_load_last _ _ t); [done|done|done|]. intros c Hc1. rewrite Hc1.
  apply wp_bind. apply (wp_mono _ _ (fun k s' => k = Z.of_nat n /\ s' = s)).
  { unfold n. destruct (ends_slash t); [|by apply wp_ret]. rewrite Hp. by eapply wp_slash_len. }
  intros k s' [-> ->]. rewrite Hp.
  rewrite (u64_small (room rest + Z.of_nat n)) by (unfold PATH_MAX in *; zlia).
  rewrite <- Hroom. rewrite u64_small by (unfold PATH_MAX in *; zlia).
  assert (Hin : stack fp + room (t ++ rest2) + Z.of_nat (length t) <= output fp).
  { rewrite output_stack. lia. }
  apply wp_bind. eapply wp_memmove; [exact Ht|done| |].
  { apply framed_mapped; [done|unfold stack; lia|]. rewrite output_stack in Hin. unfold frame_size, stack in *. lia. }
  apply wp_ret. eexists. split; [done|].
  split; cbn [w_rest w_out w_check w_pending w_loops l_p l_q l_check_dir l_pending_up l_loop_count mem]; try done.
  - apply framed_write; [done|unfold stack; lia|]. rewrite output_stack in Hin. unfold frame_size, stack in *. lia.
  - split; [done|lia].
  - split; [done|]. rewrite length_app in Hl. lia.
  - destruct HR2 as [HR2 HZ2]. split; [|by apply Forall_app].
    rewrite <- app_assoc. apply holds_app. split; [apply holds_write|].
    apply holds_write_other; [right; lia|].
    replace (stack fp + room (t ++ rest2) + Z.of_nat (length t)) with (stack fp + room rest + Z.of_nat n) by lia.
    exact HR2.
  - apply out_keeps; [by apply holds_app in HO as [HO _]|done].
  - by apply Forall_app in HT as [HT _].
  - by apply HOK.
Qed.

Lemma read_link_wp s l w comp piece rest :
  pushed s l w piece rest -> holds (mem s) (output fp) (w_out w ++ piece ++ [0]) ->
  (forall w', match fs (w_out w ++ piece) with
      | LinkTo t => enter w t rest = Again w' | NotLink => leave w comp piece rest = Next w'
      | Unreadable _ => False end -> walk_ok fs w') ->
  wp no_exit
    (let* link_len := readlink (output fp) (stack fp) (l_p l) in
     if link_len =? l_p l then too_long
     else if link_len =? 0 then do* set_errno ENOENT in ret Fail
     else if link_len <? 0 then
       let* e := get_errno in
       if negb (e =? EINVAL) then ret Fail
       else skip_readlink fp l (bool_decide (comp = dotdot)) (Z.of_nat (length comp)) (Z.of_nat (length piece))
     else follow_link fp l link_len)
    (turn_post w
      match fs (w_out w ++ piece) with
      | LinkTo t => enter w t rest
      | Unreadable e => Error e
      | NotLink => leave w comp piece rest
      end) s.
Proof.
  intros P HO0 HOK. pose proof P as [F [Hp Hp1] Hq Hl Hc Hpe Hlo HR HO HT].
  pose proof (room_bounds _ Hp1) as Hb. apply wp_bind. rewrite Hp.
  eapply wp_mono.
  { apply (fs_readlink _ FS s (output fp) (w_out w ++ piece)); [|lia| |].
    - split; [by rewrite <- app_assoc|done].
    - apply framed_mapped; [done|unfold stack; lia|unfold frame_size, stack; lia].
    - right. rewrite output_stack. lia. }
  intros r [m e x] [Hx Ha]. cbn in Hx. subst x. destruct (fs (w_out w ++ piece)) as [t| |e'] eqn:Hfs.
  - destruct Ha as [-> Hm]. cbn in Hm. unfold enter at 1.
    destruct (Z.leb_spec (room rest) (Z.of_nat (length t))) as [Hle|Hlt].
    { destruct (Z.eqb_spec (Z.min (Z.of_nat (length t)) (room rest)) (room rest)); [|lia].
      apply wp_bind, wp_set_errno, wp_ret. split_and!; [done|done|]. rewrite Hm. cbn [mem ext].
      apply (framed_write s); [done|unfold stack; lia|].
      rewrite length_take. unfold frame_size, stack. lia. }
    rewrite Z.min_l in * by lia. rewrite take_ge in Hm by lia.
    destruct (Z.eqb_spec (Z.of_nat (length t)) (room rest)); [lia|].
    destruct (Z.eqb_spec (Z.of_nat (length t)) 0) as [H0|H0].
    { assert (t = []) as -> by (destruct t; [done|cbn in H0; lia]). rewrite bool_decide_eq_true_2 by done.
      apply wp_bind, wp_set_errno, wp_ret. split_and!; [done|done|]. rewrite Hm. cbn [mem ext].
      rewrite write_nil. by apply framed_errno. }
    destruct (Z.ltb_spec (Z.of_nat (length t)) 0); [lia|].
    assert (Hfit : stack fp + Z.of_nat (length t) <= output fp) by (rewrite output_stack; lia).
    rewrite Hm. eapply wp_mono.
    { apply (follow_link_wp (St (write (mem s) (stack fp) t) e (ext s)) l w piece rest t); [|apply holds_write|by eapply fs_text|by intros ->|done|exact HOK].
      split; cbn [mem errno ext]; try done.
      - apply framed_write; [done|unfold stack; lia|]. rewrite output_stack in Hfit. unfold frame_size, stack in *. lia.
      - destruct HR as [HR HZ]. split; [|done]. apply holds_write_other; [right; lia|done].
      - by apply out_keeps. }
    intros t' s' Ht'. unfold enter in Ht'.
    destruct (Z.leb_spec (room rest) (Z.of_nat (length t))); [lia|]. exact Ht'.
  - destruct Ha as (-> & He & Hm). cbn in He, Hm. subst m e.
    destruct (Z.eqb_spec (-1) (room rest)); [lia|]. cbn [Z.eqb Z.ltb Z.compare].
    apply wp_bind, wp_get_errno. cbn [errno]. rewrite Z.eqb_refl. cbn [negb].
    apply leave_wp; [|exact HOK]. split; cbn [mem errno ext]; try done. by apply framed_errno.
  - destruct Ha as (-> & He & Hm). cbn in He, Hm. subst m e.
    destruct (Z.eqb_spec (-1) (room rest)); [lia|]. cbn [Z.eqb Z.ltb Z.compare].
    apply wp_bind, wp_get_errno. cbn [errno].
    destruct (Z.eqb_spec e' EINVAL) as [->|]; [by apply (fs_error _ FS) in Hfs|]. cbn [negb].
    apply wp_ret. split_and!; [done|done|by apply framed_errno].
Qed.

(** ** A component *)

(** The abstract turn from the second length test on. *)
Definition push_step (w : walk) (comp piece rest : list Z) : step :=
  if PATH_MAX <=? Z.of_nat (length (w_out w ++ piece)) then Error ENAMETOOLONG
  else if bool_decide (comp = dotdot) && (Z.of_nat (length (w_out w)) <=? 3 * w_pending w) then
    Next (Walk rest (w_out w ++ piece) (w_check w) (w_pending w + 1) (w_loops w))
  else if bool_decide (comp = dotdot) && negb (w_check w) then leave w comp piece rest
  else
    match fs (w_out w ++ piece) with
    | LinkTo t => enter w t rest
    | Unreadable e => Error e
    | NotLink => leave w comp piece rest
    end.

(** The test for [..], on the bytes before [p]. *)
Lemma is_up_wp s p pre comp (Q : bool -> st X -> Prop) :
  holds (mem s) (p - Z.of_nat (length (pre ++ comp))) (pre ++ comp) ->
  Q (bool_decide (comp = dotdot)) s ->
  wp no_exit (if Z.of_nat (length comp) =? 2 then
                let* c := load_byte (p - 2) in
                if c =? ch_dot then let* c := load_byte (p - 1) in ret (c =? ch_dot)
                else ret false
              else ret false) Q s.
Proof.
  intros H HQ. destruct (Z.eqb_spec (Z.of_nat (length comp)) 2) as [Hl|Hl].
  2: { apply wp_ret. rewrite bool_decide_eq_false_2 in HQ; [done|by intros ->]. }
  destruct comp as [|a [|b [|c comp]]]; try (cbn in Hl; lia).
  apply holds_app in H as [_ H]. rewrite length_app in H. cbn [length] in H.
  replace (p - Z.of_nat (length pre + 2) + Z.of_nat (length pre)) with (p - 2) in H by lia.
  apply holds_cons in H as [Ha H]. apply holds_cons in H as [Hb _].
  replace (p - 2 + 1) with (p - 1) in Hb by lia.
  apply wp_bind. eapply wp_load_byte; [exact Ha|].
  destruct (Z.eqb_spec a ch_dot) as [->|Hna].
  - apply wp_bind. eapply wp_load_byte; [exact Hb|]. apply wp_ret.
    destruct (Z.eqb_spec b ch_dot) as [->|Hnb]; [done|].
    rewrite bool_decide_eq_false_2 in HQ; [done|]. by intros [= ->].
  - apply wp_ret. rewrite bool_decide_eq_false_2 in HQ; [done|]. by intros [= -> ->].
Qed.

Lemma push_component_wp s l w pre comp rest :
  framed fp s0 s -> l_p l = room rest - Z.of_nat (length (pre ++ comp)) -> 0 <= l_p l -> 1 <= room rest ->
  l_q l = Z.of_nat (length (w_out w)) -> Z.of_nat (length (w_out w)) < PATH_MAX ->
  l_check_dir l = w_check w -> l_pending_up l = w_pending w -> l_loop_count l = w_loops w ->
  holds (mem s) (stack fp + l_p l) ((pre ++ comp) ++ rest ++ [0]) ->
  Forall (fun c => c <> 0) (pre ++ comp) -> Forall (fun c => c <> 0) rest ->
  holds (mem s) (output fp) (w_out w) -> Forall (fun c => c <> 0) (w_out w) -> walk_ok fs w ->
  (forall w', push_step w comp (pre ++ comp) rest = Next w' \/ push_step w comp (pre ++ comp) rest = Again w' ->
     walk_ok fs w') ->
  wp no_exit (push_component fp l (Z.of_nat (length comp)) (Z.of_nat (length (pre ++ comp))))
    (turn_post w (push_step w comp (pre ++ comp) rest)) s.
Proof.
  intros F Hp Hp0 Hr1 Hq Hq1 Hc Hpe Hlo HS HZ HZr HO HT Hw HOK.
  set (piece := pre ++ comp) in *. unfold push_component, push_step in *. rewrite Hq.
  pose proof (room_bounds _ Hr1) as Hb. pose proof output_stack as Hos.
  assert (Hpl : Z.of_nat (length piece) <= PATH_MAX) by lia.
  rewrite length_app, Nat2Z.inj_add in *.
  rewrite u64_small by (unfold PATH_MAX in *; zlia).
  destruct (Z.leb_spec PATH_MAX (Z.of_nat (length (w_out w)) + Z.of_nat (length piece))) as [Hlong|Hfit].
  { by apply too_long_wp. }
  apply holds_app in HS as [HS1 HS2]. rewrite Hp in HS1, HS2.
  replace (stack fp + (room rest - Z.of_nat (length piece)) + Z.of_nat (length piece))
    with (stack fp + room rest) in HS2 by lia.
  set (o := output fp + Z.of_nat (length (w_out w))).
  assert (Hfo : stack fp <= output fp /\ output fp + PATH_MAX <= fp + frame_size) by (unfold frame_size, output, stack, PATH_MAX; lia).
  apply wp_bind. eapply (wp_memcpy _ o (stack fp + l_p l) _ piece); [by rewrite Hp|done| | |].
  { apply framed_mapped; [done|unfold stack in *; lia|unfold o; lia]. }
  { right. left. rewrite Hp. unfold o. lia. }
  set (s1 := St _ _ _).
  assert (F1 : framed fp s0 s1) by (apply framed_write; [done|unfold stack in *; unfold o; lia..]).
  apply wp_bind, wp_store_byte.
  { apply (framed_mapped s1 (output fp + (Z.of_nat (length (w_out w)) + Z.of_nat (length piece))) 1 F1); unfold stack in *; lia. }
  set (s2 := St _ _ _).
  assert (F2 : framed fp s0 s2) by (apply framed_write; [exact F1|unfold stack in *; cbn [length]; lia..]).
  assert (HO2 : holds (mem s2) (output fp) (w_out w ++ piece ++ [0])).
  { apply holds_app. split.
    - apply holds_write_other; [left; lia|]. apply holds_write_other; [left; unfold o; lia|done].
    - fold o. apply holds_app. split; [|].
      + apply holds_write_other; [left; unfold o; lia|apply holds_write].
      + unfold o. rewrite <- Z.add_assoc. apply holds_write. }
  assert (HS2' : cstring (mem s2) (stack fp + room rest) rest).
  { apply rest_keeps; [|unfold o; lia]. apply rest_keeps; [by split|unfold o; lia]. }
  assert (HS1' : holds (mem s2) (stack fp + room rest - Z.of_nat (length piece)) piece).
  { replace (stack fp + room rest - Z.of_nat (length piece)) with (stack fp + (room rest - Z.of_nat (length piece))) by lia.
    apply holds_write_other; [left; lia|]. apply holds_write_other; [left; unfold o; lia|done]. }
  rewrite Hp. replace (room rest - Z.of_nat (length piece) + Z.of_nat (length piece)) with (room rest) by lia.
  rewrite u64_small by (unfold PATH_MAX in *; zlia). rewrite Hc, Hpe, Hlo.
  set (l2 := Locals (room rest) _ _ _ _).
  assert (P : pushed s2 l2 w piece rest).
  { split; try done; [rewrite length_app; lia| |by apply Forall_app].
    rewrite app_assoc in HO2. by apply holds_app in HO2 as [HO2 _]. }
  apply wp_bind.
  replace (stack fp + (room rest - 2)) with (stack fp + room rest - 2) by lia.
  replace (stack fp + (room rest - 1)) with (stack fp + room rest - 1) by lia.
  apply (is_up_wp s2 (stack fp + room rest) pre comp); [exact HS1'|].
  pose proof (pending_bound _ Hw) as [Hpe0 Hpe1].
  change (l_pending_up l2) with (w_pending w). change (l_loop_count l2) with (w_loops w).
  change (l_check_dir l2) with (w_check w).
  rewrite (u64_small (3 * w_pending w)) by (unfold PATH_MAX in *; zlia).
  rewrite (u64_small (w_pending w + 1)) by (unfold PATH_MAX in *; zlia).
  destruct (bool_decide (comp = dotdot) && (Z.of_nat (length (w_out w)) <=? 3 * w_pending w)) eqn:E1.
  { apply wp_ret. eexists. split; [done|].
    split; cbn [w_rest w_out w_check w_pending w_loops l_p l_q l_check_dir l_pending_up l_loop_count]; try done.
    - rewrite length_app. lia.
    - apply P.
    - apply P.
    - by apply HOK; left. }
  destruct (bool_decide (comp = dotdot) && negb (w_check w)) eqn:E2.
  {    apply leave_wp; [exact P|]. intros w' Hw'. apply HOK. by left. }
  change (room rest) with (l_p l2) at 1.
  apply read_link_wp; [exact P|exact HO2|]. intros w' Hw'. apply HOK.
  destruct (fs (w_out w ++ piece)); [by right|by left|done].
Qed.

(** ** A turn *)

Lemma is_dot_wp s a comp rest (Q : bool -> st X -> Prop) :
  holds (mem s) a (comp ++ rest) -> Q (bool_decide (comp = dot)) s ->
  wp no_exit (if Z.of_nat (length comp) =? 1 then let* c := load_byte a in ret (c =? ch_dot) else ret false) Q s.
Proof.
  intros H HQ. destruct (Z.eqb_spec (Z.of_nat (length comp)) 1) as [Hl|Hl].
  2: { apply wp_ret. rewrite bool_decide_eq_false_2 in HQ; [done|by intros ->]. }
  destruct comp as [|c [|d comp]]; try (cbn in Hl; lia).
  cbn [app] in H. apply holds_cons in H as [Hc _]. apply wp_bind. eapply wp_load_byte; [exact Hc|].
  apply wp_ret. destruct (Z.eqb_spec c ch_dot) as [->|Hn]; [done|].
  rewrite bool_decide_eq_false_2 in HQ; [done|]. by intros [= ->].
Qed.

(** Whether a slash goes between the output and the component. *)
Lemma joint_wp s out (Q : bool -> st X -> Prop) :
  holds (mem s) (output fp) out -> Q (negb (bool_decide (joint out = []))) s ->
  wp no_exit (if Z.of_nat (length out) =? 0 then ret false
              else let* c := load_byte (output fp + (Z.of_nat (length out) - 1)) in ret (negb (c =? ch_slash))) Q s.
Proof.
  intros H HQ. unfold joint in HQ. destruct (Z.eqb_spec (Z.of_nat (length out)) 0) as [Hl|Hl].
  { destruct out; [|cbn in Hl; lia]. by apply wp_ret. }
  assert (Hne : out <> []) by (intros ->; done). rewrite (bool_decide_eq_false_2 (out = [])) in HQ by done.
  apply wp_bind, (wp_load_last _ _ out); [done|done|done|]. intros c Hc. apply wp_ret. rewrite Hc.
  cbn [negb andb] in HQ. by destruct (ends_slash out).
Qed.

Lemma turn_component s l w :
  at_walk s l w -> starts_slash (w_rest w) = false ->
  wp no_exit (realpath_turn fp l) (turn_post w (walk_step fs w)) s.
Proof.
  intros A Hs. pose proof (step_ok fs w) as Hstep. pose proof (aw_ok _ _ _ A) as HOK.
  pose proof A as [F [Hp Hp1] [Hq Hq1] Hc Hpe Hlo [HR HF] HO HT _].
  destruct w as [rest out check pending loops]; cbn [w_rest w_out w_check w_pending w_loops] in *.
  unfold realpath_turn. rewrite Hp. apply wp_bind, (wp_load_head _ _ rest); [done|].
  intros c Hc1 _. rewrite Hc1, Hs. apply wp_bind, (wp_strchrnul _ _ _ rest); [by split|].
  change (ch_slash mod 256) with ch_slash. rewrite stop_index_component.
  pose proof (component_after rest) as Hca. pose proof (length_after rest) as Hla.
  pose proof (room_bounds _ Hp1) as Hb.
  assert (Hlr : Z.of_nat (length rest) = PATH_MAX - room rest) by (unfold room; lia).
  unfold walk_step in *. rewrite Hs in *. set (comp := component rest) in *. set (rest' := after rest) in *.
  replace (stack fp + room rest + Z.of_nat (length comp) - (stack fp + room rest)) with (Z.of_nat (length comp)) by lia.
  rewrite u64_small by (unfold PATH_MAX in *; zlia). rewrite Hc.
  assert (Hroom : room rest' = room rest + Z.of_nat (length comp)) by (unfold room in *; lia).
  assert (Hnil : (Z.of_nat (length comp) =? 0) = bool_decide (comp = [])) by (by destruct comp).
  rewrite Hnil. destruct (bool_decide (comp = []) && negb check) eqn:E0.
  { apply wp_ret. by exists l. }
  assert (HS : holds (mem s) (stack fp + room rest) (comp ++ rest' ++ [0])).
  { rewrite app_assoc, Hca. exact HR. }
  assert (HFF : Forall (fun c => c <> 0) comp /\ Forall (fun c => c <> 0) rest').
  { apply Forall_app. by rewrite Hca. }
  apply wp_bind, (is_dot_wp s _ comp (rest' ++ [0])); [exact HS|].
  destruct (bool_decide_reflect (comp = dot)) as [Hd|Hd].
  { apply wp_ret. eexists. split; [done|]. rewrite u64_small by (unfold PATH_MAX in *; zlia).
    split; cbn [w_rest w_out w_check w_pending w_loops l_p l_q l_check_dir l_pending_up l_loop_count]; try done.
    - lia.
    - rewrite Hroom. apply holds_app in HS as [_ HS]. split; [|apply HFF].
      by replace (stack fp + (room rest + Z.of_nat (length comp))) with (stack fp + room rest + Z.of_nat (length comp)) by lia. }
  rewrite Hq. apply wp_bind, joint_wp; [exact HO|].
  destruct (joint_spec out) as [[Hj _]|(Hj & _)]; rewrite Hj in *.
  - cbn [app] in *. rewrite bool_decide_eq_true_2 in * by done. cbn [negb andb] in *.
    apply (push_component_wp s _ (Walk rest out check pending loops) [] comp rest');
      cbn [app w_out w_check w_pending w_loops l_p l_q l_check_dir l_pending_up l_loop_count];
      try done; try lia; [by rewrite Hp|apply HFF|apply HFF|].
    intros w' Hw'. by apply Hstep.
  - cbn [app] in *. rewrite (bool_decide_eq_false_2 ([ch_slash] = [])) in * by done. cbn [negb andb] in *.
    destruct (Z.eqb_spec (room rest) 0); [lia|].
    apply wp_bind, wp_store_byte.
    { apply (framed_mapped s (stack fp + (room rest - 1)) 1 F); unfold stack, frame_size in *; lia. }
    set (s1 := St _ _ _).
    assert (F1 : framed fp s0 s1)
      by (apply framed_write; [done|unfold stack, frame_size in *; cbn [length]; lia..]).
    rewrite u64_small by (unfold PATH_MAX in *; zlia).
    replace (Z.of_nat (length comp) + 1) with (Z.of_nat (length ([ch_slash] ++ comp))) by (rewrite length_app; cbn [length]; lia).
    apply (push_component_wp s1 _ (Walk rest out check pending loops) [ch_slash] comp rest');
      cbn [w_out w_check w_pending w_loops l_p l_q l_check_dir l_pending_up l_loop_count mem s1];
      try done; try lia.
    + rewrite length_app. cbn [length]. lia.
    + cbn [app]. apply holds_cons. split.
      * rewrite lookup_write_in by (cbn [length]; lia).
        by replace (stack fp + (room rest - 1) - (stack fp + (room rest - 1))) with 0 by lia.
      * apply holds_write_other; [right; cbn [length]; lia|].
        by replace (stack fp + (room rest - 1) + 1) with (stack fp + room rest) by lia.
    + apply Forall_app. split; [by repeat constructor|apply HFF].
    + apply HFF.
    + apply out_keeps; [done|]. rewrite output_stack. cbn [length]. lia.
    + intros w' Hw'. by apply Hstep.
Qed.

Lemma turn_wp s l w : at_walk s l w -> wp no_exit (realpath_turn fp l) (turn_post w (walk_step fs w)) s.
Proof.
  intros A. destruct (starts_slash (w_rest w)) eqn:E; [by apply turn_slash|by apply turn_component].
Qed.

(** ** The loop *)

Lemma walk_wp fuel s l w r :
  at_walk s l w -> walk_loop fs fuel w = Some r ->
  wp no_exit (realpath_walk fp fuel l) (fun o s' => match r with
    | inl w' => exists l', o = Some l' /\ at_walk s' l' w'
    | inr e => o = None /\ errno s' = e /\ framed fp s0 s'
    end) s.
Proof.
  revert s l w. induction fuel as [|fuel IH]; intros s l w A; [done|].
  cbn [walk_loop realpath_walk]. intros Hr. apply wp_bind. eapply wp_mono; [by apply turn_wp|].
  intros t s' Ht. destruct (walk_step fs w) as [w'|w'| |e] eqn:E; cbn [turn_post] in Ht.
  - destruct Ht as (l' & -> & A'). pose proof (length_skip_slashes (w_rest w')) as Hl.
    pose proof A' as [F [Hp Hp1] [Hq Hq1] Hc Hpe Hlo HR HO HT HOK].
    rewrite Hp. apply wp_bind, (wp_slash_len _ _ (w_rest w')); [exact HR|].
    pose proof (room_bounds _ Hp1) as Hb.
    assert (Hroom : room (skip_slashes (w_rest w')) =
      room (w_rest w') + Z.of_nat (length (w_rest w') - length (skip_slashes (w_rest w')))) by (unfold room; lia).
    rewrite <- Hroom, u64_small by (unfold room, PATH_MAX in *; zlia).
    eapply IH; [|exact Hr]. split; cbn; try done.
    + split; [done|]. lia.
    + rewrite Hroom. rewrite skip_slashes_drop at 2. rewrite Z.add_assoc. apply cstring_drop; [done|lia].
  - destruct Ht as (l' & -> & A'). by eapply IH.
  - destruct Ht as (l' & -> & A'). injection Hr as <-. apply wp_ret. by exists l'.
  - destruct Ht as (-> & He & F). injection Hr as <-. by apply wp_ret.
Qed.

End Walk.
