(* ===== verification/PathCwd.v ===== *)
(** * The current directory and the end of [realpath]

    [getcwd], the climb from the current directory, and the tail of [realpath] that
    makes a relative result absolute and hands it to the caller. *)
From S2P Require Import Prelude CMem CCmd CLib Alloc Strings Helpers Path PathSpec PathWalk.

(** ** Relative results *)

Lemma text_app root l1 l2 : text root (l1 ++ l2) = text (text root l1) l2.
Proof. unfold text. apply fold_left_app. Qed.

Definition name_like (n : list Z) : Prop := n <> [] /\ Forall (fun c => c <> ch_slash) n.

Lemma joint_app base cs : cs <> [] -> joint (base ++ cs) = joint cs.
Proof.
  intros Hne. destruct (exists_last Hne) as (cs' & c & ->). unfold joint, ends_slash.
  rewrite app_assoc, !last_snoc. rewrite !bool_decide_eq_false_2; [done|by destruct cs'|].
  by destruct (base ++ cs').
Qed.

(** Components behind a base. *)
Lemma text_behind base names :
  names <> [] -> Forall name_like names -> text base names = base ++ joint base ++ text [] names.
Proof.
  intros Hne HF. induction names as [|n names IH] using rev_ind; [done|].
  apply Forall_app in HF as [HF Hn]. apply list.Forall_cons in Hn as [[Hn Hs] _].
  rewrite !text_snoc. destruct (decide (names = [])) as [->|Hnn].
  - done.
  - rewrite IH by done. rewrite (app_assoc base), joint_app; [by rewrite <- !app_assoc|].
    destruct (exists_last Hnn) as (names' & m & ->).
    apply Forall_app in HF as [_ HF]. apply list.Forall_cons in HF as [[Hm _] _]. by apply text_nonempty.
Qed.

Lemma ups_length_names n q k : 3 * (k + Z.of_nat n) < q -> ups_length n q (3 * k) = 3 * (k + Z.of_nat n).
Proof.
  revert k. induction n as [|n IH]; intros k H; cbn [ups_length]; [lia|].
  destruct (Z.ltb_spec (3 * k + 2) q); [|lia].
  replace (3 * k + 3) with (3 * (k + 1)) by lia. rewrite IH; lia.
Qed.

Lemma ups_length_only n q k :
  n <> 0%nat -> q = 3 * (k + Z.of_nat n) - 1 -> ups_length n q (3 * k) = q.
Proof.
  revert k. induction n as [|n IH]; intros k Hn H; [done|]. cbn [ups_length].
  destruct (Z.ltb_spec (3 * k + 2) q).
  - destruct n as [|n]; [lia|]. replace (3 * k + 3) with (3 * (k + 1)) by lia. apply IH; lia.
  - destruct n as [|n]; [cbn; lia|lia].
Qed.

Section Relative.
Context (fs : list Z -> answer).

Lemma ups_length_skip pending names out :
  resolved fs [] pending names out ->
  0 <= ups_length (Z.to_nat pending) (Z.of_nat (length out)) 0 <= Z.of_nat (length out) /\
  drop (Z.to_nat (ups_length (Z.to_nat pending) (Z.of_nat (length out)) 0)) out = text [] names.
Proof.
  intros R. pose proof (rs_text _ _ _ _ _ R) as Ht. destruct (rs_pending _ _ _ _ _ R) as [Hp _].
  pose proof (resolved_names _ _ _ _ _ R) as HF. apply Forall_app in HF as [HFu HF].
  set (n := Z.to_nat pending) in *. rewrite text_app in Ht. pose proof (length_ups n) as Hu.
  destruct (decide (names = [])) as [->|Hne].
  - cbn in Ht. rewrite <- Ht in Hu. case_decide as H0.
    + rewrite H0 in *. cbn. destruct out; [done|cbn in Hu; lia].
    + assert (Hs : ups_length n (Z.of_nat (length out)) 0 = Z.of_nat (length out))
        by (apply (ups_length_only n _ 0); [done|lia]).
      rewrite Hs. split; [lia|]. rewrite drop_ge by lia. done.
  - rewrite text_behind in Ht by done. set (base := text [] (replicate n dotdot)) in *.
    assert (Hj : Z.of_nat (length (base ++ joint base)) = 3 * Z.of_nat n).
    { rewrite length_app. destruct (decide (n = 0%nat)) as [H0|H0]; [unfold base; by rewrite H0|].
      destruct (text_shape [] (replicate n dotdot) (or_intror eq_refl) HFu) as [H1|[H1|H1]]; fold base in H1.
      - rewrite H1 in Hu. cbn in Hu. lia.
      - exfalso. assert (Hh : head base = Some ch_dot).
        { unfold base. destruct n as [|k]; [done|].
          change (replicate (S k) dotdot) with ([dotdot] ++ replicate k dotdot). by apply head_text_app. }
        by destruct H1 as [H1|H1]; rewrite H1 in Hh.
      - destruct (joint_spec base) as [[H2 _]|[H2 _]]; [done|]. rewrite H2. cbn [length]. lia. }
    assert (Hlen : (1 <= length (text [] names))%nat).
    { destruct (exists_last Hne) as (names' & m & ->). apply Forall_app in HF as [_ HF].
      apply list.Forall_cons in HF as [[Hm _] _]. pose proof (text_nonempty [] names' m Hm).
      destruct (text [] (names' ++ [m])); [done|cbn; lia]. }
    rewrite app_assoc in Ht. assert (Hl : Z.of_nat (length out) = 3 * Z.of_nat n + Z.of_nat (length (text [] names)))
      by (rewrite Ht, length_app; lia).
    assert (Hs : ups_length n (Z.of_nat (length out)) 0 = 3 * Z.of_nat n)
      by (rewrite (ups_length_names n _ 0 : _ -> ups_length n _ 0 = _); lia).
    rewrite Hs. split; [lia|]. rewrite Ht. apply drop_app_length'. lia.
Qed.

Lemma absolute_text cwd pending names out :
  resolved fs [] pending names out ->
  absolute cwd pending out = text (Nat.iter (Z.to_nat pending) parent_dir cwd) names.
Proof.
  intros R. unfold absolute. destruct (ups_length_skip _ _ _ R) as [_ ->].
  pose proof (resolved_names _ _ _ _ _ R) as HF. apply Forall_app in HF as [_ HF].
  destruct (decide (names = [])) as [->|Hne]; [cbn; by rewrite app_nil_r|].
  rewrite (text_behind (Nat.iter _ _ _) names) by done. rewrite bool_decide_eq_false_2; [done|].
  destruct (exists_last Hne) as (names' & m & ->). apply Forall_app in HF as [_ HF].
  apply list.Forall_cons in HF as [[Hm _] _]. by apply text_nonempty.
Qed.

(** A resolved path: a base, which is a root or the current directory some levels up,
    and components that are neither empty nor special, each of which exists and is
    not a symbolic link. *)
Definition canonical (cwd : list Z + Z) (r : list Z) : Prop :=
  exists base names, r = text base names /\ Forall proper names /\
  ((is_root base /\ forall k, (0 < k <= length names)%nat -> fs (text base (take k names)) = NotLink) \/
   (exists d n, cwd = inl d /\ base = Nat.iter n parent_dir d /\
      forall k, (0 < k <= length names)%nat -> fs (text [] (replicate n dotdot ++ take k names)) = NotLink)).

Lemma starts_slash_text root names out pending :
  resolved fs root pending names out -> starts_slash out = true -> is_root root.
Proof.
  intros R Hs. destruct (rs_root _ _ _ _ _ R) as [|Hr]; [done|exfalso]. subst root.
  pose proof (rs_text _ _ _ _ _ R) as Ht. pose proof (resolved_names _ _ _ _ _ R) as HF.
  destruct (replicate (Z.to_nat pending) dotdot ++ names) as [|n ns] eqn:E; [by rewrite Ht in Hs|].
  apply list.Forall_cons in HF as [[Hn HF] _].
  destruct n as [|c n]; [done|]. apply list.Forall_cons in HF as [Hc _].
  assert (Hh : head out = Some c).
  { rewrite Ht. change ((c :: n) :: ns) with ([c :: n] ++ ns). by apply head_text_app. }
  destruct out as [|c' out]; [done|]. injection Hh as ->. cbn in Hs. by apply Z.eqb_eq in Hs.
Qed.

Lemma resolve_canonical fuel cwd filename r :
  resolve fs fuel cwd filename = Some (inl r) -> canonical cwd r.
Proof.
  unfold resolve. case_bool_decide; [done|]. case_match; [done|].
  destruct (walk_loop fs fuel _) as [[w|e]|] eqn:E; [|done..].
  apply walk_loop_ok in E as (root & names & R); [|exists [], []; apply resolved_empty].
  destruct (starts_slash (w_out w)) eqn:Hs.
  - intros [= <-]. pose proof (starts_slash_text _ _ _ _ R Hs) as Hr.
    pose proof (proj2 (rs_pending _ _ _ _ _ R) Hr) as Hp. exists root, names.
    pose proof (rs_text _ _ _ _ _ R) as Ht. rewrite Hp in Ht. cbn in Ht.
    split_and!; [done|apply R|]. left. split; [done|]. intros k Hk.
    rewrite <- (rs_links _ _ _ _ _ R k Hk), Hp. done.
  - destruct cwd as [d|e]; [|done]. case_match; [done|]. intros [= <-].
    destruct (rs_root _ _ _ _ _ R) as [Hr|Hr].
    { exfalso. pose proof (rs_text _ _ _ _ _ R) as Ht.
      rewrite (proj2 (rs_pending _ _ _ _ _ R) Hr) in Ht. cbn in Ht.
      assert (Hh : head (w_out w) = Some ch_slash).
      { rewrite Ht. apply (head_text_app root []). by destruct Hr as [->| ->]. }
      destruct (w_out w); [done|]. injection Hh as ->. done. }
    subst root. rewrite (absolute_text _ _ _ _ R). exists (Nat.iter (Z.to_nat (w_pending w)) parent_dir d), names.
    split_and!; [done|apply R|]. right. exists d, (Z.to_nat (w_pending w)). split_and!; [done|done|apply R].
Qed.

(** The output never outgrows its array. *)
Lemma leave_length w comp piece rest w' :
  Z.of_nat (length (w_out w ++ piece)) < PATH_MAX -> leave w comp piece rest = Next w' ->
  Z.of_nat (length (w_out w')) < PATH_MAX.
Proof.
  rewrite length_app. intros Hl. unfold leave. case_bool_decide; intros [= <-]; cbn [w_out].
  - destruct (go_up_prefix (w_out w)) as [k ->]. rewrite length_take. lia.
  - case_bool_decide; [lia|]. rewrite length_app. lia.
Qed.

Lemma enter_length w t rest w' : enter w t rest = Again w' -> w_out w' = w_out w.
Proof. unfold enter. repeat case_match; try done; by intros [= <-]. Qed.

Lemma step_length w w' :
  Z.of_nat (length (w_out w)) < PATH_MAX -> walk_step fs w = Next w' \/ walk_step fs w = Again w' ->
  Z.of_nat (length (w_out w')) < PATH_MAX.
Proof.
  destruct w as [rest out check pending loops]. intros Hl. unfold walk_step. cbn [w_out] in Hl.
  destruct (starts_slash rest).
  { intros [[= <-]|[=]]. cbn [w_out]. by case_match. }
  case_match; [by intros [|]|]. destruct (bool_decide_reflect (component rest = dot)).
  { intros [[= <-]|[=]]. done. }
  case_match; [by intros [|]|].
  destruct (Z.leb_spec PATH_MAX (Z.of_nat (length (out ++ joint out ++ component rest)))); [by intros [|]|].
  case_match; [intros [[= <-]|[=]]; done|].
  assert (Hleave : forall b, leave (Walk rest out b pending loops) (component rest)
      (joint out ++ component rest) (after rest) = Next w' \/
    leave (Walk rest out b pending loops) (component rest)
      (joint out ++ component rest) (after rest) = Again w' -> Z.of_nat (length (w_out w')) < PATH_MAX).
  { intros b [E|E]; [by eapply leave_length in E|]. unfold leave in E. by case_bool_decide. }
  case_match; [apply Hleave|]. destruct (fs (out ++ joint out ++ component rest)); [|apply Hleave|by intros [|]].
  intros [E|E]; [by apply enter_not_next in E|]. apply enter_length in E. by rewrite E.
Qed.

Lemma walk_loop_length fuel w w' :
  Z.of_nat (length (w_out w)) < PATH_MAX -> walk_loop fs fuel w = Some (inl w') ->
  Z.of_nat (length (w_out w')) < PATH_MAX.
Proof.
  revert w. induction fuel as [|fuel IH]; intros w H; [done|]. cbn [walk_loop].
  destruct (walk_step fs w) as [w1|w1| |e] eqn:E; intros Hw.
  - eapply IH; [|exact Hw]. apply (step_length w w1); auto.
  - eapply IH; [|exact Hw]. apply (step_length w w1); auto.
  - by injection Hw as <-.
  - done.
Qed.

Lemma resolve_length fuel cwd filename r :
  resolve fs fuel cwd filename = Some (inl r) -> Z.of_nat (length r) < PATH_MAX.
Proof.
  unfold resolve. case_bool_decide; [done|]. case_match; [done|].
  destruct (walk_loop fs fuel _) as [[w|e]|] eqn:E; [|done..].
  apply walk_loop_length in E; [|done]. destruct (starts_slash (w_out w)); [by intros [= <-]|].
  destruct cwd as [d|e]; [|done].
  destruct (Z.leb_spec PATH_MAX (Z.of_nat (length (absolute d (w_pending w) (w_out w))) + 1)); [done|].
  intros [= <-]. lia.
Qed.

(** The fuel is enough. *)
Lemma resolve_total cwd filename : exists r, resolve fs walk_fuel cwd filename = Some r.
Proof.
  unfold resolve. case_bool_decide; [eauto|].
  destruct (Z.leb_spec PATH_MAX (Z.of_nat (length filename))); [eauto|].
  destruct (walk_terminates fs walk_fuel (Walk filename [] false 0 0)) as [[w|e] ->].
  - cbn. lia.
  - done.
  - unfold walk_fuel, measure, SYMLOOP_MAX, PATH_MAX in *. cbn [w_rest w_check w_loops].
    rewrite Z2Nat.id by done. lia.
  - destruct (starts_slash (w_out w)); [eauto|]. destruct cwd; [|eauto]. case_match; eauto.
  - eauto.
Qed.

(** ** Canonical paths are fixed *)

Lemma component_app n rest :
  Forall (fun c => c <> ch_slash) n -> component (n ++ ch_slash :: rest) = n /\ after (n ++ ch_slash :: rest) = ch_slash :: rest.
Proof.
  induction 1 as [|c n Hc HF IH]; cbn; [done|]. destruct (Z.eqb_spec c ch_slash); [done|].
  destruct IH as [-> ->]. done.
Qed.

Lemma component_all n : Forall (fun c => c <> ch_slash) n -> component n = n /\ after n = [].
Proof.
  induction 1 as [|c n Hc HF IH]; cbn; [done|]. destruct (Z.eqb_spec c ch_slash); [done|].
  destruct IH as [-> ->]. done.
Qed.

Lemma joint_name n : name_like n -> joint n = [ch_slash].
Proof.
  intros [Hn HF]. unfold joint. rewrite bool_decide_eq_false_2 by done.
  pose proof (last_app_name [] n Hn HF) as He. cbn in He. by rewrite He.
Qed.

(** What is left of a path with at least one component. *)
Lemma names_rest n ns : name_like n -> Forall name_like ns ->
  component (text [] (n :: ns)) = n /\ skip_slashes (after (text [] (n :: ns))) = text [] ns /\
  bool_decide (after (text [] (n :: ns)) = []) = bool_decide (ns = []) /\
  starts_slash (text [] (n :: ns)) = false.
Proof.
  intros Hn HF. change (text [] (n :: ns)) with (text n ns).
  assert (Hs : forall cs, starts_slash (n ++ cs) = false).
  { intros cs. destruct Hn as [Hne Hc]. destruct n as [|c n]; [done|].
    apply list.Forall_cons in Hc as [Hc _]. by apply Z.eqb_neq. }
  destruct (decide (ns = [])) as [->|Hne].
  - cbn. destruct (component_all n) as [-> ->]; [apply Hn|]. specialize (Hs []). by rewrite app_nil_r in Hs.
  - rewrite text_behind, (joint_name n) by done. cbn [app].
    destruct (component_app n (text [] ns)) as [-> ->]; [apply Hn|]. split_and!; [done| | |by apply Hs].
    + cbn [skip_slashes]. rewrite Z.eqb_refl. destruct ns as [|m ns]; [done|].
      apply list.Forall_cons in HF as [[Hm HFm] _]. destruct m as [|c m]; [done|].
      apply list.Forall_cons in HFm as [Hc _].
      assert (Hh : head (text [] ((c :: m) :: ns)) = Some c).
      { change ((c :: m) :: ns) with ([c :: m] ++ ns). by apply head_text_app. }
      destruct (text [] ((c :: m) :: ns)) as [|c' cs]; [done|]. injection Hh as ->. cbn.
      by destruct (Z.eqb_spec c ch_slash).
    + by rewrite !bool_decide_eq_false_2.
Qed.

Lemma walk_names root names2 : is_root root -> forall names1 check loops fuel,
  Forall proper (names1 ++ names2) -> (names2 = [] -> check = false) ->
  (forall k, (0 < k <= length (names1 ++ names2))%nat -> fs (text root (take k (names1 ++ names2))) = NotLink) ->
  Z.of_nat (length (text root (names1 ++ names2))) < PATH_MAX -> 1 <= room (text [] names2) ->
  (length names2 < fuel)%nat ->
  exists w, walk_loop fs fuel (Walk (text [] names2) (text root names1) check 0 loops) = Some (inl w) /\
    w_out w = text root (names1 ++ names2).
Proof.
  intros Hroot. induction names2 as [|n ns IH]; intros names1 check loops [|fuel] HP Hck Hfs Hlen Hroom Hf;
    try (cbn in Hf; lia).
  - rewrite Hck by done. rewrite app_nil_r. cbn. eauto.
  - assert (HPn : Forall proper (n :: ns)) by (by apply Forall_app in HP as [_ HP]).
    assert (HNn : Forall name_like (n :: ns)) by (eapply list.Forall_impl; [exact HPn|]; by intros m [? ? _ _]).
    apply list.Forall_cons in HNn as [Hn HNs]. apply list.Forall_cons in HPn as [Pn _].
    destruct (names_rest n ns Hn HNs) as (Hcomp & Hsk & Hnil & Hss).
    rewrite (cons_middle n names1 ns), app_assoc in *.
    assert (Hpush : fs (text root names1 ++ joint (text root names1) ++ n) = NotLink).
    { rewrite <- text_snoc. rewrite <- (Hfs (S (length names1))).
      - f_equal. f_equal. rewrite take_app_le by (rewrite length_app; cbn [length]; lia).
        by rewrite take_ge by (rewrite length_app; cbn [length]; lia).
      - rewrite !length_app. cbn [length]. lia. }
    assert (Hstep : walk_step fs (Walk (text [] (n :: ns)) (text root names1) check 0 loops) =
      Next (Walk (after (text [] (n :: ns))) (text root (names1 ++ [n])) (negb (bool_decide (ns = []))) 0 loops)).
    { unfold walk_step. rewrite Hss, Hcomp. destruct Pn as [P1 P2 P3 P4].
      rewrite !(bool_decide_eq_false_2 (n = _)) by done. cbn [andb].
      destruct (Z.eqb_spec (room (text [] (n :: ns))) 0); [lia|]. rewrite andb_false_r.
      pose proof (length_text_app root (names1 ++ [n]) ns) as Hle. rewrite text_snoc in Hle.
      destruct (Z.leb_spec PATH_MAX (Z.of_nat (length (text root names1 ++ joint (text root names1) ++ n)))); [lia|].
      rewrite Hpush. unfold leave. rewrite !(bool_decide_eq_false_2 (n = _)) by done.
      rewrite Hnil. cbn [w_out w_pending w_loops]. by rewrite text_snoc. }
    cbn [walk_loop]. rewrite Hstep. cbn [w_rest w_out w_check w_pending w_loops]. rewrite Hsk.
    apply (IH (names1 ++ [n])); [done| |done|done| |cbn in Hf; lia].
    + intros ->. done.
    + rewrite <- Hsk. unfold room in *. pose proof (length_skip_slashes (after (text [] (n :: ns)))).
      pose proof (length_after (text [] (n :: ns))). lia.
Qed.

Lemma resolve_fixed cwd root names :
  is_root root -> Forall proper names ->
  (forall k, (0 < k <= length names)%nat -> fs (text root (take k names)) = NotLink) ->
  Z.of_nat (length (text root names)) < PATH_MAX ->
  resolve fs walk_fuel cwd (text root names) = Some (inl (text root names)).
Proof.
  intros Hroot HP Hfs Hlen.
  assert (Hfuel : 2 * PATH_MAX < Z.of_nat walk_fuel)
    by (unfold walk_fuel, SYMLOOP_MAX, PATH_MAX; rewrite Z2Nat.id by done; lia).
  revert Hfuel. generalize walk_fuel. intros [|fuel] Hfuel; [unfold PATH_MAX in *; lia|].
  assert (HN : Forall name_like names) by (eapply list.Forall_impl; [exact HP|]; by intros m [? ? _ _]).
  assert (Htext : text root names = root ++ text [] names).
  { destruct (decide (names = [])) as [->|Hne]; [cbn; by rewrite app_nil_r|].
    rewrite text_behind by done. by destruct Hroot as [->| ->]. }
  assert (Hss : starts_slash (text [] names) = false).
  { destruct names as [|n ns]; [done|]. apply list.Forall_cons in HN as [Hn HN]. by apply names_rest. }
  assert (Hnames : (length names <= length (text [] names))%nat).
  { clear -HN. induction names as [|n names IH] using rev_ind; [done|].
    apply Forall_app in HN as [HN Hn]. apply list.Forall_cons in Hn as [[Hn _] _].
    rewrite text_snoc, !length_app. specialize (IH HN). destruct n; [done|]. cbn [length]. lia. }
  assert (Hlr : (1 <= length root)%nat) by (by destruct Hroot as [->| ->]; cbn; lia).
  rewrite Htext, length_app in Hlen.
  destruct (walk_names root names Hroot [] false 0 fuel) as (w & Hw & Ho).
  { done. } { done. } { done. } { cbn [app]. rewrite Htext, length_app. lia. }
  { unfold room. lia. } { lia. }
  cbn [app] in Ho. unfold resolve. rewrite Htext.
  rewrite bool_decide_eq_false_2 by (by destruct Hroot as [->| ->]).
  rewrite length_app. destruct (Z.leb_spec PATH_MAX (Z.of_nat (length root + length (text [] names)))); [lia|].
  assert (Hstep : walk_loop fs (S fuel) (Walk (root ++ text [] names) [] false 0 0) = Some (inl w)).
  { cbn [walk_loop]. rewrite <- Hw. destruct Hroot as [->| ->]; cbn.
    - rewrite Hss. cbn. f_equal. f_equal. destruct (text [] names) as [|c cs]; [done|]. cbn in *. by rewrite Hss.
    - rewrite Hss. cbn. f_equal. f_equal. destruct (text [] names) as [|c cs]; [done|]. cbn in *. by rewrite Hss. }
  rewrite Hstep, Ho. assert (Hs : starts_slash (text root names) = true) by (rewrite Htext; by destruct Hroot as [->| ->]).
  by rewrite Hs, Htext.
Qed.

End Relative.

(** ** [getcwd] *)

Definition ERANGE : Z := 34.

(** What the system call says: the text of the current directory, or an error. *)
Definition in_directory {X} `{!PathWorld X} (cwd : list Z + Z) : Prop :=
  (forall d, cwd = inl d -> Forall (fun c => c <> 0) d) /\
  forall s buf n, 0 < n -> mapped (mem s) buf n ->
    wp no_exit (sys_getcwd buf n) (fun r s' => ext s' = ext s /\
      match cwd with
      | inl d =>
          if Z.of_nat (length d) + 1 <=? n
          then r = Z.of_nat (length d) + 1 /\ mem s' = write (mem s) buf (d ++ [0])
          else r = -1 /\ errno s' = ERANGE /\ mem s' = mem s
      | inr e => r = -1 /\ errno s' = e /\ mem s' = mem s
      end) s.

(** What [getcwd] makes of it in a buffer of [n] bytes: a directory that cannot be
    reached from the root has no absolute path. *)
Definition cwd_in (cwd : list Z + Z) (n : Z) : list Z + Z :=
  match cwd with
  | inl d => if Z.of_nat (length d) + 1 <=? n then (if starts_slash d then inl d else inr ENOENT) else inr ERANGE
  | inr e => inr e
  end.

Section Getcwd.
Context {X : Type} `{!Allocator X} `{!PathWorld X}.
Context (cwd : list Z + Z) (D : in_directory cwd).

Lemma load_first_wp d a (Q : Z -> st X -> Prop) s :
  holds (mem s) a (d ++ [0]) -> (forall c, (c =? ch_slash) = starts_slash d -> Q c s) ->
  wp no_exit (load_byte a) Q s.
Proof. intros H HQ. eapply wp_load_head; [exact H|]. intros c Hc _. by apply HQ. Qed.

(** Into the caller's buffer. *)
Lemma getcwd_wp fp buf n s :
  buf <> 0 -> buf <> fp -> 0 < n -> mapped (mem s) buf n ->
  wp no_exit (getcwd fp buf n) (fun r s' => ext s' = ext s /\
    match cwd_in cwd n with
    | inl d => r = buf /\ mem s' = write (mem s) buf (d ++ [0])
    | inr e => r = 0 /\ errno s' = e /\ exists bs, Z.of_nat (length bs) <= n /\ mem s' = write (mem s) buf bs
    end) s.
Proof.
  intros Hb Hbf Hn Hm. unfold getcwd, cwd_in.
  destruct (Z.eqb_spec buf 0); [done|]. destruct (Z.eqb_spec n 0); [lia|]. cbn [negb andb].
  destruct D as [Htext Hsys]. apply wp_bind. eapply wp_mono; [by apply Hsys|].
  intros r s1 [Hx Ha]. destruct cwd as [d|e].
  - destruct (Z.leb_spec (Z.of_nat (length d) + 1) n) as [Hfit|Hno].
    + destruct Ha as [-> Hm1]. destruct (Z.ltb_spec (Z.of_nat (length d) + 1) 0); [lia|].
      destruct (Z.eqb_spec (Z.of_nat (length d) + 1) 0); [lia|].
      apply wp_bind, wp_bind, (load_first_wp d); [rewrite Hm1; apply holds_write|].
      intros c Hc. apply wp_ret. rewrite Hc. destruct (starts_slash d); cbn [negb].
      * destruct (Z.eqb_spec buf fp); [done|]. by apply wp_ret.
      * apply wp_bind, wp_set_errno, wp_ret. split_and!; [done|done|done|]. exists (d ++ [0]).
        split; [rewrite length_app; cbn [length]; lia|done].
    + destruct Ha as (-> & He & Hm1). apply wp_ret. split_and!; [done|done|done|]. exists [].
      split; [cbn; lia|]. by rewrite write_nil.
  - destruct Ha as (-> & He & Hm1). apply wp_ret. split_and!; [done|done|done|]. exists [].
    split; [cbn; lia|]. by rewrite write_nil.
Qed.

End Getcwd.

(** ** Returning a new string *)

Section NewString.
Context {X : Type} `{!Allocator X} `{!AllocatorLaws X}.

(** Null for want of memory, or a new block of its size that holds [t]; outside the
    frame nothing else changed. *)
Record returns_string (n fp : Z) (s : st X) (t : list Z) (r : Z) (s' : st X) : Prop := {
  rt_inv : al_inv (ext s') (mem s');
  rt_kept : forall x b, mem s !! x = Some b -> ~ (fp <= x < fp + n) -> mem s' !! x = Some b;
  rt_result : (r = 0 /\ errno s' = ENOMEM /\ al_live (ext s') = al_live (ext s)) \/
    (r <> 0 /\ al_live (ext s) !! r = None /\
     al_live (ext s') = <[r := Z.of_nat (length t) + 1]> (al_live (ext s)) /\ holds (mem s') r (t ++ [0]))
}.

Lemma framed_inv n fp (s0 s : st X) :
  framed_in n fp s0 s -> al_inv (ext s0) (mem s0) -> al_inv (ext s) (mem s).
Proof. intros [_ Hd Hx] I. rewrite Hx. by eapply al_inv_dom. Qed.

Lemma strdup_returns n fp s0 s a t :
  framed_in n fp s0 s -> al_inv (ext s0) (mem s0) -> cstring (mem s) a t ->
  Z.of_nat (length t) < SIZE_MAX -> wp al_exits (strdup a) (returns_string n fp s0 t) s.
Proof.
  intros F I Ht Hl. eapply wp_mono; [apply strdup_wp; [by eapply framed_inv|exact Ht|done]|].
  intros r s' (I' & Hr). destruct F as [Ho Hd Hx]. split; [done| |].
  - intros x b Hb Hn. rewrite <- (Ho x Hn) in Hb.
    destruct Hr as [(_ & Hm & _)|(_ & _ & _ & _ & _ & _ & Hk)]; [by rewrite Hm|by apply Hk].
  - rewrite <- Hx. destruct Hr as [(-> & _ & Hlv & He)|(Hr0 & _ & Hlv & Hnew & _ & Hh & _)]; [by left|by right].
Qed.

End NewString.
