(* ===== verification/PathFinish.v ===== *)
(** * The end of [realpath] in memory

    The climb from the current directory, the move of the output behind it, and the
    whole function. *)
From S2P Require Import Prelude CMem CCmd CLib Alloc Strings Helpers Path PathSpec PathWalk PathCwd.

Section Finish.
Context {X : Type} `{!Allocator X} `{!AllocatorLaws X} `{!PathWorld X}.
Context (fs : list Z -> answer) (FS : file_system fs) (cwd : list Z + Z) (D : in_directory cwd).
Context (fp : Z) (s0 : st X).
Context (Hframe : mapped (mem s0) fp frame_size) (Hfp : 0 < fp /\ fp + frame_size <= SIZE_MAX).

(** ** The climb *)

Lemma parent_dir_prefix cs : exists k, parent_dir cs = take k cs.
Proof.
  unfold parent_dir. destruct (strip_last_prefix (length cs) 1 cs) as [k ->].
  case_match; [|eauto]. rewrite removelast_take, take_take. eauto.
Qed.

Lemma length_parent_dir cs : (length (parent_dir cs) <= length cs)%nat.
Proof. destruct (parent_dir_prefix cs) as [k ->]. rewrite length_take. lia. Qed.

Lemma strip_last_nonempty fuel cs : cs <> [] -> strip_last fuel 1 cs <> [].
Proof.
  revert cs. induction fuel as [|fuel IH]; intros cs H; [done|]. cbn [strip_last].
  destruct (Z.ltb_spec 1 (Z.of_nat (length cs))); cbn [andb]; [|done].
  destruct (negb (ends_slash cs)); [|done]. apply IH. intros E.
  assert (Hl : length (removelast cs) = 0%nat) by (by rewrite E).
  rewrite removelast_take, length_take in Hl. lia.
Qed.

Lemma parent_dir_nonempty cs : cs <> [] -> parent_dir cs <> [].
Proof.
  intros H. unfold parent_dir. pose proof (strip_last_nonempty (length cs) cs H) as Hn.
  destruct (Z.ltb_spec 1 (Z.of_nat (length (strip_last (length cs) 1 cs)))); [|done].
  intros E. assert (Hl : length (removelast (strip_last (length cs) 1 cs)) = 0%nat) by (by rewrite E).
  rewrite removelast_take, length_take in Hl. lia.
Qed.

Lemma iter_parent_prefix n cs : exists k, Nat.iter n parent_dir cs = take k cs.
Proof.
  induction n as [|n [k IH]]; [exists (length cs); by rewrite take_ge|].
  change (Nat.iter (S n) parent_dir cs) with (parent_dir (Nat.iter n parent_dir cs)).
  destruct (parent_dir_prefix (Nat.iter n parent_dir cs)) as [j ->]. rewrite IH, take_take. eauto.
Qed.

Lemma iter_parent_nonempty n cs : cs <> [] -> Nat.iter n parent_dir cs <> [].
Proof. intros H. induction n as [|n IH]; [done|]. by apply parent_dir_nonempty. Qed.

Lemma climb_wp n q cs skip (Q : Z * Z -> st X -> Prop) s :
  holds (mem s) (stack fp) cs -> 0 <= skip -> skip + 3 * Z.of_nat n <= SIZE_MAX ->
  Q (Z.of_nat (length (Nat.iter n parent_dir cs)), ups_length n q skip) s ->
  wp no_exit (climb fp n q (Z.of_nat (length cs)) skip) Q s.
Proof.
  revert cs skip. induction n as [|n IH]; intros cs skip H Hs0 Hs HQ; cbn [climb]; [by apply wp_ret|].
  apply wp_bind, (strip_name_wp _ _ _ _ cs); [done|lia|lia|].
  rewrite (u64_small (skip + 2)) by lia. rewrite (u64_small (skip + 2 + 1)) by lia.
  set (cs' := strip_last (length cs) 1 cs).
  assert (Hlen : (if 1 <? Z.of_nat (length cs') then Z.of_nat (length cs') - 1 else Z.of_nat (length cs')) =
    Z.of_nat (length (parent_dir cs))).
  { unfold parent_dir. fold cs'. destruct (Z.ltb_spec 1 (Z.of_nat (length cs'))); [|done].
    rewrite removelast_take, length_take. lia. }
  rewrite Hlen. cbn [ups_length] in HQ. rewrite Nat.iter_succ_r in HQ.
  replace (skip + 2 + 1) with (skip + 3) by lia.
  apply IH; [|destruct (skip + 2 <? q); lia|destruct (skip + 2 <? q); lia|exact HQ].
  destruct (parent_dir_prefix cs) as [k ->]. by apply holds_take.
Qed.

(** ** A relative output *)

Definition prepend_post (out : list Z) (pending : Z) (o : option Z) (s' : st X) : Prop :=
  framed fp s0 s' /\
  match cwd_in cwd (PATH_MAX + 1) with
  | inr e => o = None /\ errno s' = e
  | inl d =>
      let r := absolute d pending out in
      if PATH_MAX <=? Z.of_nat (length r) + 1 then o = None /\ errno s' = ENAMETOOLONG
      else o = Some (Z.of_nat (length r)) /\ holds (mem s') (output fp) (r ++ [0])
  end.

Lemma frame_bounds : stack fp = fp /\ output fp = fp + PATH_MAX + 1 /\ frame_size = 2 * PATH_MAX + 1.
Proof. done. Qed.

(** The slash between the directory and the rest of the output. *)
Lemma prepend_slash_wp s base tl sep (Q : bool -> st X -> Prop) :
  holds (mem s) (stack fp) base -> base <> [] ->
  sep = (if bool_decide (tl = @nil Z) then [] else joint base) ->
  Q (negb (bool_decide (sep = []))) s ->
  wp no_exit (if Z.of_nat (length tl) =? 0 then ret false
              else let* c := load_byte (stack fp + (Z.of_nat (length base) - 1)) in ret (negb (c =? ch_slash))) Q s.
Proof.
  intros H Hne -> HQ. destruct (Z.eqb_spec (Z.of_nat (length tl)) 0) as [Hl|Hl].
  { destruct tl; [|cbn in Hl; lia]. by apply wp_ret. }
  rewrite (bool_decide_eq_false_2 (tl = [])) in HQ by (by intros ->).
  apply wp_bind, (wp_load_last _ _ base); [done|done|done|]. intros c Hc. apply wp_ret. rewrite Hc.
  unfold joint in HQ. rewrite (bool_decide_eq_false_2 (base = [])) in HQ by done. cbn [negb andb] in HQ.
  by destruct (ends_slash base).
Qed.

Lemma store_slash_wp s base (tl sep : list Z) skip :
  framed fp s0 s -> holds (mem s) (stack fp) base -> sep = [] \/ sep = [ch_slash] ->
  holds (mem s) (output fp + skip) (tl ++ [0]) -> Z.of_nat (length base) <= PATH_MAX -> 0 <= skip ->
  wp no_exit (if negb (bool_decide (sep = [])) then store_byte (stack fp + Z.of_nat (length base)) ch_slash else ret tt)
    (fun _ s' => framed fp s0 s' /\ holds (mem s') (stack fp) (base ++ sep) /\
       holds (mem s') (output fp + skip) (tl ++ [0])) s.
Proof.
  intros F H Hsep HT Hl Hs. destruct frame_bounds as (Hst & Hou & Hfs).
  destruct Hsep as [->| ->]; cbn.
  { apply wp_ret. rewrite app_nil_r. by split_and!. }
  apply wp_store_byte.
  { eapply (framed_mapped _ _ Hframe s (stack fp + Z.of_nat (length base)) 1 F); lia. }
  split_and!; cbn [mem].
  - eapply framed_write; [exact Hframe|exact F|lia|cbn [length]; lia].
  - apply holds_app. split; [|apply holds_write]. by apply holds_write_other; [left; lia|].
  - apply holds_write_other; [right; cbn [length]; lia|done].
Qed.

Lemma prepend_wp s out pending names :
  framed fp s0 s -> holds (mem s) (output fp) (out ++ [0]) -> resolved fs [] pending names out ->
  Z.of_nat (length out) < PATH_MAX ->
  wp no_exit (prepend_cwd fp (Z.of_nat (length out)) pending) (prepend_post out pending) s.
Proof.
  intros F HO R Hq. destruct frame_bounds as (Hst & Hou & Hfs). unfold prepend_cwd, prepend_post.
  apply wp_bind. eapply wp_mono.
  { apply (getcwd_wp cwd D); [unfold stack; lia|unfold stack, callee_fp, PATH_MAX; lia|unfold PATH_MAX; lia|].
    eapply framed_mapped; [exact Hframe|exact F|lia|lia]. }
  intros r s1 [Hx Ha]. destruct (cwd_in cwd (PATH_MAX + 1)) as [d|e] eqn:Ecwd.
  2: { destruct Ha as (-> & He & bs & Hbs & Hm). apply wp_ret. split; [|done].
       destruct s1 as [m1 e1 x1]. cbn in Hm, Hx. subst m1 x1.
       eapply framed_write; [exact Hframe|exact F|lia|lia]. }
  destruct Ha as [-> Hm1]. destruct (Z.eqb_spec (stack fp) 0) as [|Hst0]; [lia|].
  assert (Hd : starts_slash d = true /\ Z.of_nat (length d) + 1 <= PATH_MAX + 1 /\ Forall (fun c => c <> 0) d).
  { unfold cwd_in in Ecwd. destruct cwd as [d'|]; [|done].
    destruct (Z.leb_spec (Z.of_nat (length d') + 1) (PATH_MAX + 1)); [|done].
    destruct (starts_slash d') eqn:Es; [|done]. injection Ecwd as ->. split_and!; [done|done|]. by apply D. }
  destruct Hd as (Hds & Hdl & HdF). assert (Hdne : d <> []) by (by intros ->).
  assert (F1 : framed fp s0 s1).
  { destruct s1 as [m1 e1 x1]. cbn in Hm1, Hx. subst m1 x1.
    eapply framed_write; [exact Hframe|exact F|lia|rewrite length_app; cbn [length]; lia]. }
  assert (HD1 : holds (mem s1) (stack fp) (d ++ [0])) by (rewrite Hm1; apply holds_write).
  assert (HO1 : holds (mem s1) (output fp) (out ++ [0])).
  { rewrite Hm1. apply holds_write_other; [|done]. right. rewrite length_app. cbn [length]. lia. }
  clear Hm1. apply wp_bind, (wp_strlen _ _ d); [by split|].
  set (n := Z.to_nat pending).
  destruct (ups_length_skip fs _ _ _ R) as [Hskip Htl]. fold n in Hskip, Htl.
  destruct (iter_parent_prefix n d) as [k Hk].
  pose proof (iter_parent_nonempty n d Hdne) as Hbne.
  assert (Hpn : 3 * Z.of_nat n <= Z.of_nat (length out) + 1).
  { destruct (pending_bound fs (Walk [] out false pending 0)) as [? ?]; [by exists [], names|].
    cbn [w_pending w_out] in *. lia. }
  apply wp_bind, (climb_wp n _ d); [by apply holds_app in HD1 as [HD1 _]|lia|unfold PATH_MAX in *; zlia|].
  set (base := Nat.iter n parent_dir d) in *. set (skip := ups_length n (Z.of_nat (length out)) 0) in *.
  set (tl := drop (Z.to_nat skip) out) in *.
  assert (Htll : Z.of_nat (length tl) = Z.of_nat (length out) - skip) by (unfold tl; rewrite length_drop; lia).
  rewrite <- Htll. rewrite (u64_small (Z.of_nat (length tl))) by (unfold PATH_MAX in *; zlia).
  set (sep := if bool_decide (tl = []) then [] else joint base).
  assert (Habs : absolute d pending out = (base ++ sep) ++ tl) by (unfold absolute; fold n base skip tl sep; by rewrite app_assoc).
  assert (Hbl : Z.of_nat (length base) <= Z.of_nat (length d)) by (rewrite Hk, length_take; lia).
  assert (HB1 : holds (mem s1) (stack fp) base).
  { rewrite Hk. apply holds_take. by apply holds_app in HD1 as [HD1 _]. }
  assert (HT1 : holds (mem s1) (output fp + skip) (tl ++ [0])).
  { rewrite <- (take_drop (Z.to_nat skip) out), <- app_assoc in HO1. apply holds_app in HO1 as [_ HO1].
    rewrite length_take, Nat.min_l in HO1 by lia. rewrite Z2Nat.id in HO1 by lia. exact HO1. }
  apply wp_bind, (prepend_slash_wp s1 base tl sep); [exact HB1|done|done|].
  set (slash := negb (bool_decide (sep = []))).
  assert (Hsep : sep = [] \/ sep = [ch_slash]).
  { unfold sep. case_bool_decide; [by left|]. destruct (joint_spec base) as [[-> _]|[-> _]]; auto. }
  apply wp_bind. eapply wp_mono; [apply (store_slash_wp s1 base tl sep skip F1 HB1 Hsep HT1); lia|].
  intros ? s2 (F2 & HB2 & HT2). fold slash.
  assert (Hsl : (if slash then u64 (Z.of_nat (length base) + 1) else Z.of_nat (length base)) =
    Z.of_nat (length (base ++ sep))).
  { unfold slash. rewrite length_app. destruct Hsep as [->| ->]; cbn;
      try rewrite u64_small by (unfold PATH_MAX in *; zlia); lia. }
  assert (Hrl : Z.of_nat (length ((base ++ sep) ++ tl)) = Z.of_nat (length (base ++ sep)) + Z.of_nat (length tl))
    by (rewrite (length_app (base ++ sep)); lia).
  rewrite Hsl, Habs, Hrl.
  assert (Hseple : Z.of_nat (length (base ++ sep)) <= PATH_MAX + 1).
  { rewrite <- Hsl. destruct slash; [rewrite u64_small by (unfold PATH_MAX in *; zlia)|]; lia. }
  rewrite (u64_small (Z.of_nat (length (base ++ sep)) + _)) by (unfold PATH_MAX in *; zlia).
  rewrite u64_small by (unfold PATH_MAX in *; zlia).
  destruct (Z.leb_spec PATH_MAX (Z.of_nat (length (base ++ sep)) + Z.of_nat (length tl) + 1)) as [Hlong|Hfit].
  { apply wp_bind, wp_set_errno, wp_ret. split; [|done]. destruct F2. by split. }
  rewrite u64_small by (unfold PATH_MAX in *; zlia).
  assert (Htl1 : Z.of_nat (length (tl ++ [0])) = Z.of_nat (length tl) + 1) by (rewrite length_app; cbn [length]; lia).
  apply wp_bind. eapply (wp_memmove _ _ _ _ (tl ++ [0])); [exact HT2|done| |].
  { eapply framed_mapped; [exact Hframe|exact F2|lia|lia]. }
  set (s3 := St _ _ _).
  assert (F3 : framed fp s0 s3).
  { eapply framed_write; [exact Hframe|exact F2|lia|lia]. }
  apply wp_bind. eapply (wp_memcpy _ _ _ _ (base ++ sep)); [|done| |right; left; lia|].
  { apply holds_write_other; [left; lia|exact HB2]. }
  { eapply framed_mapped; [exact Hframe|exact F3|lia|lia]. }
  set (s4 := St _ _ _). apply wp_ret. split.
  { eapply framed_write; [exact Hframe|exact F3|lia|lia]. }
  split.
  - f_equal. rewrite (u64_small (Z.of_nat (length (base ++ sep)) + Z.of_nat (length out))) by (unfold PATH_MAX in *; zlia).
    rewrite u64_small by (unfold PATH_MAX in *; zlia). lia.
  - rewrite <- app_assoc. apply holds_app. split; [apply holds_write|].
    apply holds_write_other; [right; lia|apply holds_write].
Qed.

(** ** The result *)

(** What a call answers: an error, or a text in a new block or in the caller's
    buffer.  Outside the frame and the result nothing changed. *)
Definition realpath_post (resolved : Z) (ans : list Z + Z) (r : Z) (s' : st X) : Prop :=
  match ans with
  | inr e => r = 0 /\ errno s' = e /\ framed fp s0 s'
  | inl t =>
      if resolved =? 0 then returns_string frame_size fp s0 t r s'
      else r = resolved /\ ext s' = ext s0 /\ same_dom (mem s0) (mem s') /\
           holds (mem s') resolved (t ++ [0]) /\
           forall x, ~ (fp <= x < fp + frame_size) -> ~ (resolved <= x < resolved + Z.of_nat (length t) + 1) ->
             mem s' !! x = mem s0 !! x
  end.

Context (I0 : al_inv (ext s0) (mem s0)).

Lemma hand_over_wp s resolved t :
  framed fp s0 s -> holds (mem s) (output fp) (t ++ [0]) -> Forall (fun c => c <> 0) t ->
  Z.of_nat (length t) < PATH_MAX ->
  resolved = 0 \/ (mapped (mem s0) resolved PATH_MAX /\ (resolved + PATH_MAX <= fp \/ fp + frame_size <= resolved)) ->
  wp al_exits (if negb (resolved =? 0) then memcpy resolved (output fp) (u64 (Z.of_nat (length t) + 1))
               else strdup (output fp)) (realpath_post resolved (inl t)) s.
Proof.
  intros F HO HF Hl Hres. destruct frame_bounds as (Hst & Hou & Hfs). unfold realpath_post.
  assert (Htl : Z.of_nat (length (t ++ [0])) = Z.of_nat (length t) + 1) by (rewrite length_app; cbn [length]; lia).
  destruct (Z.eqb_spec resolved 0) as [Hr0|Hr0]; cbn [negb].
  - apply strdup_returns; [done|done|by split|unfold PATH_MAX in *; zlia].
  - destruct Hres as [|[Hm Hsep]]; [done|]. rewrite u64_small by (unfold PATH_MAX in *; zlia).
    assert (Hm' : mapped (mem s) resolved (Z.of_nat (length t) + 1)).
    { rewrite <- (fr_dom _ _ _ _ F). eapply mapped_sub; [exact Hm|lia|lia]. }
    eapply (wp_exits no_exit); [|done].
    eapply (wp_memcpy _ _ _ _ (t ++ [0])); [exact HO|lia|exact Hm'|lia|].
    split_and!; cbn [mem errno ext]; [done|apply F| |apply holds_write|].
    + etransitivity; [apply F|]. apply same_dom_write. by rewrite Htl.
    + intros x Hx1 Hx2. rewrite lookup_write_out by lia. by apply F.
Qed.

Lemma absolute_text_bytes d pending out :
  Forall (fun c => c <> 0) d -> Forall (fun c => c <> 0) out -> Forall (fun c => c <> 0) (absolute d pending out).
Proof.
  intros Hd Ho. unfold absolute. apply Forall_app. split.
  - destruct (iter_parent_prefix (Z.to_nat pending) d) as [k ->]. by apply Forall_take.
  - apply Forall_app. split; [|by apply Forall_drop].
    case_bool_decide; [constructor|]. by destruct (joint_spec (Nat.iter (Z.to_nat pending) parent_dir d)) as [[-> _]|[-> _]]; repeat constructor.
Qed.

(** The answer at the end of the walk. *)
Definition walk_answer (w : walk) : list Z + Z :=
  if starts_slash (w_out w) then inl (w_out w)
  else match cwd_in cwd (PATH_MAX + 1) with
       | inr e => inr e
       | inl d =>
           let r := absolute d (w_pending w) (w_out w) in
           if PATH_MAX <=? Z.of_nat (length r) + 1 then inr ENAMETOOLONG else inl r
       end.

Lemma finish_wp s l w resolved :
  at_walk fs fp s0 s l w ->
  resolved = 0 \/ (mapped (mem s0) resolved PATH_MAX /\ (resolved + PATH_MAX <= fp \/ fp + frame_size <= resolved)) ->
  wp al_exits (realpath_finish fp l resolved) (realpath_post resolved (walk_answer w)) s.
Proof.
  intros [F [Hp Hp1] [Hq Hq1] Hc Hpe Hlo HR HO HT HOK] Hres.
  destruct frame_bounds as (Hst & Hou & Hfs). unfold realpath_finish, walk_answer. rewrite Hq, Hpe.
  apply wp_bind, wp_store_byte.
  { eapply (framed_mapped _ _ Hframe s (output fp + Z.of_nat (length (w_out w))) 1 F); lia. }
  set (s1 := St _ _ _).
  assert (F1 : framed fp s0 s1) by (eapply framed_write; [exact Hframe|exact F|lia|cbn [length]; lia]).
  assert (HO1 : holds (mem s1) (output fp) (w_out w ++ [0])).
  { apply holds_app. split; [|apply holds_write]. by apply holds_write_other; [left; lia|]. }
  apply wp_bind. eapply (wp_exits no_exit); [|done].
  apply (load_first_wp (w_out w)); [exact HO1|]. intros c Hc1. rewrite Hc1. cbn beta.
  destruct (starts_slash (w_out w)) eqn:Hs.
  - apply wp_bind, wp_ret. by apply hand_over_wp.
  - destruct HOK as (root & names & R).
    assert (root = []) as ->.
    { destruct (rs_root _ _ _ _ _ R) as [Hr|]; [exfalso|done]. pose proof (rs_text _ _ _ _ _ R) as Ht.
      rewrite (proj2 (rs_pending _ _ _ _ _ R) Hr) in Ht. cbn in Ht.
      assert (Hh : head (w_out w) = Some ch_slash).
      { rewrite Ht. apply (head_text_app root []). by destruct Hr as [->| ->]. }
      destruct (w_out w); [done|]. injection Hh as ->. done. }
    apply wp_bind. eapply wp_mono; [eapply (wp_exits no_exit); [by eapply (prepend_wp s1)|done]|].
    intros o s2 [F2 Ha]. destruct (cwd_in cwd (PATH_MAX + 1)) as [d|e] eqn:Ecwd.
    2: { destruct Ha as [-> He]. by apply wp_ret. }
    cbv zeta in Ha |- *. destruct (Z.leb_spec PATH_MAX (Z.of_nat (length (absolute d (w_pending w) (w_out w))) + 1)).
    { destruct Ha as [-> He]. by apply wp_ret. }
    destruct Ha as [-> HA]. apply hand_over_wp; [done|done| |lia|done].
    apply absolute_text_bytes; [|done]. unfold cwd_in in Ecwd. destruct cwd as [d'|]; [|done].
    destruct (Z.of_nat (length d') + 1 <=? PATH_MAX + 1); [|done].
    destruct (starts_slash d'); [|done]. injection Ecwd as ->. by apply D.
Qed.

(** ** The whole function *)

Lemma realpath_wp filename resolved t :
  filename <> 0 -> cstring (mem s0) filename t -> Z.of_nat (length t) < SIZE_MAX ->
  filename + Z.of_nat (length t) + 1 <= fp \/ fp + frame_size <= filename ->
  resolved = 0 \/ (mapped (mem s0) resolved PATH_MAX /\ (resolved + PATH_MAX <= fp \/ fp + frame_size <= resolved)) ->
  wp al_exits (realpath fp filename resolved) (fun r s' => exists ans,
    resolve fs walk_fuel (cwd_in cwd (PATH_MAX + 1)) t = Some ans /\ realpath_post resolved ans r s') s0.
Proof.
  intros Hfn [Ht HF] Htl Hsep Hres. destruct frame_bounds as (Hst & Hou & Hfs).
  assert (F0 : framed fp s0 s0) by (split; [by intros|done|done]).
  unfold realpath. destruct (Z.eqb_spec filename 0); [done|].
  apply wp_bind, (wp_strnlen _ _ _ t); [unfold PATH_MAX; lia|by apply holds_take|done|].
  destruct (decide (t = [])) as [->|Hne].
  { cbn. apply wp_bind, wp_set_errno, wp_ret. exists (inr ENOENT). split; [done|]. split_and!; [done|done|].
    by apply framed_errno. }
  assert (Hl0 : 1 <= Z.of_nat (length t)) by (destruct t; [done|cbn; lia]).
  destruct (Z.eqb_spec (Z.min (PATH_MAX + 1) (Z.of_nat (length t))) 0); [unfold PATH_MAX in *; lia|].
  unfold resolve. rewrite bool_decide_eq_false_2 by done.
  destruct (Z.leb_spec PATH_MAX (Z.of_nat (length t))) as [Hlong|Hfit].
  { destruct (Z.leb_spec PATH_MAX (Z.min (PATH_MAX + 1) (Z.of_nat (length t)))); [|lia].
    apply wp_bind, wp_set_errno, wp_ret. exists (inr ENAMETOOLONG). split; [done|]. split_and!; [done|done|].
    by apply framed_errno. }
  rewrite Z.min_r by lia. destruct (Z.leb_spec PATH_MAX (Z.of_nat (length t))); [lia|].
  rewrite (u64_small (PATH_MAX + 1 - _)) by (unfold PATH_MAX in *; zlia).
  rewrite (u64_small (_ - 1)) by (unfold PATH_MAX in *; zlia). rewrite u64_small by (unfold PATH_MAX in *; zlia).
  replace (PATH_MAX + 1 - Z.of_nat (length t) - 1) with (room t) by (unfold room; lia).
  assert (Hroom : room t + Z.of_nat (length t) = PATH_MAX) by (unfold room; lia).
  assert (Htl1 : Z.of_nat (length (t ++ [0])) = Z.of_nat (length t) + 1) by (rewrite length_app; cbn [length]; lia).
  apply wp_bind. eapply (wp_memcpy _ _ _ _ (t ++ [0])); [exact Ht|done| |lia|].
  { eapply (framed_mapped _ _ Hframe s0); [exact F0|lia|lia]. }
  set (s1 := St _ _ _).
  assert (A : at_walk fs fp s0 s1 (Locals (room t) 0 false 0 0) (Walk t [] false 0 0)).
  { split; cbn [w_rest w_out w_check w_pending w_loops l_p l_q l_check_dir l_pending_up l_loop_count]; try done.
    - eapply framed_write; [exact Hframe|exact F0|lia|lia].
    - split; [done|lia].
    - split; [apply holds_write|done].
    - exists [], []. apply resolved_empty. }
  destruct (resolve_total fs (cwd_in cwd (PATH_MAX + 1)) t) as [ans Hans].
  unfold resolve in Hans. rewrite bool_decide_eq_false_2 in Hans by done.
  destruct (Z.leb_spec PATH_MAX (Z.of_nat (length t))); [lia|].
  rewrite Hans.
  destruct (walk_loop fs walk_fuel (Walk t [] false 0 0)) as [r|] eqn:Hw; [|done].
  apply wp_bind. eapply wp_mono.
  { eapply (wp_exits no_exit); [|done]. by eapply (walk_wp fs FS fp s0 Hframe walk_fuel s1). }
  intros o s2 Ho. destruct r as [w|e].
  - destruct Ho as (l & -> & A2). eapply wp_mono; [by apply (finish_wp s2 l w resolved)|].
    intros r s' Hr. exists ans. split; [done|].
    replace ans with (walk_answer w); [done|]. unfold walk_answer.
    destruct (starts_slash (w_out w)); [by injection Hans|].
    destruct (cwd_in cwd (PATH_MAX + 1)) as [d|e]; [|by injection Hans]. cbv zeta in *.
    by destruct (PATH_MAX <=? _); injection Hans.
  - destruct Ho as (-> & He & F2). apply wp_ret. exists ans. split; [done|]. injection Hans as <-.
    by split_and!.
Qed.

End Finish.
