(* ===== verification/PathProps.v ===== *)
(** * Paths: properties

    The theorems on src/path_overrides.c, and a concrete file system on which they
    are exercised. *)
From S2P Require Import Prelude CMem CCmd CLib Alloc Strings SimpleHeap Helpers Path PathSpec PathWalk PathCwd PathFinish.

(** ** The current directory in a new string *)

Section Cwd.
Context {X : Type} `{!Allocator X} `{!AllocatorLaws X} `{!PathWorld X}.
Context (cwd : list Z + Z) (D : in_directory cwd).

(** An error, or the text in a new block. *)
Definition string_or_error (n fp : Z) (s : st X) (ans : list Z + Z) (r : Z) (s' : st X) : Prop :=
  match ans with
  | inl t => returns_string n fp s t r s'
  | inr e => r = 0 /\ errno s' = e /\ framed_in n fp s s'
  end.

Lemma framed_in_write n fp (s0 s s' : st X) a bs :
  mapped (mem s0) fp n -> framed_in n fp s0 s -> fp <= a -> a + Z.of_nat (length bs) <= fp + n ->
  mem s' = write (mem s) a bs -> ext s' = ext s -> framed_in n fp s0 s'.
Proof.
  intros Hm F Ha He Hms Hxs. split; rewrite ?Hms.
  - intros x Hx. rewrite lookup_write_out by lia. by apply F.
  - etransitivity; [apply F|]. apply same_dom_write. rewrite <- (fr_dom _ _ _ _ F).
    eapply mapped_sub; [exact Hm|lia..].
  - rewrite Hxs. apply F.
Qed.

Lemma framed_refl n fp (s : st X) : framed_in n fp s s.
Proof. split; [by intros|done|done]. Qed.

Lemma getcwd_new_wp fp n (s : st X) :
  al_inv (ext s) (mem s) -> mapped (mem s) fp PATH_MAX ->
  wp al_exits (getcwd fp 0 n) (string_or_error PATH_MAX fp s (cwd_in cwd PATH_MAX)) s.
Proof.
  intros I Hm. unfold getcwd. cbn [Z.eqb negb andb]. destruct D as [Htext Hsys].
  apply wp_bind. eapply wp_mono; [eapply (wp_exits no_exit); [by apply Hsys|done]|].
  intros r s1 [Hx Ha]. unfold cwd_in. destruct cwd as [d|e].
  - destruct (Z.leb_spec (Z.of_nat (length d) + 1) PATH_MAX) as [Hfit|Hno].
    + destruct Ha as [-> Hm1]. destruct (Z.ltb_spec (Z.of_nat (length d) + 1) 0); [lia|].
      destruct (Z.eqb_spec (Z.of_nat (length d) + 1) 0); [lia|].
      assert (F1 : framed_in PATH_MAX fp s s1).
      { eapply framed_in_write; [exact Hm|apply framed_refl| | |exact Hm1|exact Hx]; [lia|].
        rewrite length_app. cbn [length]. lia. }
      apply wp_bind, wp_bind. eapply (wp_exits no_exit); [|done].
      apply (load_first_wp d); [rewrite Hm1; apply holds_write|].
      intros c Hc. apply wp_ret. rewrite Hc. destruct (starts_slash d); cbn [negb].
      * rewrite Z.eqb_refl. apply strdup_returns; [done|done| |unfold PATH_MAX in *; zlia].
        split; [rewrite Hm1; apply holds_write|by apply Htext].
      * apply wp_bind, wp_set_errno, wp_ret. split_and!; [done|done|]. destruct F1. by split.
    + destruct Ha as (-> & He & Hm1). apply wp_ret. split_and!; [done|done|].
      split; [by rewrite Hm1|by rewrite Hm1|done].
  - destruct Ha as (-> & He & Hm1). apply wp_ret. split_and!; [done|done|].
    split; [by rewrite Hm1|by rewrite Hm1|done].
Qed.

End Cwd.

Section CurrentDir.
Context {X : Type} `{!Allocator X} `{!AllocatorLaws X} `{!PathWorld X}.
Context (cwd : list Z + Z) (D : in_directory cwd).

(** [stat] finds the device and inode of a path, or fails; [PWD] is unset (null) or
    names the string at [pwd]. *)
Definition files_are (files : list Z -> option (Z * Z)) : Prop :=
  forall s a path, cstring (mem s) a path ->
    wp no_exit (stat a) (fun r s' => mem s' = mem s /\ ext s' = ext s /\
      match files path with Some id => r = (0, id) | None => r.1 <> 0 end) s.
Definition environment_is (lits : literals) (pwd : Z) : Prop :=
  forall s, wp no_exit (getenv (lit_PWD lits)) (fun r s' => mem s' = mem s /\ ext s' = ext s /\ r = pwd) s.

(** [PWD] names the current directory. *)
Definition pwd_is_cwd (files : list Z -> option (Z * Z)) (pwd : Z) (t : list Z) : bool :=
  negb (pwd =? 0) && negb (bool_decide (t = [])) &&
  match files t, files [ch_dot] with
  | Some (dev, ino), Some (dev', ino') => (dev =? dev') && (ino =? ino')
  | _, _ => false
  end.

Lemma current_dir_wp lits files fp pwd t (s : st X) :
  al_inv (ext s) (mem s) -> mapped (mem s) fp PATH_MAX -> files_are files -> environment_is lits pwd ->
  cstring (mem s) (lit_dot lits) [ch_dot] ->
  (pwd <> 0 -> cstring (mem s) pwd t /\ Z.of_nat (length t) < SIZE_MAX) ->
  wp al_exits (get_current_dir_name lits fp) (fun r s' =>
    if pwd_is_cwd files pwd t then returns_string PATH_MAX fp s t r s'
    else string_or_error PATH_MAX fp s (cwd_in cwd PATH_MAX) r s') s.
Proof.
  intros I Hm Hf Henv Hdot Hpwd. unfold get_current_dir_name, pwd_is_cwd.
  apply wp_bind. eapply wp_mono; [eapply (wp_exits no_exit); [apply Henv|done]|].
  intros r s1 (Hm1 & Hx1 & ->).
  assert (Hfin : forall b s2, mem s2 = mem s -> ext s2 = ext s -> (b = true -> pwd <> 0) ->
    wp al_exits (if b then strdup pwd else getcwd fp 0 0) (fun r s' =>
      if b then returns_string PATH_MAX fp s t r s'
      else string_or_error PATH_MAX fp s (cwd_in cwd PATH_MAX) r s') s2).
  { intros b s2 Hm2 Hx2 Hb.
    assert (F2 : framed_in PATH_MAX fp s s2) by (split; [by rewrite Hm2|by rewrite Hm2|done]).
    destruct b.
    - destruct (Hpwd (Hb eq_refl)) as [Hp Hl]. apply strdup_returns; [done|done|by rewrite Hm2|done].
    - eapply wp_mono; [apply getcwd_new_wp; [exact D|by rewrite Hm2, Hx2|by rewrite Hm2]|].
      intros r s' Hr. unfold string_or_error in *. destruct (cwd_in cwd PATH_MAX) as [d|e].
      + destruct Hr as [R1 R2 R3]. rewrite Hx2, Hm2 in *. by split.
      + destruct Hr as (-> & He & [R1 R2 R3]). rewrite Hm2, Hx2 in *. by split_and!. }
  apply wp_bind. destruct (Z.eqb_spec pwd 0) as [->|Hp0]; cbn [negb andb].
  { apply wp_ret. by apply (Hfin false). }
  destruct (Hpwd Hp0) as [Hpc Hpl].
  apply wp_bind. destruct t as [|c t].
  { apply (wp_load_byte _ _ 0); [rewrite Hm1; destruct Hpc as [Hpc _]; by apply holds_cons in Hpc as [Hpc _]|].
    cbn. apply wp_ret. by apply (Hfin false). }
  apply (wp_load_byte _ _ c); [rewrite Hm1; destruct Hpc as [Hpc _]; by apply holds_cons in Hpc as [Hpc _]|].
  destruct Hpc as [Hpc HpF]. pose proof HpF as HpF'. apply list.Forall_cons in HpF' as [Hc0 _].
  destruct (Z.eqb_spec c 0); [done|]. rewrite bool_decide_eq_false_2 by done. cbn [negb andb].
  apply wp_bind. eapply wp_mono; [eapply (wp_exits no_exit); [apply (Hf _ _ (c :: t)); by rewrite Hm1|done]|].
  intros [r [dev ino]] s2 (Hm2 & Hx2 & Hr). destruct (files (c :: t)) as [[dev0 ino0]|].
  2: { cbn in Hr. destruct (Z.eqb_spec r 0); [done|]. apply wp_ret. apply (Hfin false); congruence. }
  injection Hr as -> -> ->. cbn [Z.eqb negb]. apply wp_bind.
  eapply wp_mono; [eapply (wp_exits no_exit); [apply (Hf _ _ [ch_dot]); by rewrite Hm2, Hm1|done]|].
  intros [r [dev' ino']] s3 (Hm3 & Hx3 & Hr). apply wp_ret.
  destruct (files [ch_dot]) as [[dev1 ino1]|].
  - injection Hr as -> -> ->. cbn [Z.eqb andb]. apply Hfin; [congruence|congruence|done].
  - cbn in Hr. destruct (Z.eqb_spec r 0); [done|]. cbn [andb]. apply (Hfin false); congruence.
Qed.

End CurrentDir.

(** ** Temporary names *)

Section Tempnam.
Context {X : Type} `{!Allocator X} `{!AllocatorLaws X} `{!PathWorld X} `{!ClockWorld X}.
Context (fs : list Z -> answer) (FS : file_system fs) (QC : quiet_clock (X := X)).
Context (fp : Z) (s0 : st X).

Definition tempnam_frame : Z := PATH_MAX + 1.

(** Six characters of the alphabet. *)
Definition suffix (cs : list Z) : Prop := length cs = 6%nat /\ Forall (fun c => c ∈ alphabet) cs.

(** A new string: the stem and a suffix, naming nothing that exists; or null after
    [n] names that [readlink] does not report missing. *)
Definition tempnam_answer (n : nat) (stem : list Z) (r : Z) (s' : st X) : Prop :=
  (exists cs, suffix cs /\ fs (stem ++ cs) = Unreadable ENOENT /\
     returns_string tempnam_frame fp s0 (stem ++ cs) r s') \/
  (r = 0 /\ framed_in tempnam_frame fp s0 s' /\ exists css, length css = n /\
     Forall (fun cs => suffix cs /\ fs (stem ++ cs) <> Unreadable ENOENT) css).

Context (Hframe : mapped (mem s0) fp tempnam_frame) (Hfp : 0 < fp) (I0 : al_inv (ext s0) (mem s0)).

Lemma tempnam_loop_wp n s stem (six : list Z) :
  framed_in tempnam_frame fp s0 s -> holds (mem s) fp (stem ++ six ++ [0]) -> length six = 6%nat ->
  Forall (fun c => c <> 0) stem -> Z.of_nat (length stem) + 6 < PATH_MAX ->
  wp al_exits (tempnam_loop fp n (Z.of_nat (length stem) + 6)) (tempnam_answer n stem) s.
Proof.
  revert s six. induction n as [|n IH]; intros s six F Hst Hsix HF Hl; cbn [tempnam_loop].
  { apply wp_ret. right. split_and!; [done|done|]. by exists []. }
  assert (Hm : forall a k, fp <= a -> a + k <= fp + tempnam_frame -> mapped (mem s) a k).
  { intros a k Ha Hk. rewrite <- (fr_dom _ _ _ _ F). eapply mapped_sub; [exact Hframe|lia..]. }
  unfold path, dummy in *. replace (fp + (Z.of_nat (length stem) + 6) - 6) with (fp + Z.of_nat (length stem)) by lia.
  apply wp_bind. eapply wp_mono.
  { apply randname_wp; [exact QC|]. apply Hm; [lia|unfold tempnam_frame; lia]. }
  intros ? s1 (cs & Hcl & Hca & Hm1 & Hx1).
  assert (Hcz : Forall (fun c => c <> 0) cs).
  { apply list.Forall_forall. intros c Hc. rewrite list.Forall_forall in Hca. pose proof alphabet_nonzero as HA.
    rewrite list.Forall_forall in HA. auto. }
  assert (Hstem : holds (mem s1) fp (stem ++ cs ++ [0])).
  { rewrite Hm1. apply holds_app in Hst as [H1 H2]. apply holds_app in H2 as [_ H2].
    apply holds_app. split; [apply holds_write_other; [left; lia|done]|].
    apply holds_app. split; [apply holds_write|]. apply holds_write_other; [right; lia|].
    by rewrite Hcl, <- Hsix. }
  assert (F1 : framed_in tempnam_frame fp s0 s1).
  { eapply framed_in_write; [exact Hframe|exact F| | |exact Hm1|exact Hx1]; unfold tempnam_frame; lia. }
  assert (Htext : cstring (mem s1) fp (stem ++ cs)).
  { split; [by rewrite <- app_assoc|by apply Forall_app]. }
  apply wp_bind. eapply wp_mono.
  { eapply (wp_exits no_exit); [|done]. apply (fs_readlink _ FS s1 fp (stem ++ cs) (fp + PATH_MAX) 1 Htext); [lia| |].
    - rewrite <- (fr_dom _ _ _ _ F1). eapply mapped_sub; [exact Hframe|unfold PATH_MAX; lia|unfold tempnam_frame; lia].
    - left. rewrite length_app. lia. }
  intros r s2 [Hx2 Ha].
  assert (Hsuf : suffix cs) by done.
  assert (Hagain : framed_in tempnam_frame fp s0 s2 -> holds (mem s2) fp (stem ++ cs ++ [0]) ->
    fs (stem ++ cs) <> Unreadable ENOENT ->
    wp al_exits (tempnam_loop fp n (Z.of_nat (length stem) + 6)) (tempnam_answer (S n) stem) s2).
  { intros F2 H2 Hne. eapply wp_mono; [by apply (IH s2 cs)|]. intros r' s' [Hr|(-> & F' & css & Hcs & HFs)]; [by left|].
    right. split_and!; [done|done|]. exists (cs :: css). split; [cbn; by rewrite Hcs|by constructor]. }
  assert (F2 : mem s2 = mem s1 -> framed_in tempnam_frame fp s0 s2).
  { intros E. destruct F1 as [R1 R2 R3]. split; [by rewrite E|by rewrite E|by rewrite Hx2]. }
  destruct (fs (stem ++ cs)) as [t| |e] eqn:Hfs.
  - destruct Ha as [-> Hm2]. destruct (Z.ltb_spec (Z.min (Z.of_nat (length t)) 1) 0); [lia|].
    apply wp_bind, wp_ret. apply Hagain; [| |done].
    + eapply framed_in_write; [exact Hframe|exact F1| | |exact Hm2|exact Hx2];
        [unfold PATH_MAX; lia|rewrite length_take; unfold tempnam_frame; lia].
    + rewrite Hm2. apply holds_write_other; [left; rewrite !length_app; cbn [length]; lia|done].
  - destruct Ha as (-> & He & Hm2). cbn [Z.ltb Z.compare]. apply wp_bind, wp_bind, wp_get_errno, wp_ret.
    rewrite He. cbn. apply Hagain; [by apply F2|by rewrite Hm2|done].
  - destruct Ha as (-> & He & Hm2). cbn [Z.ltb Z.compare]. apply wp_bind, wp_bind, wp_get_errno, wp_ret.
    rewrite He. destruct (Z.eqb_spec e ENOENT) as [->|Hne].
    + eapply wp_mono; [apply (strdup_returns tempnam_frame fp s0 s2 fp (stem ++ cs)); [by apply F2|done|by rewrite Hm2|]|].
      { rewrite length_app. unfold PATH_MAX in *. zlia. }
      intros r' s' Hr. left. by exists cs.
    + apply Hagain; [by apply F2|by rewrite Hm2|congruence].
Qed.

Lemma tempnam_wp lits dir pfx d q :
  let dir' := if dir =? 0 then lit_tmpdir lits else dir in
  let pfx' := if pfx =? 0 then lit_temp lits else pfx in
  cstring (mem s0) dir' d -> cstring (mem s0) pfx' q ->
  dir' + Z.of_nat (length d) + 1 <= fp \/ fp + tempnam_frame <= dir' ->
  pfx' + Z.of_nat (length q) + 1 <= fp \/ fp + tempnam_frame <= pfx' ->
  Z.of_nat (length d) < 2 ^ 62 -> Z.of_nat (length q) < 2 ^ 62 ->
  let stem := d ++ [ch_slash] ++ q ++ [95] in
  wp al_exits (tempnam fp lits dir pfx) (fun r s' =>
    if PATH_MAX <=? Z.of_nat (length stem) + 6 then r = 0 /\ errno s' = ENAMETOOLONG /\ framed_in tempnam_frame fp s0 s'
    else tempnam_answer MAXTRIES stem r s') s0.
Proof.
  intros dir' pfx' Hd Hq Hds Hqs Hdl Hql stem. unfold tempnam. fold dir' pfx'.
  apply wp_bind, (wp_strlen _ _ d); [done|]. apply wp_bind, (wp_strlen _ _ q); [done|].
  assert (Hsl : Z.of_nat (length stem) = Z.of_nat (length d) + 1 + Z.of_nat (length q) + 1).
  { unfold stem. rewrite !length_app. cbn [length]. lia. }
  rewrite u64_small by zlia. rewrite <- Hsl.
  destruct (Z.leb_spec PATH_MAX (Z.of_nat (length stem) + 6)) as [Hlong|Hfit].
  { apply wp_bind, wp_set_errno, wp_ret. split_and!; [done|done|]. by split. }
  unfold path. assert (Hfr : tempnam_frame = PATH_MAX + 1) by done.
  assert (Hm0 : forall m a k, same_dom (mem s0) m -> fp <= a -> a + k <= fp + tempnam_frame -> mapped m a k).
  { intros m a k Hdm Ha Hk. rewrite <- Hdm. eapply mapped_sub; [exact Hframe|lia..]. }
  assert (Hmw : forall a bs m, same_dom (mem s0) m -> fp <= a -> a + Z.of_nat (length bs) <= fp + tempnam_frame ->
    same_dom (mem s0) (write m a bs)).
  { intros a bs m Hdm Ha Hk. etransitivity; [exact Hdm|]. apply same_dom_write. by apply Hm0. }
  apply wp_bind. eapply (wp_memcpy _ _ _ _ d); [destruct Hd as [Hd _]; by apply holds_app in Hd as [Hd _]|done| |lia|].
  { apply Hm0; [done|lia|lia]. }
  assert (D1 : same_dom (mem s0) (write (mem s0) fp d)) by (apply Hmw; [done|lia|lia]).
  apply wp_bind, wp_store_byte; [apply (Hm0 _ (fp + Z.of_nat (length d)) 1 D1); lia|]. cbn [mem errno ext].
  rewrite <- write_app. set (st1 := d ++ [ch_slash]).
  assert (Hs1 : Z.of_nat (length st1) = Z.of_nat (length d) + 1) by (unfold st1; rewrite length_app; cbn [length]; lia).
  assert (D2 : same_dom (mem s0) (write (mem s0) fp st1)) by (apply Hmw; [done|lia|lia]).
  apply wp_bind. eapply (wp_memcpy _ _ _ _ q); cbn [mem errno ext]; [|done| |lia|].
  { apply holds_write_other; [lia|]. destruct Hq as [Hq _]. by apply holds_app in Hq as [Hq _]. }
  { apply Hm0; [done|lia|lia]. }
  replace (fp + Z.of_nat (length d) + 1) with (fp + Z.of_nat (length st1)) by lia.
  rewrite <- write_app. set (st2 := st1 ++ q).
  assert (Hs2 : Z.of_nat (length st2) = Z.of_nat (length st1) + Z.of_nat (length q)) by (unfold st2; rewrite length_app; lia).
  assert (D3 : same_dom (mem s0) (write (mem s0) fp st2)) by (apply Hmw; [done|lia|lia]).
  replace (fp + Z.of_nat (length st1) + Z.of_nat (length q)) with (fp + Z.of_nat (length st2)) by lia.
  apply wp_bind, wp_store_byte; cbn [mem errno ext]; [apply (Hm0 _ (fp + Z.of_nat (length st2)) 1 D3); lia|].
  rewrite <- write_app. replace (st2 ++ [95]) with stem by (unfold st2, st1, stem; by rewrite <- !app_assoc).
  assert (D4 : same_dom (mem s0) (write (mem s0) fp stem)) by (apply Hmw; [done|lia|lia]).
  apply wp_bind, wp_store_byte; cbn [mem errno ext]; [apply (Hm0 _ (fp + (Z.of_nat (length stem) + 6)) 1 D4); lia|].
  destruct (mapped_load (write (mem s0) fp stem) (fp + Z.of_nat (length stem)) 6) as (six & _ & Hsix & Hlen);
    [lia|apply Hm0; [done|lia|lia]|].
  apply (tempnam_loop_wp MAXTRIES _ stem six); cbn [mem]; [| |lia| |lia].
  - split; cbn [mem ext]; [|by apply Hmw; [|lia|cbn [length]; lia]|done].
    intros x Hx. rewrite !lookup_write_out by (cbn [length]; lia). done.
  - apply holds_app. split; [apply holds_write_other; [left; lia|apply holds_write]|].
    apply holds_app. split; [apply holds_write_other; [left; lia|done]|].
    rewrite Hlen, <- Z.add_assoc. apply holds_write.
  - unfold stem. destruct Hd as [_ Hd]. destruct Hq as [_ Hq]. rewrite !Forall_app.
    split_and!; [done|by repeat constructor|done|by repeat constructor].
Qed.

End Tempnam.

(** ** Properties *)

Section Props.
Context {X : Type} `{!Allocator X} `{!AllocatorLaws X} `{!PathWorld X} `{!ClockWorld X}.

(** What a call of [realpath] needs: its frame, a path outside it, and either no
    buffer or one of [PATH_MAX] bytes. *)
Record realpath_args (fp filename resolved : Z) (t : list Z) (s : st X) : Prop := {
  ra_inv : al_inv (ext s) (mem s);
  ra_frame : mapped (mem s) fp frame_size;
  ra_fp : 0 < fp /\ fp + frame_size <= SIZE_MAX;
  ra_filename : filename <> 0 /\ cstring (mem s) filename t /\ Z.of_nat (length t) < SIZE_MAX;
  ra_apart : filename + Z.of_nat (length t) + 1 <= fp \/ fp + frame_size <= filename;
  ra_resolved : resolved = 0 \/
    (mapped (mem s) resolved PATH_MAX /\ (resolved + PATH_MAX <= fp \/ fp + frame_size <= resolved))
}.

(** C29: [realpath] terminates on every path and every file system, reads and writes
    nothing outside its two arrays and the result, and answers what the abstract
    resolution says: the error, or the text in the caller's buffer or a new block
    of its size.  A null path is refused with [EINVAL]. *)
Theorem realpath_resolves fs cwd fp filename resolved t (s : st X) :
  file_system fs -> in_directory cwd -> realpath_args fp filename resolved t s ->
  wp al_exits (realpath fp filename resolved) (fun r s' => exists ans,
    resolve fs walk_fuel (cwd_in cwd (PATH_MAX + 1)) t = Some ans /\
    realpath_post fp s resolved ans r s') s /\
  wp no_exit (realpath fp 0 resolved) (fun r s' => r = 0 /\ errno s' = EINVAL /\ mem s' = mem s /\ ext s' = ext s) s.
Proof.
  intros FS D [I Hm Hfp (Hn & Ht & Hl) Ha Hr]. split; [|done]. by apply realpath_wp.
Qed.

(** C30: a path [realpath] returns is canonical: a root or the current directory some
    levels up, then components that are neither empty nor [.] nor [..], each of
    which was seen to exist and not to be a symbolic link; it is shorter than
    [PATH_MAX] and it is a string at the address returned. *)
Theorem realpath_canonical fs cwd fp filename resolved t (s : st X) :
  file_system fs -> in_directory cwd -> realpath_args fp filename resolved t s ->
  wp al_exits (realpath fp filename resolved) (fun r s' => r = 0 \/
    exists p, holds (mem s') r (p ++ [0]) /\ canonical fs (cwd_in cwd (PATH_MAX + 1)) p /\
      Z.of_nat (length p) < PATH_MAX) s.
Proof.
  intros FS D [I Hm Hfp (Hn & Ht & Hl) Ha Hr]. eapply wp_mono; [by apply realpath_wp|].
  intros r s' ([p|e] & Hres & Hp); [|left; apply Hp]. unfold realpath_post in Hp.
  assert (Hc : canonical fs (cwd_in cwd (PATH_MAX + 1)) p /\ Z.of_nat (length p) < PATH_MAX)
    by (split; [by eapply resolve_canonical|by eapply resolve_length]).
  destruct (resolved =? 0).
  - destruct (rt_result _ _ _ _ _ _ Hp) as [(-> & _)|(_ & _ & _ & Hh)]; [by left|right]. by exists p.
  - destruct Hp as (-> & _ & _ & Hh & _). right. by exists p.
Qed.

(** C31: [realpath] of a path that is already canonical and absolute returns that very
    path; so the resolution of a path is a fixed point. *)
Theorem realpath_fixed fs cwd fp filename resolved root names (s : st X) :
  file_system fs -> in_directory cwd -> realpath_args fp filename resolved (text root names) s ->
  is_root root -> Forall proper names ->
  (forall k, (0 < k <= length names)%nat -> fs (text root (take k names)) = NotLink) ->
  Z.of_nat (length (text root names)) < PATH_MAX ->
  wp al_exits (realpath fp filename resolved) (realpath_post fp s resolved (inl (text root names))) s.
Proof.
  intros FS D [I Hm Hfp (Hn & Ht & Hl) Ha Hr] Hroot HP Hfs Hlen.
  eapply wp_mono; [by apply realpath_wp|]. intros r s' (ans & Hres & Hp).
  rewrite resolve_fixed in Hres by done. by injection Hres as <-.
Qed.

(** C32: [getcwd] without a buffer returns the current directory in a new string; with
    one it fills it; it fails with [ERANGE] when the buffer is too small, [ENOENT]
    when the directory is not reachable from the root, [EINVAL] when the buffer has no
    bytes.  [get_current_dir_name] returns [PWD] exactly when it names the same file
    as ["."], and otherwise the same as [getcwd]. *)
Theorem getcwd_names cwd files lits pwd t fp buf n (s : st X) :
  in_directory cwd -> files_are files -> environment_is lits pwd ->
  al_inv (ext s) (mem s) -> mapped (mem s) fp PATH_MAX ->
  cstring (mem s) (lit_dot lits) [ch_dot] ->
  (pwd <> 0 -> cstring (mem s) pwd t /\ Z.of_nat (length t) < SIZE_MAX) ->
  buf <> 0 -> buf <> fp -> 0 < n -> mapped (mem s) buf n ->
  wp al_exits (getcwd fp 0 n) (string_or_error PATH_MAX fp s (cwd_in cwd PATH_MAX)) s /\
  wp no_exit (getcwd fp buf n) (fun r s' => ext s' = ext s /\
    match cwd_in cwd n with
    | inl d => r = buf /\ mem s' = write (mem s) buf (d ++ [0])
    | inr e => r = 0 /\ errno s' = e /\ exists bs, Z.of_nat (length bs) <= n /\ mem s' = write (mem s) buf bs
    end) s /\
  wp no_exit (getcwd fp buf 0) (fun r s' => r = 0 /\ errno s' = EINVAL /\ mem s' = mem s /\ ext s' = ext s) s /\
  wp al_exits (get_current_dir_name lits fp) (fun r s' =>
    if pwd_is_cwd files pwd t then returns_string PATH_MAX fp s t r s'
    else string_or_error PATH_MAX fp s (cwd_in cwd PATH_MAX) r s') s.
Proof.
  intros D Hf Henv I Hm Hdot Hpwd Hb Hbf Hn Hbm. split_and!.
  - by apply getcwd_new_wp.
  - by apply getcwd_wp.
  - unfold getcwd. destruct (Z.eqb_spec buf 0); [done|]. done.
  - by apply current_dir_wp.
Qed.

(** C33: [tempnam] returns a new string [dir/pfx_] followed by six letters or digits
    that names nothing that exists, or null after [MAXTRIES] names of that form that
    exist (or cannot be read); a name that does not fit [PATH_MAX] is refused; a null
    directory or prefix stands for the default one. *)
Theorem tempnam_unused fs lits fp dir pfx d q (s : st X) :
  file_system fs -> quiet_clock (X := X) -> mapped (mem s) fp tempnam_frame -> 0 < fp ->
  al_inv (ext s) (mem s) ->
  let dir' := if dir =? 0 then lit_tmpdir lits else dir in
  let pfx' := if pfx =? 0 then lit_temp lits else pfx in
  cstring (mem s) dir' d -> cstring (mem s) pfx' q ->
  dir' + Z.of_nat (length d) + 1 <= fp \/ fp + tempnam_frame <= dir' ->
  pfx' + Z.of_nat (length q) + 1 <= fp \/ fp + tempnam_frame <= pfx' ->
  Z.of_nat (length d) < 2 ^ 62 -> Z.of_nat (length q) < 2 ^ 62 ->
  let stem := d ++ [ch_slash] ++ q ++ [95] in
  wp al_exits (tempnam fp lits dir pfx) (fun r s' =>
    if PATH_MAX <=? Z.of_nat (length stem) + 6
    then r = 0 /\ errno s' = ENAMETOOLONG /\ framed_in tempnam_frame fp s s'
    else tempnam_answer fs fp s MAXTRIES stem r s') s.
Proof. intros. by apply tempnam_wp. Qed.

End Props.

(** ** A concrete file system

    [/a] is a symbolic link to [b/c]; the current directory is [/home]. *)

Definition str_a : list Z := [47; 97].
Definition str_home : list Z := [47; 104; 111; 109; 101].
Definition simple_fs (p : list Z) : answer :=
  if bool_decide (p = str_a) then LinkTo [98; 47; 99]
  else if bool_decide (p ∈ [[47; 98]; [47; 98; 47; 99]; [47; 98; 47; 99; 47; 46; 46]; [47; 116; 109; 112]]) then NotLink
  else Unreadable ENOENT.
Definition simple_files (p : list Z) : option (Z * Z) :=
  if bool_decide (p = [ch_dot]) || bool_decide (p = str_home) then Some (1, 7) else None.

Definition path_lits : literals := Literals 4096 4104 4112 4120.
Definition path_pwd : Z := 4136.
Definition path_file : Z := 4160.
Definition path_frame : Z := 65536.

Definition read_string (a : Z) : C arena (list Z) := let* len := strlen a in load a len.

Lemma wp_read_string a p (Q : list Z -> st arena -> Prop) s :
  cstring (mem s) a p -> Q p s -> wp no_exit (read_string a) Q s.
Proof.
  intros Hp HQ. apply wp_bind, (wp_strlen _ _ p); [done|]. apply (wp_load _ _ _ p); [|done|done].
  destruct Hp as [Hp _]. by apply holds_app in Hp as [Hp _].
Qed.

#[local] Instance simple_path_world : PathWorld arena := {
  sys_getcwd buf n :=
    if Z.of_nat (length str_home) + 1 <=? n
    then do* store buf (str_home ++ [0]) in ret (Z.of_nat (length str_home) + 1)
    else do* set_errno ERANGE in ret (-1);
  readlink a buf n :=
    let* p := read_string a in
    match simple_fs p with
    | LinkTo t => do* store buf (take (Z.to_nat n) t) in ret (Z.min (Z.of_nat (length t)) n)
    | NotLink => do* set_errno EINVAL in ret (-1)
    | Unreadable e => do* set_errno e in ret (-1)
    end;
  stat a :=
    let* p := read_string a in
    match simple_files p with
    | Some id => ret (0, id)
    | None => do* set_errno ENOENT in ret (-1, (0, 0))
    end;
  getenv name := ret path_pwd
}.

#[local] Instance path_clock : ClockWorld arena := {
  clock_gettime := ret (1700000000, 123456789);
  gettid := ret 4242
}.

Lemma simple_file_system : file_system (X := arena) simple_fs.
Proof.
  split.
  - intros s a p buf n Hp Hn Hm _. apply wp_bind. eapply wp_read_string; [exact Hp|].
    destruct (simple_fs p) as [t| |e]; [|by split_and!..].
    apply wp_bind, wp_store; [eapply mapped_sub; [exact Hm|lia|rewrite length_take; lia]|].
    by apply wp_ret.
  - intros p t. unfold simple_fs. case_bool_decide; [intros [= <-]; by repeat constructor|].
    by case_bool_decide.
  - intros p e. unfold simple_fs. case_bool_decide; [done|]. case_bool_decide; [done|]. by intros [= <-].
Qed.

Lemma simple_directory : in_directory (X := arena) (inl str_home).
Proof.
  split; [intros d [= <-]; by repeat constructor|]. intros s buf n Hn Hm. cbn [sys_getcwd simple_path_world].
  destruct (Z.leb_spec (Z.of_nat (length str_home) + 1) n); [|by split_and!].
  apply wp_bind, wp_store; [eapply mapped_sub; [exact Hm|lia|cbn in *; lia]|]. by apply wp_ret.
Qed.

Lemma simple_files_are : files_are (X := arena) simple_files.
Proof.
  intros s a p Hp. apply wp_bind. eapply wp_read_string; [exact Hp|].
  destruct (simple_files p) as [id|]; by split_and!.
Qed.

Lemma simple_quiet : quiet_clock (X := arena).
Proof. split; by intros s. Qed.

(** The literals, [PWD] and a path, below a frame of zeros. *)
Definition path_strings (t : list Z) : gmap Z Z :=
  write (write (write (write (write ∅ 4096 [ch_dot; 0]) 4112 [47; 116; 109; 112; 0]) 4120 [116; 101; 109; 112; 0])
    path_pwd (str_home ++ [0])) path_file (t ++ [0]).
Definition path_memory (t : list Z) : gmap Z Z :=
  write (path_strings t) path_frame (replicate (Z.to_nat frame_size) 0).
Definition path_start (t : list Z) : st arena := St (path_memory t) 0 (empty_arena (2 ^ 20) (2 ^ 21)).

(** [/a/../c], through the link [/a], is [/b/c]. *)
Definition linked_path : list Z := str_a ++ [47; 46; 46; 47; 99].

Example realpath_runs :
  match realpath path_frame path_file 0 (path_start linked_path) with
  | Ret (r, s') => r = 2 ^ 20 /\ load_bytes (mem s') (2 ^ 20) 5 = Some [47; 98; 47; 99; 0]
  | _ => False
  end.
Proof. vm_compute. by split. Qed.

(** ** Witnesses *)

#[local] Opaque write replicate.

Lemma path_string_holds t a bs :
  holds (path_strings t) a bs -> a + Z.of_nat (length bs) <= path_frame -> holds (path_memory t) a bs.
Proof. intros H Ha. apply holds_write_other; [left; exact Ha|exact H]. Qed.

Lemma path_file_string t :
  Forall (fun c => c <> 0) t -> Z.of_nat (length t) < 4096 -> cstring (path_memory t) path_file t.
Proof.
  intros HF Hl. split; [|done]. apply path_string_holds; [apply holds_write|].
  rewrite length_app. cbn [length]. unfold path_file, path_frame. lia.
Qed.

Lemma path_frame_mapped t n : n <= frame_size -> mapped (path_memory t) path_frame n.
Proof.
  intros Hn. eapply mapped_sub; [apply holds_mapped, holds_write|lia|].
  rewrite length_replicate. unfold frame_size, PATH_MAX in *. lia.
Qed.

Lemma path_start_inv t : Z.of_nat (length t) < 4096 -> al_inv (ext (path_start t)) (mem (path_start t)).
Proof.
  intros Hl. apply empty_arena_inv; [done|done|done|]. intros x Hx. cbn [mem path_start].
  unfold path_memory, path_strings, path_pwd, path_file, path_frame, str_home, frame_size, PATH_MAX in *.
  rewrite !lookup_write_out by (rewrite ?length_replicate, ?length_app; cbn [length app]; lia).
  apply lookup_empty.
Qed.

Lemma path_args t :
  t <> [] -> Forall (fun c => c <> 0) t -> Z.of_nat (length t) < 4096 ->
  realpath_args path_frame path_file 0 t (path_start t).
Proof.
  intros Hn HF Hl. split.
  - by apply path_start_inv.
  - by apply path_frame_mapped.
  - done.
  - split_and!; [done|by apply path_file_string|zlia].
  - left. unfold path_file, path_frame. lia.
  - by left.
Qed.

Lemma linked_path_args : realpath_args path_frame path_file 0 linked_path (path_start linked_path).
Proof. by apply path_args; [|repeat constructor|]. Qed.

Lemma realpath_resolves_witness :
  wp no_exit (realpath path_frame path_file 0) (fun r s' => exists ans,
    resolve simple_fs walk_fuel (cwd_in (inl str_home) (PATH_MAX + 1)) linked_path = Some ans /\
    realpath_post path_frame (path_start linked_path) 0 ans r s') (path_start linked_path) /\
  wp no_exit (realpath path_frame 0 0) (fun r s' => r = 0 /\ errno s' = EINVAL /\
    mem s' = mem (path_start linked_path) /\ ext s' = ext (path_start linked_path)) (path_start linked_path).
Proof.
  exact (realpath_resolves simple_fs (inl str_home) path_frame path_file 0 linked_path (path_start linked_path)
    simple_file_system simple_directory linked_path_args).
Defined.

Lemma realpath_canonical_witness :
  wp no_exit (realpath path_frame path_file 0) (fun r s' => r = 0 \/
    exists p, holds (mem s') r (p ++ [0]) /\ canonical simple_fs (cwd_in (inl str_home) (PATH_MAX + 1)) p /\
      Z.of_nat (length p) < PATH_MAX) (path_start linked_path).
Proof.
  exact (realpath_canonical simple_fs (inl str_home) path_frame path_file 0 linked_path (path_start linked_path)
    simple_file_system simple_directory linked_path_args).
Defined.

Definition fixed_names : list (list Z) := [[98]; [99]].

Lemma fixed_path_args :
  realpath_args path_frame path_file 0 (text [ch_slash] fixed_names) (path_start (text [ch_slash] fixed_names)).
Proof. by apply path_args; [|repeat constructor|]. Qed.

Lemma fixed_names_proper : Forall proper fixed_names.
Proof. repeat constructor; done. Qed.

Lemma fixed_names_links k :
  (0 < k <= length fixed_names)%nat -> simple_fs (text [ch_slash] (take k fixed_names)) = NotLink.
Proof. intros Hk. destruct k as [|[|[|k]]]; [lia|done|done|cbn in Hk; lia]. Qed.

Lemma realpath_fixed_witness :
  wp no_exit (realpath path_frame path_file 0)
    (realpath_post path_frame (path_start (text [ch_slash] fixed_names)) 0 (inl (text [ch_slash] fixed_names)))
    (path_start (text [ch_slash] fixed_names)).
Proof.
  exact (realpath_fixed simple_fs (inl str_home) path_frame path_file 0 [ch_slash] fixed_names _
    simple_file_system simple_directory fixed_path_args (or_introl eq_refl) fixed_names_proper fixed_names_links eq_refl).
Defined.

Lemma path_dot : cstring (path_memory []) (lit_dot path_lits) [ch_dot].
Proof.
  split; [|by repeat constructor]. apply path_string_holds; [|done].
  repeat (apply holds_write_other; [by left|]). apply holds_write.
Qed.

Lemma path_pwd_string : path_pwd <> 0 -> cstring (path_memory []) path_pwd str_home /\ Z.of_nat (length str_home) < SIZE_MAX.
Proof.
  intros _. split; [|done]. split; [|by repeat constructor]. apply path_string_holds; [|done].
  apply holds_write_other; [by left|]. apply holds_write.
Qed.

Lemma simple_environment : environment_is (X := arena) path_lits path_pwd.
Proof. intros s. cbn [getenv simple_path_world]. by apply wp_ret. Qed.

Lemma path_cwd_frame : mapped (mem (path_start [])) path_frame PATH_MAX.
Proof. apply path_frame_mapped. unfold frame_size, PATH_MAX. lia. Qed.

Lemma path_buffer : path_frame + PATH_MAX <> 0.
Proof. unfold path_frame, PATH_MAX. lia. Qed.

Lemma path_buffer_apart : path_frame + PATH_MAX <> path_frame.
Proof. unfold PATH_MAX. lia. Qed.

Lemma path_buffer_mapped : mapped (mem (path_start [])) (path_frame + PATH_MAX) 64.
Proof.
  eapply mapped_sub; [exact (path_frame_mapped [] frame_size (Z.le_refl _))|unfold PATH_MAX; lia|].
  unfold frame_size, PATH_MAX. lia.
Qed.

Lemma getcwd_names_witness :
  wp no_exit (getcwd path_frame 0 64) (string_or_error PATH_MAX path_frame (path_start []) (cwd_in (inl str_home) PATH_MAX)) (path_start []) /\
  wp no_exit (getcwd path_frame (path_frame + PATH_MAX) 64) (fun r s' => ext s' = ext (path_start []) /\
    match cwd_in (inl str_home) 64 with
    | inl d => r = path_frame + PATH_MAX /\ mem s' = write (mem (path_start [])) (path_frame + PATH_MAX) (d ++ [0])
    | inr e => r = 0 /\ errno s' = e /\ exists bs, Z.of_nat (length bs) <= 64 /\
        mem s' = write (mem (path_start [])) (path_frame + PATH_MAX) bs
    end) (path_start []) /\
  wp no_exit (getcwd path_frame (path_frame + PATH_MAX) 0) (fun r s' => r = 0 /\ errno s' = EINVAL /\
    mem s' = mem (path_start []) /\ ext s' = ext (path_start [])) (path_start []) /\
  wp no_exit (get_current_dir_name path_lits path_frame) (fun r s' =>
    if pwd_is_cwd simple_files path_pwd str_home then returns_string PATH_MAX path_frame (path_start []) str_home r s'
    else string_or_error PATH_MAX path_frame (path_start []) (cwd_in (inl str_home) PATH_MAX) r s') (path_start []).
Proof.
  exact (getcwd_names (inl str_home) simple_files path_lits path_pwd str_home path_frame (path_frame + PATH_MAX) 64
    (path_start []) simple_directory simple_files_are simple_environment (path_start_inv [] eq_refl)
    path_cwd_frame path_dot path_pwd_string path_buffer path_buffer_apart eq_refl path_buffer_mapped).
Defined.

Lemma path_tmpdir : cstring (path_memory []) (lit_tmpdir path_lits) [47; 116; 109; 112].
Proof.
  split; [|by repeat constructor]. apply path_string_holds; [|done].
  do 3 (apply holds_write_other; [by left|]). apply holds_write.
Qed.

Lemma path_temp : cstring (path_memory []) (lit_temp path_lits) [116; 101; 109; 112].
Proof.
  split; [|by repeat constructor]. apply path_string_holds; [|done].
  do 2 (apply holds_write_other; [by left|]). apply holds_write.
Qed.

Lemma path_tempnam_frame : mapped (mem (path_start [])) path_frame tempnam_frame.
Proof. apply path_frame_mapped. unfold frame_size, tempnam_frame, PATH_MAX. lia. Qed.

Lemma path_tmpdir_apart :
  lit_tmpdir path_lits + Z.of_nat (length [47; 116; 109; 112]) + 1 <= path_frame \/
  path_frame + tempnam_frame <= lit_tmpdir path_lits.
Proof. left. cbn. unfold path_frame. lia. Qed.

Lemma path_temp_apart :
  lit_temp path_lits + Z.of_nat (length [116; 101; 109; 112]) + 1 <= path_frame \/
  path_frame + tempnam_frame <= lit_temp path_lits.
Proof. left. cbn. unfold path_frame. lia. Qed.

Lemma tempnam_unused_witness :
  let stem := [47; 116; 109; 112] ++ [ch_slash] ++ [116; 101; 109; 112] ++ [95] in
  wp no_exit (tempnam path_frame path_lits 0 0) (fun r s' =>
    if PATH_MAX <=? Z.of_nat (length stem) + 6
    then r = 0 /\ errno s' = ENAMETOOLONG /\ framed_in tempnam_frame path_frame (path_start []) s'
    else tempnam_answer simple_fs path_frame (path_start []) MAXTRIES stem r s') (path_start []).
Proof.
  exact (tempnam_unused simple_fs path_lits path_frame 0 0 [47; 116; 109; 112] [116; 101; 109; 112] (path_start [])
    simple_file_system simple_quiet path_tempnam_frame eq_refl (path_start_inv [] eq_refl) path_tmpdir path_temp
    path_tmpdir_apart path_temp_apart eq_refl eq_refl).
Defined.
